(** * TrafficSim: the simulation core, embedded and checked against its specification

    Shallow embedding of [python_backend/core/{vehicle,lane,driver,model}.py].

    - Python floats are idealised as exact rationals ([Q]); [math.sqrt] is a
      parameter of the development ([sqrt]), raising on negative arguments as the
      library function does.  Division and [**] raise [ZeroDivisionError] as in
      Python; exceptions are modelled with [option] ([None] = raised).  Rounding
      and the range of a double are not modelled: sums are exact here, and [**]
      does not raise [OverflowError] for results beyond the largest double.
    - Python objects live in a store: one list per class, an object's reference
      ([ref]) is its index.  Objects are never freed; attributes holding objects
      hold references, so aliasing (a vehicle held by a lane's list, by the model's
      registry, by its driver and by neighbour caches) is explicit.
    - Python dicts are insertion-ordered association lists ([dict_*]).
    - Observer lists, the per-vehicle debug log [accelerations], lane geometry,
      road-side units and traffic generators are external hooks with empty
      default implementations; they are left out of the state. *)

From Stdlib Require Import QArith Lqa Lia ZArith String Bool Sorted Permutation.
From stdpp Require Import base option list strings.

Open Scope Q_scope.

(** ** Numbers *)

Definition Qltb (a b : Q) : bool := negb (Qle_bool b a).

(** [max(a, b)] keeps [a] unless [b > a]; [min(a, b)] keeps [a] unless [b < a]. *)
Definition py_max (a b : Q) : Q := if Qltb a b then b else a.
Definition py_min (a b : Q) : Q := if Qltb b a then b else a.

(** [a / b] raises [ZeroDivisionError] when [b] is zero. *)
Definition py_div (a b : Q) : option Q :=
  if Qeq_bool b 0 then None else Some (a / b).

(** [a ** n] for an integer exponent.  (Python also raises [OverflowError] when
    the result is beyond the largest double; the rationals have no such bound.) *)
Definition py_pow (a : Q) (n : Z) : option Q :=
  if (n <? 0)%Z && Qeq_bool a 0 then None else Some (Qpower a n).

(** ** Enumerations *)

Inductive LatDirection := LEFT | RIGHT.
Inductive Enclosure := FRONT | BACK | LEFT_FRONT | LEFT_BACK | RIGHT_FRONT | RIGHT_BACK.
Inductive DriverType := AGGRESSIVE | NORMAL | CAUTIOUS | IDM.
Inductive LaneType := LT_NORMAL | LT_ACCELERATION | LT_DECELERATION | LT_EXIT | LT_ENTRANCE.
Inductive SimulationState := STOPPED | RUNNING | PAUSED | STEP.

#[global] Instance LatDirection_eq_dec : EqDecision LatDirection.
Proof. solve_decision. Defined.
#[global] Instance Enclosure_eq_dec : EqDecision Enclosure.
Proof. solve_decision. Defined.
#[global] Instance DriverType_eq_dec : EqDecision DriverType.
Proof. solve_decision. Defined.
#[global] Instance SimulationState_eq_dec : EqDecision SimulationState.
Proof. solve_decision. Defined.

(** ** Object references and dictionary keys *)

Abbreviation ref := nat (only parsing).

(** Values that the code uses as dictionary keys of a vehicle's [surrounding]
    cache: members of [Enclosure] (the keys the cache is built with), strings,
    [None] and vehicle objects (hashed by identity).  A string never equals an
    [Enum] member: [Enclosure] is a plain [Enum], not a [str] subclass. *)
Inductive PyKey :=
| KEnc (e : Enclosure)
| KStr (s : string)
| KNone
| KObj (r : ref).

#[global] Instance PyKey_eq_dec : EqDecision PyKey.
Proof. solve_decision. Defined.

(** The key denoted by a cache value ([None] or a vehicle object). *)
Definition key_of_value (o : option ref) : PyKey :=
  match o with None => KNone | Some r => KObj r end.

(** ** Insertion-ordered dictionaries *)

Section Dict.
Context {K V : Type} `{EqDecision K}.

Fixpoint dict_get (k : K) (d : list (K * V)) : option V :=
  match d with
  | [] => None
  | (k', v) :: d' => if decide (k = k') then Some v else dict_get k d'
  end.

Definition dict_mem (k : K) (d : list (K * V)) : bool :=
  match dict_get k d with Some _ => true | None => false end.

(** [d[k] = v]: an existing key keeps its place, a new key goes last. *)
Fixpoint dict_set (k : K) (v : V) (d : list (K * V)) : list (K * V) :=
  match d with
  | [] => [(k, v)]
  | (k', v') :: d' =>
      if decide (k = k') then (k, v) :: d' else (k', v') :: dict_set k v d'
  end.

(** [del d[k]] (the callers test membership first). *)
Fixpoint dict_del (k : K) (d : list (K * V)) : list (K * V) :=
  match d with
  | [] => []
  | (k', v') :: d' =>
      if decide (k = k') then d' else (k', v') :: dict_del k d'
  end.

Definition dict_keys (d : list (K * V)) : list K := map fst d.
Definition dict_values (d : list (K * V)) : list V := map snd d.
End Dict.

(** ** Objects *)

Record VehicleState := mkVehicleState {
  x : Q;                      (* position along lane [m] *)
  y : Q;                      (* lateral position [m] *)
  velocity : Q;
  acceleration : Q;
  lane_change_progress : Q;
  crashed : bool
}.

Record VehicleObj := mkVehicle {
  veh_id : Z;
  veh_lane : ref;
  veh_state : VehicleState;
  veh_length : Q;
  veh_width : Q;
  v_max : Q;
  class_id : Z;
  lc_direction : option LatDirection;
  dy : Q;
  surrounding : list (PyKey * option ref);
  veh_driver : option ref
}.

Record LaneObj := mkLane {
  lane_id : Z;
  lane_type : LaneType;
  lane_length : Q;
  upstream_lane : option ref;
  downstream_lane : option ref;
  left_lane : option ref;
  right_lane : option ref;
  lane_vehicles : list ref;
  speed_limit : Q;
  lane_width : Q
}.

Record RouteObj := mkRoute {
  route_id : Z;
  lane_sequence : list Z;
  current_index : nat
}.

Record IDMDriverObj := mkIDMDriver {
  idm_id : Z;
  idm_type : DriverType;
  idm_vehicle : option ref;
  idm_route : option ref;
  desired_speed : Q;
  time_headway : Q;
  min_spacing : Q;
  max_acceleration : Q;
  comfortable_deceleration : Q;
  acceleration_exponent : Z;
  politeness : Q;
  lane_change_threshold : Q;
  min_lane_change_gap : Q
}.

Record SimpleDriverObj := mkSimpleDriver {
  sd_id : Z;
  sd_type : DriverType;
  sd_vehicle : option ref;
  sd_route : option ref;
  sd_desired_speed : Q;
  reaction_time : Q;
  sd_max_acceleration : Q;
  max_deceleration : Q
}.

(** The two implementations of [DriverInterface]. *)
Inductive DriverObj :=
| IDMDriver (d : IDMDriverObj)
| SimpleDriver (d : SimpleDriverObj).

Record SimulationSettings := mkSettings {
  time_step : Q;
  max_simulation_time : Q;
  debug_mode : bool;
  real_time_factor : Q
}.

Record SimulationStats := mkStats {
  stats_current_time : Q;
  total_vehicles : Z;
  active_vehicles : Z;
  completed_vehicles : Z;
  crashed_vehicles : Z;
  average_speed : Q;
  total_flow : Q;
  average_density : Q
}.

Record ModelObj := mkModel {
  sim_state : SimulationState;
  settings : SimulationSettings;
  stats : SimulationStats;
  lanes : list (Z * ref);
  vehicles : list (Z * ref);
  drivers : list (Z * ref);
  routes : list (Z * ref);
  start_time : Q;
  current_time : Q;
  last_update_time : Q;
  simulation_thread : option nat;   (* the Thread object, named by its number *)
  threads_spawned : nat;            (* not an attribute: numbers the threads created *)
  stop_simulation_flag : bool;
  next_vehicle_id : Z;
  next_driver_id : Z
}.

(** The store and the model singleton. *)
Record World := mkWorld {
  vehicle_heap : list VehicleObj;
  lane_heap : list LaneObj;
  driver_heap : list DriverObj;
  route_heap : list RouteObj;
  model : ModelObj
}.

(** ** Attribute assignment *)

Definition set_x (v : Q) (s : VehicleState) : VehicleState :=
  mkVehicleState v (y s) (velocity s) (acceleration s) (lane_change_progress s) (crashed s).
Definition set_y (v : Q) (s : VehicleState) : VehicleState :=
  mkVehicleState (x s) v (velocity s) (acceleration s) (lane_change_progress s) (crashed s).
Definition set_velocity_field (v : Q) (s : VehicleState) : VehicleState :=
  mkVehicleState (x s) (y s) v (acceleration s) (lane_change_progress s) (crashed s).
Definition set_acceleration_field (v : Q) (s : VehicleState) : VehicleState :=
  mkVehicleState (x s) (y s) (velocity s) v (lane_change_progress s) (crashed s).
Definition set_lane_change_progress (v : Q) (s : VehicleState) : VehicleState :=
  mkVehicleState (x s) (y s) (velocity s) (acceleration s) v (crashed s).
Definition set_crashed (b : bool) (s : VehicleState) : VehicleState :=
  mkVehicleState (x s) (y s) (velocity s) (acceleration s) (lane_change_progress s) b.

Definition on_state (f : VehicleState -> VehicleState) (v : VehicleObj) : VehicleObj :=
  mkVehicle (veh_id v) (veh_lane v) (f (veh_state v)) (veh_length v) (veh_width v)
    (v_max v) (class_id v) (lc_direction v) (dy v) (surrounding v) (veh_driver v).
Definition set_veh_lane (l : ref) (v : VehicleObj) : VehicleObj :=
  mkVehicle (veh_id v) l (veh_state v) (veh_length v) (veh_width v)
    (v_max v) (class_id v) (lc_direction v) (dy v) (surrounding v) (veh_driver v).
Definition set_lc_direction (d : option LatDirection) (v : VehicleObj) : VehicleObj :=
  mkVehicle (veh_id v) (veh_lane v) (veh_state v) (veh_length v) (veh_width v)
    (v_max v) (class_id v) d (dy v) (surrounding v) (veh_driver v).
Definition set_dy (q : Q) (v : VehicleObj) : VehicleObj :=
  mkVehicle (veh_id v) (veh_lane v) (veh_state v) (veh_length v) (veh_width v)
    (v_max v) (class_id v) (lc_direction v) q (surrounding v) (veh_driver v).
Definition set_surrounding (s : list (PyKey * option ref)) (v : VehicleObj) : VehicleObj :=
  mkVehicle (veh_id v) (veh_lane v) (veh_state v) (veh_length v) (veh_width v)
    (v_max v) (class_id v) (lc_direction v) (dy v) s (veh_driver v).
Definition set_veh_driver (d : option ref) (v : VehicleObj) : VehicleObj :=
  mkVehicle (veh_id v) (veh_lane v) (veh_state v) (veh_length v) (veh_width v)
    (v_max v) (class_id v) (lc_direction v) (dy v) (surrounding v) d.

Definition set_lane_vehicles (l : list ref) (L : LaneObj) : LaneObj :=
  mkLane (lane_id L) (lane_type L) (lane_length L) (upstream_lane L) (downstream_lane L)
    (left_lane L) (right_lane L) l (speed_limit L) (lane_width L).
Definition set_upstream (o : option ref) (L : LaneObj) : LaneObj :=
  mkLane (lane_id L) (lane_type L) (lane_length L) o (downstream_lane L)
    (left_lane L) (right_lane L) (lane_vehicles L) (speed_limit L) (lane_width L).
Definition set_downstream (o : option ref) (L : LaneObj) : LaneObj :=
  mkLane (lane_id L) (lane_type L) (lane_length L) (upstream_lane L) o
    (left_lane L) (right_lane L) (lane_vehicles L) (speed_limit L) (lane_width L).
Definition set_left (o : option ref) (L : LaneObj) : LaneObj :=
  mkLane (lane_id L) (lane_type L) (lane_length L) (upstream_lane L) (downstream_lane L)
    o (right_lane L) (lane_vehicles L) (speed_limit L) (lane_width L).
Definition set_right (o : option ref) (L : LaneObj) : LaneObj :=
  mkLane (lane_id L) (lane_type L) (lane_length L) (upstream_lane L) (downstream_lane L)
    (left_lane L) o (lane_vehicles L) (speed_limit L) (lane_width L).

Definition upd_vehicle (r : ref) (f : VehicleObj -> VehicleObj) (w : World) : World :=
  mkWorld (alter f r (vehicle_heap w)) (lane_heap w) (driver_heap w) (route_heap w) (model w).
Definition upd_lane (r : ref) (f : LaneObj -> LaneObj) (w : World) : World :=
  mkWorld (vehicle_heap w) (alter f r (lane_heap w)) (driver_heap w) (route_heap w) (model w).
Definition upd_driver (r : ref) (f : DriverObj -> DriverObj) (w : World) : World :=
  mkWorld (vehicle_heap w) (lane_heap w) (alter f r (driver_heap w)) (route_heap w) (model w).
Definition upd_route (r : ref) (f : RouteObj -> RouteObj) (w : World) : World :=
  mkWorld (vehicle_heap w) (lane_heap w) (driver_heap w) (alter f r (route_heap w)) (model w).
Definition upd_model (f : ModelObj -> ModelObj) (w : World) : World :=
  mkWorld (vehicle_heap w) (lane_heap w) (driver_heap w) (route_heap w) (f (model w)).

(** ** Lists as Python uses them *)

(** [list.sort(key=...)] is a stable sort; the stable sort of a list is unique,
    here computed by insertion from the right. *)
Fixpoint insert_by {A} (key : A -> Q) (a : A) (l : list A) : list A :=
  match l with
  | [] => [a]
  | b :: l' => if Qle_bool (key a) (key b) then a :: l else b :: insert_by key a l'
  end.

Definition sort_by {A} (key : A -> Q) (l : list A) : list A :=
  foldr (insert_by key) [] l.

(** [list.remove(r)]: the first occurrence goes. *)
Fixpoint list_remove (r : ref) (l : list ref) : list ref :=
  match l with
  | [] => []
  | a :: l' => if decide (r = a) then l' else a :: list_remove r l'
  end.

(** [min(l, key=...)] and [max(l, key=...)] on a non-empty list: the first
    extremal element wins. *)
Fixpoint min_from {A} (key : A -> Q) (best : A) (l : list A) : A :=
  match l with
  | [] => best
  | a :: l' => min_from key (if Qltb (key a) (key best) then a else best) l'
  end.

Fixpoint max_from {A} (key : A -> Q) (best : A) (l : list A) : A :=
  match l with
  | [] => best
  | a :: l' => max_from key (if Qltb (key best) (key a) then a else best) l'
  end.

(** ** class Route *)

Definition Route_init (route_id : Z) (lane_sequence : list Z) : RouteObj :=
  mkRoute route_id lane_sequence 0.

Definition Route_get_current_target_lane (self : RouteObj) : option Z :=
  if (current_index self <? length (lane_sequence self))%nat
  then lane_sequence self !! current_index self
  else None.

(** [if self.current_index < len(self.lane_sequence) - 1] on Python integers. *)
Definition Route_advance_route (self : RouteObj) : RouteObj :=
  if (Z.of_nat (current_index self) <? Z.of_nat (length (lane_sequence self)) - 1)%Z
  then mkRoute (route_id self) (lane_sequence self) (current_index self + 1)
  else self.

Definition Route_is_route_complete (self : RouteObj) : bool :=
  (length (lane_sequence self) <=? current_index self)%nat.

(** ** class Vehicle: construction, accessors, simple mutators *)

Definition all_enclosures : list Enclosure :=
  [FRONT; BACK; LEFT_FRONT; LEFT_BACK; RIGHT_FRONT; RIGHT_BACK].

Definition Vehicle_init (vehicle_id : Z) (lane : ref) (initial_x : Q) : VehicleObj :=
  mkVehicle vehicle_id lane (mkVehicleState initial_x 0 0 0 0 false)
    4.5 2.0 50.0 1 None 0
    (map (fun area => (KEnc area, None)) all_enclosures)
    None.

(** Reading an attribute through a reference.  A reference always designates a
    live object in Python; the default covers indices outside the store. *)
Definition veh_attr {A} (w : World) (r : ref) (f : VehicleObj -> A) (dflt : A) : A :=
  match vehicle_heap w !! r with Some v => f v | None => dflt end.

Definition lane_attr {A} (w : World) (r : ref) (f : LaneObj -> A) (dflt : A) : A :=
  match lane_heap w !! r with Some L => f L | None => dflt end.

Definition Vehicle_get_x (w : World) (self : ref) : Q :=
  veh_attr w self (fun v => x (veh_state v)) 0.
Definition Vehicle_get_y (w : World) (self : ref) : Q :=
  veh_attr w self (fun v => y (veh_state v)) 0.
Definition Vehicle_get_velocity (w : World) (self : ref) : Q :=
  veh_attr w self (fun v => velocity (veh_state v)) 0.
Definition Vehicle_get_acceleration (w : World) (self : ref) : Q :=
  veh_attr w self (fun v => acceleration (veh_state v)) 0.
Definition Vehicle_get_lane (w : World) (self : ref) : ref :=
  veh_attr w self veh_lane 0%nat.
Definition Vehicle_length (w : World) (self : ref) : Q :=
  veh_attr w self veh_length 0.
Definition Vehicle_crashed (w : World) (self : ref) : bool :=
  veh_attr w self (fun v => crashed (veh_state v)) false.

Definition is_changing_lane (v : VehicleObj) : bool :=
  Qltb 0 (lane_change_progress (veh_state v)).

Definition Vehicle_is_changing_lane (w : World) (self : ref) : bool :=
  veh_attr w self is_changing_lane false.

Definition Vehicle_get_lane_change_progress (w : World) (self : ref) : Q :=
  veh_attr w self (fun v => lane_change_progress (veh_state v)) 0.

Definition Vehicle_get_lane_change_direction (w : World) (self : ref) : option LatDirection :=
  if Vehicle_is_changing_lane w self then veh_attr w self lc_direction None else None.

(** [self.surrounding.get(area)]: absent keys read as [None]. *)
Definition Vehicle_get_vehicle (w : World) (self : ref) (area : PyKey) : option ref :=
  match dict_get area (veh_attr w self surrounding []) with
  | Some o => o
  | None => None
  end.

(** [self.surrounding[area] = vehicle], [area : Enclosure]. *)
Definition Vehicle_update_surrounding (self : ref) (area : Enclosure) (vehicle : option ref)
    (w : World) : World :=
  upd_vehicle self (fun v => set_surrounding (dict_set (KEnc area) vehicle (surrounding v)) v) w.

(** Net headway to a leader that is present ([leader is None] gives [inf] and is
    handled by the callers' own [None] tests). *)
Definition Vehicle_get_gap (w : World) (self leader : ref) : Q :=
  py_max 0 (Vehicle_get_x w leader - Vehicle_get_x w self - Vehicle_length w leader).

Definition Vehicle_start_lane_change (self : ref) (direction : LatDirection) (duration : Q)
    (w : World) : option World :=
  if negb (Vehicle_is_changing_lane w self) then
    rate ← py_div 1 duration;
    Some (upd_vehicle self (fun v => set_dy rate (set_lc_direction (Some direction) v)) w)
  else Some w.

Definition Vehicle_set_acceleration (self : ref) (a : Q) (w : World) : World :=
  upd_vehicle self (on_state (set_acceleration_field a)) w.

Definition Vehicle_set_velocity (self : ref) (v : Q) (w : World) : World :=
  upd_vehicle self (on_state (set_velocity_field (py_max 0 v))) w.

Definition Vehicle_crash (self : ref) (w : World) : World :=
  upd_vehicle self
    (on_state (fun s => set_acceleration_field 0 (set_velocity_field 0 (set_crashed true s)))) w.

(** ** class Lane *)

Definition Lane_init (lane_id : Z) (lane_type : LaneType) (length : Q) : LaneObj :=
  mkLane lane_id lane_type length None None None None [] 33.33 3.5.

Definition Lane_vehicles (w : World) (self : ref) : list ref :=
  lane_attr w self lane_vehicles [].

Definition Lane_get_left_lane (w : World) (self : ref) : option ref :=
  lane_attr w self left_lane None.
Definition Lane_get_right_lane (w : World) (self : ref) : option ref :=
  lane_attr w self right_lane None.
Definition Lane_get_upstream_lane (w : World) (self : ref) : option ref :=
  lane_attr w self upstream_lane None.
Definition Lane_get_downstream_lane (w : World) (self : ref) : option ref :=
  lane_attr w self downstream_lane None.
Definition Lane_length (w : World) (self : ref) : Q :=
  lane_attr w self lane_length 0.

Definition Lane_add_vehicle (self vehicle : ref) (w : World) : World :=
  if decide (vehicle ∈ Lane_vehicles w self) then w
  else
    let appended := Lane_vehicles w self ++ [vehicle] in
    let w1 := upd_lane self (set_lane_vehicles (sort_by (Vehicle_get_x w) appended)) w in
    upd_vehicle vehicle (set_veh_lane self) w1.

Definition Lane_remove_vehicle (self vehicle : ref) (w : World) : World :=
  if decide (vehicle ∈ Lane_vehicles w self)
  then upd_lane self (fun L => set_lane_vehicles (list_remove vehicle (lane_vehicles L)) L) w
  else w.

Definition Lane_get_vehicle_count (w : World) (self : ref) : nat :=
  length (Lane_vehicles w self).

Definition Lane_get_leading_vehicle (w : World) (self : ref) (position : Q) : option ref :=
  match List.filter (fun v => Qltb position (Vehicle_get_x w v)) (Lane_vehicles w self) with
  | [] => None
  | c :: candidates => Some (min_from (Vehicle_get_x w) c candidates)
  end.

Definition Lane_get_following_vehicle (w : World) (self : ref) (position : Q) : option ref :=
  match List.filter (fun v => Qltb (Vehicle_get_x w v) position) (Lane_vehicles w self) with
  | [] => None
  | c :: candidates => Some (max_from (Vehicle_get_x w) c candidates)
  end.

(** The dictionary built by [get_neighbors], read with [.get]: the lateral
    entries are absent (read as [None]) when the adjacent lane is. *)
Record Neighbors := mkNeighbors {
  nb_leader : option ref;
  nb_follower : option ref;
  nb_left_leader : option ref;
  nb_left_follower : option ref;
  nb_right_leader : option ref;
  nb_right_follower : option ref
}.

Definition Lane_get_neighbors (w : World) (self vehicle : ref) : Neighbors :=
  let position := Vehicle_get_x w vehicle in
  let lateral (side : option ref) (q : World -> ref -> Q -> option ref) :=
    match side with Some l => q w l position | None => None end in
  mkNeighbors
    (Lane_get_leading_vehicle w self position)
    (Lane_get_following_vehicle w self position)
    (lateral (Lane_get_left_lane w self) Lane_get_leading_vehicle)
    (lateral (Lane_get_left_lane w self) Lane_get_following_vehicle)
    (lateral (Lane_get_right_lane w self) Lane_get_leading_vehicle)
    (lateral (Lane_get_right_lane w self) Lane_get_following_vehicle).

Definition update_one_surroundings (self : ref) (w : World) (vehicle : ref) : World :=
  let n := Lane_get_neighbors w self vehicle in
  Vehicle_update_surrounding vehicle RIGHT_BACK (nb_right_follower n)
  (Vehicle_update_surrounding vehicle RIGHT_FRONT (nb_right_leader n)
  (Vehicle_update_surrounding vehicle LEFT_BACK (nb_left_follower n)
  (Vehicle_update_surrounding vehicle LEFT_FRONT (nb_left_leader n)
  (Vehicle_update_surrounding vehicle BACK (nb_follower n)
  (Vehicle_update_surrounding vehicle FRONT (nb_leader n) w))))).

Definition Lane_update_vehicle_surroundings (self : ref) (w : World) : World :=
  fold_left (update_one_surroundings self) (Lane_vehicles w self) w.

Definition Lane_get_density (w : World) (self : ref) : Q :=
  if Qle_bool (Lane_length w self) 0 then 0
  else (inject_Z (Z.of_nat (length (Lane_vehicles w self))) / Lane_length w self) * 1000.

Definition sum_velocities (w : World) (l : list ref) : Q :=
  fold_left (fun acc v => acc + Vehicle_get_velocity w v) l 0.

Definition Lane_get_flow (w : World) (self : ref) : Q :=
  match Lane_vehicles w self with
  | [] => 0
  | vs =>
      let avg_speed := sum_velocities w vs / inject_Z (Z.of_nat (length vs)) in
      Lane_get_density w self * avg_speed * 3.6
  end.

Definition Lane_is_safe_lane_change (w : World) (self vehicle : ref) (target_lane : option ref)
    (min_gap : Q) : bool :=
  match target_lane with
  | None => false
  | Some target =>
      let position := Vehicle_get_x w vehicle in
      let leader_ok :=
        match Lane_get_leading_vehicle w target position with
        | Some leader =>
            negb (Qltb (Vehicle_get_x w leader - position - Vehicle_length w vehicle) min_gap)
        | None => true
        end in
      let follower_ok :=
        match Lane_get_following_vehicle w target position with
        | Some follower =>
            negb (Qltb (position - Vehicle_get_x w follower - Vehicle_length w follower) min_gap)
        | None => true
        end in
      leader_ok && follower_ok
  end.

(** Lane links are kept mutually consistent by the setters. *)
Definition link (other : option ref) (back : LaneObj -> LaneObj) (w : World) : World :=
  match other with Some l => upd_lane l back w | None => w end.

Definition Lane_set_upstream_lane (self : ref) (lane : option ref) (w : World) : World :=
  link lane (set_downstream (Some self)) (upd_lane self (set_upstream lane) w).
Definition Lane_set_downstream_lane (self : ref) (lane : option ref) (w : World) : World :=
  link lane (set_upstream (Some self)) (upd_lane self (set_downstream lane) w).
Definition Lane_set_left_lane (self : ref) (lane : option ref) (w : World) : World :=
  link lane (set_right (Some self)) (upd_lane self (set_left lane) w).
Definition Lane_set_right_lane (self : ref) (lane : option ref) (w : World) : World :=
  link lane (set_left (Some self)) (upd_lane self (set_right lane) w).

(** ** class Vehicle: lane-change completion and integration *)

Definition Vehicle_end_lane_change (self : ref) (w : World) : World :=
  if Vehicle_is_changing_lane w self then
    let lane := Vehicle_get_lane w self in
    let target_lane :=
      match veh_attr w self lc_direction None with
      | Some LEFT => Lane_get_left_lane w lane
      | Some RIGHT => Lane_get_right_lane w lane
      | None => None
      end in
    let w1 :=
      match target_lane with
      | Some target =>
          Lane_add_vehicle target self
            (upd_vehicle self (set_veh_lane target)
               (Lane_remove_vehicle lane self w))
      | None => w
      end in
    upd_vehicle self
      (fun v => set_dy 0 (set_lc_direction None (on_state (set_lane_change_progress 0) v))) w1
  else w.

Definition Vehicle_move (self : ref) (dt : Q) (w : World) : World :=
  if Vehicle_crashed w self then w
  else
    (* lateral movement *)
    let w1 :=
      if negb (Qeq_bool (veh_attr w self dy 0) 0) then
        let wp := upd_vehicle self
                    (on_state (fun s =>
                       set_lane_change_progress
                         (lane_change_progress s + veh_attr w self dy 0 * dt) s)) w in
        if Qle_bool 1 (Vehicle_get_lane_change_progress wp self)
        then Vehicle_end_lane_change self wp
        else wp
      else w in
    (* longitudinal movement *)
    let dx := py_max 0 (dt * Vehicle_get_velocity w1 self
                        + 0.5 * Vehicle_get_acceleration w1 self * dt * dt) in
    let w2 := upd_vehicle self
                (on_state (fun s => set_velocity_field (velocity s + dt * acceleration s) s)) w1 in
    let w3 := upd_vehicle self
                (on_state (fun s => set_velocity_field (py_max 0 (velocity s)) s)) w2 in
    let w4 := upd_vehicle self (on_state (fun s => set_x (x s + dx) s)) w3 in
    upd_vehicle self
      (fun v => on_state (fun s => set_y (y s + (if is_changing_lane v then dy v * dt else 0)) s) v)
      w4.

(** ** Drivers *)

Section Simulation.

(** [math.sqrt] on the idealised numbers. *)
Variable sqrt : Q -> Q.

Definition py_sqrt (a : Q) : option Q :=
  if Qltb a 0 then None else Some (sqrt a).

Definition IDMDriver_adjust_parameters_for_type (d : IDMDriverObj) : IDMDriverObj :=
  match idm_type d with
  | AGGRESSIVE =>
      mkIDMDriver (idm_id d) (idm_type d) (idm_vehicle d) (idm_route d)
        (desired_speed d * 1.1) 1.0 1.5 2.5 4.0 (acceleration_exponent d)
        0.2 (lane_change_threshold d) (min_lane_change_gap d)
  | CAUTIOUS =>
      mkIDMDriver (idm_id d) (idm_type d) (idm_vehicle d) (idm_route d)
        (desired_speed d * 0.9) 2.5 3.0 1.5 2.0 (acceleration_exponent d)
        0.8 (lane_change_threshold d) (min_lane_change_gap d)
  | NORMAL | IDM => d
  end.

Definition IDMDriver_init (driver_id : Z) (driver_type : DriverType) : IDMDriverObj :=
  IDMDriver_adjust_parameters_for_type
    (mkIDMDriver driver_id driver_type None None 33.33 1.5 2.0 2.0 3.0 4 0.5 0.2 10.0).

Definition SimpleDriver_init (driver_id : Z) (driver_type : DriverType) : SimpleDriverObj :=
  mkSimpleDriver driver_id driver_type None None 30.0 1.0 2.0 3.0.

Definition create_driver (driver_id : Z) (driver_type : DriverType) : DriverObj :=
  if decide (driver_type = IDM) then IDMDriver (IDMDriver_init driver_id driver_type)
  else SimpleDriver (SimpleDriver_init driver_id driver_type).

Definition Driver_get_id (d : DriverObj) : Z :=
  match d with IDMDriver d => idm_id d | SimpleDriver d => sd_id d end.
Definition Driver_get_vehicle (d : DriverObj) : option ref :=
  match d with IDMDriver d => idm_vehicle d | SimpleDriver d => sd_vehicle d end.
Definition Driver_get_route (d : DriverObj) : option ref :=
  match d with IDMDriver d => idm_route d | SimpleDriver d => sd_route d end.

Definition with_vehicle (vehicle : option ref) (d : DriverObj) : DriverObj :=
  match d with
  | IDMDriver d =>
      IDMDriver (mkIDMDriver (idm_id d) (idm_type d) vehicle (idm_route d)
        (desired_speed d) (time_headway d) (min_spacing d) (max_acceleration d)
        (comfortable_deceleration d) (acceleration_exponent d) (politeness d)
        (lane_change_threshold d) (min_lane_change_gap d))
  | SimpleDriver d =>
      SimpleDriver (mkSimpleDriver (sd_id d) (sd_type d) vehicle (sd_route d)
        (sd_desired_speed d) (reaction_time d) (sd_max_acceleration d) (max_deceleration d))
  end.

Definition with_route (route : option ref) (d : DriverObj) : DriverObj :=
  match d with
  | IDMDriver d =>
      IDMDriver (mkIDMDriver (idm_id d) (idm_type d) (idm_vehicle d) route
        (desired_speed d) (time_headway d) (min_spacing d) (max_acceleration d)
        (comfortable_deceleration d) (acceleration_exponent d) (politeness d)
        (lane_change_threshold d) (min_lane_change_gap d))
  | SimpleDriver d =>
      SimpleDriver (mkSimpleDriver (sd_id d) (sd_type d) (sd_vehicle d) route
        (sd_desired_speed d) (reaction_time d) (sd_max_acceleration d) (max_deceleration d))
  end.

(** [self.vehicle = vehicle; vehicle.driver = self]. *)
Definition Driver_set_vehicle (self vehicle : ref) (w : World) : World :=
  upd_vehicle vehicle (set_veh_driver (Some self))
    (upd_driver self (with_vehicle (Some vehicle)) w).

Definition Driver_set_route (self route : ref) (w : World) : World :=
  upd_driver self (with_route (Some route)) w.

(** [desired_gap] of the IDM formula. *)
Definition idm_desired_gap (d : IDMDriverObj) (v leader_velocity : Q) : option Q :=
  let velocity_diff := v - leader_velocity in
  root ← py_sqrt (max_acceleration d * comfortable_deceleration d);
  braking ← py_div (v * velocity_diff) (2 * root);
  Some (min_spacing d + time_headway d * v + braking).

(** [_calculate_acceleration].  The leader is looked up in the neighbour cache
    under the key that [surrounding['FRONT']] holds (or [None] when the string
    ['FRONT'] is not a key).  With a leader at gap [0] the interaction term is
    [float('inf')]: the product is [-inf] for a positive [max_acceleration] and
    the floor returns [-comfortable_deceleration]; for other values of
    [max_acceleration] the result is not a finite number, which the idealised
    numbers do not represent ([None]). *)
Definition IDMDriver_calculate_acceleration (w : World) (d : IDMDriverObj) : option Q :=
  match idm_vehicle d with
  | None => Some 0
  | Some vehicle =>
      let v := Vehicle_get_velocity w vehicle in
      let area :=
        match dict_get (KStr "FRONT") (veh_attr w vehicle surrounding []) with
        | Some held => key_of_value held
        | None => KNone
        end in
      let leader := Vehicle_get_vehicle w vehicle area in
      ratio ← py_div v (desired_speed d);
      p ← py_pow ratio (acceleration_exponent d);
      let free_acceleration := max_acceleration d * (1 - p) in
      match leader with
      | None => Some free_acceleration
      | Some leader =>
          let gap := Vehicle_get_gap w vehicle leader in
          desired_gap ← idm_desired_gap d v (Vehicle_get_velocity w leader);
          if Qltb 0 gap then
            q ← py_div desired_gap gap;
            Some (py_max (max_acceleration d * (1 - p - q ^ 2))
                         (- comfortable_deceleration d))
          else if Qltb 0 (max_acceleration d) then Some (- comfortable_deceleration d)
          else None
      end
  end.

(** [_should_change_lane]: [None] when an arithmetic error is raised. *)
Definition IDMDriver_should_change_lane (w : World) (d : IDMDriverObj) (target_lane : ref)
    : option bool :=
  match idm_vehicle d with
  | None => Some false
  | Some vehicle =>
      current_accel ← IDMDriver_calculate_acceleration w d;
      let finish (target_accel : Q) :=
        Qltb (lane_change_threshold d) (target_accel - current_accel) in
      match Lane_get_leading_vehicle w target_lane (Vehicle_get_x w vehicle) with
      | None => Some (finish (max_acceleration d))
      | Some target_leader =>
          let gap := Vehicle_get_x w target_leader - Vehicle_get_x w vehicle
                     - Vehicle_length w vehicle in
          if Qle_bool gap 0 then Some false
          else
            let v := Vehicle_get_velocity w vehicle in
            desired_gap ← idm_desired_gap d v (Vehicle_get_velocity w target_leader);
            q ← py_div desired_gap gap;
            ratio ← py_div v (desired_speed d);
            p ← py_pow ratio (acceleration_exponent d);
            Some (finish (max_acceleration d * (1 - p - q ^ 2)))
      end
  end.

(** What a call leaves behind: the store, and whether it returned or raised. *)
Inductive outcome :=
| Returned (w : World)
| Raised (w : World).

Definition world_of (o : outcome) : World :=
  match o with Returned w | Raised w => w end.

(** One side of [_consider_lane_change]; [inl] carries on to the next side. *)
Definition consider_side (w : World) (d : IDMDriverObj) (vehicle lane : ref)
    (side : option ref) (direction : LatDirection) : outcome + unit :=
  match side with
  | None => inr tt
  | Some target =>
      match IDMDriver_should_change_lane w d target with
      | None => inl (Raised w)
      | Some false => inr tt
      | Some true =>
          if Lane_is_safe_lane_change w lane vehicle side 10.0 then
            match Vehicle_start_lane_change vehicle direction 3.0 w with
            | Some w' => inl (Returned w')
            | None => inl (Raised w)
            end
          else inr tt
      end
  end.

Definition IDMDriver_consider_lane_change (w : World) (d : IDMDriverObj) : outcome :=
  match idm_vehicle d with
  | None => Returned w
  | Some vehicle =>
      if Vehicle_is_changing_lane w vehicle then Returned w
      else
        let lane := Vehicle_get_lane w vehicle in
        match consider_side w d vehicle lane (Lane_get_left_lane w lane) LEFT with
        | inl o => o
        | inr _ =>
            match consider_side w d vehicle lane (Lane_get_right_lane w lane) RIGHT with
            | inl o => o
            | inr _ => Returned w
            end
        end
  end.

Definition IDMDriver_drive (w : World) (d : IDMDriverObj) : outcome :=
  match idm_vehicle d with
  | None => Returned w
  | Some vehicle =>
      if Vehicle_crashed w vehicle then Returned w
      else
        match IDMDriver_calculate_acceleration w d with
        | None => Raised w
        | Some a => IDMDriver_consider_lane_change (Vehicle_set_acceleration vehicle a w) d
        end
  end.

Definition SimpleDriver_drive (w : World) (d : SimpleDriverObj) : outcome :=
  match sd_vehicle d with
  | None => Returned w
  | Some vehicle =>
      if Vehicle_crashed w vehicle then Returned w
      else
        let current_speed := Vehicle_get_velocity w vehicle in
        let speed_diff := sd_desired_speed d - current_speed in
        let a :=
          if Qltb 0 speed_diff then py_min (sd_max_acceleration d) speed_diff
          else py_max (- max_deceleration d) speed_diff in
        Returned (Vehicle_set_acceleration vehicle a w)
  end.

(** Dynamic dispatch of [driver.drive()] on a driver object of the store. *)
Definition Driver_drive (w : World) (driver : ref) : outcome :=
  match driver_heap w !! driver with
  | Some (IDMDriver d) => IDMDriver_drive w d
  | Some (SimpleDriver d) => SimpleDriver_drive w d
  | None => Returned w
  end.

(** ** class TrafficSimulationModel *)

Definition set_sim_state (s : SimulationState) (m : ModelObj) : ModelObj :=
  mkModel s (settings m) (stats m) (lanes m) (vehicles m) (drivers m) (routes m)
    (start_time m) (current_time m) (last_update_time m) (simulation_thread m)
    (threads_spawned m) (stop_simulation_flag m) (next_vehicle_id m) (next_driver_id m).
Definition set_stats (s : SimulationStats) (m : ModelObj) : ModelObj :=
  mkModel (sim_state m) (settings m) s (lanes m) (vehicles m) (drivers m) (routes m)
    (start_time m) (current_time m) (last_update_time m) (simulation_thread m)
    (threads_spawned m) (stop_simulation_flag m) (next_vehicle_id m) (next_driver_id m).
Definition set_lanes (d : list (Z * ref)) (m : ModelObj) : ModelObj :=
  mkModel (sim_state m) (settings m) (stats m) d (vehicles m) (drivers m) (routes m)
    (start_time m) (current_time m) (last_update_time m) (simulation_thread m)
    (threads_spawned m) (stop_simulation_flag m) (next_vehicle_id m) (next_driver_id m).
Definition set_vehicles (d : list (Z * ref)) (m : ModelObj) : ModelObj :=
  mkModel (sim_state m) (settings m) (stats m) (lanes m) d (drivers m) (routes m)
    (start_time m) (current_time m) (last_update_time m) (simulation_thread m)
    (threads_spawned m) (stop_simulation_flag m) (next_vehicle_id m) (next_driver_id m).
Definition set_drivers (d : list (Z * ref)) (m : ModelObj) : ModelObj :=
  mkModel (sim_state m) (settings m) (stats m) (lanes m) (vehicles m) d (routes m)
    (start_time m) (current_time m) (last_update_time m) (simulation_thread m)
    (threads_spawned m) (stop_simulation_flag m) (next_vehicle_id m) (next_driver_id m).
Definition set_routes (d : list (Z * ref)) (m : ModelObj) : ModelObj :=
  mkModel (sim_state m) (settings m) (stats m) (lanes m) (vehicles m) (drivers m) d
    (start_time m) (current_time m) (last_update_time m) (simulation_thread m)
    (threads_spawned m) (stop_simulation_flag m) (next_vehicle_id m) (next_driver_id m).
Definition set_current_time (t : Q) (m : ModelObj) : ModelObj :=
  mkModel (sim_state m) (settings m) (stats m) (lanes m) (vehicles m) (drivers m) (routes m)
    (start_time m) t (last_update_time m) (simulation_thread m)
    (threads_spawned m) (stop_simulation_flag m) (next_vehicle_id m) (next_driver_id m).
Definition set_next_ids (v d : Z) (m : ModelObj) : ModelObj :=
  mkModel (sim_state m) (settings m) (stats m) (lanes m) (vehicles m) (drivers m) (routes m)
    (start_time m) (current_time m) (last_update_time m) (simulation_thread m)
    (threads_spawned m) (stop_simulation_flag m) v d.

Definition on_stats (f : SimulationStats -> SimulationStats) (m : ModelObj) : ModelObj :=
  set_stats (f (stats m)) m.

Definition Model_init : ModelObj :=
  mkModel STOPPED (mkSettings 0.1 3600.0 false 1.0) (mkStats 0 0 0 0 0 0 0 0)
    [] [] [] [] 0 0 0 None 0 false 1 1.

Definition empty_world : World := mkWorld [] [] [] [] Model_init.

(** Object creation: the new object's reference is the next free index. *)
Definition new_vehicle (v : VehicleObj) (w : World) : World :=
  mkWorld (vehicle_heap w ++ [v]) (lane_heap w) (driver_heap w) (route_heap w) (model w).
Definition new_lane (L : LaneObj) (w : World) : World :=
  mkWorld (vehicle_heap w) (lane_heap w ++ [L]) (driver_heap w) (route_heap w) (model w).
Definition new_driver (d : DriverObj) (w : World) : World :=
  mkWorld (vehicle_heap w) (lane_heap w) (driver_heap w ++ [d]) (route_heap w) (model w).
Definition new_route (r : RouteObj) (w : World) : World :=
  mkWorld (vehicle_heap w) (lane_heap w) (driver_heap w) (route_heap w ++ [r]) (model w).

Definition Model_update_network (w : World) : World :=
  fold_left (fun w lane => Lane_update_vehicle_surroundings lane w)
    (dict_values (lanes (model w))) w.

Definition Model_add_lane (lane : ref) (w : World) : World :=
  Model_update_network
    (upd_model (fun m => set_lanes (dict_set (lane_attr w lane lane_id 0%Z) lane (lanes m)) m) w).

Definition Model_add_route (route : ref) (w : World) : World :=
  match route_heap w !! route with
  | Some r => upd_model (fun m => set_routes (dict_set (route_id r) route (routes m)) m) w
  | None => w
  end.
(** [add_vehicle], statement by statement.  The steps run in the order of the
    source; [vehicle] and [driver] are the references of the two objects the
    call creates. *)
Inductive AddVehicleStep :=
| CreateVehicle      (* vehicle = Vehicle(self.next_vehicle_id, lane, initial_position) *)
| CreateDriver       (* driver = create_driver(self.next_driver_id, driver_type) *)
| AttachDriver       (* driver.set_vehicle(vehicle) *)
| AttachRoute        (* if route: driver.set_route(route) *)
| RegisterVehicle    (* self.vehicles[vehicle.id] = vehicle *)
| RegisterDriver     (* self.drivers[driver.get_id()] = driver *)
| EnterLane          (* lane.add_vehicle(vehicle) *)
| BumpCounters.      (* the two id counters and the two vehicle counts *)

Definition add_vehicle_steps : list AddVehicleStep :=
  [CreateVehicle; CreateDriver; AttachDriver; AttachRoute;
   RegisterVehicle; RegisterDriver; EnterLane; BumpCounters].

Record AddVehicleFrame := mkFrame {
  fr_lane : ref;
  fr_vehicle : ref;
  fr_driver : ref;
  fr_driver_type : DriverType;
  fr_initial_position : Q;
  fr_route : option ref
}.

Definition Driver_id_of (w : World) (driver : ref) : Z :=
  match driver_heap w !! driver with Some d => Driver_get_id d | None => 0%Z end.

Definition add_vehicle_step (fr : AddVehicleFrame) (w : World) (s : AddVehicleStep) : World :=
  match s with
  | CreateVehicle =>
      new_vehicle (Vehicle_init (next_vehicle_id (model w)) (fr_lane fr)
                     (fr_initial_position fr)) w
  | CreateDriver =>
      new_driver (create_driver (next_driver_id (model w)) (fr_driver_type fr)) w
  | AttachDriver => Driver_set_vehicle (fr_driver fr) (fr_vehicle fr) w
  | AttachRoute =>
      match fr_route fr with
      | Some route => Driver_set_route (fr_driver fr) route w
      | None => w
      end
  | RegisterVehicle =>
      upd_model (fun m => set_vehicles
        (dict_set (veh_attr w (fr_vehicle fr) veh_id 0%Z) (fr_vehicle fr) (vehicles m)) m) w
  | RegisterDriver =>
      upd_model (fun m => set_drivers
        (dict_set (Driver_id_of w (fr_driver fr)) (fr_driver fr) (drivers m)) m) w
  | EnterLane => Lane_add_vehicle (fr_lane fr) (fr_vehicle fr) w
  | BumpCounters =>
      upd_model (fun m =>
        on_stats (fun st =>
          mkStats (stats_current_time st) (total_vehicles st + 1) (active_vehicles st + 1)
            (completed_vehicles st) (crashed_vehicles st) (average_speed st)
            (total_flow st) (average_density st))
          (set_next_ids (next_vehicle_id m + 1) (next_driver_id m + 1) m)) w
  end.

Definition add_vehicle_frame (w : World) (lane : ref) (driver_type : DriverType)
    (initial_position : Q) (route : option ref) : AddVehicleFrame :=
  mkFrame lane (length (vehicle_heap w)) (length (driver_heap w))
    driver_type initial_position route.

(** Returns the new vehicle ([None] for an unknown lane id) and the store. *)
Definition Model_add_vehicle (lane_id : Z) (driver_type : DriverType)
    (initial_position : Q) (route : option ref) (w : World) : option ref * World :=
  match dict_get lane_id (lanes (model w)) with
  | None => (None, w)
  | Some lane =>
      let fr := add_vehicle_frame w lane driver_type initial_position route in
      (Some (fr_vehicle fr), fold_left (add_vehicle_step fr) add_vehicle_steps w)
  end.

Definition count_removed (was_crashed : bool) (st : SimulationStats) : SimulationStats :=
  mkStats (stats_current_time st) (total_vehicles st) (active_vehicles st - 1)
    (if was_crashed then completed_vehicles st else completed_vehicles st + 1)
    (if was_crashed then crashed_vehicles st + 1 else crashed_vehicles st)
    (average_speed st) (total_flow st) (average_density st).

Definition Model_remove_vehicle (vehicle_id : Z) (w : World) : World :=
  match dict_get vehicle_id (vehicles (model w)) with
  | None => w
  | Some vehicle =>
      (* remove from lane *)
      let w1 := Lane_remove_vehicle (Vehicle_get_lane w vehicle) vehicle w in
      (* remove driver *)
      let w2 :=
        match veh_attr w1 vehicle veh_driver None with
        | Some driver =>
            let driver_id := Driver_id_of w1 driver in
            if dict_mem driver_id (drivers (model w1))
            then upd_model (fun m => set_drivers (dict_del driver_id (drivers m)) m) w1
            else w1
        | None => w1
        end in
      (* remove vehicle *)
      let w3 := upd_model (fun m => set_vehicles (dict_del vehicle_id (vehicles m)) m) w2 in
      (* update stats *)
      upd_model (on_stats (count_removed (Vehicle_crashed w3 vehicle))) w3
  end.

Definition Model_has_vehicle_exited (w : World) (vehicle : ref) : bool :=
  let lane := Vehicle_get_lane w vehicle in
  let position := Vehicle_get_x w vehicle in
  Qltb (Lane_length w lane) position
  && match Lane_get_downstream_lane w lane with None => true | Some _ => false end.

Definition Model_update_statistics (w : World) : World :=
  let vs := dict_values (vehicles (model w)) in
  let ls := dict_values (lanes (model w)) in
  let avg :=
    match vs with
    | [] => 0
    | _ => sum_velocities w vs / inject_Z (Z.of_nat (length vs))
    end in
  let flow := fold_left (fun acc lane => acc + Lane_get_flow w lane) ls 0 in
  let density := fold_left (fun acc lane => acc + Lane_get_density w lane) ls 0 in
  let lane_count := Z.of_nat (length ls) in
  upd_model (on_stats (fun st =>
    mkStats (stats_current_time st) (total_vehicles st) (Z.of_nat (length vs))
      (completed_vehicles st) (crashed_vehicles st) avg flow
      (if (0 <? lane_count)%Z then density / inject_Z lane_count else 0))) w.

(** The phases of one tick. *)
Definition advance_clock (dt : Q) (w : World) : World :=
  upd_model (fun m =>
    on_stats (fun st =>
      mkStats (current_time m + dt) (total_vehicles st) (active_vehicles st)
        (completed_vehicles st) (crashed_vehicles st) (average_speed st)
        (total_flow st) (average_density st))
      (set_current_time (current_time m + dt) m)) w.

(** [try: driver.drive() except Exception: print(...)]. *)
Definition drive_caught (w : World) (driver : ref) : World :=
  world_of (Driver_drive w driver).

Definition drivers_phase (w : World) : World :=
  fold_left drive_caught (dict_values (drivers (model w))) w.

(** The body of the loop over [list(self.vehicles.values())]. *)
Definition move_and_check (dt : Q) (w : World) (vehicle : ref) : World :=
  let w1 := Vehicle_move vehicle dt w in
  if Model_has_vehicle_exited w1 vehicle
  then Model_remove_vehicle (veh_attr w1 vehicle veh_id 0%Z) w1
  else w1.

Definition vehicles_phase (dt : Q) (w : World) : World :=
  fold_left (move_and_check dt) (dict_values (vehicles (model w))) w.

(** [_update_simulation].  The list of traffic generators is empty unless an
    external collaborator fills it, and the observers are external as well: both
    loops are left out.  [move] and [remove_vehicle] raise nothing here, so the
    [try] around the body of the vehicle loop has nothing to catch. *)
Definition Model_update_simulation (dt : Q) (w : World) : World :=
  Model_update_statistics
    (vehicles_phase dt
       (drivers_phase
          (Model_update_network (advance_clock dt w)))).

(** The state machine.  [now] is the reading of [time.time()]; starting spawns
    the worker thread, whose loop is not part of the sequential model. *)
Definition Model_start_simulation (now : Q) (w : World) : World :=
  if decide (sim_state (model w) = RUNNING) then w
  else
    upd_model (fun m =>
      mkModel RUNNING (settings m) (stats m) (lanes m) (vehicles m) (drivers m) (routes m)
        now 0 (last_update_time m) (Some (threads_spawned m))
        (S (threads_spawned m)) false (next_vehicle_id m) (next_driver_id m)) w.

Definition Model_pause_simulation (w : World) : World :=
  if decide (sim_state (model w) = RUNNING) then upd_model (set_sim_state PAUSED) w else w.

Definition Model_resume_simulation (w : World) : World :=
  if decide (sim_state (model w) = PAUSED) then upd_model (set_sim_state RUNNING) w else w.

Definition Model_stop_simulation (w : World) : World :=
  upd_model (fun m =>
    mkModel STOPPED (settings m) (stats m) (lanes m) (vehicles m) (drivers m) (routes m)
      (start_time m) (current_time m) (last_update_time m) (simulation_thread m)
      (threads_spawned m) true (next_vehicle_id m) (next_driver_id m)) w.

Definition Model_step_simulation (w : World) : World :=
  if decide (sim_state (model w) = STOPPED \/ sim_state (model w) = PAUSED) then
    upd_model (set_sim_state PAUSED)
      (Model_update_simulation (time_step (settings (model w))) w)
  else w.

End Simulation.

(** ** More of class IDMDriver *)

(** [get_safe_speed]; the division raises for a zero headway. *)
Definition IDMDriver_get_safe_speed (d : IDMDriverObj)
    (distance stopping_distance safe_time_headway : Q) : option Q :=
  if Qle_bool distance stopping_distance then Some 0
  else
    safe_speed ← py_div (distance - stopping_distance) safe_time_headway;
    Some (py_max 0 (py_min safe_speed (desired_speed d))).

(** ** More of class Lane *)

Definition Lane_get_average_speed (w : World) (self : ref) : Q :=
  match Lane_vehicles w self with
  | [] => 0
  | vs => sum_velocities w vs / inject_Z (Z.of_nat (length vs))
  end.

(** Lane geometry.  The [coordinates] attribute is read by the geometry methods
    only; it is kept apart from [LaneObj] and passed to them with the lane's
    [length].  The constructor takes the default straight line for a missing or
    empty list of coordinates ([if coordinates:]). *)
Record Coordinate := mkCoordinate {
  coord_x : Q;
  coord_y : Q
}.

Definition Lane_init_coordinates (length : Q) (coordinates : option (list Coordinate))
    : list Coordinate :=
  match coordinates with
  | Some (c :: cs) => c :: cs
  | _ => [mkCoordinate 0 0; mkCoordinate length 0]
  end.

(** [get_coordinate_at_distance]: [coordinates[0]] and [coordinates[-1]] raise
    [IndexError] on an empty list. *)
Definition Lane_get_coordinate_at_distance (coordinates : list Coordinate) (length : Q)
    (distance : Q) : option Coordinate :=
  if Qle_bool distance 0 then head coordinates
  else if Qle_bool length distance then last coordinates
  else
    ratio ← py_div distance length;
    start ← head coordinates;
    finish ← last coordinates;
    Some (mkCoordinate (coord_x start + ratio * (coord_x finish - coord_x start))
                       (coord_y start + ratio * (coord_y finish - coord_y start))).

(** ** More of class TrafficSimulationModel *)

Definition set_settings (s : SimulationSettings) (m : ModelObj) : ModelObj :=
  mkModel (sim_state m) s (stats m) (lanes m) (vehicles m) (drivers m) (routes m)
    (start_time m) (current_time m) (last_update_time m) (simulation_thread m)
    (threads_spawned m) (stop_simulation_flag m) (next_vehicle_id m) (next_driver_id m).

Definition Model_get_vehicles (w : World) : list ref := dict_values (vehicles (model w)).
Definition Model_get_lanes (w : World) : list ref := dict_values (lanes (model w)).
Definition Model_get_vehicle_by_id (w : World) (vehicle_id : Z) : option ref :=
  dict_get vehicle_id (vehicles (model w)).
Definition Model_get_lane_by_id (w : World) (lane_id : Z) : option ref :=
  dict_get lane_id (lanes (model w)).

(** [initialize]: a settings object is always truthy. *)
Definition Model_initialize (lanes_given : list ref) (settings_given : option SimulationSettings)
    (w : World) : World :=
  let w1 := match settings_given with
            | Some s => upd_model (set_settings s) w
            | None => w
            end in
  let w2 := fold_left (fun w lane =>
                         upd_model (fun m => set_lanes
                           (dict_set (lane_attr w lane lane_id 0%Z) lane (lanes m)) m) w)
              lanes_given w1 in
  let w3 := Model_update_network w2 in
  upd_model (fun m => set_stats (mkStats 0 0 0 0 0 0 0 0) (set_sim_state STOPPED m)) w3.

(** [remove_lane]: the vehicles on the lane's list are removed by id first. *)
Definition Model_remove_lane (lane_id : Z) (w : World) : World :=
  match dict_get lane_id (lanes (model w)) with
  | None => w
  | Some lane =>
      let vehicles_to_remove := Lane_vehicles w lane in
      let w1 := fold_left (fun w vehicle =>
                             Model_remove_vehicle (veh_attr w vehicle veh_id 0%Z) w)
                  vehicles_to_remove w in
      Model_update_network
        (upd_model (fun m => set_lanes (dict_del lane_id (lanes m)) m) w1)
  end.

(** [_simulation_loop], the body of the worker thread, run for at most [fuel]
    iterations while no other thread writes the model.  The readings of the
    wall clock leave the store alone.  [time.sleep] is a parameter of the loop:
    [time_sleep secs] tells whether the call returns ([true]) or raises
    ([false], as CPython does with [OverflowError] for a duration beyond its
    range); a call that returns leaves the store alone.  The division that
    computes the sleep time raises for a zero [real_time_factor].  An exception
    ends the thread. *)
Inductive LoopRun :=
| LoopExited (w : World)       (* the loop condition failed *)
| LoopRaised (w : World)       (* an exception left the loop *)
| LoopRunning (w : World).     (* still in the loop after [fuel] iterations *)

Fixpoint Model_simulation_loop (sqrt : Q -> Q) (time_sleep : Q -> bool) (fuel : nat)
    (w : World) : LoopRun :=
  if negb (stop_simulation_flag (model w))
     && negb (bool_decide (sim_state (model w) = STOPPED)) then
    match fuel with
    | O => LoopRunning w
    | S fuel' =>
        if decide (sim_state (model w) = RUNNING) then
          let dt := time_step (settings (model w)) in
          let w1 := Model_update_simulation sqrt dt w in
          match py_div (time_step (settings (model w1)))
                       (real_time_factor (settings (model w1))) with
          | Some sleep_time =>
              if Qltb 0 sleep_time && negb (time_sleep sleep_time) then LoopRaised w1
              else Model_simulation_loop sqrt time_sleep fuel' w1
          | None => LoopRaised w1
          end
        else
          if time_sleep 0.01 then Model_simulation_loop sqrt time_sleep fuel' w
          else LoopRaised w
    end
  else LoopExited w.

(** ** Observer lists

    [add_observer] and [remove_observer] are the same code in [Vehicle], [Lane]
    and [TrafficSimulationModel]; observers are compared by identity. *)
Definition add_observer (observer : ref) (observers : list ref) : list ref :=
  if decide (observer ∈ observers) then observers else observers ++ [observer].

Definition remove_observer (observer : ref) (observers : list ref) : list ref :=
  if decide (observer ∈ observers) then list_remove observer observers else observers.

(** ** simple_server.py: the built-in scenario

    [TrafficSimHandler.load_simple_scenario], on the model singleton.  The
    objects it creates get the next free references.  The coordinate lists
    passed to the [Lane] constructor are kept by [Lane_init_coordinates]; they
    are not read by anything the scenario calls. *)
Definition load_simple_scenario (w : World) : World :=
  (* Create lanes *)
  let lane1 := length (lane_heap w) in
  let w := new_lane (Lane_init 0 LT_NORMAL 2000.0) w in
  let lane2 := length (lane_heap w) in
  let w := new_lane (Lane_init 1 LT_NORMAL 2000.0) w in
  let lane3 := length (lane_heap w) in
  let w := new_lane (Lane_init 2 LT_NORMAL 2000.0) w in
  (* Connect lanes *)
  let w := Lane_set_right_lane lane1 (Some lane2) w in
  let w := Lane_set_left_lane lane2 (Some lane1) w in
  let w := Lane_set_right_lane lane2 (Some lane3) w in
  let w := Lane_set_left_lane lane3 (Some lane2) w in
  (* Initialize model *)
  let w := Model_initialize [lane1; lane2; lane3] None w in
  (* Add some vehicles *)
  let route1 := length (route_heap w) in
  let w := new_route (Route_init 1 [0%Z]) w in
  let route2 := length (route_heap w) in
  let w := new_route (Route_init 2 [1%Z]) w in
  let route3 := length (route_heap w) in
  let w := new_route (Route_init 3 [2%Z]) w in
  let w := Model_add_route route1 w in
  let w := Model_add_route route2 w in
  let w := Model_add_route route3 w in
  let w := snd (Model_add_vehicle 0 IDM 100.0 (Some route1) w) in
  let w := snd (Model_add_vehicle 1 AGGRESSIVE 150.0 (Some route2) w) in
  let w := snd (Model_add_vehicle 2 CAUTIOUS 200.0 (Some route3) w) in
  w.

(** * Notions used to state the properties *)

(** The calls a client can make on a route. *)
Inductive RouteCall := CallTarget | CallAdvance | CallComplete.

Definition route_call (r : RouteObj) (c : RouteCall) : RouteObj :=
  match c with
  | CallTarget | CallComplete => r      (* pure queries *)
  | CallAdvance => Route_advance_route r
  end.

Definition route_calls (cs : list RouteCall) (r : RouteObj) : RouteObj :=
  fold_left route_call cs r.

(** The fields a lane change leaves alone. *)
Definition lateral_blind {A} (g : VehicleObj -> A) : Prop :=
  (forall o l, g (set_veh_lane l o) = g o)
  /\ (forall o p, g (on_state (set_lane_change_progress p) o) = g o)
  /\ (forall o q, g (set_dy q o) = g o)
  /\ (forall o c, g (set_lc_direction c o) = g o).

(** The store right after the lateral part of [move]. *)
Definition after_lateral (self : ref) (dt : Q) (w : World) : World :=
  if negb (Qeq_bool (veh_attr w self dy 0) 0) then
    let wp := upd_vehicle self
                (on_state (fun s =>
                   set_lane_change_progress
                     (lane_change_progress s + veh_attr w self dy 0 * dt) s)) w in
    if Qle_bool 1 (Vehicle_get_lane_change_progress wp self)
    then Vehicle_end_lane_change self wp
    else wp
  else w.

(** The longitudinal step of a vehicle that is not crashed. *)
Definition displacement (w : World) (self : ref) (dt : Q) : Q :=
  py_max 0 (dt * Vehicle_get_velocity w self + 0.5 * Vehicle_get_acceleration w self * dt * dt).

(** Two states of a vehicle object that differ at most in the neighbour cache,
    the acceleration and the lane-change intent ([lc_direction], [dy]). *)
Definition same_body (v v' : VehicleObj) : Prop :=
  veh_id v' = veh_id v /\ veh_lane v' = veh_lane v /\ veh_length v' = veh_length v
  /\ veh_driver v' = veh_driver v
  /\ x (veh_state v') = x (veh_state v) /\ y (veh_state v') = y (veh_state v)
  /\ velocity (veh_state v') = velocity (veh_state v)
  /\ lane_change_progress (veh_state v') = lane_change_progress (veh_state v)
  /\ crashed (veh_state v') = crashed (veh_state v).

(** Stores that differ only in their vehicle objects, pointwise by [P]. *)
Definition only_vehicles (P : VehicleObj -> VehicleObj -> Prop) (w w' : World) : Prop :=
  lane_heap w' = lane_heap w /\ driver_heap w' = driver_heap w
  /\ route_heap w' = route_heap w /\ model w' = model w
  /\ Forall2 P (vehicle_heap w) (vehicle_heap w').

(** The store on which the vehicles are integrated: the clock is advanced, the
    neighbour caches are refreshed and the drivers have run. *)
Definition before_integration (sqrt : Q -> Q) (dt : Q) (w : World) : World :=
  drivers_phase sqrt (Model_update_network (advance_clock dt w)).

(** Attributes of the model that removing a vehicle and recomputing the
    statistics leave alone: everything but the two registries and [stats]. *)
Definition registry_blind {A} (g : ModelObj -> A) : Prop :=
  (forall m d, g (set_drivers d m) = g m)
  /\ (forall m d, g (set_vehicles d m) = g m)
  /\ (forall m s, g (set_stats s m) = g m).

(** The steps of [add_vehicle] that make the new objects reachable from the
    model: the two registry insertions and the lane's list. *)
Definition inserts (s : AddVehicleStep) : bool :=
  match s with
  | RegisterVehicle | RegisterDriver | EnterLane => true
  | _ => false
  end.

(** The new vehicle and its driver are built and attached to each other, as
    seen in store [wp], for a call that started in store [w0]. *)
Definition built (fr : AddVehicleFrame) (w0 wp : World) : Prop :=
  vehicle_heap wp !! fr_vehicle fr
  = Some (set_veh_driver (Some (fr_driver fr))
            (Vehicle_init (next_vehicle_id (model w0)) (fr_lane fr) (fr_initial_position fr)))
  /\ exists d, driver_heap wp !! fr_driver fr = Some d
       /\ Driver_get_id d = next_driver_id (model w0)
       /\ Driver_get_vehicle d = Some (fr_vehicle fr)
       /\ Driver_get_route d = fr_route fr.

(** Following the specification's words (IDM acceleration against a leader at
    net gap [g]): [desired_gap = s0 + v·T + v·Δv / (2·sqrt(a_max·b))] and
    [acceleration = a_max·(1 − (v/v0)^4 − (desired_gap/g)²)], floored at [−b]. *)
Definition spec_idm_acceleration (sqrt : Q -> Q) (d : IDMDriverObj) (v v_leader g : Q) : Q :=
  let desired_gap :=
    min_spacing d + v * time_headway d
    + v * (v - v_leader) / (2 * sqrt (max_acceleration d * comfortable_deceleration d)) in
  let a := max_acceleration d * (1 - (v / desired_speed d) ^ 4 - (desired_gap / g) ^ 2) in
  if Qle_bool (- comfortable_deceleration d) a then a else - comfortable_deceleration d.

(** The free-flow term of the specification. *)
Definition spec_free_acceleration (d : IDMDriverObj) (v : Q) : Q :=
  max_acceleration d * (1 - (v / desired_speed d) ^ 4).

(** A one-lane network (lane id 7, 1000 m) built through the model's interface,
    with two IDM vehicles at rest: the first at [x = 0], the second at [x = 5.5],
    one metre of net gap ahead of the first; the neighbour caches are refreshed. *)
Definition one_lane_world : World :=
  Model_add_lane 0%nat (new_lane (Lane_init 7 LT_NORMAL 1000) empty_world).

Definition follower_and_leader : World :=
  Model_update_network
    (snd (Model_add_vehicle 7 IDM 5.5 None
       (snd (Model_add_vehicle 7 IDM 0 None one_lane_world)))).

(** A lane list in ascending order of position. *)
Definition sorted_by_x (w : World) (l : list ref) : Prop :=
  Sorted (fun a b => Vehicle_get_x w a <= Vehicle_get_x w b) l.

(** A computable stand-in for [math.sqrt], exact to six decimals, to run the
    model on concrete inputs. *)
Definition sqrt_approx (q : Q) : Q :=
  Z.sqrt (Qnum q * 10 ^ 12 / Z.pos (Qden q)) # 1000000.

(** Two vehicles on the one-lane network, placed at [x = 0] and [x = 1]; the one
    behind has been given a velocity of 20 m/s, the one ahead is at rest. *)
Definition overtaking_world : World :=
  Vehicle_set_velocity 0%nat 20
    (snd (Model_add_vehicle 7 IDM 1 None
       (snd (Model_add_vehicle 7 IDM 0 None one_lane_world)))).

(** Three lanes [A], [B], [C] (references 0, 1, 2; ids 1, 2, 3) registered with
    the model, [B] linked as the left neighbour of [A], and one vehicle on [A]. *)
Definition three_lanes : World :=
  Lane_set_left_lane 0%nat (Some 1%nat)
    (Model_add_lane 2%nat (Model_add_lane 1%nat (Model_add_lane 0%nat
       (new_lane (Lane_init 3 LT_NORMAL 1000)
          (new_lane (Lane_init 2 LT_NORMAL 1000)
             (new_lane (Lane_init 1 LT_NORMAL 1000) empty_world)))))).

Definition vehicle_on_A : World := snd (Model_add_vehicle 1 IDM 100 None three_lanes).

(** The vehicle starts a change to the left (towards [B]) and moves for one
    second: the change is in progress. *)
Definition change_started : World :=
  match Vehicle_start_lane_change 0%nat LEFT 3.0 vehicle_on_A with
  | Some w => w
  | None => vehicle_on_A
  end.

Definition change_in_progress : World := Vehicle_move 0%nat 1 change_started.

(** Meanwhile the network is re-linked: [C] becomes the left neighbour of [A]. *)
Definition relinked : World := Lane_set_left_lane 0%nat (Some 2%nat) change_in_progress.

(** The neighbour of a lane on the side of a lane-change direction. *)
Definition neighbour_lane (w : World) (lane : ref) (d : LatDirection) : option ref :=
  match d with
  | LEFT => Lane_get_left_lane w lane
  | RIGHT => Lane_get_right_lane w lane
  end.

(** What [move] does to the vehicle's own record, given the neighbours [nb] of
    its lane; the lane lists play no part in it. *)
Definition lateral_record (nb : LatDirection -> option ref) (dt : Q) (v : VehicleObj)
    : VehicleObj :=
  if negb (Qeq_bool (dy v) 0) then
    let vp := on_state (set_lane_change_progress
                          (lane_change_progress (veh_state v) + dy v * dt)) v in
    if Qle_bool 1 (lane_change_progress (veh_state vp)) then
      if is_changing_lane vp then
        let target := match lc_direction vp with Some d => nb d | None => None end in
        let v1 := match target with Some t => set_veh_lane t vp | None => vp end in
        set_dy 0 (set_lc_direction None (on_state (set_lane_change_progress 0) v1))
      else vp
    else vp
  else v.

Definition longitudinal_record (dt : Q) (v : VehicleObj) : VehicleObj :=
  let dx := py_max 0 (dt * velocity (veh_state v)
                      + 0.5 * acceleration (veh_state v) * dt * dt) in
  let v2 := on_state (fun s => set_velocity_field (velocity s + dt * acceleration s) s) v in
  let v3 := on_state (fun s => set_velocity_field (py_max 0 (velocity s)) s) v2 in
  let v4 := on_state (fun s => set_x (x s + dx) s) v3 in
  on_state (fun s => set_y (y s + (if is_changing_lane v4 then dy v4 * dt else 0)) s) v4.

Definition move_record (nb : LatDirection -> option ref) (dt : Q) (v : VehicleObj)
    : VehicleObj :=
  if crashed (veh_state v) then v else longitudinal_record dt (lateral_record nb dt v).

(** A lane without its vehicle list: what a tick never changes of a lane. *)
Definition lane_static (L : LaneObj) : LaneObj := set_lane_vehicles [] L.

Definition statics (w : World) : list LaneObj := lane_static <$> lane_heap w.

(** The exit test on a vehicle record. *)
Definition exits_record (w : World) (v : VehicleObj) : bool :=
  Qltb (Lane_length w (veh_lane v)) (x (veh_state v))
  && match Lane_get_downstream_lane w (veh_lane v) with None => true | Some _ => false end.

(** The registries agree with the store: the keys of the vehicle registry are
    distinct and each is the id of the vehicle object registered under it; the
    keys of the driver registry are distinct. *)
Definition registry_ok (w : World) : Prop :=
  NoDup (dict_keys (vehicles (model w)))
  /\ (forall k r, In (k, r) (vehicles (model w)) ->
        exists v, vehicle_heap w !! r = Some v /\ veh_id v = k)
  /\ NoDup (dict_keys (drivers (model w))).

Definition registry_okb (w : World) : bool :=
  bool_decide (NoDup (dict_keys (vehicles (model w))))
  && forallb (fun kr => match vehicle_heap w !! snd kr with
                        | Some v => (veh_id v =? fst kr)%Z
                        | None => false
                        end) (vehicles (model w))
  && bool_decide (NoDup (dict_keys (drivers (model w)))).

(** Whether vehicle [r], moved for [dt] in store [w], has left the network. *)
Definition exits_from (w : World) (dt : Q) (r : ref) : bool :=
  Model_has_vehicle_exited (Vehicle_move r dt w) r.

(** The same for a whole tick that starts in [w]: the vehicle is moved in the
    store the drivers leave behind. *)
Definition exits_in_tick (sqrt : Q -> Q) (dt : Q) (w : World) (r : ref) : bool :=
  exits_from (before_integration sqrt dt w) dt r.

(** A vehicle half a metre before the end of the one-lane network (which has no
    downstream lane), moving at 20 m/s. *)
Definition leaving_world : World :=
  Vehicle_set_velocity 0%nat 20 (snd (Model_add_vehicle 7 IDM 999.5 None one_lane_world)).

(** A third vehicle object at [x = 3] that is not yet on the lane of
    [follower_and_leader]. *)
Definition newcomer_world : World :=
  new_vehicle (Vehicle_init 5 0%nat 3) follower_and_leader.

(** The one-lane network with the simulation started. *)
Definition running_world : World := Model_start_simulation 0 one_lane_world.

(** [n] ticks in a row. *)
Fixpoint ticks (sqrt : Q -> Q) (dt : Q) (n : nat) (w : World) : World :=
  match n with
  | O => w
  | S n' => Model_update_simulation sqrt dt (ticks sqrt dt n' w)
  end.

(** The id under which the driver attached to vehicle [r] is registered. *)
Definition driver_key (w : World) (r : ref) : option Z :=
  match veh_attr w r veh_driver None with
  | Some driver => Some (Driver_id_of w driver)
  | None => None
  end.

(** The first of the ticks [0 .. n-1], started in [w], in which vehicle [r]
    exits, if there is one. *)
Fixpoint first_exit (sqrt : Q -> Q) (dt : Q) (w : World) (r : ref) (n : nat) : option nat :=
  match n with
  | O => None
  | S n' =>
      match first_exit sqrt dt w r n' with
      | Some j => Some j
      | None => if exits_in_tick sqrt dt (ticks sqrt dt n' w) r then Some n' else None
      end
  end.

(** The methods through which a vehicle's state is written. *)
Inductive VehicleCall :=
| CallSetAcceleration (a : Q)
| CallSetVelocity (v : Q)
| CallCrash
| CallMove (dt : Q)
| CallStartLaneChange (d : LatDirection) (duration : Q)
| CallEndLaneChange
| CallUpdateSurrounding (area : Enclosure) (o : option ref).

Definition vehicle_call (self : ref) (w : World) (c : VehicleCall) : World :=
  match c with
  | CallSetAcceleration a => Vehicle_set_acceleration self a w
  | CallSetVelocity v => Vehicle_set_velocity self v w
  | CallCrash => Vehicle_crash self w
  | CallMove dt => Vehicle_move self dt w
  | CallStartLaneChange d duration =>
      match Vehicle_start_lane_change self d duration w with
      | Some w' => w'
      | None =>          (* the division raised, after [self.lc_direction = direction] *)
          upd_vehicle self (set_lc_direction (Some d)) w
      end
  | CallEndLaneChange => Vehicle_end_lane_change self w
  | CallUpdateSurrounding area o => Vehicle_update_surrounding self area o w
  end.

(** The ids in use are below the counters from which new ids are drawn. *)
Definition ids_fresh (w : World) : Prop :=
  (forall k, In k (dict_keys (vehicles (model w))) -> (k < next_vehicle_id (model w))%Z)
  /\ (forall k, In k (dict_keys (drivers (model w))) -> (k < next_driver_id (model w))%Z).

(** The invariant of the model's registries. *)
Definition model_ok (w : World) : Prop := registry_ok w /\ ids_fresh w.

(** The stores that these operations of the public interface reach from the
    empty model: lanes are created, linked and registered with [add_lane],
    vehicles are added and removed with [add_vehicle] and [remove_vehicle], the
    methods of a vehicle are called, and the simulation is ticked or stepped.
    ([initialize], [remove_lane], [add_route], [load_scenario] and the
    start/pause/resume/stop methods are not among them.) *)
Inductive built_by_interface (sqrt : Q -> Q) : World -> Prop :=
| built_empty : built_by_interface sqrt empty_world
| built_new_lane L w :
    built_by_interface sqrt w -> built_by_interface sqrt (new_lane L w)
| built_link_left l o w :
    built_by_interface sqrt w -> built_by_interface sqrt (Lane_set_left_lane l o w)
| built_link_right l o w :
    built_by_interface sqrt w -> built_by_interface sqrt (Lane_set_right_lane l o w)
| built_link_up l o w :
    built_by_interface sqrt w -> built_by_interface sqrt (Lane_set_upstream_lane l o w)
| built_link_down l o w :
    built_by_interface sqrt w -> built_by_interface sqrt (Lane_set_downstream_lane l o w)
| built_add_lane l w :
    built_by_interface sqrt w -> built_by_interface sqrt (Model_add_lane l w)
| built_add_vehicle lane_id driver_type pos route w :
    built_by_interface sqrt w ->
    built_by_interface sqrt (snd (Model_add_vehicle lane_id driver_type pos route w))
| built_remove_vehicle k w :
    built_by_interface sqrt w -> built_by_interface sqrt (Model_remove_vehicle k w)
| built_vehicle_call r c w :
    built_by_interface sqrt w -> built_by_interface sqrt (vehicle_call r w c)
| built_tick dt w :
    built_by_interface sqrt w -> built_by_interface sqrt (Model_update_simulation sqrt dt w)
| built_step w :
    built_by_interface sqrt w -> built_by_interface sqrt (Model_step_simulation sqrt w).

(** [n] calls of [advance_route] in a row. *)
Definition advance_times (n : nat) (r : RouteObj) : RouteObj :=
  Nat.iter n Route_advance_route r.


(** Two states of a vehicle object that differ at most in the neighbour cache. *)
Definition cache_only (v v' : VehicleObj) : Prop :=
  v' = set_surrounding (surrounding v') v.

(** A point [c] lies on the segment from [a] to [b] at parameter [t]. *)
Definition on_segment (a b c : Coordinate) (t : Q) : Prop :=
  0 <= t /\ t <= 1
  /\ coord_x c == coord_x a + t * (coord_x b - coord_x a)
  /\ coord_y c == coord_y a + t * (coord_y b - coord_y a).

(** The neighbour cache of [v] holds the six neighbours [n]. *)
Definition cache_holds (w : World) (v : ref) (n : Neighbors) : Prop :=
  Vehicle_get_vehicle w v (KEnc FRONT) = nb_leader n
  /\ Vehicle_get_vehicle w v (KEnc BACK) = nb_follower n
  /\ Vehicle_get_vehicle w v (KEnc LEFT_FRONT) = nb_left_leader n
  /\ Vehicle_get_vehicle w v (KEnc LEFT_BACK) = nb_left_follower n
  /\ Vehicle_get_vehicle w v (KEnc RIGHT_FRONT) = nb_right_leader n
  /\ Vehicle_get_vehicle w v (KEnc RIGHT_BACK) = nb_right_follower n.

(** What the simulation may do to a vehicle object over time: identity, length
    and driver stay, the crash flag stays, the position does not decrease and a
    non-negative velocity stays non-negative. *)
Definition advanced (v v' : VehicleObj) : Prop :=
  veh_id v' = veh_id v /\ veh_length v' = veh_length v /\ veh_driver v' = veh_driver v
  /\ crashed (veh_state v') = crashed (veh_state v)
  /\ x (veh_state v) <= x (veh_state v')
  /\ (0 <= velocity (veh_state v) -> 0 <= velocity (veh_state v')).

(** A crashed vehicle placed on the one-lane network. *)
Definition wreck_world : World :=
  Vehicle_crash 0%nat (snd (Model_add_vehicle 7 IDM 500 None one_lane_world)).

(** Two lanes in a row (ids 1 and 2, references 0 and 1), the second downstream
    of the first, and one vehicle three metres before the end of the first,
    moving at 20 m/s. *)
Definition two_in_a_row : World :=
  Vehicle_set_velocity 0%nat 20
    (snd (Model_add_vehicle 1 IDM 997 None
       (Lane_set_downstream_lane 0%nat (Some 1%nat)
          (Model_add_lane 1%nat (Model_add_lane 0%nat
             (new_lane (Lane_init 2 LT_NORMAL 1000)
                (new_lane (Lane_init 1 LT_NORMAL 1000) empty_world))))))).

(** The model's vehicle accounts: the active count is the size of the vehicle
    registry, every vehicle ever added is active, completed or crashed, and the
    two id counters have issued one id per vehicle added. *)
Definition accounting_ok (w : World) : Prop :=
  active_vehicles (stats (model w)) = Z.of_nat (length (vehicles (model w)))
  /\ total_vehicles (stats (model w))
     = (active_vehicles (stats (model w)) + completed_vehicles (stats (model w))
        + crashed_vehicles (stats (model w)))%Z
  /\ (0 <= completed_vehicles (stats (model w)))%Z
  /\ (0 <= crashed_vehicles (stats (model w)))%Z
  /\ next_vehicle_id (model w) = (total_vehicles (stats (model w)) + 1)%Z
  /\ next_driver_id (model w) = next_vehicle_id (model w).

(** The parameters with which [create_driver] makes a driver. *)
Definition factory_made (d : DriverObj) : Prop :=
  match d with
  | IDMDriver d =>
      idm_type d = IDM
      /\ desired_speed d = 33.33 /\ time_headway d = 1.5 /\ min_spacing d = 2.0
      /\ max_acceleration d = 2.0 /\ comfortable_deceleration d = 3.0
      /\ acceleration_exponent d = 4%Z /\ politeness d = 0.5
      /\ lane_change_threshold d = 0.2 /\ min_lane_change_gap d = 10.0
  | SimpleDriver d =>
      sd_type d <> IDM
      /\ sd_desired_speed d = 30.0 /\ reaction_time d = 1.0
      /\ sd_max_acceleration d = 2.0 /\ max_deceleration d = 3.0
  end.

(** A store built through the interface: two vehicles are added to the one-lane
    network, the first is removed again and the simulation is stepped. *)
Definition busy_world (sqrt : Q -> Q) : World :=
  Model_step_simulation sqrt
    (Model_remove_vehicle 1
       (snd (Model_add_vehicle 7 AGGRESSIVE 10 None
          (snd (Model_add_vehicle 7 IDM 0 None
             (Model_add_lane 0%nat (new_lane (Lane_init 7 LT_NORMAL 1000) empty_world))))))).

(** The counters' update at the end of [add_vehicle]. *)
Definition count_added (st : SimulationStats) : SimulationStats :=
  mkStats (stats_current_time st) (total_vehicles st + 1) (active_vehicles st + 1)
    (completed_vehicles st) (crashed_vehicles st) (average_speed st)
    (total_flow st) (average_density st).

(** The attributes of the model that a tick leaves alone. *)
Definition controls (m : ModelObj) :=
  (sim_state m, stop_simulation_flag m, settings m, simulation_thread m, lanes m,
   next_vehicle_id m, next_driver_id m, start_time m).

(** The identifiers of the vehicles on a list, as the store [w] has them. *)
Definition ids_of (w : World) (vs : list ref) : list Z :=
  map (fun v => veh_attr w v veh_id 0%Z) vs.

(** Two vehicles on the first of three registered lanes, one on the second. *)
Definition three_vehicles : World :=
  snd (Model_add_vehicle 2 IDM 30 None
    (snd (Model_add_vehicle 1 IDM 20 None
      (snd (Model_add_vehicle 1 IDM 10 None three_lanes))))).

(** The calls a client makes on an observer list, and whether the last call
    that names observer [o] registers it. *)
Inductive ObserverCall :=
| CallAddObserver (o : ref)
| CallRemoveObserver (o : ref).

Definition observer_call (observers : list ref) (c : ObserverCall) : list ref :=
  match c with
  | CallAddObserver o => add_observer o observers
  | CallRemoveObserver o => remove_observer o observers
  end.

Definition last_call_adds (o : ref) (cs : list ObserverCall) : bool :=
  fold_left (fun b c =>
               match c with
               | CallAddObserver o' => if decide (o' = o) then true else b
               | CallRemoveObserver o' => if decide (o' = o) then false else b
               end) cs false.

(** The scenario's three lanes, created and linked, on top of the store [w]. *)
Definition scenario_lane (i : Z) (left right : option ref) : LaneObj :=
  mkLane i LT_NORMAL 2000.0 None None left right [] 33.33 3.5.

Definition scenario_network (w : World) : World :=
  let l := length (lane_heap w) in
  mkWorld (vehicle_heap w)
    (lane_heap w ++ [scenario_lane 0 None (Some (S l));
                     scenario_lane 1 (Some l) (Some (S (S l)));
                     scenario_lane 2 (Some (S l)) None])
    (driver_heap w) (route_heap w) (model w).

(** Two IDM vehicles on the one-lane network, at [x = 0] and [x = 5.5], before
    the neighbour caches are refreshed. *)
Definition two_on_a_lane : World :=
  snd (Model_add_vehicle 7 IDM 5.5 None
    (snd (Model_add_vehicle 7 IDM 0 None one_lane_world))).

(** * Properties *)

(** ** Comparisons on the idealised numbers *)

Lemma Qltb_lt (a b : Q) : Qltb a b = true <-> a < b.
Proof.
  unfold Qltb. rewrite negb_true_iff. split.
  - intros H. apply Qnot_le_lt. intros Hle.
    apply Qle_bool_iff in Hle. congruence.
  - intros H. destruct (Qle_bool b a) eqn:E; [|reflexivity].
    apply Qle_bool_iff in E. apply Qlt_not_le in H. contradiction.
Qed.

Lemma Qltb_ge (a b : Q) : Qltb a b = false <-> b <= a.
Proof.
  unfold Qltb. rewrite negb_false_iff. apply Qle_bool_iff.
Qed.

Lemma py_max_lower (a b : Q) : a <= py_max a b.
Proof.
  unfold py_max. destruct (Qltb a b) eqn:E.
  - apply Qltb_lt in E. apply Qlt_le_weak, E.
  - apply Qle_refl.
Qed.

(** ** Routes *)


Lemma advance_route_sequence (r : RouteObj) :
  lane_sequence (Route_advance_route r) = lane_sequence r.
Proof. unfold Route_advance_route. destruct (_ <? _)%Z; reflexivity. Qed.

Lemma advance_route_monotone (r : RouteObj) :
  (current_index r <= current_index (Route_advance_route r))%nat.
Proof. unfold Route_advance_route. destruct (_ <? _)%Z; simpl; lia. Qed.

Lemma advance_route_below (r : RouteObj) :
  (current_index r < length (lane_sequence r))%nat ->
  (current_index (Route_advance_route r) < length (lane_sequence r))%nat.
Proof.
  unfold Route_advance_route. intros H.
  destruct (_ <? _)%Z eqn:E; simpl; [|exact H].
  apply Z.ltb_lt in E. lia.
Qed.

Lemma route_calls_invariant (cs : list RouteCall) (r : RouteObj) :
  (current_index r < length (lane_sequence r))%nat ->
  lane_sequence (route_calls cs r) = lane_sequence r
  /\ (current_index r <= current_index (route_calls cs r))%nat
  /\ (current_index (route_calls cs r) < length (lane_sequence r))%nat.
Proof.
  revert r. induction cs as [|c cs IH]; intros r Hlt; simpl.
  - repeat split; [lia | exact Hlt].
  - destruct c; simpl; try (apply IH; exact Hlt).
    pose proof (advance_route_below r Hlt) as Hb.
    pose proof (advance_route_monotone r) as Hm.
    pose proof (advance_route_sequence r) as Hs.
    destruct (IH (Route_advance_route r)) as (H1 & H2 & H3).
    + rewrite Hs. exact Hb.
    + rewrite Hs in *. repeat split; [exact H1 | lia | exact H3].
Qed.

(** C6.  On a route over a non-empty lane sequence, whatever calls are made, the
    cursor never decreases, [is_route_complete] answers exactly whether the
    cursor has reached the length of the sequence — and it never has:
    [advance_route] stops one short, so the route never completes. *)
Theorem C6_route_never_completes (route_id first : Z) (rest : list Z) (cs : list RouteCall) :
  let r0 := Route_init route_id (first :: rest) in
  let r := route_calls cs r0 in
  (current_index r0 <= current_index r)%nat
  /\ (Route_is_route_complete r = true
      <-> (length (lane_sequence r) <= current_index r)%nat)
  /\ Route_is_route_complete r = false.
Proof.
  intros r0 r.
  destruct (route_calls_invariant cs r0) as (Hs & Hm & Hb); [simpl; lia|].
  fold r in Hs, Hm, Hb. split; [exact Hm|]. split.
  - unfold Route_is_route_complete. apply Nat.leb_le.
  - unfold Route_is_route_complete. apply Nat.leb_gt. rewrite Hs. exact Hb.
Qed.

(** ** Spatial queries *)

Section Extremal.
Context {A : Type} (key : A -> Q).

Lemma min_from_spec (l : list A) (best : A) :
  In (min_from key best l) (best :: l)
  /\ forall u, In u (best :: l) -> key (min_from key best l) <= key u.
Proof.
  revert best. induction l as [|a l IH]; intros best; simpl.
  - split; [left; reflexivity|]. intros u [<-|[]]. apply Qle_refl.
  - destruct (Qltb (key a) (key best)) eqn:E.
    + destruct (IH a) as [Hin Hmin]. split.
      * destruct Hin as [Hin|Hin]; [right; left; exact Hin | right; right; exact Hin].
      * intros u [<-|Hu].
        -- apply Qltb_lt in E. eapply Qle_trans; [apply Hmin; left; reflexivity|].
           apply Qlt_le_weak, E.
        -- apply Hmin. exact Hu.
    + destruct (IH best) as [Hin Hmin]. split.
      * destruct Hin as [Hin|Hin]; [left; exact Hin | right; right; exact Hin].
      * intros u [<-|[<-|Hu]].
        -- apply Hmin. left; reflexivity.
        -- apply Qltb_ge in E. eapply Qle_trans; [apply Hmin; left; reflexivity|exact E].
        -- apply Hmin. right; exact Hu.
Qed.

Lemma max_from_spec (l : list A) (best : A) :
  In (max_from key best l) (best :: l)
  /\ forall u, In u (best :: l) -> key u <= key (max_from key best l).
Proof.
  revert best. induction l as [|a l IH]; intros best; simpl.
  - split; [left; reflexivity|]. intros u [<-|[]]. apply Qle_refl.
  - destruct (Qltb (key best) (key a)) eqn:E.
    + destruct (IH a) as [Hin Hmax]. split.
      * destruct Hin as [Hin|Hin]; [right; left; exact Hin | right; right; exact Hin].
      * intros u [<-|Hu].
        -- apply Qltb_lt in E. eapply Qle_trans; [|apply Hmax; left; reflexivity].
           apply Qlt_le_weak, E.
        -- apply Hmax. exact Hu.
    + destruct (IH best) as [Hin Hmax]. split.
      * destruct Hin as [Hin|Hin]; [left; exact Hin | right; right; exact Hin].
      * intros u [<-|[<-|Hu]].
        -- apply Hmax. left; reflexivity.
        -- apply Qltb_ge in E. eapply Qle_trans; [exact E|apply Hmax; left; reflexivity].
        -- apply Hmax. right; exact Hu.
Qed.
End Extremal.

(** C9.  [get_leading_vehicle] returns a vehicle of the lane strictly ahead of
    [position] whose [x] is smallest among those ahead, and [None] exactly when no
    vehicle is ahead; [get_following_vehicle] likewise with the largest [x]
    strictly behind.  Nothing is assumed about the order of the lane's list. *)
Theorem C9_leader_follower_any_order (w : World) (lane : ref) (position : Q) :
  match Lane_get_leading_vehicle w lane position with
  | Some v =>
      In v (Lane_vehicles w lane) /\ position < Vehicle_get_x w v
      /\ forall u, In u (Lane_vehicles w lane) -> position < Vehicle_get_x w u ->
                   Vehicle_get_x w v <= Vehicle_get_x w u
  | None => forall u, In u (Lane_vehicles w lane) -> ~ position < Vehicle_get_x w u
  end
  /\
  match Lane_get_following_vehicle w lane position with
  | Some v =>
      In v (Lane_vehicles w lane) /\ Vehicle_get_x w v < position
      /\ forall u, In u (Lane_vehicles w lane) -> Vehicle_get_x w u < position ->
                   Vehicle_get_x w u <= Vehicle_get_x w v
  | None => forall u, In u (Lane_vehicles w lane) -> ~ Vehicle_get_x w u < position
  end.
Proof.
  split.
  - unfold Lane_get_leading_vehicle.
    destruct (List.filter _ _) as [|c cs] eqn:E.
    + intros u Hu Hlt.
      assert (Hin : In u (List.filter (fun v => Qltb position (Vehicle_get_x w v))
                            (Lane_vehicles w lane))).
      { apply filter_In. split; [exact Hu | apply Qltb_lt, Hlt]. }
      rewrite E in Hin. destruct Hin.
    + destruct (min_from_spec (Vehicle_get_x w) cs c) as [Hin Hmin].
      rewrite <- E in Hin, Hmin. apply filter_In in Hin as [Hin Hahead].
      split; [exact Hin|]. split; [apply Qltb_lt, Hahead|].
      intros u Hu Hlt. apply Hmin, filter_In. split; [exact Hu | apply Qltb_lt, Hlt].
  - unfold Lane_get_following_vehicle.
    destruct (List.filter _ _) as [|c cs] eqn:E.
    + intros u Hu Hlt.
      assert (Hin : In u (List.filter (fun v => Qltb (Vehicle_get_x w v) position)
                            (Lane_vehicles w lane))).
      { apply filter_In. split; [exact Hu | apply Qltb_lt, Hlt]. }
      rewrite E in Hin. destruct Hin.
    + destruct (max_from_spec (Vehicle_get_x w) cs c) as [Hin Hmax].
      rewrite <- E in Hin, Hmax. apply filter_In in Hin as [Hin Hbehind].
      split; [exact Hin|]. split; [apply Qltb_lt, Hbehind|].
      intros u Hu Hlt. apply Hmax, filter_In. split; [exact Hu | apply Qltb_lt, Hlt].
Qed.

(** ** Reading the store after an update *)

Lemma veh_attr_upd_vehicle {A} (w : World) (r r' : ref) (f : VehicleObj -> VehicleObj)
    (g : VehicleObj -> A) (d : A) :
  veh_attr (upd_vehicle r f w) r' g d
  = if decide (r = r') then veh_attr w r' (fun v => g (f v)) d else veh_attr w r' g d.
Proof.
  unfold veh_attr, upd_vehicle. simpl.
  destruct (decide (r = r')) as [->|Hne].
  - rewrite list_lookup_alter_eq. destruct (vehicle_heap w !! r'); reflexivity.
  - rewrite list_lookup_alter_ne by exact Hne. reflexivity.
Qed.

Lemma veh_attr_upd_vehicle_frame {A} (w : World) (r r' : ref) (f : VehicleObj -> VehicleObj)
    (g : VehicleObj -> A) (d : A) :
  (forall v, g (f v) = g v) ->
  veh_attr (upd_vehicle r f w) r' g d = veh_attr w r' g d.
Proof.
  intros Hg. rewrite veh_attr_upd_vehicle. destruct (decide (r = r')); [|reflexivity].
  unfold veh_attr. destruct (vehicle_heap w !! r'); [apply Hg | reflexivity].
Qed.

Lemma veh_attr_upd_lane {A} (w : World) (l r : ref) (f : LaneObj -> LaneObj)
    (g : VehicleObj -> A) (d : A) :
  veh_attr (upd_lane l f w) r g d = veh_attr w r g d.
Proof. reflexivity. Qed.

Lemma veh_attr_upd_model {A} (w : World) (r : ref) (f : ModelObj -> ModelObj)
    (g : VehicleObj -> A) (d : A) :
  veh_attr (upd_model f w) r g d = veh_attr w r g d.
Proof. reflexivity. Qed.

Lemma lane_attr_upd_vehicle {A} (w : World) (l r : ref) (f : VehicleObj -> VehicleObj)
    (g : LaneObj -> A) (d : A) :
  lane_attr (upd_vehicle r f w) l g d = lane_attr w l g d.
Proof. reflexivity. Qed.

Lemma lane_attr_upd_lane {A} (w : World) (l l' : ref) (f : LaneObj -> LaneObj)
    (g : LaneObj -> A) (d : A) :
  lane_attr (upd_lane l f w) l' g d
  = if decide (l = l') then lane_attr w l' (fun L => g (f L)) d else lane_attr w l' g d.
Proof.
  unfold lane_attr, upd_lane. simpl.
  destruct (decide (l = l')) as [->|Hne].
  - rewrite list_lookup_alter_eq. destruct (lane_heap w !! l'); reflexivity.
  - rewrite list_lookup_alter_ne by exact Hne. reflexivity.
Qed.

Lemma lane_attr_upd_lane_frame {A} (w : World) (l l' : ref) (f : LaneObj -> LaneObj)
    (g : LaneObj -> A) (d : A) :
  (forall L, g (f L) = g L) ->
  lane_attr (upd_lane l f w) l' g d = lane_attr w l' g d.
Proof.
  intros Hg. rewrite lane_attr_upd_lane. destruct (decide (l = l')); [|reflexivity].
  unfold lane_attr. destruct (lane_heap w !! l'); [apply Hg | reflexivity].
Qed.

(** Entering and leaving a lane touch, of a vehicle, only its lane reference. *)
Lemma veh_attr_Lane_add_vehicle {A} (w : World) (l v r : ref) (g : VehicleObj -> A) (d : A) :
  (forall o l', g (set_veh_lane l' o) = g o) ->
  veh_attr (Lane_add_vehicle l v w) r g d = veh_attr w r g d.
Proof.
  intros Hg. unfold Lane_add_vehicle. destruct (decide _); [reflexivity|].
  rewrite veh_attr_upd_vehicle_frame by (intros; apply Hg). reflexivity.
Qed.

Lemma veh_attr_Lane_remove_vehicle {A} (w : World) (l v r : ref) (g : VehicleObj -> A) (d : A) :
  veh_attr (Lane_remove_vehicle l v w) r g d = veh_attr w r g d.
Proof. unfold Lane_remove_vehicle. destruct (decide _); reflexivity. Qed.


Lemma veh_attr_end_lane_change {A} (w : World) (self r : ref) (g : VehicleObj -> A) (d : A) :
  lateral_blind g ->
  veh_attr (Vehicle_end_lane_change self w) r g d = veh_attr w r g d.
Proof.
  intros (Hl & Hp & Hq & Hc). unfold Vehicle_end_lane_change.
  destruct (Vehicle_is_changing_lane w self); [|reflexivity].
  rewrite veh_attr_upd_vehicle_frame by (intros; rewrite Hq, Hc, Hp; reflexivity).
  destruct (match veh_attr w self lc_direction None with
            | Some LEFT => _ | Some RIGHT => _ | None => _ end); [|reflexivity].
  rewrite veh_attr_Lane_add_vehicle by exact Hl.
  rewrite veh_attr_upd_vehicle_frame by (intros; apply Hl).
  apply veh_attr_Lane_remove_vehicle.
Qed.


Lemma veh_attr_after_lateral {A} (w : World) (self r : ref) (dt : Q)
    (g : VehicleObj -> A) (d : A) :
  lateral_blind g ->
  veh_attr (after_lateral self dt w) r g d = veh_attr w r g d.
Proof.
  intros Hg. unfold after_lateral.
  destruct (negb _); [|reflexivity].
  assert (Hp : veh_attr
                 (upd_vehicle self
                    (on_state (fun s =>
                       set_lane_change_progress
                         (lane_change_progress s + veh_attr w self dy 0 * dt) s)) w) r g d
               = veh_attr w r g d).
  { apply veh_attr_upd_vehicle_frame. intros v. destruct Hg as (_ & Hp & _).
    exact (Hp v _). }
  destruct (Qle_bool 1 _); [|exact Hp].
  rewrite veh_attr_end_lane_change by exact Hg. exact Hp.
Qed.

Lemma lateral_blind_state {A} (g : VehicleState -> A) :
  (forall s p, g (set_lane_change_progress p s) = g s) ->
  lateral_blind (fun v => g (veh_state v)).
Proof. intros Hg. repeat split; intros; simpl; auto. Qed.

(** ** Integration *)

Lemma Vehicle_move_crashed (w : World) (self : ref) (dt : Q) :
  Vehicle_crashed w self = true -> Vehicle_move self dt w = w.
Proof. intros H. unfold Vehicle_move. rewrite H. reflexivity. Qed.

Lemma lookup_valid {A} (l : list A) (i : nat) :
  (i < length l)%nat -> exists a, l !! i = Some a.
Proof. intros H. destruct (lookup_lt_is_Some_2 l i H) as [a Ha]. exists a. exact Ha. Qed.


Lemma Vehicle_move_velocity (w : World) (self : ref) (dt : Q) (v : VehicleObj) :
  vehicle_heap w !! self = Some v ->
  Vehicle_crashed w self = false ->
  Vehicle_get_velocity (Vehicle_move self dt w) self
  = py_max 0 (velocity (veh_state v) + dt * acceleration (veh_state v)).
Proof.
  intros Hv Hc. unfold Vehicle_move. rewrite Hc. fold (after_lateral self dt w).
  cbv zeta. unfold Vehicle_get_velocity at 1.
  repeat (rewrite veh_attr_upd_vehicle; rewrite decide_True by reflexivity).
  simpl.
  rewrite (veh_attr_after_lateral w self self dt
             (fun o => py_max 0 (velocity (veh_state o) + dt * acceleration (veh_state o)))).
  - unfold veh_attr. rewrite Hv. reflexivity.
  - repeat split; intros; reflexivity.
Qed.

Lemma Vehicle_move_x (w : World) (self : ref) (dt : Q) (v : VehicleObj) :
  vehicle_heap w !! self = Some v ->
  Vehicle_crashed w self = false ->
  Vehicle_get_x (Vehicle_move self dt w) self = x (veh_state v) + displacement w self dt.
Proof.
  intros Hv Hc. unfold Vehicle_move. rewrite Hc. fold (after_lateral self dt w).
  cbv zeta. unfold Vehicle_get_x at 1.
  repeat (rewrite veh_attr_upd_vehicle; rewrite decide_True by reflexivity).
  simpl.
  assert (Hvel : Vehicle_get_velocity (after_lateral self dt w) self
                 = Vehicle_get_velocity w self).
  { apply veh_attr_after_lateral. repeat split; intros; reflexivity. }
  assert (Hacc : Vehicle_get_acceleration (after_lateral self dt w) self
                 = Vehicle_get_acceleration w self).
  { apply veh_attr_after_lateral. repeat split; intros; reflexivity. }
  rewrite Hvel, Hacc. fold (displacement w self dt).
  rewrite (veh_attr_after_lateral w self self dt
             (fun o => x (veh_state o) + displacement w self dt)).
  - unfold veh_attr. rewrite Hv. reflexivity.
  - repeat split; intros; reflexivity.
Qed.

Lemma Vehicle_crash_state (w : World) (self : ref) :
  (self < length (vehicle_heap w))%nat ->
  Vehicle_crashed (Vehicle_crash self w) self = true
  /\ Vehicle_get_velocity (Vehicle_crash self w) self = 0
  /\ Vehicle_get_acceleration (Vehicle_crash self w) self = 0.
Proof.
  intros Hlt. destruct (lookup_valid _ _ Hlt) as [v Hv].
  unfold Vehicle_crashed, Vehicle_get_velocity, Vehicle_get_acceleration, Vehicle_crash.
  rewrite !veh_attr_upd_vehicle, !decide_True by reflexivity.
  unfold veh_attr. rewrite Hv. simpl. repeat split.
Qed.

(** A velocity that is non-negative stays so under every method of the vehicle
    (and a new vehicle has velocity 0): the crashed vehicles that the code can
    produce have a non-negative velocity. *)
Lemma velocity_nonneg_invariant (self : ref) (cs : list VehicleCall) (w : World) :
  0 <= Vehicle_get_velocity w self ->
  0 <= Vehicle_get_velocity (fold_left (vehicle_call self) cs w) self.
Proof.
  revert w. induction cs as [|c cs IH]; intros w H; simpl; [exact H|].
  apply IH. destruct c; simpl.
  - unfold Vehicle_set_acceleration, Vehicle_get_velocity.
    rewrite veh_attr_upd_vehicle_frame by reflexivity. exact H.
  - unfold Vehicle_set_velocity, Vehicle_get_velocity.
    rewrite veh_attr_upd_vehicle, decide_True by reflexivity.
    unfold veh_attr. destruct (vehicle_heap w !! self); simpl;
      [apply py_max_lower | apply Qle_refl].
  - unfold Vehicle_crash, Vehicle_get_velocity.
    rewrite veh_attr_upd_vehicle, decide_True by reflexivity.
    unfold veh_attr. destruct (vehicle_heap w !! self); simpl; apply Qle_refl.
  - destruct (Vehicle_crashed w self) eqn:Hc.
    + rewrite Vehicle_move_crashed by exact Hc. exact H.
    + destruct (vehicle_heap w !! self) as [v|] eqn:Hv.
      * rewrite (Vehicle_move_velocity w self dt v Hv Hc). apply py_max_lower.
      * unfold Vehicle_move. rewrite Hc. fold (after_lateral self dt w). cbv zeta.
        unfold Vehicle_get_velocity.
        repeat (rewrite veh_attr_upd_vehicle; rewrite decide_True by reflexivity).
        simpl.
        rewrite (veh_attr_after_lateral w self self dt
                   (fun o => py_max 0 (velocity (veh_state o)
                                       + dt * acceleration (veh_state o))))
          by (repeat split; intros; reflexivity).
        unfold veh_attr. rewrite Hv. apply Qle_refl.
  - destruct (Vehicle_start_lane_change self d duration w) as [w'|] eqn:E.
    2: { unfold Vehicle_get_velocity. rewrite veh_attr_upd_vehicle_frame by reflexivity.
         exact H. }
    unfold Vehicle_start_lane_change in E. destruct (negb _).
    + destruct (py_div 1 duration); simpl in E; [|discriminate].
      injection E as <-. unfold Vehicle_get_velocity.
      rewrite veh_attr_upd_vehicle_frame by reflexivity. exact H.
    + injection E as <-. exact H.
  - unfold Vehicle_get_velocity.
    rewrite veh_attr_end_lane_change by (repeat split; intros; reflexivity). exact H.
  - unfold Vehicle_update_surrounding, Vehicle_get_velocity.
    rewrite veh_attr_upd_vehicle_frame by reflexivity. exact H.
Qed.

(** C5.  For a time step [dt >= 0], [move] leaves the velocity non-negative and
    does not decrease [x]; a crashed vehicle does not move at all, so its velocity
    is the one it had, which is non-negative for every vehicle written through
    its methods ([velocity_nonneg_invariant]).  After [crash()] the vehicle is
    marked crashed with velocity and acceleration zero, and any sequence of later
    moves leaves the whole store, the vehicle included, as it is. *)
Theorem C5_move_clamps_crash_freezes (w : World) (self : ref) (dt : Q) :
  0 <= dt ->
  (self < length (vehicle_heap w))%nat ->
  (Vehicle_crashed w self = true -> 0 <= Vehicle_get_velocity w self) ->
  (0 <= Vehicle_get_velocity (Vehicle_move self dt w) self
   /\ Vehicle_get_x w self <= Vehicle_get_x (Vehicle_move self dt w) self)
  /\ (Vehicle_crashed (Vehicle_crash self w) self = true
      /\ Vehicle_get_velocity (Vehicle_crash self w) self = 0
      /\ Vehicle_get_acceleration (Vehicle_crash self w) self = 0
      /\ forall dts : list Q,
           fold_left (fun w' dt' => Vehicle_move self dt' w') dts (Vehicle_crash self w)
           = Vehicle_crash self w).
Proof.
  intros _ Hlt Hinv. split.
  - destruct (Vehicle_crashed w self) eqn:Hc.
    + rewrite Vehicle_move_crashed by exact Hc. split; [auto | apply Qle_refl].
    + destruct (lookup_valid _ _ Hlt) as [v Hv].
      rewrite (Vehicle_move_velocity w self dt v Hv Hc).
      rewrite (Vehicle_move_x w self dt v Hv Hc).
      split; [apply py_max_lower|].
      unfold Vehicle_get_x, veh_attr. rewrite Hv.
      pose proof (py_max_lower 0 (dt * Vehicle_get_velocity w self
                                  + 0.5 * Vehicle_get_acceleration w self * dt * dt)) as Hd.
      unfold displacement. lra.
  - destruct (Vehicle_crash_state w self Hlt) as (Hc & Hv & Ha).
    repeat split; try assumption.
    intros dts. induction dts as [|d dts IH]; simpl; [reflexivity|].
    rewrite Vehicle_move_crashed by exact Hc. exact IH.
Qed.

(** ** What the first phases of a tick can change *)


Lemma same_body_refl (v : VehicleObj) : same_body v v.
Proof. repeat split. Qed.

Lemma same_body_trans (a b c : VehicleObj) : same_body a b -> same_body b c -> same_body a c.
Proof.
  unfold same_body. intros (?&?&?&?&?&?&?&?&?) (?&?&?&?&?&?&?&?&?).
  repeat split; congruence.
Qed.

Lemma Forall2_same_body_refl (l : list VehicleObj) : Forall2 same_body l l.
Proof. induction l; constructor; [apply same_body_refl | assumption]. Qed.

Lemma Forall2_same_body_trans (a b c : list VehicleObj) :
  Forall2 same_body a b -> Forall2 same_body b c -> Forall2 same_body a c.
Proof.
  intros Hab. revert c. induction Hab; intros c Hbc; inversion Hbc; subst; constructor.
  - eapply same_body_trans; eassumption.
  - auto.
Qed.

Lemma only_vehicles_refl (w : World) : only_vehicles same_body w w.
Proof. repeat split. apply Forall2_same_body_refl. Qed.

Lemma only_vehicles_trans (a b c : World) :
  only_vehicles same_body a b -> only_vehicles same_body b c -> only_vehicles same_body a c.
Proof.
  intros (?&?&?&?&Hab) (?&?&?&?&Hbc). repeat split; try congruence.
  eapply Forall2_same_body_trans; eassumption.
Qed.

Lemma only_vehicles_upd (w : World) (r : ref) (f : VehicleObj -> VehicleObj) :
  (forall v, same_body v (f v)) -> only_vehicles same_body w (upd_vehicle r f w).
Proof.
  intros Hf. repeat split. simpl.
  apply Forall2_alter_r; [apply Forall2_same_body_refl|].
  intros a b _ _ Hab. eapply same_body_trans; [exact Hab | apply Hf].
Qed.

Lemma only_vehicles_fold {A} (step : World -> A -> World) (l : list A) (w : World) :
  (forall w a, only_vehicles same_body w (step w a)) ->
  only_vehicles same_body w (fold_left step l w).
Proof.
  intros Hstep. revert w. induction l as [|a l IH]; intros w; simpl.
  - apply only_vehicles_refl.
  - eapply only_vehicles_trans; [apply Hstep | apply IH].
Qed.

Lemma update_surrounding_only (w : World) (v : ref) (area : Enclosure) (o : option ref) :
  only_vehicles same_body w (Vehicle_update_surrounding v area o w).
Proof. apply only_vehicles_upd. intros u. repeat split. Qed.

Lemma update_vehicle_surroundings_only (w : World) (lane : ref) :
  only_vehicles same_body w (Lane_update_vehicle_surroundings lane w).
Proof.
  unfold Lane_update_vehicle_surroundings. apply only_vehicles_fold.
  intros w' v. unfold update_one_surroundings.
  repeat (eapply only_vehicles_trans; [|apply update_surrounding_only]).
  apply only_vehicles_refl.
Qed.

Lemma update_network_only (w : World) : only_vehicles same_body w (Model_update_network w).
Proof.
  unfold Model_update_network. apply only_vehicles_fold.
  intros w' lane. apply update_vehicle_surroundings_only.
Qed.

Lemma set_acceleration_only (w : World) (v : ref) (a : Q) :
  only_vehicles same_body w (Vehicle_set_acceleration v a w).
Proof. apply only_vehicles_upd. intros u. repeat split. Qed.

Lemma start_lane_change_only (w w' : World) (v : ref) (d : LatDirection) (duration : Q) :
  Vehicle_start_lane_change v d duration w = Some w' -> only_vehicles same_body w w'.
Proof.
  unfold Vehicle_start_lane_change. destruct (negb _).
  - destruct (py_div 1 duration); simpl; intros [= <-].
    apply only_vehicles_upd. intros u. repeat split.
  - intros [= <-]. apply only_vehicles_refl.
Qed.

Section DriversOnly.
Variable sqrt : Q -> Q.

Lemma consider_side_only (w : World) (d : IDMDriverObj) (vehicle lane : ref)
    (side : option ref) (direction : LatDirection) (o : outcome) :
  consider_side sqrt w d vehicle lane side direction = inl o ->
  only_vehicles same_body w (world_of o).
Proof.
  unfold consider_side. destruct side as [target|]; [|discriminate].
  destruct (IDMDriver_should_change_lane sqrt w d target) as [[|]|].
  - destruct (Lane_is_safe_lane_change _ _ _ _ _); [|discriminate].
    destruct (Vehicle_start_lane_change _ _ _ _) as [w'|] eqn:E; intros [= <-]; simpl.
    + eapply start_lane_change_only, E.
    + apply only_vehicles_refl.
  - discriminate.
  - intros [= <-]. apply only_vehicles_refl.
Qed.

Lemma consider_lane_change_only (w : World) (d : IDMDriverObj) :
  only_vehicles same_body w (world_of (IDMDriver_consider_lane_change sqrt w d)).
Proof.
  unfold IDMDriver_consider_lane_change.
  destruct (idm_vehicle d) as [vehicle|]; [|apply only_vehicles_refl].
  destruct (Vehicle_is_changing_lane w vehicle); [apply only_vehicles_refl|].
  destruct (consider_side sqrt w d vehicle _ (Lane_get_left_lane _ _) LEFT) as [o|[]] eqn:El.
  - eapply consider_side_only, El.
  - destruct (consider_side sqrt w d vehicle _ (Lane_get_right_lane _ _) RIGHT)
      as [o|[]] eqn:Er.
    + eapply consider_side_only, Er.
    + apply only_vehicles_refl.
Qed.

Lemma Driver_drive_only (w : World) (driver : ref) :
  only_vehicles same_body w (drive_caught sqrt w driver).
Proof.
  unfold drive_caught, Driver_drive.
  destruct (driver_heap w !! driver) as [[d|d]|]; [| |apply only_vehicles_refl].
  - unfold IDMDriver_drive.
    destruct (idm_vehicle d) as [vehicle|]; [|apply only_vehicles_refl].
    destruct (Vehicle_crashed w vehicle); [apply only_vehicles_refl|].
    destruct (IDMDriver_calculate_acceleration sqrt w d) as [a|]; [|apply only_vehicles_refl].
    eapply only_vehicles_trans; [apply set_acceleration_only|].
    apply consider_lane_change_only.
  - unfold SimpleDriver_drive.
    destruct (sd_vehicle d) as [vehicle|]; [|apply only_vehicles_refl].
    destruct (Vehicle_crashed w vehicle); [apply only_vehicles_refl|].
    apply set_acceleration_only.
Qed.

Lemma drivers_phase_only (w : World) : only_vehicles same_body w (drivers_phase sqrt w).
Proof. unfold drivers_phase. apply only_vehicles_fold. apply Driver_drive_only. Qed.


Lemma before_integration_only (dt : Q) (w : World) :
  only_vehicles same_body (advance_clock dt w) (before_integration sqrt dt w).
Proof.
  unfold before_integration.
  eapply only_vehicles_trans; [apply update_network_only | apply drivers_phase_only].
Qed.
End DriversOnly.

(** ** The model through a tick *)

Lemma model_Lane_add_vehicle (w : World) (l v : ref) : model (Lane_add_vehicle l v w) = model w.
Proof. unfold Lane_add_vehicle. destruct (decide _); reflexivity. Qed.

Lemma model_Lane_remove_vehicle (w : World) (l v : ref) :
  model (Lane_remove_vehicle l v w) = model w.
Proof. unfold Lane_remove_vehicle. destruct (decide _); reflexivity. Qed.

Lemma model_end_lane_change (w : World) (self : ref) :
  model (Vehicle_end_lane_change self w) = model w.
Proof.
  unfold Vehicle_end_lane_change. destruct (Vehicle_is_changing_lane w self); [|reflexivity].
  simpl. destruct (match veh_attr w self lc_direction None with
                   | Some LEFT => _ | Some RIGHT => _ | None => _ end); [|reflexivity].
  rewrite model_Lane_add_vehicle. simpl. apply model_Lane_remove_vehicle.
Qed.

Lemma model_after_lateral (w : World) (self : ref) (dt : Q) :
  model (after_lateral self dt w) = model w.
Proof.
  unfold after_lateral. destruct (negb _); [|reflexivity].
  destruct (Qle_bool 1 _); [|reflexivity].
  rewrite model_end_lane_change. reflexivity.
Qed.

Lemma model_Vehicle_move (w : World) (self : ref) (dt : Q) :
  model (Vehicle_move self dt w) = model w.
Proof.
  unfold Vehicle_move. destruct (Vehicle_crashed w self); [reflexivity|].
  fold (after_lateral self dt w). simpl. apply model_after_lateral.
Qed.

Lemma model_remove_vehicle_blind {A} (g : ModelObj -> A) (w : World) (k : Z) :
  registry_blind g -> g (model (Model_remove_vehicle k w)) = g (model w).
Proof.
  intros (Hd & Hv & Hs). unfold Model_remove_vehicle.
  destruct (dict_get k (vehicles (model w))) as [vehicle|]; [|reflexivity].
  simpl. unfold on_stats. rewrite Hs, Hv.
  destruct (veh_attr _ vehicle veh_driver None) as [driver|].
  - destruct (dict_mem _ _); simpl; rewrite ?Hd, model_Lane_remove_vehicle; reflexivity.
  - rewrite model_Lane_remove_vehicle. reflexivity.
Qed.

Lemma move_and_check_blind {A} (g : ModelObj -> A) (w : World) (dt : Q) (v : ref) :
  registry_blind g -> g (model (move_and_check dt w v)) = g (model w).
Proof.
  intros Hg. unfold move_and_check.
  destruct (Model_has_vehicle_exited _ _).
  - rewrite model_remove_vehicle_blind by exact Hg. rewrite model_Vehicle_move. reflexivity.
  - rewrite model_Vehicle_move. reflexivity.
Qed.

Lemma fold_move_and_check_blind {A} (g : ModelObj -> A) (dt : Q) (vs : list ref) (w : World) :
  registry_blind g -> g (model (fold_left (move_and_check dt) vs w)) = g (model w).
Proof.
  intros Hg. revert w. induction vs as [|v vs IH]; intros w; simpl; [reflexivity|].
  rewrite IH. apply move_and_check_blind, Hg.
Qed.

Lemma update_statistics_blind {A} (g : ModelObj -> A) (w : World) :
  registry_blind g -> g (model (Model_update_statistics w)) = g (model w).
Proof. intros (_ & _ & Hs). unfold Model_update_statistics. simpl. apply Hs. Qed.

Lemma update_simulation_blind {A} (sqrt : Q -> Q) (g : ModelObj -> A) (dt : Q) (w : World) :
  registry_blind g ->
  g (model (Model_update_simulation sqrt dt w)) = g (model (advance_clock dt w)).
Proof.
  intros Hg. unfold Model_update_simulation.
  rewrite update_statistics_blind by exact Hg.
  unfold vehicles_phase. rewrite fold_move_and_check_blind by exact Hg.
  destruct (before_integration_only sqrt dt w) as (_ & _ & _ & Hm & _).
  unfold before_integration in Hm. rewrite Hm. reflexivity.
Qed.

(** C7.  In state STOPPED or PAUSED, [step_simulation] runs [_update_simulation]
    once with the configured [time_step] — the clock advances by exactly that
    much — and leaves the state PAUSED.  In state RUNNING it changes nothing, and
    neither does [start_simulation]. *)
Theorem C7_step_and_start (sqrt : Q -> Q) (now : Q) (w : World) :
  (sim_state (model w) = STOPPED \/ sim_state (model w) = PAUSED ->
   Model_step_simulation sqrt w
   = upd_model (set_sim_state PAUSED)
       (Model_update_simulation sqrt (time_step (settings (model w))) w)
   /\ current_time (model (Model_step_simulation sqrt w))
      = current_time (model w) + time_step (settings (model w))
   /\ sim_state (model (Model_step_simulation sqrt w)) = PAUSED)
  /\ (sim_state (model w) = RUNNING ->
      Model_step_simulation sqrt w = w /\ Model_start_simulation now w = w).
Proof.
  split.
  - intros Hs. unfold Model_step_simulation. rewrite decide_True by exact Hs.
    split; [reflexivity|]. split; [|reflexivity].
    change (current_time (model (Model_update_simulation sqrt (time_step (settings (model w))) w))
            = current_time (model w) + time_step (settings (model w))).
    rewrite (update_simulation_blind sqrt current_time).
    + reflexivity.
    + repeat split.
  - intros Hr. unfold Model_step_simulation, Model_start_simulation.
    rewrite (decide_True (P := sim_state (model w) = RUNNING)) by exact Hr.
    rewrite decide_False; [split; reflexivity|].
    rewrite Hr. intros [H|H]; discriminate.
Qed.

(** ** Adding a vehicle *)

Lemma create_driver_fresh (driver_id : Z) (driver_type : DriverType) :
  Driver_get_id (create_driver driver_id driver_type) = driver_id
  /\ Driver_get_vehicle (create_driver driver_id driver_type) = None
  /\ Driver_get_route (create_driver driver_id driver_type) = None.
Proof.
  unfold create_driver. destruct (decide _); [|repeat split].
  unfold IDMDriver_init, IDMDriver_adjust_parameters_for_type.
  destruct driver_type; repeat split.
Qed.

Lemma with_vehicle_spec (o : option ref) (d : DriverObj) :
  Driver_get_id (with_vehicle o d) = Driver_get_id d
  /\ Driver_get_vehicle (with_vehicle o d) = o
  /\ Driver_get_route (with_vehicle o d) = Driver_get_route d.
Proof. destruct d; repeat split. Qed.

Lemma with_route_spec (o : option ref) (d : DriverObj) :
  Driver_get_id (with_route o d) = Driver_get_id d
  /\ Driver_get_vehicle (with_route o d) = Driver_get_vehicle d
  /\ Driver_get_route (with_route o d) = o.
Proof. destruct d; repeat split. Qed.

(** The store after the four construction steps. *)
Lemma add_vehicle_construction (w : World) (lane : ref) (driver_type : DriverType)
    (pos : Q) (route : option ref) :
  let fr := add_vehicle_frame w lane driver_type pos route in
  let wp := fold_left (add_vehicle_step fr) (take 4 add_vehicle_steps) w in
  built fr w wp /\ model wp = model w /\ lane_heap wp = lane_heap w.
Proof.
  intros fr wp.
  assert (Hm : model wp = model w).
  { subst wp fr. simpl. destruct route; reflexivity. }
  assert (Hl : lane_heap wp = lane_heap w).
  { subst wp fr. simpl. destruct route; reflexivity. }
  split; [|split; assumption].
  destruct (create_driver_fresh (next_driver_id (model w)) driver_type) as (Hid & Hv & Hr).
  set (d0 := create_driver (next_driver_id (model w)) driver_type) in *.
  split.
  - subst wp fr. simpl. destruct route; simpl.
    + rewrite list_lookup_alter_eq, lookup_app_r by lia.
      rewrite Nat.sub_diag. reflexivity.
    + rewrite list_lookup_alter_eq, lookup_app_r by lia.
      rewrite Nat.sub_diag. reflexivity.
  - subst wp fr. simpl. destruct route as [r|]; simpl.
    + exists (with_route (Some r) (with_vehicle (Some (length (vehicle_heap w))) d0)).
      split.
      * rewrite !list_lookup_alter_eq, lookup_app_r by lia.
        rewrite Nat.sub_diag. reflexivity.
      * destruct (with_route_spec (Some r) (with_vehicle (Some (length (vehicle_heap w))) d0))
          as (-> & -> & ->).
        destruct (with_vehicle_spec (Some (length (vehicle_heap w))) d0) as (-> & -> & _).
        auto.
    + exists (with_vehicle (Some (length (vehicle_heap w))) d0).
      split.
      * rewrite list_lookup_alter_eq, lookup_app_r by lia.
        rewrite Nat.sub_diag. reflexivity.
      * destruct (with_vehicle_spec (Some (length (vehicle_heap w))) d0) as (-> & -> & ->).
        auto.
Qed.

(** ** The car-following acceleration *)

Lemma dict_get_absent {K V} `{EqDecision K} (k : K) (d : list (K * V)) :
  (forall k' o, In (k', o) d -> k' <> k) -> dict_get k d = None.
Proof.
  induction d as [|[k' o] d IH]; intros Hd; simpl; [reflexivity|].
  destruct (decide (k = k')) as [->|_].
  - exfalso. eapply Hd; [left; reflexivity | reflexivity].
  - apply IH. intros k'' o' Hin. eapply Hd. right. exact Hin.
Qed.

(** Whatever the neighbour cache holds under its [Enclosure] keys, the leader
    that [_calculate_acceleration] reads is [None]: the cache is asked for the
    string ['FRONT'], which is not one of its keys, and then for [None]. *)
Lemma calculate_acceleration_free_flow (sqrt : Q -> Q) (w : World) (d : IDMDriverObj)
    (vehicle : ref) (v : VehicleObj) :
  idm_vehicle d = Some vehicle ->
  vehicle_heap w !! vehicle = Some v ->
  (forall k o, In (k, o) (surrounding v) -> exists e, k = KEnc e) ->
  IDMDriver_calculate_acceleration sqrt w d
  = (ratio ← py_div (velocity (veh_state v)) (desired_speed d);
     p ← py_pow ratio (acceleration_exponent d);
     Some (max_acceleration d * (1 - p))).
Proof.
  intros Hd Hv Hkeys. unfold IDMDriver_calculate_acceleration. rewrite Hd.
  unfold Vehicle_get_vehicle, Vehicle_get_velocity, veh_attr. rewrite Hv.
  rewrite (dict_get_absent (KStr "FRONT")).
  - rewrite (dict_get_absent KNone).
    + reflexivity.
    + intros k o Hin ->. destruct (Hkeys _ _ Hin) as [e He]. discriminate.
  - intros k o Hin ->. destruct (Hkeys _ _ Hin) as [e He]. discriminate.
Qed.

(** C1 (the code departs from it).  In [follower_and_leader] the first vehicle is
    driven by an IDM driver, is not crashed, and its FRONT slot holds the second
    vehicle at net gap 1 > 0.  The specified acceleration against that leader is
    the floor [-3]; [drive()] sets the free-flow term [2] instead, as if no
    leader were there. *)
Theorem C1_drive_ignores_front_leader (sqrt : Q -> Q) :
  let w := follower_and_leader in
  exists d,
    driver_heap w !! 0%nat = Some (IDMDriver d)
    /\ idm_vehicle d = Some 0%nat
    /\ Vehicle_crashed w 0%nat = false
    /\ Vehicle_get_vehicle w 0%nat (KEnc FRONT) = Some 1%nat
    /\ Vehicle_get_gap w 0%nat 1%nat == 1
    /\ spec_idm_acceleration sqrt d (Vehicle_get_velocity w 0%nat)
         (Vehicle_get_velocity w 1%nat) (Vehicle_get_gap w 0%nat 1%nat) == -3
    /\ spec_free_acceleration d (Vehicle_get_velocity w 0%nat) == 2
    /\ Vehicle_get_acceleration (world_of (IDMDriver_drive sqrt w d)) 0%nat == 2.
Proof.
  intros w. eexists. split; [vm_compute; reflexivity|].
  split; [reflexivity|]. split; [reflexivity|]. split; [reflexivity|].
  split; [vm_compute; reflexivity|]. split; [|split; vm_compute; reflexivity].
  unfold spec_idm_acceleration.
  cbn [min_spacing time_headway max_acceleration comfortable_deceleration desired_speed].
  set (r := sqrt _).
  change (Vehicle_get_velocity w 0%nat) with 0.
  change (Vehicle_get_velocity w 1%nat) with 0.
  assert (Hg : Vehicle_get_gap w 0%nat 1%nat == 1) by (vm_compute; reflexivity).
  assert (Hb : 0 * (0 - 0) / (2 * r) == 0) by reflexivity.
  assert (H : 2.0 * (1 - (0 / 33.33) ^ 4
                     - ((2.0 + 0 * 1.5 + 0 * (0 - 0) / (2 * r))
                        / Vehicle_get_gap w 0%nat 1%nat) ^ 2) == -6).
  { rewrite Hb, Hg. reflexivity. }
  destruct (Qle_bool _ _) eqn:E.
  - apply Qle_bool_iff in E. rewrite H in E. exfalso. revert E.
    apply Qlt_not_le. reflexivity.
  - reflexivity.
Qed.

(** ** Order of a lane's vehicle list *)

Section InsertionSort.
Context {A : Type} (key : A -> Q).

Lemma insert_by_perm (a : A) (l : list A) : Permutation (insert_by key a l) (a :: l).
Proof.
  induction l as [|b l IH]; simpl; [reflexivity|].
  destruct (Qle_bool (key a) (key b)); [reflexivity|].
  rewrite IH. apply perm_swap.
Qed.

Lemma sort_by_perm (l : list A) : Permutation (sort_by key l) l.
Proof.
  induction l as [|a l IH]; simpl; [reflexivity|].
  rewrite insert_by_perm. constructor. exact IH.
Qed.

Lemma insert_by_HdRel (a b : A) (l : list A) :
  key b <= key a ->
  HdRel (fun a b => key a <= key b) b l ->
  HdRel (fun a b => key a <= key b) b (insert_by key a l).
Proof.
  intros Hba Hl. destruct l as [|c l]; simpl; [constructor; exact Hba|].
  destruct (Qle_bool (key a) (key c)); constructor; [exact Hba|].
  inversion Hl; assumption.
Qed.

Lemma insert_by_sorted (a : A) (l : list A) :
  Sorted (fun a b => key a <= key b) l -> Sorted (fun a b => key a <= key b) (insert_by key a l).
Proof.
  induction l as [|b l IH]; intros Hs; simpl.
  - repeat constructor.
  - destruct (Qle_bool (key a) (key b)) eqn:E.
    + constructor; [exact Hs|]. constructor. apply Qle_bool_iff, E.
    + inversion Hs as [|? ? Hs' Hhd]; subst. constructor; [apply IH, Hs'|].
      apply insert_by_HdRel; [|exact Hhd].
      apply Qlt_le_weak, Qnot_le_lt. intros Hle.
      apply Qle_bool_iff in Hle. congruence.
Qed.

Lemma sort_by_sorted (l : list A) : Sorted (fun a b => key a <= key b) (sort_by key l).
Proof.
  induction l as [|a l IH]; simpl; [constructor|]. apply insert_by_sorted, IH.
Qed.
End InsertionSort.

Lemma Lane_vehicles_after_add (w : World) (lane vehicle : ref) :
  vehicle ∉ Lane_vehicles w lane ->
  (lane < length (lane_heap w))%nat ->
  Lane_vehicles (Lane_add_vehicle lane vehicle w) lane
  = sort_by (Vehicle_get_x w) (Lane_vehicles w lane ++ [vehicle]).
Proof.
  intros Hnot Hlt. unfold Lane_add_vehicle. rewrite decide_False by exact Hnot.
  unfold Lane_vehicles at 1. rewrite lane_attr_upd_vehicle, lane_attr_upd_lane.
  rewrite decide_True by reflexivity.
  destruct (lookup_valid _ _ Hlt) as [L HL]. unfold lane_attr at 1. rewrite HL.
  reflexivity.
Qed.

Lemma Lane_vehicles_dangling (w : World) (lane : ref) :
  (length (lane_heap w) <= lane)%nat -> Lane_vehicles w lane = [].
Proof.
  intros H. unfold Lane_vehicles, lane_attr.
  rewrite lookup_ge_None_2 by exact H. reflexivity.
Qed.

Lemma length_lane_heap_add (w : World) (lane vehicle : ref) :
  length (lane_heap (Lane_add_vehicle lane vehicle w)) = length (lane_heap w).
Proof.
  unfold Lane_add_vehicle. destruct (decide _); [reflexivity|].
  simpl. apply length_alter.
Qed.

(** C2, amended.  A call of [add_vehicle] on a lane for a vehicle that is not yet
    in the lane's list leaves that list sorted by ascending [x], and the list is
    the old one with the vehicle inserted; a call for a vehicle already in the
    list leaves the store as it is. *)
Theorem C2_add_vehicle_sorts (w : World) (lane vehicle : ref) :
  (vehicle ∉ Lane_vehicles w lane ->
   let w' := Lane_add_vehicle lane vehicle w in
   sorted_by_x w' (Lane_vehicles w' lane)
   /\ ((lane < length (lane_heap w))%nat ->
       Permutation (Lane_vehicles w' lane) (vehicle :: Lane_vehicles w lane)))
  /\ (vehicle ∈ Lane_vehicles w lane -> Lane_add_vehicle lane vehicle w = w).
Proof.
  split.
  - intros Hnot w'.
    destruct (le_lt_dec (length (lane_heap w)) lane) as [Hge|Hlt].
    + split; [|lia]. rewrite Lane_vehicles_dangling.
      * constructor.
      * subst w'. rewrite length_lane_heap_add. exact Hge.
    + subst w'. rewrite Lane_vehicles_after_add by assumption. split.
      * unfold sorted_by_x.
        assert (Hx : forall r, Vehicle_get_x (Lane_add_vehicle lane vehicle w) r
                               = Vehicle_get_x w r).
        { intros r. apply veh_attr_Lane_add_vehicle. reflexivity. }
        pose proof (sort_by_sorted (Vehicle_get_x w) (Lane_vehicles w lane ++ [vehicle]))
          as Hs.
        revert Hs. generalize (sort_by (Vehicle_get_x w) (Lane_vehicles w lane ++ [vehicle])).
        intros l Hs. induction Hs as [|a l Hs IH Hhd]; constructor; [exact IH|].
        destruct Hhd; constructor. rewrite !Hx. assumption.
      * intros _. rewrite sort_by_perm. rewrite Permutation_app_comm. reflexivity.
  - intros Hin. unfold Lane_add_vehicle. rewrite decide_True by exact Hin. reflexivity.
Qed.

(** C2 as stated fails: in [overtaking_world] the lane's list is sorted; one tick
    later the vehicle that was behind has passed the other one, and the list,
    which the tick does not re-sort, is no longer in ascending order.  A call of
    [add_vehicle] for a vehicle of the list does not restore the order either. *)
Lemma C2_tick_breaks_sortedness :
  let w := overtaking_world in
  let w' := Model_update_simulation sqrt_approx 0.1 w in
  let w'' := Lane_add_vehicle 0%nat 0%nat w' in
  sorted_by_x w (Lane_vehicles w 0%nat)
  /\ ~ sorted_by_x w' (Lane_vehicles w' 0%nat)
  /\ ~ sorted_by_x w'' (Lane_vehicles w'' 0%nat).
Proof.
  intros w w' w''.
  assert (Hl : Lane_vehicles w' 0%nat = [0%nat; 1%nat]) by (vm_compute; reflexivity).
  assert (Hbroken : ~ sorted_by_x w' (Lane_vehicles w' 0%nat)).
  { rewrite Hl. unfold sorted_by_x. intros Hs.
    inversion Hs as [|? ? _ Hhd]; subst. inversion Hhd as [|? ? Hle]; subst.
    revert Hle. vm_compute. intros H. apply H. reflexivity. }
  split; [|split; [exact Hbroken|]].
  - change (Lane_vehicles w 0%nat) with [0%nat; 1%nat]. unfold sorted_by_x.
    repeat constructor. vm_compute. discriminate.
  - assert (Hsame : w'' = w').
    { subst w''. unfold Lane_add_vehicle. rewrite Hl.
      rewrite decide_True by left. reflexivity. }
    rewrite Hsame. exact Hbroken.
Qed.

(** ** Completion of a lane change *)

(** C3 as stated fails.  The change starts while [B] is the left neighbour of the
    vehicle's lane [A]; when, with the change in progress, [C] is linked as the
    left neighbour instead, the move that brings the progress to 1 puts the
    vehicle on [C]: the target is the neighbour at completion, not the one at the
    start of the change. *)
Lemma C3_target_resolved_at_completion :
  let w' := Vehicle_move 0%nat 2 relinked in
  Vehicle_get_lane change_started 0%nat = 0%nat
  /\ Lane_get_left_lane change_started 0%nat = Some 1%nat
  /\ Vehicle_is_changing_lane relinked 0%nat = true
  /\ Vehicle_get_lane_change_progress relinked 0%nat + veh_attr relinked 0%nat dy 0 * 2 == 1
  /\ Vehicle_get_lane_change_progress w' 0%nat == 0
  /\ Vehicle_get_lane w' 0%nat = 2%nat
  /\ Lane_vehicles w' 1%nat = []
  /\ Lane_vehicles w' 2%nat = [0%nat]
  /\ Some (Vehicle_get_lane w' 0%nat) <> Lane_get_left_lane change_started 0%nat.
Proof. vm_compute. repeat split; try reflexivity. discriminate. Qed.

Lemma list_remove_absent (v : ref) (l : list ref) : v ∉ l -> list_remove v l = l.
Proof.
  induction l as [|a l IH]; intros Hn; simpl; [reflexivity|].
  destruct (decide (v = a)) as [->|Hne].
  - exfalso. apply Hn. left.
  - f_equal. apply IH. intros Hin. apply Hn. right. exact Hin.
Qed.

Lemma count_occ_list_remove (v : ref) (l : list ref) :
  count_occ Nat.eq_dec (list_remove v l) v = pred (count_occ Nat.eq_dec l v).
Proof.
  induction l as [|a l IH]; simpl; [reflexivity|].
  destruct (decide (v = a)) as [->|Hne].
  - destruct (Nat.eq_dec a a); [reflexivity | congruence].
  - simpl. destruct (Nat.eq_dec a v); [congruence | exact IH].
Qed.

Lemma Lane_vehicles_remove (w : World) (l l' v : ref) :
  Lane_vehicles (Lane_remove_vehicle l v w) l'
  = if decide (l = l') then list_remove v (Lane_vehicles w l') else Lane_vehicles w l'.
Proof.
  unfold Lane_remove_vehicle. destruct (decide (v ∈ Lane_vehicles w l)) as [Hin|Hnot].
  - unfold Lane_vehicles at 1. rewrite lane_attr_upd_lane.
    destruct (decide (l = l')) as [->|]; [|reflexivity].
    unfold Lane_vehicles, lane_attr. destruct (lane_heap w !! l'); reflexivity.
  - destruct (decide (l = l')) as [->|]; [|reflexivity].
    rewrite list_remove_absent by exact Hnot. reflexivity.
Qed.

Lemma Lane_vehicles_add_other (w : World) (l l' v : ref) :
  l <> l' -> Lane_vehicles (Lane_add_vehicle l v w) l' = Lane_vehicles w l'.
Proof.
  intros Hne. unfold Lane_add_vehicle. destruct (decide _); [reflexivity|].
  unfold Lane_vehicles at 1. rewrite lane_attr_upd_vehicle, lane_attr_upd_lane.
  rewrite decide_False by exact Hne. reflexivity.
Qed.

(** The record of a vehicle whose lane change has just been completed. *)
Lemma end_lane_change_reset (w : World) (self : ref) :
  Vehicle_is_changing_lane w self = true ->
  (self < length (vehicle_heap w))%nat ->
  let w' := Vehicle_end_lane_change self w in
  Vehicle_get_lane_change_progress w' self = 0
  /\ veh_attr w' self lc_direction None = None
  /\ veh_attr w' self dy 1 = 0.
Proof.
  intros Hc Hlt w'. subst w'. unfold Vehicle_end_lane_change. rewrite Hc.
  unfold Vehicle_get_lane_change_progress.
  rewrite !veh_attr_upd_vehicle, !decide_True by reflexivity.
  set (w1 := match _ with Some target => _ | None => w end).
  assert (Hlen : length (vehicle_heap w1) = length (vehicle_heap w)).
  { subst w1. destruct (match veh_attr w self lc_direction None with
                        | Some LEFT => _ | Some RIGHT => _ | None => _ end); [|reflexivity].
    unfold Lane_add_vehicle, Lane_remove_vehicle.
    repeat (destruct (decide _)); simpl; rewrite ?length_alter; reflexivity. }
  destruct (lookup_valid (vehicle_heap w1) self) as [v Hv]; [lia|].
  unfold veh_attr. rewrite Hv. simpl. auto.
Qed.

Lemma move_completes (w : World) (self : ref) (dt : Q) (v : VehicleObj) :
  vehicle_heap w !! self = Some v ->
  crashed (veh_state v) = false ->
  ~ dy v == 0 ->
  1 <= lane_change_progress (veh_state v) + dy v * dt ->
  after_lateral self dt w
  = Vehicle_end_lane_change self
      (upd_vehicle self
         (on_state (set_lane_change_progress
                      (lane_change_progress (veh_state v) + dy v * dt))) w)
  /\ Vehicle_is_changing_lane
       (upd_vehicle self
          (on_state (set_lane_change_progress
                       (lane_change_progress (veh_state v) + dy v * dt))) w) self = true.
Proof.
  intros Hv Hc Hdy Hp.
  assert (Hup : upd_vehicle self
                  (on_state (fun s =>
                     set_lane_change_progress
                       (lane_change_progress s + veh_attr w self dy 0 * dt) s)) w
                = upd_vehicle self
                    (on_state (set_lane_change_progress
                                 (lane_change_progress (veh_state v) + dy v * dt))) w).
  { unfold upd_vehicle. f_equal. apply list_alter_ext; [|reflexivity].
    intros v' Hv'. rewrite Hv in Hv'. injection Hv' as <-.
    unfold veh_attr. rewrite Hv. reflexivity. }
  unfold after_lateral. rewrite Hup.
  assert (Hd : Qeq_bool (veh_attr w self dy 0) 0 = false).
  { unfold veh_attr. rewrite Hv. destruct (Qeq_bool (dy v) 0) eqn:E; [|reflexivity].
    apply Qeq_bool_iff in E. contradiction. }
  rewrite Hd. simpl negb. cbv iota.
  assert (Hprog : Vehicle_get_lane_change_progress
                    (upd_vehicle self
                       (on_state (set_lane_change_progress
                                    (lane_change_progress (veh_state v) + dy v * dt))) w) self
                  = lane_change_progress (veh_state v) + dy v * dt).
  { unfold Vehicle_get_lane_change_progress. rewrite veh_attr_upd_vehicle.
    rewrite decide_True by reflexivity. unfold veh_attr. rewrite Hv. reflexivity. }
  split.
  - rewrite Hprog. apply Qle_bool_iff in Hp. rewrite Hp. reflexivity.
  - unfold Vehicle_is_changing_lane. rewrite veh_attr_upd_vehicle.
    rewrite decide_True by reflexivity. unfold veh_attr. rewrite Hv.
    unfold is_changing_lane. simpl. apply Qltb_lt. lra.
Qed.

Lemma end_lane_change_unfold (w : World) (self : ref) (v : VehicleObj) (d : LatDirection) :
  vehicle_heap w !! self = Some v ->
  Vehicle_is_changing_lane w self = true ->
  lc_direction v = Some d ->
  Vehicle_end_lane_change self w
  = upd_vehicle self
      (fun o => set_dy 0 (set_lc_direction None (on_state (set_lane_change_progress 0) o)))
      match neighbour_lane w (veh_lane v) d with
      | Some target =>
          Lane_add_vehicle target self
            (upd_vehicle self (set_veh_lane target)
               (Lane_remove_vehicle (veh_lane v) self w))
      | None => w
      end.
Proof.
  intros Hv Hc Hd. unfold Vehicle_end_lane_change. rewrite Hc.
  unfold Vehicle_get_lane, veh_attr. rewrite Hv, Hd.
  destruct d; reflexivity.
Qed.

Lemma count_occ_absent (l : list ref) (v : ref) : v ∉ l -> count_occ Nat.eq_dec l v = 0%nat.
Proof. intros H. apply count_occ_not_In. intros Hin. apply H, list_elem_of_In, Hin. Qed.

(** C3, amended.  When [move(dt)] brings the progress of a lane change to 1 or
    beyond, the progress is reset to 0 and the direction is cleared.  If the
    vehicle's lane has, at that moment, a neighbour on the side of the change,
    the vehicle leaves the list of its lane (where it was once), enters the list
    of that neighbour exactly once, and its lane reference is that neighbour; if
    there is none, the vehicle stays on its lane and no lane list changes. *)
Theorem C3_lane_change_completion (w : World) (self : ref) (dt : Q) (v : VehicleObj)
    (d : LatDirection) :
  vehicle_heap w !! self = Some v ->
  crashed (veh_state v) = false ->
  ~ dy v == 0 ->
  1 <= lane_change_progress (veh_state v) + dy v * dt ->
  lc_direction v = Some d ->
  let lane := veh_lane v in
  let w' := Vehicle_move self dt w in
  (Vehicle_get_lane_change_progress w' self = 0
   /\ veh_attr w' self lc_direction None = None)
  /\ (forall t, neighbour_lane w lane d = Some t ->
        t <> lane -> (t < length (lane_heap w))%nat ->
        count_occ Nat.eq_dec (Lane_vehicles w lane) self = 1%nat ->
        self ∉ Lane_vehicles w t ->
        Vehicle_get_lane w' self = t
        /\ count_occ Nat.eq_dec (Lane_vehicles w' lane) self = 0%nat
        /\ count_occ Nat.eq_dec (Lane_vehicles w' t) self = 1%nat)
  /\ (neighbour_lane w lane d = None ->
        Vehicle_get_lane w' self = lane /\ lane_heap w' = lane_heap w).
Proof.
  intros Hv Hc Hdy Hp Hd lane w'.
  destruct (move_completes w self dt v Hv Hc Hdy Hp) as [Hlat Hchg].
  set (wp := upd_vehicle self
               (on_state (set_lane_change_progress
                            (lane_change_progress (veh_state v) + dy v * dt))) w) in *.
  assert (Hvp : vehicle_heap wp !! self
                = Some (on_state (set_lane_change_progress
                                    (lane_change_progress (veh_state v) + dy v * dt)) v)).
  { subst wp. simpl. rewrite list_lookup_alter_eq, Hv. reflexivity. }
  assert (Hend : Vehicle_end_lane_change self wp
                 = upd_vehicle self
                     (fun o => set_dy 0 (set_lc_direction None
                                 (on_state (set_lane_change_progress 0) o)))
                     match neighbour_lane w lane d with
                     | Some target =>
                         Lane_add_vehicle target self
                           (upd_vehicle self (set_veh_lane target)
                              (Lane_remove_vehicle lane self wp))
                     | None => wp
                     end).
  { rewrite (end_lane_change_unfold wp self _ d Hvp Hchg Hd). reflexivity. }
  assert (Hlen : (self < length (vehicle_heap wp))%nat).
  { apply lookup_lt_Some in Hvp. exact Hvp. }
  destruct (end_lane_change_reset wp self Hchg Hlen) as (H0 & Hdir & _).
  remember (Vehicle_end_lane_change self wp) as we eqn:Hwe.
  assert (Hcr : Vehicle_crashed w self = false).
  { unfold Vehicle_crashed, veh_attr. rewrite Hv. exact Hc. }
  assert (Hmove : forall {A} (g : VehicleObj -> A) (dflt : A),
             (forall o f, g (on_state f o) = g o) ->
             veh_attr w' self g dflt = veh_attr we self g dflt).
  { intros A g dflt Hg. subst w'. unfold Vehicle_move.
    rewrite Hcr. fold (after_lateral self dt w). rewrite Hlat. cbv zeta.
    rewrite !veh_attr_upd_vehicle_frame; [reflexivity| | | |]; intros o; apply Hg. }
  assert (Hlanes : lane_heap w' = lane_heap we).
  { subst w'. unfold Vehicle_move.
    rewrite Hcr. fold (after_lateral self dt w). rewrite Hlat. reflexivity. }
  assert (Hlist : forall l, Lane_vehicles w' l = Lane_vehicles we l).
  { intros l. unfold Lane_vehicles, lane_attr. rewrite Hlanes. reflexivity. }
  split; [|split].
  - split.
    + (* progress: the longitudinal updates keep it *)
      subst w'. unfold Vehicle_move.
      rewrite Hcr. fold (after_lateral self dt w). rewrite Hlat. cbv zeta.
      unfold Vehicle_get_lane_change_progress.
      rewrite !veh_attr_upd_vehicle_frame; [exact H0| | | |]; intros o; reflexivity.
    + rewrite Hmove by reflexivity. exact Hdir.
  - intros t Ht Hne Hvalid Honce Hnot.
    rewrite Ht in Hend. subst we.
    assert (Hwb : Lane_vehicles
                    (upd_vehicle self (set_veh_lane t) (Lane_remove_vehicle lane self wp)) t
                  = Lane_vehicles w t).
    { unfold Lane_vehicles at 1. rewrite lane_attr_upd_vehicle.
      fold (Lane_vehicles (Lane_remove_vehicle lane self wp) t).
      rewrite Lane_vehicles_remove. rewrite decide_False by congruence. reflexivity. }
    split; [|split].
    + unfold Vehicle_get_lane. rewrite Hmove by reflexivity. rewrite Hend.
      rewrite veh_attr_upd_vehicle_frame by reflexivity.
      unfold Lane_add_vehicle. rewrite Hwb. rewrite decide_False by exact Hnot.
      rewrite veh_attr_upd_vehicle, decide_True by reflexivity.
      rewrite veh_attr_upd_lane, veh_attr_upd_vehicle, decide_True by reflexivity.
      rewrite veh_attr_Lane_remove_vehicle. unfold veh_attr. rewrite Hvp. reflexivity.
    + rewrite Hlist, Hend. unfold Lane_vehicles at 1. rewrite lane_attr_upd_vehicle.
      fold (Lane_vehicles
              (Lane_add_vehicle t self
                 (upd_vehicle self (set_veh_lane t) (Lane_remove_vehicle lane self wp))) lane).
      rewrite Lane_vehicles_add_other by exact Hne.
      unfold Lane_vehicles at 1. rewrite lane_attr_upd_vehicle.
      fold (Lane_vehicles (Lane_remove_vehicle lane self wp) lane).
      rewrite Lane_vehicles_remove, decide_True by reflexivity.
      rewrite count_occ_list_remove.
      change (Lane_vehicles wp lane) with (Lane_vehicles w lane). rewrite Honce. reflexivity.
    + rewrite Hlist, Hend. unfold Lane_vehicles at 1. rewrite lane_attr_upd_vehicle.
      fold (Lane_vehicles
              (Lane_add_vehicle t self
                 (upd_vehicle self (set_veh_lane t) (Lane_remove_vehicle lane self wp))) t).
      rewrite Lane_vehicles_after_add.
      * rewrite (proj1 (Permutation_count_occ Nat.eq_dec _ _) (sort_by_perm _ _) self).
        rewrite Hwb, count_occ_app, count_occ_absent by exact Hnot.
        simpl. destruct (Nat.eq_dec self self); [reflexivity | congruence].
      * rewrite Hwb. exact Hnot.
      * unfold Lane_remove_vehicle. destruct (decide _); simpl; rewrite ?length_alter;
          exact Hvalid.
  - intros Hnone. rewrite Hnone in Hend. subst we. split.
    + unfold Vehicle_get_lane. rewrite Hmove by reflexivity. rewrite Hend.
      rewrite veh_attr_upd_vehicle_frame by reflexivity.
      unfold veh_attr. rewrite Hvp. reflexivity.
    + rewrite Hlanes, Hend. reflexivity.
Qed.

(** ** A vehicle's move is local to its record and the lane links *)

Lemma heap_upd_vehicle (w : World) (r r' : ref) (f : VehicleObj -> VehicleObj) :
  vehicle_heap (upd_vehicle r f w) !! r'
  = if decide (r = r') then f <$> vehicle_heap w !! r' else vehicle_heap w !! r'.
Proof.
  simpl. destruct (decide (r = r')) as [->|Hne].
  - apply list_lookup_alter_eq.
  - apply list_lookup_alter_ne, Hne.
Qed.

Lemma heap_Lane_remove_vehicle (w : World) (l v : ref) :
  vehicle_heap (Lane_remove_vehicle l v w) = vehicle_heap w.
Proof. unfold Lane_remove_vehicle. destruct (decide _); reflexivity. Qed.

Lemma heap_Lane_add_vehicle (w : World) (l v r : ref) :
  vehicle_heap (Lane_add_vehicle l v w) !! r
  = if decide (v = r)
    then (if decide (v ∈ Lane_vehicles w l) then id else set_veh_lane l) <$> vehicle_heap w !! r
    else vehicle_heap w !! r.
Proof.
  unfold Lane_add_vehicle. destruct (decide (v ∈ _)).
  - destruct (decide (v = r)); [|reflexivity].
    destruct (vehicle_heap w !! r); reflexivity.
  - rewrite heap_upd_vehicle. reflexivity.
Qed.

Lemma statics_upd_vehicle (w : World) (r : ref) (f : VehicleObj -> VehicleObj) :
  statics (upd_vehicle r f w) = statics w.
Proof. reflexivity. Qed.

Lemma statics_upd_lane_vehicles (w : World) (l : ref) (f : LaneObj -> list ref) :
  statics (upd_lane l (fun L => set_lane_vehicles (f L) L) w) = statics w.
Proof.
  unfold statics. simpl. apply list_eq. intros i.
  rewrite !list_lookup_fmap. destruct (decide (l = i)) as [->|Hne].
  - rewrite list_lookup_alter_eq. destruct (lane_heap w !! i); reflexivity.
  - rewrite list_lookup_alter_ne by exact Hne. reflexivity.
Qed.

Lemma statics_Lane_remove_vehicle (w : World) (l v : ref) :
  statics (Lane_remove_vehicle l v w) = statics w.
Proof.
  unfold Lane_remove_vehicle. destruct (decide _); [|reflexivity].
  apply (statics_upd_lane_vehicles w l (fun L => list_remove v (lane_vehicles L))).
Qed.

Lemma statics_Lane_add_vehicle (w : World) (l v : ref) :
  statics (Lane_add_vehicle l v w) = statics w.
Proof.
  unfold Lane_add_vehicle. destruct (decide _); [reflexivity|].
  rewrite statics_upd_vehicle.
  apply (statics_upd_lane_vehicles w l
           (fun _ => sort_by (Vehicle_get_x w) (Lane_vehicles w l ++ [v]))).
Qed.

(** Lane attributes other than the vehicle list are read off the statics. *)
Lemma lane_attr_statics {A} (w1 w2 : World) (l : ref) (g : LaneObj -> A) (d : A) :
  statics w1 = statics w2 ->
  (forall L, g (lane_static L) = g L) ->
  lane_attr w1 l g d = lane_attr w2 l g d.
Proof.
  intros Hs Hg. unfold lane_attr.
  assert (H : lane_static <$> lane_heap w1 !! l = lane_static <$> lane_heap w2 !! l).
  { rewrite <- !list_lookup_fmap. unfold statics in Hs. rewrite Hs. reflexivity. }
  destruct (lane_heap w1 !! l) as [L1|], (lane_heap w2 !! l) as [L2|];
    try discriminate H; [|reflexivity].
  pose proof (f_equal (from_option g d) H) as H'.
  change (g (lane_static L1) = g (lane_static L2)) in H'.
  rewrite !Hg in H'. exact H'.
Qed.

Lemma neighbour_lane_statics (w1 w2 : World) (l : ref) (d : LatDirection) :
  statics w1 = statics w2 -> neighbour_lane w1 l d = neighbour_lane w2 l d.
Proof.
  intros Hs. destruct d; simpl; unfold Lane_get_left_lane, Lane_get_right_lane;
    apply lane_attr_statics; auto.
Qed.

Lemma exits_record_statics (w1 w2 : World) (v : VehicleObj) :
  statics w1 = statics w2 -> exits_record w1 v = exits_record w2 v.
Proof.
  intros Hs. unfold exits_record, Lane_length, Lane_get_downstream_lane.
  rewrite (lane_attr_statics w1 w2 _ lane_length 0 Hs) by reflexivity.
  rewrite (lane_attr_statics w1 w2 _ downstream_lane None Hs) by reflexivity.
  reflexivity.
Qed.

Lemma has_vehicle_exited_record (w : World) (r : ref) (v : VehicleObj) :
  vehicle_heap w !! r = Some v -> Model_has_vehicle_exited w r = exits_record w v.
Proof.
  intros Hv. unfold Model_has_vehicle_exited, exits_record, Vehicle_get_lane, Vehicle_get_x,
    veh_attr. rewrite Hv. reflexivity.
Qed.

Lemma end_lane_change_lookup (w : World) (self : ref) (v : VehicleObj) :
  vehicle_heap w !! self = Some v ->
  vehicle_heap (Vehicle_end_lane_change self w) !! self
  = Some (if is_changing_lane v then
            let target := match lc_direction v with
                          | Some d => neighbour_lane w (veh_lane v) d
                          | None => None
                          end in
            let v1 := match target with Some t => set_veh_lane t v | None => v end in
            set_dy 0 (set_lc_direction None (on_state (set_lane_change_progress 0) v1))
          else v).
Proof.
  intros Hv. unfold Vehicle_end_lane_change, Vehicle_is_changing_lane, Vehicle_get_lane.
  unfold veh_attr at 1. rewrite Hv.
  destruct (is_changing_lane v); [|exact Hv].
  rewrite heap_upd_vehicle, decide_True by reflexivity.
  unfold veh_attr. rewrite Hv.
  assert (Ht : match lc_direction v with
               | Some LEFT => Lane_get_left_lane w (veh_lane v)
               | Some RIGHT => Lane_get_right_lane w (veh_lane v)
               | None => None
               end
               = match lc_direction v with
                 | Some d => neighbour_lane w (veh_lane v) d
                 | None => None
                 end).
  { destruct (lc_direction v) as [[|]|]; reflexivity. }
  rewrite Ht. cbv zeta.
  destruct (match lc_direction v with
            | Some d => neighbour_lane w (veh_lane v) d
            | None => None
            end) as [t|].
  - rewrite heap_Lane_add_vehicle.
    rewrite (decide_True (P := self = self)) by reflexivity.
    rewrite heap_upd_vehicle.
    rewrite (decide_True (P := self = self)) by reflexivity.
    rewrite heap_Lane_remove_vehicle, Hv. simpl.
    destruct (decide _); reflexivity.
  - rewrite Hv. reflexivity.
Qed.

Lemma end_lane_change_lookup_other (w : World) (self r : ref) :
  self <> r ->
  vehicle_heap (Vehicle_end_lane_change self w) !! r = vehicle_heap w !! r.
Proof.
  intros Hne. unfold Vehicle_end_lane_change.
  destruct (Vehicle_is_changing_lane w self); [|reflexivity].
  rewrite heap_upd_vehicle, decide_False by exact Hne.
  destruct (match veh_attr w self lc_direction None with
            | Some LEFT => _ | Some RIGHT => _ | None => _ end); [|reflexivity].
  rewrite heap_Lane_add_vehicle.
  rewrite (decide_False (P := self = r)) by exact Hne.
  rewrite heap_upd_vehicle.
  rewrite (decide_False (P := self = r)) by exact Hne.
  rewrite heap_Lane_remove_vehicle. reflexivity.
Qed.

Lemma statics_end_lane_change (w : World) (self : ref) :
  statics (Vehicle_end_lane_change self w) = statics w.
Proof.
  unfold Vehicle_end_lane_change.
  destruct (Vehicle_is_changing_lane w self); [|reflexivity].
  rewrite statics_upd_vehicle.
  destruct (match veh_attr w self lc_direction None with
            | Some LEFT => _ | Some RIGHT => _ | None => _ end); [|reflexivity].
  rewrite statics_Lane_add_vehicle, statics_upd_vehicle.
  apply statics_Lane_remove_vehicle.
Qed.

Lemma after_lateral_lookup (w : World) (self : ref) (dt : Q) (v : VehicleObj) :
  vehicle_heap w !! self = Some v ->
  vehicle_heap (after_lateral self dt w) !! self
  = Some (lateral_record (neighbour_lane w (veh_lane v)) dt v).
Proof.
  intros Hv. unfold after_lateral, lateral_record.
  unfold veh_attr at 1. rewrite Hv.
  destruct (negb (Qeq_bool (dy v) 0)); [|exact Hv].
  set (vp := on_state (set_lane_change_progress
                         (lane_change_progress (veh_state v) + dy v * dt)) v).
  set (wp := upd_vehicle self _ w).
  assert (Hvp : vehicle_heap wp !! self = Some vp).
  { subst wp. rewrite heap_upd_vehicle, decide_True by reflexivity.
    rewrite Hv. unfold veh_attr. rewrite Hv. reflexivity. }
  unfold Vehicle_get_lane_change_progress, veh_attr. rewrite Hvp.
  cbv zeta. destruct (Qle_bool 1 _); [|exact Hvp].
  rewrite (end_lane_change_lookup wp self vp Hvp). reflexivity.
Qed.

Lemma after_lateral_lookup_other (w : World) (self r : ref) (dt : Q) :
  self <> r -> vehicle_heap (after_lateral self dt w) !! r = vehicle_heap w !! r.
Proof.
  intros Hne. unfold after_lateral. destruct (negb _); [|reflexivity].
  destruct (Qle_bool 1 _).
  - rewrite end_lane_change_lookup_other by exact Hne.
    rewrite heap_upd_vehicle, decide_False by exact Hne. reflexivity.
  - rewrite heap_upd_vehicle, decide_False by exact Hne. reflexivity.
Qed.

Lemma statics_after_lateral (w : World) (self : ref) (dt : Q) :
  statics (after_lateral self dt w) = statics w.
Proof.
  unfold after_lateral. destruct (negb _); [|reflexivity].
  destruct (Qle_bool 1 _); [|reflexivity].
  rewrite statics_end_lane_change. reflexivity.
Qed.

Lemma Vehicle_move_lookup (w : World) (self : ref) (dt : Q) (v : VehicleObj) :
  vehicle_heap w !! self = Some v ->
  vehicle_heap (Vehicle_move self dt w) !! self
  = Some (move_record (neighbour_lane w (veh_lane v)) dt v).
Proof.
  intros Hv. unfold Vehicle_move, move_record, Vehicle_crashed.
  unfold veh_attr at 1. rewrite Hv.
  destruct (crashed (veh_state v)); [exact Hv|].
  fold (after_lateral self dt w). cbv zeta.
  rewrite !heap_upd_vehicle, !decide_True by reflexivity.
  rewrite (after_lateral_lookup w self dt v Hv).
  unfold Vehicle_get_velocity, Vehicle_get_acceleration, veh_attr.
  rewrite (after_lateral_lookup w self dt v Hv). reflexivity.
Qed.

Lemma Vehicle_move_lookup_other (w : World) (self r : ref) (dt : Q) :
  self <> r -> vehicle_heap (Vehicle_move self dt w) !! r = vehicle_heap w !! r.
Proof.
  intros Hne. unfold Vehicle_move. destruct (Vehicle_crashed w self); [reflexivity|].
  fold (after_lateral self dt w). cbv zeta.
  rewrite !heap_upd_vehicle, !decide_False by exact Hne.
  apply after_lateral_lookup_other, Hne.
Qed.

Lemma statics_Vehicle_move (w : World) (self : ref) (dt : Q) :
  statics (Vehicle_move self dt w) = statics w.
Proof.
  unfold Vehicle_move. destruct (Vehicle_crashed w self); [reflexivity|].
  fold (after_lateral self dt w). cbv zeta.
  rewrite !statics_upd_vehicle. apply statics_after_lateral.
Qed.

Lemma lateral_record_id (nb : LatDirection -> option ref) (dt : Q) (v : VehicleObj) :
  veh_id (lateral_record nb dt v) = veh_id v
  /\ crashed (veh_state (lateral_record nb dt v)) = crashed (veh_state v)
  /\ veh_driver (lateral_record nb dt v) = veh_driver v.
Proof. unfold lateral_record. cbv zeta. repeat case_match; repeat split; reflexivity. Qed.

Lemma move_record_id (nb : LatDirection -> option ref) (dt : Q) (v : VehicleObj) :
  veh_id (move_record nb dt v) = veh_id v
  /\ crashed (veh_state (move_record nb dt v)) = crashed (veh_state v)
  /\ veh_driver (move_record nb dt v) = veh_driver v.
Proof.
  unfold move_record. destruct (crashed (veh_state v)) eqn:Hc; [auto|].
  destruct (lateral_record_id nb dt v) as (Hi & Hcr & Hdr). rewrite Hc in Hcr.
  unfold longitudinal_record. cbv zeta. simpl. auto.
Qed.

(** ** Dictionaries *)

Section DictFacts.
Context {V : Type}.
Implicit Types (d : list (Z * V)) (k : Z).

Lemma dict_get_In k d v : dict_get k d = Some v -> In (k, v) d.
Proof.
  induction d as [|[k' v'] d IH]; simpl; [discriminate|].
  destruct (decide (k = k')) as [->|_].
  - intros [= ->]. left. reflexivity.
  - intros H. right. apply IH, H.
Qed.

Lemma In_dict_keys k v d : In (k, v) d -> In k (dict_keys d).
Proof. intros H. unfold dict_keys. apply in_map_iff. exists (k, v). auto. Qed.

Lemma In_dict_get k d v : NoDup (dict_keys d) -> In (k, v) d -> dict_get k d = Some v.
Proof.
  induction d as [|[k' v'] d IH]; simpl; intros Hnd Hin; [destruct Hin|].
  apply NoDup_cons in Hnd as [Hk Hnd].
  destruct Hin as [[= -> ->]|Hin].
  - rewrite decide_True by reflexivity. reflexivity.
  - destruct (decide (k = k')) as [->|_]; [|apply IH; assumption].
    exfalso. apply Hk. apply list_elem_of_In. eapply In_dict_keys, Hin.
Qed.

Lemma dict_del_In k k' v d : In (k', v) (dict_del k d) -> In (k', v) d.
Proof.
  induction d as [|[k0 v0] d IH]; simpl; [auto|].
  destruct (decide (k = k0)); [auto|]. intros [H|H]; [left; exact H | right; apply IH, H].
Qed.

Lemma dict_del_keys_In k k' d : In k' (dict_keys (dict_del k d)) -> In k' (dict_keys d).
Proof.
  unfold dict_keys. rewrite !in_map_iff. intros [[k0 v0] [<- Hin]].
  exists (k0, v0). split; [reflexivity | eapply dict_del_In, Hin].
Qed.

Lemma dict_del_NoDup k d : NoDup (dict_keys d) -> NoDup (dict_keys (dict_del k d)).
Proof.
  induction d as [|[k0 v0] d IH]; simpl; intros Hnd; [exact Hnd|].
  apply NoDup_cons in Hnd as [Hk Hnd].
  destruct (decide (k = k0)); [exact Hnd|].
  simpl. apply NoDup_cons. split; [|apply IH, Hnd].
  intros Hin. apply Hk. apply list_elem_of_In, (dict_del_keys_In k), list_elem_of_In, Hin.
Qed.

Lemma dict_get_absent_key k d : ~ In k (dict_keys d) -> dict_get k d = None.
Proof.
  intros H. destruct (dict_get k d) as [v|] eqn:E; [|reflexivity].
  exfalso. apply H. eapply In_dict_keys, dict_get_In, E.
Qed.

Lemma dict_get_del_same k d : NoDup (dict_keys d) -> dict_get k (dict_del k d) = None.
Proof.
  induction d as [|[k0 v0] d IH]; simpl; intros Hnd; [reflexivity|].
  apply NoDup_cons in Hnd as [Hk Hnd].
  destruct (decide (k = k0)) as [->|Hne].
  - apply dict_get_absent_key. intros Hin. apply Hk, list_elem_of_In, Hin.
  - simpl. rewrite decide_False by exact Hne. apply IH, Hnd.
Qed.

Lemma dict_get_del_other k k' d : k <> k' -> dict_get k' (dict_del k d) = dict_get k' d.
Proof.
  intros Hne. induction d as [|[k0 v0] d IH]; simpl; [reflexivity|].
  destruct (decide (k = k0)) as [->|Hne0].
  - rewrite decide_False by congruence. reflexivity.
  - simpl. destruct (decide (k' = k0)); [reflexivity | exact IH].
Qed.

Lemma dict_del_length k d v :
  dict_get k d = Some v -> S (length (dict_del k d)) = length d.
Proof.
  induction d as [|[k0 v0] d IH]; simpl; [discriminate|].
  destruct (decide (k = k0)); [reflexivity|].
  intros H. simpl. rewrite IH by exact H. reflexivity.
Qed.

Lemma dict_del_In_other k k' v d : k <> k' -> In (k', v) d -> In (k', v) (dict_del k d).
Proof.
  intros Hne. induction d as [|[k0 v0] d IH]; simpl; [auto|].
  destruct (decide (k = k0)) as [->|_].
  - intros [[= -> ->]|H]; [congruence | exact H].
  - intros [H|H]; [left; exact H | right; apply IH, H].
Qed.
Lemma dict_del_absent k d : dict_get k d = None -> dict_del k d = d.
Proof.
  induction d as [|[k0 v0] d IH]; simpl; [reflexivity|].
  destruct (decide (k = k0)); [discriminate|]. intros H. rewrite IH by exact H. reflexivity.
Qed.

Lemma dict_get_del_None k k' d :
  NoDup (dict_keys d) -> dict_get k d = None -> dict_get k (dict_del k' d) = None.
Proof.
  intros Hnd H. destruct (decide (k' = k)) as [->|Hne].
  - apply dict_get_del_same, Hnd.
  - rewrite dict_get_del_other by exact Hne. exact H.
Qed.
End DictFacts.

Lemma registry_okb_ok (w : World) : registry_okb w = true -> registry_ok w.
Proof.
  unfold registry_okb, registry_ok. rewrite !andb_true_iff, forallb_forall.
  intros [[Hnd Hall] Hdr]. split; [apply bool_decide_eq_true in Hnd; exact Hnd|].
  split; [|apply bool_decide_eq_true in Hdr; exact Hdr].
  intros k r Hin. specialize (Hall _ Hin). simpl in Hall.
  destruct (vehicle_heap w !! r) as [v|]; [|discriminate].
  exists v. split; [reflexivity | apply Z.eqb_eq, Hall].
Qed.

(** ** Removing exited vehicles *)

Lemma remove_vehicle_registered (w : World) (k : Z) (r : ref) :
  dict_get k (vehicles (model w)) = Some r ->
  let w' := Model_remove_vehicle k w in
  vehicles (model w') = dict_del k (vehicles (model w))
  /\ vehicle_heap w' = vehicle_heap w
  /\ statics w' = statics w
  /\ stats (model w') = count_removed (Vehicle_crashed w r) (stats (model w))
  /\ driver_heap w' = driver_heap w
  /\ drivers (model w')
     = match driver_key w r with
       | Some kd => dict_del kd (drivers (model w))
       | None => drivers (model w)
       end.
Proof.
  intros Hk w'. subst w'. unfold Model_remove_vehicle. rewrite Hk.
  set (w1 := Lane_remove_vehicle (Vehicle_get_lane w r) r w).
  assert (Hm1 : model w1 = model w) by apply model_Lane_remove_vehicle.
  assert (Hh1 : vehicle_heap w1 = vehicle_heap w) by apply heap_Lane_remove_vehicle.
  assert (Hs1 : statics w1 = statics w) by apply statics_Lane_remove_vehicle.
  assert (Hd1 : driver_heap w1 = driver_heap w).
  { subst w1. unfold Lane_remove_vehicle. destruct (decide _); reflexivity. }
  assert (Hdr1 : veh_attr w1 r veh_driver None = veh_attr w r veh_driver None).
  { unfold veh_attr. rewrite Hh1. reflexivity. }
  assert (Hid1 : forall dr, Driver_id_of w1 dr = Driver_id_of w dr).
  { intros dr. unfold Driver_id_of. rewrite Hd1. reflexivity. }
  set (w2 := match veh_attr w1 r veh_driver None with
             | Some driver => _
             | None => w1
             end).
  assert (H2 : vehicles (model w2) = vehicles (model w) /\ stats (model w2) = stats (model w)
               /\ vehicle_heap w2 = vehicle_heap w /\ statics w2 = statics w
               /\ driver_heap w2 = driver_heap w
               /\ drivers (model w2)
                  = match driver_key w r with
                    | Some kd => dict_del kd (drivers (model w))
                    | None => drivers (model w)
                    end).
  { subst w2. unfold driver_key. rewrite Hdr1.
    destruct (veh_attr w r veh_driver None) as [driver|].
    - rewrite Hid1. unfold dict_mem.
      destruct (dict_get (Driver_id_of w driver) (drivers (model w1))) eqn:E;
        simpl; rewrite Hm1 in *; repeat split; auto.
      rewrite dict_del_absent by exact E. reflexivity.
    - rewrite Hm1. repeat split; auto. }
  destruct H2 as (Hv2 & Hst2 & Hh2 & Hs2 & Hd2 & Hdrv2).
  cbv zeta. simpl. unfold on_stats. simpl. rewrite Hv2, Hst2.
  repeat split; try assumption.
  f_equal. unfold Vehicle_crashed, veh_attr. simpl. rewrite Hh2. reflexivity.
Qed.

Lemma driver_heap_Vehicle_move (w : World) (self : ref) (dt : Q) :
  driver_heap (Vehicle_move self dt w) = driver_heap w.
Proof.
  unfold Vehicle_move. destruct (Vehicle_crashed w self); [reflexivity|].
  fold (after_lateral self dt w). simpl.
  unfold after_lateral. destruct (negb _); [|reflexivity].
  destruct (Qle_bool 1 _); [|reflexivity].
  unfold Vehicle_end_lane_change. destruct (Vehicle_is_changing_lane _ self); [|reflexivity].
  simpl. destruct (match veh_attr _ self lc_direction None with
                   | Some LEFT => _ | Some RIGHT => _ | None => _ end); [|reflexivity].
  unfold Lane_add_vehicle, Lane_remove_vehicle. repeat (destruct (decide _)); reflexivity.
Qed.

(** One iteration of the loop over the vehicles, for a registered vehicle. *)
Lemma move_and_check_step (w : World) (dt : Q) (r : ref) (v : VehicleObj) :
  vehicle_heap w !! r = Some v ->
  dict_get (veh_id v) (vehicles (model w)) = Some r ->
  let w' := move_and_check dt w r in
  let e := exits_from w dt r in
  vehicles (model w')
  = (if e then dict_del (veh_id v) (vehicles (model w)) else vehicles (model w))
  /\ (exists v', vehicle_heap w' !! r = Some v' /\ veh_id v' = veh_id v)
  /\ (forall r', r <> r' -> vehicle_heap w' !! r' = vehicle_heap w !! r')
  /\ statics w' = statics w
  /\ stats (model w')
     = (if e then count_removed (crashed (veh_state v)) (stats (model w))
        else stats (model w))
  /\ driver_heap w' = driver_heap w
  /\ drivers (model w')
     = (if e then match driver_key w r with
                  | Some kd => dict_del kd (drivers (model w))
                  | None => drivers (model w)
                  end
        else drivers (model w)).
Proof.
  intros Hv Hk w' e. subst w' e. unfold move_and_check, exits_from.
  pose proof (Vehicle_move_lookup w r dt v Hv) as Hv'.
  set (v' := move_record (neighbour_lane w (veh_lane v)) dt v) in *.
  destruct (move_record_id (neighbour_lane w (veh_lane v)) dt v) as (Hid & Hcr & Hdr).
  fold v' in Hid, Hcr, Hdr.
  assert (Hdh : driver_heap (Vehicle_move r dt w) = driver_heap w)
    by apply driver_heap_Vehicle_move.
  assert (Hkey : driver_key (Vehicle_move r dt w) r = driver_key w r).
  { unfold driver_key, Driver_id_of, veh_attr. rewrite Hv', Hv, Hdr, Hdh. reflexivity. }
  destruct (Model_has_vehicle_exited (Vehicle_move r dt w) r).
  - assert (Hreg : dict_get (veh_attr (Vehicle_move r dt w) r veh_id 0%Z)
                     (vehicles (model (Vehicle_move r dt w))) = Some r).
    { unfold veh_attr. rewrite Hv', Hid, model_Vehicle_move. exact Hk. }
    destruct (remove_vehicle_registered _ _ _ Hreg) as (Hvs & Hh & Hs & Hst & Hdh' & Hdrv).
    rewrite Hkey in Hdrv.
    unfold veh_attr in Hvs, Hh, Hs, Hst, Hdh', Hdrv |- *. rewrite Hv' in *. rewrite Hid in *.
    rewrite Hvs, Hh, Hs, Hst, Hdh', Hdrv, model_Vehicle_move, statics_Vehicle_move.
    split; [reflexivity|]. split; [exists v'; auto|].
    split; [intros r' Hne; apply Vehicle_move_lookup_other, Hne|].
    split; [reflexivity|].
    split; [unfold Vehicle_crashed, veh_attr; rewrite Hv', Hcr; reflexivity|].
    split; [exact Hdh | reflexivity].
  - rewrite model_Vehicle_move, statics_Vehicle_move.
    split; [reflexivity|]. split; [exists v'; auto|].
    split; [intros r' Hne; apply Vehicle_move_lookup_other, Hne|].
    repeat split; auto.
Qed.

Lemma move_record_ext (nb1 nb2 : LatDirection -> option ref) (dt : Q) (v : VehicleObj) :
  (forall d, nb1 d = nb2 d) -> move_record nb1 dt v = move_record nb2 dt v.
Proof.
  intros H. unfold move_record, lateral_record. cbv zeta.
  change (lc_direction (on_state (set_lane_change_progress
            (lane_change_progress (veh_state v) + dy v * dt)) v)) with (lc_direction v).
  destruct (lc_direction v) as [d|]; [rewrite H|]; reflexivity.
Qed.

(** Whether a vehicle exits depends on its record and on the lane links only. *)
Lemma exits_from_local (w1 w2 : World) (dt : Q) (r : ref) (v : VehicleObj) :
  vehicle_heap w1 !! r = Some v ->
  vehicle_heap w2 !! r = Some v ->
  statics w1 = statics w2 ->
  exits_from w1 dt r = exits_from w2 dt r.
Proof.
  intros H1 H2 Hs. unfold exits_from.
  rewrite (has_vehicle_exited_record _ _ _ (Vehicle_move_lookup w1 r dt v H1)).
  rewrite (has_vehicle_exited_record _ _ _ (Vehicle_move_lookup w2 r dt v H2)).
  rewrite (move_record_ext (neighbour_lane w1 (veh_lane v)) (neighbour_lane w2 (veh_lane v))).
  - apply exits_record_statics. rewrite !statics_Vehicle_move. exact Hs.
  - intros d. apply neighbour_lane_statics, Hs.
Qed.

Lemma registry_lookup (w : World) (k : Z) (r : ref) :
  registry_ok w -> In (k, r) (vehicles (model w)) ->
  exists v, vehicle_heap w !! r = Some v /\ veh_id v = k
            /\ dict_get (veh_id v) (vehicles (model w)) = Some r.
Proof.
  intros (Hnd & Hreg & _) Hin. destruct (Hreg _ _ Hin) as (v & Hv & Hid).
  exists v. repeat split; try assumption. rewrite Hid. apply In_dict_get; assumption.
Qed.

Lemma registry_injective (w : World) (k : Z) (r r' : ref) :
  registry_ok w -> In (k, r) (vehicles (model w)) -> In (k, r') (vehicles (model w)) -> r = r'.
Proof.
  intros (Hnd & _) H1 H2.
  pose proof (In_dict_get k _ r Hnd H1) as E1.
  pose proof (In_dict_get k _ r' Hnd H2) as E2. congruence.
Qed.

(** What one iteration keeps for the vehicles still to be processed. *)
Lemma move_and_check_keeps (w : World) (dt : Q) (r1 : ref) (k1 : Z) :
  registry_ok w ->
  In (k1, r1) (vehicles (model w)) ->
  let w1 := move_and_check dt w r1 in
  registry_ok w1
  /\ statics w1 = statics w
  /\ (forall k r, r <> r1 -> In (k, r) (vehicles (model w)) ->
        In (k, r) (vehicles (model w1))
        /\ exits_from w1 dt r = exits_from w dt r
        /\ Vehicle_crashed w1 r = Vehicle_crashed w r
        /\ driver_key w1 r = driver_key w r)
  /\ (forall k r, In (k, r) (vehicles (model w1)) -> In (k, r) (vehicles (model w)))
  /\ dict_get k1 (vehicles (model w1)) = (if exits_from w dt r1 then None else Some r1)
  /\ (forall k, dict_get k (vehicles (model w)) = None ->
        dict_get k (vehicles (model w1)) = None)
  /\ stats (model w1)
     = (if exits_from w dt r1 then count_removed (Vehicle_crashed w r1) (stats (model w))
        else stats (model w))
  /\ (length (vehicles (model w1)) + (if exits_from w dt r1 then 1 else 0))%nat
     = length (vehicles (model w))
  /\ (forall kd, dict_get kd (drivers (model w)) = None ->
        dict_get kd (drivers (model w1)) = None)
  /\ (exits_from w dt r1 = true -> forall kd, driver_key w r1 = Some kd ->
        dict_get kd (drivers (model w1)) = None).
Proof.
  intros Hok Hin w1.
  destruct (registry_lookup w k1 r1 Hok Hin) as (v1 & Hv1 & Hid1 & Hget1).
  destruct (move_and_check_step w dt r1 v1 Hv1 Hget1)
    as (Hreg & (v1' & Hv1' & Hid1') & Hoth & Hst & Hstats & Hdh & Hdrv).
  fold w1 in Hreg, Hv1', Hoth, Hst, Hstats, Hdh, Hdrv. rewrite Hid1 in Hreg.
  assert (Hsub : forall k r, In (k, r) (vehicles (model w1)) -> In (k, r) (vehicles (model w))).
  { intros k r. rewrite Hreg. destruct (exits_from w dt r1); [apply dict_del_In | auto]. }
  assert (Hcr1 : Vehicle_crashed w r1 = crashed (veh_state v1)).
  { unfold Vehicle_crashed, veh_attr. rewrite Hv1. reflexivity. }
  destruct Hok as (Hnd & Hent & Hndd).
  assert (Hndd1 : NoDup (dict_keys (drivers (model w1)))).
  { rewrite Hdrv. destruct (exits_from w dt r1); [|exact Hndd].
    destruct (driver_key w r1); [apply dict_del_NoDup|]; exact Hndd. }
  split; [|split; [exact Hst|split; [|split; [exact Hsub|split; [|split; [|split;
    [|split; [|split]]]]]]]].
  - split; [|split; [|exact Hndd1]].
    + rewrite Hreg. destruct (exits_from w dt r1); [apply dict_del_NoDup|]; exact Hnd.
    + intros k r Hkr. apply Hsub in Hkr. destruct (Hent _ _ Hkr) as (v & Hv & Hid).
      destruct (decide (r1 = r)) as [<-|Hne].
      * exists v1'. split; [exact Hv1'|]. rewrite Hid1'. congruence.
      * exists v. rewrite (Hoth _ Hne). auto.
  - intros k r Hne Hkr. destruct (Hent _ _ Hkr) as (v & Hv & Hid).
    assert (Hv' : vehicle_heap w1 !! r = Some v) by (rewrite Hoth by congruence; exact Hv).
    split; [|split; [|split]].
    + rewrite Hreg. destruct (exits_from w dt r1); [|exact Hkr].
      apply dict_del_In_other; [|exact Hkr].
      intros <-. apply Hne. eapply (registry_injective w k1); [repeat split| |]; eassumption.
    + apply (exits_from_local w1 w dt r v Hv' Hv Hst).
    + unfold Vehicle_crashed, veh_attr. rewrite Hv', Hv. reflexivity.
    + unfold driver_key, Driver_id_of, veh_attr. rewrite Hv', Hv, Hdh. reflexivity.
  - rewrite Hreg. destruct (exits_from w dt r1).
    + apply dict_get_del_same, Hnd.
    + rewrite <- Hid1. exact Hget1.
  - intros k Hk. rewrite Hreg. destruct (exits_from w dt r1); [|exact Hk].
    apply dict_get_del_None; assumption.
  - rewrite Hstats, Hcr1. reflexivity.
  - rewrite Hreg. destruct (exits_from w dt r1); [|lia].
    rewrite <- (dict_del_length k1 (vehicles (model w)) r1); [lia|].
    rewrite <- Hid1. exact Hget1.
  - intros kd Hkd. rewrite Hdrv. destruct (exits_from w dt r1); [|exact Hkd].
    destruct (driver_key w r1); [|exact Hkd]. apply dict_get_del_None; assumption.
  - intros He kd Hkey. rewrite Hdrv, He, Hkey. apply dict_get_del_same, Hndd.
Qed.

(** The loop over the vehicles. *)
Lemma vehicles_loop (dt : Q) (rs : list ref) : forall w,
  NoDup rs ->
  registry_ok w ->
  (forall r, In r rs -> exists k, In (k, r) (vehicles (model w))) ->
  let wf := fold_left (move_and_check dt) rs w in
  registry_ok wf
  /\ statics wf = statics w
  /\ (forall k r, In (k, r) (vehicles (model w)) ->
        dict_get k (vehicles (model wf))
        = if bool_decide (r ∈ rs) && exits_from w dt r then None else Some r)
  /\ (forall k, dict_get k (vehicles (model w)) = None ->
        dict_get k (vehicles (model wf)) = None)
  /\ completed_vehicles (stats (model wf))
     = (completed_vehicles (stats (model w))
        + Z.of_nat (length (List.filter
                              (fun r => exits_from w dt r && negb (Vehicle_crashed w r)) rs)))%Z
  /\ crashed_vehicles (stats (model wf))
     = (crashed_vehicles (stats (model w))
        + Z.of_nat (length (List.filter
                              (fun r => exits_from w dt r && Vehicle_crashed w r) rs)))%Z
  /\ (length (vehicles (model wf)) + length (List.filter (exits_from w dt) rs))%nat
     = length (vehicles (model w))
  /\ (forall kd, dict_get kd (drivers (model w)) = None ->
        dict_get kd (drivers (model wf)) = None)
  /\ (forall r kd, In r rs -> exits_from w dt r = true -> driver_key w r = Some kd ->
        dict_get kd (drivers (model wf)) = None).
Proof.
  induction rs as [|r1 rs IH]; intros w Hnd Hok Hall wf.
  - subst wf. simpl. split; [exact Hok|]. split; [reflexivity|]. split.
    + intros k r Hin. apply In_dict_get; [apply Hok | exact Hin].
    + repeat split; auto; solve [lia | intros r kd []].
  - apply NoDup_cons in Hnd as [Hr1 Hnd].
    destruct (Hall r1 (or_introl eq_refl)) as [k1 Hk1].
    destruct (move_and_check_keeps w dt r1 k1 Hok Hk1)
      as (Hok1 & Hst1 & Hkeep & Hsub & Hget1 & Hnone1 & Hstats1 & Hlen1 & Hdnone1 & Hdgone1).
    set (w1 := move_and_check dt w r1) in *.
    assert (Hall1 : forall r, In r rs -> exists k, In (k, r) (vehicles (model w1))).
    { intros r Hr. destruct (Hall r (or_intror Hr)) as [k Hk]. exists k.
      apply Hkeep; [|exact Hk]. intros ->. apply Hr1, list_elem_of_In, Hr. }
    destruct (IH w1 Hnd Hok1 Hall1)
      as (Hokf & Hstf & Hgetf & Hnonef & Hcompf & Hcrf & Hlenf & Hdnonef & Hdgonef).
    change (fold_left (move_and_check dt) rs w1) with wf in *.
    assert (Hsame : forall r, In r rs ->
              exits_from w1 dt r = exits_from w dt r
              /\ Vehicle_crashed w1 r = Vehicle_crashed w r
              /\ driver_key w1 r = driver_key w r).
    { intros r Hr. destruct (Hall r (or_intror Hr)) as [k Hk].
      apply (Hkeep k r); [|exact Hk]. intros ->. apply Hr1, list_elem_of_In, Hr. }
    split; [exact Hokf|]. split; [congruence|].
    split; [|split; [|split; [|split; [|split; [|split]]]]].
    + intros k r Hkr. destruct (decide (r = r1)) as [->|Hne].
      * assert (k = k1) as ->.
        { destruct Hok as (Hndk & Hent & _).
          destruct (Hent _ _ Hkr) as (v & Hv & <-).
          destruct (Hent _ _ Hk1) as (v' & Hv' & <-). congruence. }
        rewrite bool_decide_eq_true_2 by left. simpl.
        destruct (exits_from w dt r1) eqn:E.
        -- apply Hnonef. exact Hget1.
        -- rewrite (Hgetf k1 r1) by (apply dict_get_In; exact Hget1).
           rewrite bool_decide_eq_false_2 by exact Hr1. reflexivity.
      * destruct (Hkeep k r Hne Hkr) as (Hkr1 & Hex & _).
        rewrite (Hgetf k r Hkr1).
        destruct (decide (r ∈ rs)) as [Hin|Hnin].
        -- rewrite !bool_decide_eq_true_2 by (try right; exact Hin).
           rewrite Hex. reflexivity.
        -- rewrite !bool_decide_eq_false_2; [reflexivity| |exact Hnin].
           intros Hin. apply list_elem_of_In in Hin. destruct Hin as [->|Hin];
             [congruence | apply Hnin, list_elem_of_In, Hin].
    + intros k Hk. apply Hnonef, Hnone1, Hk.
    + rewrite Hcompf, Hstats1. simpl List.filter.
      rewrite (filter_ext_in (fun r => exits_from w1 dt r && negb (Vehicle_crashed w1 r))
                             (fun r => exits_from w dt r && negb (Vehicle_crashed w r)));
        [|intros r Hr; destruct (Hsame r Hr) as (-> & -> & _); reflexivity].
      destruct (exits_from w dt r1), (Vehicle_crashed w r1); simpl; lia.
    + rewrite Hcrf, Hstats1. simpl List.filter.
      rewrite (filter_ext_in (fun r => exits_from w1 dt r && Vehicle_crashed w1 r)
                             (fun r => exits_from w dt r && Vehicle_crashed w r));
        [|intros r Hr; destruct (Hsame r Hr) as (-> & -> & _); reflexivity].
      destruct (exits_from w dt r1), (Vehicle_crashed w r1); simpl; lia.
    + simpl List.filter.
      rewrite (filter_ext_in (exits_from w1 dt) (exits_from w dt)) in Hlenf;
        [|intros r Hr; apply (Hsame r Hr)].
      destruct (exits_from w dt r1); simpl; lia.
    + intros kd Hkd. apply Hdnonef, Hdnone1, Hkd.
    + intros r kd [<-|Hr] He Hkey.
      * apply Hdnonef. apply Hdgone1; assumption.
      * destruct (Hsame r Hr) as (Hex & _ & Hkey').
        apply (Hdgonef r kd Hr); congruence.
Qed.

Lemma registry_values_NoDup (w : World) :
  registry_ok w -> NoDup (dict_values (vehicles (model w))).
Proof.
  intros (Hnd & Hent & _). revert Hnd Hent.
  generalize (vehicles (model w)) as d.
  induction d as [|[k0 r0] d IH]; simpl; intros Hnd Hent; [constructor|].
  apply NoDup_cons in Hnd as [Hk Hnd]. apply NoDup_cons. split.
  - intros Hin. apply list_elem_of_In in Hin. unfold dict_values in Hin.
    apply in_map_iff in Hin as [[k r] [Hr Hin]]. simpl in Hr. subst r.
    destruct (Hent k0 r0 (or_introl eq_refl)) as (v & Hv & Hid).
    destruct (Hent k r0 (or_intror Hin)) as (v' & Hv' & Hid').
    assert (Hkk : k = k0) by congruence. rewrite Hkk in Hin.
    apply Hk, list_elem_of_In. eapply In_dict_keys, Hin.
  - apply IH; [exact Hnd|]. intros k r Hin. apply Hent. right. exact Hin.
Qed.

Lemma registry_ok_only_vehicles (w w' : World) :
  only_vehicles same_body w w' -> registry_ok w -> registry_ok w'.
Proof.
  intros (_ & _ & _ & Hm & Hv) (Hnd & Hent & Hndd). rewrite <- Hm in Hnd, Hent, Hndd.
  split; [exact Hnd|]. split; [|exact Hndd]. intros k r Hin.
  destruct (Hent _ _ Hin) as (v & Hlook & Hid).
  destruct (Forall2_lookup_l _ _ _ _ _ Hv Hlook) as (v' & Hlook' & Hbody).
  exists v'. split; [exact Hlook'|]. destruct Hbody as (-> & _). exact Hid.
Qed.

Lemma veh_attr_only_vehicles {A} (w w' : World) (r : ref) (g : VehicleObj -> A) (d : A) :
  only_vehicles same_body w w' ->
  (forall v v', same_body v v' -> g v' = g v) ->
  veh_attr w' r g d = veh_attr w r g d.
Proof.
  intros (_ & _ & _ & _ & Hv) Hg. unfold veh_attr.
  destruct (vehicle_heap w !! r) as [v|] eqn:E.
  - destruct (Forall2_lookup_l _ _ _ _ _ Hv E) as (v' & -> & Hbody).
    apply Hg, Hbody.
  - pose proof (Forall2_length _ _ _ Hv) as Hlen.
    apply lookup_ge_None in E.
    rewrite (lookup_ge_None_2 (vehicle_heap w') r) by lia. reflexivity.
Qed.

Lemma Vehicle_crashed_only_vehicles (w w' : World) (r : ref) :
  only_vehicles same_body w w' -> Vehicle_crashed w' r = Vehicle_crashed w r.
Proof.
  intros H. apply veh_attr_only_vehicles; [exact H|]. intros v v' Hb. apply Hb.
Qed.

Lemma driver_key_only_vehicles (w w' : World) (r : ref) :
  only_vehicles same_body w w' -> driver_key w' r = driver_key w r.
Proof.
  intros H. unfold driver_key, Driver_id_of.
  rewrite (veh_attr_only_vehicles w w' r veh_driver None H) by (intros v v' Hb; apply Hb).
  destruct H as (_ & -> & _). reflexivity.
Qed.

(** One tick, for a vehicle registered under [k]. *)
Lemma tick_removes_exited (sqrt : Q -> Q) (dt : Q) (w : World) (k : Z) (r : ref) :
  registry_ok w ->
  dict_get k (vehicles (model w)) = Some r ->
  let w' := Model_update_simulation sqrt dt w in
  let registered := dict_values (vehicles (model w)) in
  registry_ok w'
  /\ dict_get k (vehicles (model w'))
     = (if exits_in_tick sqrt dt w r then None else Some r)
  /\ (forall k', dict_get k' (vehicles (model w)) = None ->
        dict_get k' (vehicles (model w')) = None)
  /\ (exits_in_tick sqrt dt w r = true -> forall kd, driver_key w r = Some kd ->
        dict_get kd (drivers (model w')) = None)
  /\ active_vehicles (stats (model w'))
     = (Z.of_nat (length registered)
        - Z.of_nat (length (List.filter (exits_in_tick sqrt dt w) registered)))%Z
  /\ completed_vehicles (stats (model w'))
     = (completed_vehicles (stats (model w))
        + Z.of_nat (length (List.filter
             (fun r => exits_in_tick sqrt dt w r && negb (Vehicle_crashed w r)) registered)))%Z
  /\ crashed_vehicles (stats (model w'))
     = (crashed_vehicles (stats (model w))
        + Z.of_nat (length (List.filter
             (fun r => exits_in_tick sqrt dt w r && Vehicle_crashed w r) registered)))%Z.
Proof.
  intros Hok Hk. cbv zeta. unfold exits_in_tick.
  set (w0 := before_integration sqrt dt w).
  set (registered := dict_values (vehicles (model w))).
  assert (Honly : only_vehicles same_body (advance_clock dt w) w0)
    by apply before_integration_only.
  assert (Hok0 : registry_ok w0).
  { apply (registry_ok_only_vehicles (advance_clock dt w)); [exact Honly|].
    destruct Hok as (Hnd & Hent & Hndd). repeat split; assumption. }
  assert (Hreg0 : vehicles (model w0) = vehicles (model w)).
  { destruct Honly as (_ & _ & _ & -> & _). reflexivity. }
  assert (Hstats0 : completed_vehicles (stats (model w0)) = completed_vehicles (stats (model w))
                    /\ crashed_vehicles (stats (model w0)) = crashed_vehicles (stats (model w))).
  { destruct Honly as (_ & _ & _ & -> & _). split; reflexivity. }
  assert (Hcr0 : forall r', Vehicle_crashed w0 r' = Vehicle_crashed w r').
  { intros r'. apply (Vehicle_crashed_only_vehicles (advance_clock dt w)). exact Honly. }
  assert (Hkey0 : driver_key w0 r = driver_key w r).
  { apply (driver_key_only_vehicles (advance_clock dt w)). exact Honly. }
  destruct (vehicles_loop dt (dict_values (vehicles (model w0))) w0)
    as (Hokf & _ & Hget & Hnone & Hcomp & Hcrash & Hlen & _ & Hdgone).
  { apply registry_values_NoDup, Hok0. }
  { exact Hok0. }
  { intros r' Hr'. unfold dict_values in Hr'. apply in_map_iff in Hr' as [[k' r''] [<- Hin]].
    exists k'. exact Hin. }
  fold (vehicles_phase dt w0) in Hokf, Hget, Hnone, Hcomp, Hcrash, Hlen, Hdgone.
  assert (Hw' : Model_update_simulation sqrt dt w
                = Model_update_statistics (vehicles_phase dt w0)) by reflexivity.
  assert (Hregf : vehicles (model (Model_update_simulation sqrt dt w))
                  = vehicles (model (vehicles_phase dt w0))).
  { rewrite Hw'. reflexivity. }
  assert (Hin : In (k, r) (vehicles (model w0))).
  { rewrite Hreg0. apply dict_get_In, Hk. }
  assert (Hmemr : In r (dict_values (vehicles (model w0)))).
  { unfold dict_values. apply in_map_iff. exists (k, r). auto. }
  assert (Hmem : bool_decide (r ∈ dict_values (vehicles (model w0))) = true).
  { apply bool_decide_eq_true_2, list_elem_of_In, Hmemr. }
  specialize (Hget k r Hin). rewrite Hmem in Hget. simpl in Hget.
  rewrite Hreg0 in Hlen, Hnone, Hcomp, Hcrash.
  fold registered in Hlen, Hcomp, Hcrash.
  split; [|split; [|split; [|split; [|split; [|split]]]]].
  - rewrite Hw'. destruct Hokf as (H1 & H2 & H3). repeat split; assumption.
  - rewrite Hregf. exact Hget.
  - intros k' Hk'. rewrite Hregf. apply Hnone. exact Hk'.
  - intros He kd Hkd. rewrite Hw'.
    apply (Hdgone r kd Hmemr He). rewrite Hkey0. exact Hkd.
  - rewrite Hw'. simpl. unfold dict_values. rewrite length_map.
    unfold registered at 1. unfold dict_values. rewrite length_map.
    change (List.filter (fun r0 => exits_from w0 dt r0) registered)
      with (List.filter (exits_from w0 dt) registered).
    lia.
  - rewrite Hw'. simpl. rewrite Hcomp. destruct Hstats0 as [-> _]. f_equal. f_equal. f_equal.
    apply filter_ext. intros r'. rewrite Hcr0. reflexivity.
  - rewrite Hw'. simpl. rewrite Hcrash. destruct Hstats0 as [_ ->]. f_equal. f_equal. f_equal.
    apply filter_ext. intros r'. rewrite Hcr0. reflexivity.
Qed.

Lemma tick_registry_ok (sqrt : Q -> Q) (dt : Q) (w : World) :
  registry_ok w -> registry_ok (Model_update_simulation sqrt dt w).
Proof.
  intros Hok.
  set (w0 := before_integration sqrt dt w).
  assert (Hok0 : registry_ok w0).
  { apply (registry_ok_only_vehicles (advance_clock dt w));
      [apply before_integration_only|].
    destruct Hok as (Hnd & Hent & Hndd). repeat split; assumption. }
  destruct (vehicles_loop dt (dict_values (vehicles (model w0))) w0) as (Hokf & _).
  { apply registry_values_NoDup, Hok0. }
  { exact Hok0. }
  { intros r' Hr'. unfold dict_values in Hr'. apply in_map_iff in Hr' as [[k' r''] [<- Hin]].
    exists k'. exact Hin. }
  destruct Hokf as (H1 & H2 & H3). repeat split; assumption.
Qed.

Lemma tick_registers_nothing (sqrt : Q -> Q) (dt : Q) (w : World) (k : Z) :
  registry_ok w ->
  dict_get k (vehicles (model w)) = None ->
  dict_get k (vehicles (model (Model_update_simulation sqrt dt w))) = None.
Proof.
  intros Hok Hk.
  set (w0 := before_integration sqrt dt w).
  assert (Honly : only_vehicles same_body (advance_clock dt w) w0)
    by apply before_integration_only.
  assert (Hok0 : registry_ok w0).
  { apply (registry_ok_only_vehicles (advance_clock dt w)); [exact Honly|].
    destruct Hok as (Hnd & Hent & Hndd). repeat split; assumption. }
  assert (Hreg0 : vehicles (model w0) = vehicles (model w)).
  { destruct Honly as (_ & _ & _ & -> & _). reflexivity. }
  destruct (vehicles_loop dt (dict_values (vehicles (model w0))) w0)
    as (_ & _ & _ & Hnone & _).
  { apply registry_values_NoDup, Hok0. }
  { exact Hok0. }
  { intros r' Hr'. unfold dict_values in Hr'. apply in_map_iff in Hr' as [[k' r''] [<- Hin]].
    exists k'. exact Hin. }
  apply Hnone. rewrite Hreg0. exact Hk.
Qed.

Lemma ticks_registry_ok (sqrt : Q -> Q) (dt : Q) (w : World) (n : nat) :
  registry_ok w -> registry_ok (ticks sqrt dt n w).
Proof.
  intros Hok. induction n as [|n IH]; [exact Hok|]. cbn [ticks]. apply tick_registry_ok, IH.
Qed.

(** After [n] ticks a vehicle is still registered exactly if it has exited in
    none of them. *)
Lemma ticks_first_exit (sqrt : Q -> Q) (dt : Q) (w : World) (k : Z) (r : ref) (n : nat) :
  registry_ok w ->
  dict_get k (vehicles (model w)) = Some r ->
  dict_get k (vehicles (model (ticks sqrt dt n w)))
  = match first_exit sqrt dt w r n with Some _ => None | None => Some r end.
Proof.
  intros Hok Hk. induction n as [|n IH]; [exact Hk|]. cbn [ticks first_exit].
  pose proof (ticks_registry_ok sqrt dt w n Hok) as Hokn.
  destruct (first_exit sqrt dt w r n) as [j|].
  - apply tick_registers_nothing; assumption.
  - destruct (tick_removes_exited sqrt dt (ticks sqrt dt n w) k r Hokn IH) as (_ & Hget & _).
    rewrite Hget. destruct (exits_in_tick sqrt dt (ticks sqrt dt n w) r); reflexivity.
Qed.

(** C4.  In a tick, a registered vehicle is removed from the vehicle registry
    exactly when, after its integration in that tick, its position exceeds the
    length of the lane it is on and that lane has no downstream lane; its driver
    leaves the driver registry with it.  Otherwise it stays registered under its
    id, and a tick registers nothing, so over any number of ticks the vehicle is
    registered up to the first tick in which it exits and gone after it.  The
    active count after the tick is the number registered before less those
    removed; each removed vehicle is counted as completed, or as crashed if it is
    crashed.  ([registry_ok] holds in every store built through the model's
    interface, see [built_model_ok].) *)
Theorem C4_exit_removes_exactly (sqrt : Q -> Q) (dt : Q) (w : World) (k : Z) (r : ref) :
  registry_ok w ->
  dict_get k (vehicles (model w)) = Some r ->
  let w' := Model_update_simulation sqrt dt w in
  let moved := Vehicle_move r dt (before_integration sqrt dt w) in
  let registered := dict_values (vehicles (model w)) in
  (exits_in_tick sqrt dt w r = true
   <-> Lane_length moved (Vehicle_get_lane moved r) < Vehicle_get_x moved r
       /\ Lane_get_downstream_lane moved (Vehicle_get_lane moved r) = None)
  /\ (dict_get k (vehicles (model w')) = None <-> exits_in_tick sqrt dt w r = true)
  /\ (exits_in_tick sqrt dt w r = false -> dict_get k (vehicles (model w')) = Some r)
  /\ (exits_in_tick sqrt dt w r = true -> forall kd, driver_key w r = Some kd ->
        dict_get kd (drivers (model w')) = None)
  /\ (forall n, dict_get k (vehicles (model (ticks sqrt dt n w)))
                = match first_exit sqrt dt w r n with Some _ => None | None => Some r end)
  /\ active_vehicles (stats (model w'))
     = (Z.of_nat (length registered)
        - Z.of_nat (length (List.filter (exits_in_tick sqrt dt w) registered)))%Z
  /\ completed_vehicles (stats (model w'))
     = (completed_vehicles (stats (model w))
        + Z.of_nat (length (List.filter
             (fun r => exits_in_tick sqrt dt w r && negb (Vehicle_crashed w r)) registered)))%Z
  /\ crashed_vehicles (stats (model w'))
     = (crashed_vehicles (stats (model w))
        + Z.of_nat (length (List.filter
             (fun r => exits_in_tick sqrt dt w r && Vehicle_crashed w r) registered)))%Z.
Proof.
  intros Hok Hk. cbv zeta.
  destruct (tick_removes_exited sqrt dt w k r Hok Hk)
    as (_ & Hget & _ & Hdrv & Hact & Hcomp & Hcrash).
  split; [|split; [|split; [|split; [|split; [|split; [|split]]]]]]; try assumption.
  - unfold exits_in_tick, exits_from, Model_has_vehicle_exited.
    rewrite andb_true_iff, Qltb_lt.
    destruct (Lane_get_downstream_lane _ _).
    + split; intros [_ H]; discriminate H.
    + split; intros [H _]; split; solve [exact H | reflexivity].
  - rewrite Hget. destruct (exits_in_tick sqrt dt w r).
    + split; reflexivity.
    + split; intros H; discriminate H.
  - intros He. rewrite Hget, He. reflexivity.
  - intros n. apply ticks_first_exit; assumption.
Qed.

(** ** The registry invariant holds in every store the model's interface builds *)

Section DictSet.
Context {V : Type}.
Implicit Types (d : list (Z * V)) (k : Z).

Lemma dict_set_fresh k (v : V) d :
  ~ In k (dict_keys d) -> dict_set k v d = d ++ [(k, v)].
Proof.
  induction d as [|[k0 v0] d IH]; simpl; intros Hk; [reflexivity|].
  destruct (decide (k = k0)) as [->|_]; [exfalso; apply Hk; left; reflexivity|].
  rewrite IH; [reflexivity|]. intros Hin. apply Hk. right. exact Hin.
Qed.

Lemma dict_keys_app d1 d2 : dict_keys (d1 ++ d2) = dict_keys d1 ++ dict_keys d2.
Proof. unfold dict_keys. apply map_app. Qed.
End DictSet.

Lemma model_ok_empty : model_ok empty_world.
Proof.
  repeat split; simpl; try constructor; intros; contradiction.
Qed.

Lemma model_ok_only_vehicles (w w' : World) :
  only_vehicles same_body w w' -> model_ok w -> model_ok w'.
Proof.
  intros Honly [Hok Hfresh]. split; [eapply registry_ok_only_vehicles; eassumption|].
  destruct Honly as (_ & _ & _ & Hm & _). unfold ids_fresh. rewrite Hm. exact Hfresh.
Qed.

Lemma model_ok_tick (sqrt : Q -> Q) (dt : Q) (w : World) :
  model_ok w -> model_ok (Model_update_simulation sqrt dt w).
Proof.
  intros [Hok [Hfv Hfd]]. split; [apply tick_registry_ok, Hok|].
  assert (Hnv : next_vehicle_id (model (Model_update_simulation sqrt dt w))
                = next_vehicle_id (model w)).
  { rewrite (update_simulation_blind sqrt next_vehicle_id) by (repeat split). reflexivity. }
  assert (Hnd : next_driver_id (model (Model_update_simulation sqrt dt w))
                = next_driver_id (model w)).
  { rewrite (update_simulation_blind sqrt next_driver_id) by (repeat split). reflexivity. }
  unfold ids_fresh. rewrite Hnv, Hnd. split.
  - intros k Hk. apply Hfv.
    destruct (dict_get k (vehicles (model w))) as [r|] eqn:E.
    + eapply In_dict_keys, dict_get_In, E.
    + exfalso. pose proof (tick_registers_nothing sqrt dt w k Hok E) as Hnone.
      unfold dict_keys in Hk. apply in_map_iff in Hk as [[k' r'] [Hfst Hin]].
      simpl in Hfst. subst k'.
      apply In_dict_get in Hin; [congruence|].
      apply (tick_registry_ok sqrt dt w Hok).
  - intros k Hk. apply Hfd.
    destruct (dict_get k (drivers (model w))) as [r|] eqn:E.
    + eapply In_dict_keys, dict_get_In, E.
    + exfalso.
      assert (Hnone : dict_get k (drivers (model (Model_update_simulation sqrt dt w))) = None).
      { set (w0 := before_integration sqrt dt w).
        assert (Honly : only_vehicles same_body (advance_clock dt w) w0)
          by apply before_integration_only.
        assert (Hok0 : registry_ok w0).
        { apply (registry_ok_only_vehicles (advance_clock dt w)); [exact Honly|].
          destruct Hok as (H1 & H2 & H3). repeat split; assumption. }
        destruct (vehicles_loop dt (dict_values (vehicles (model w0))) w0)
          as (_ & _ & _ & _ & _ & _ & _ & Hdnone & _).
        { apply registry_values_NoDup, Hok0. }
        { exact Hok0. }
        { intros r' Hr'. unfold dict_values in Hr'.
          apply in_map_iff in Hr' as [[k' r''] [<- Hin]]. exists k'. exact Hin. }
        apply Hdnone. destruct Honly as (_ & _ & _ & -> & _). exact E. }
      unfold dict_keys in Hk. apply in_map_iff in Hk as [[k' r'] [Hfst Hin]].
      simpl in Hfst. subst k'.
      apply In_dict_get in Hin; [congruence|].
      apply (tick_registry_ok sqrt dt w Hok).
Qed.

Lemma model_ok_add_lane (w : World) (lane : ref) : model_ok w -> model_ok (Model_add_lane lane w).
Proof.
  intros Hok. unfold Model_add_lane.
  eapply model_ok_only_vehicles; [apply update_network_only|].
  destruct Hok as [(H1 & H2 & H3) [H4 H5]]. repeat split; assumption.
Qed.

Lemma model_ok_add_vehicle (w : World) (lane_id : Z) (driver_type : DriverType) (pos : Q)
    (route : option ref) :
  model_ok w -> model_ok (snd (Model_add_vehicle lane_id driver_type pos route w)).
Proof.
  intros Hok. unfold Model_add_vehicle.
  destruct (dict_get lane_id (lanes (model w))) as [lane|]; [|exact Hok].
  destruct Hok as [(Hnd & Hent & Hndd) [Hfv Hfd]].
  destruct (add_vehicle_construction w lane driver_type pos route)
    as ((Hv & d & Hd & Hdid & _) & Hm & _).
  set (fr := add_vehicle_frame w lane driver_type pos route) in *.
  set (wp := fold_left (add_vehicle_step fr) (take 4 add_vehicle_steps) w) in *.
  assert (Hold : forall r v, vehicle_heap w !! r = Some v -> vehicle_heap wp !! r = Some v).
  { intros r v Hr. pose proof (lookup_lt_Some _ _ _ Hr) as Hlt.
    subst wp fr. simpl. destruct route; simpl;
      rewrite list_lookup_alter_ne by lia; rewrite lookup_app_l by lia; exact Hr. }
  assert (Hkv : ~ In (next_vehicle_id (model w)) (dict_keys (vehicles (model w)))).
  { intros Hin. apply Hfv in Hin. lia. }
  assert (Hkd : ~ In (next_driver_id (model w)) (dict_keys (drivers (model w)))).
  { intros Hin. apply Hfd in Hin. lia. }
  set (w5 := add_vehicle_step fr wp RegisterVehicle).
  set (w6 := add_vehicle_step fr w5 RegisterDriver).
  set (w7 := add_vehicle_step fr w6 EnterLane).
  set (w8 := add_vehicle_step fr w7 BumpCounters).
  change (model_ok w8).
  assert (Hvid : veh_attr wp (fr_vehicle fr) veh_id 0%Z = next_vehicle_id (model w)).
  { unfold veh_attr. rewrite Hv. reflexivity. }
  assert (Hdidk : Driver_id_of w5 (fr_driver fr) = next_driver_id (model w)).
  { unfold Driver_id_of. change (driver_heap w5) with (driver_heap wp).
    rewrite Hd. exact Hdid. }
  assert (Hm7 : model w7 = model w6) by apply model_Lane_add_vehicle.
  assert (Hveh5 : vehicles (model w5)
                  = vehicles (model w) ++ [(next_vehicle_id (model w), fr_vehicle fr)]).
  { change (vehicles (model w5))
      with (dict_set (veh_attr wp (fr_vehicle fr) veh_id 0%Z) (fr_vehicle fr)
              (vehicles (model wp))).
    rewrite Hvid, Hm. apply dict_set_fresh, Hkv. }
  assert (Hveh8 : vehicles (model w8)
                  = vehicles (model w) ++ [(next_vehicle_id (model w), fr_vehicle fr)]).
  { change (vehicles (model w8)) with (vehicles (model w7)). rewrite Hm7. exact Hveh5. }
  assert (Hdrv6 : drivers (model w6)
                  = drivers (model w) ++ [(next_driver_id (model w), fr_driver fr)]).
  { change (drivers (model w6))
      with (dict_set (Driver_id_of w5 (fr_driver fr)) (fr_driver fr) (drivers (model wp))).
    rewrite Hdidk, Hm. apply dict_set_fresh, Hkd. }
  assert (Hdrv8 : drivers (model w8)
                  = drivers (model w) ++ [(next_driver_id (model w), fr_driver fr)]).
  { change (drivers (model w8)) with (drivers (model w7)). rewrite Hm7. exact Hdrv6. }
  assert (Hnv8 : next_vehicle_id (model w8) = (next_vehicle_id (model w) + 1)%Z).
  { change (next_vehicle_id (model w8)) with (next_vehicle_id (model w7) + 1)%Z.
    rewrite Hm7. change (next_vehicle_id (model w6)) with (next_vehicle_id (model wp)).
    rewrite Hm. reflexivity. }
  assert (Hnd8 : next_driver_id (model w8) = (next_driver_id (model w) + 1)%Z).
  { change (next_driver_id (model w8)) with (next_driver_id (model w7) + 1)%Z.
    rewrite Hm7. change (next_driver_id (model w6)) with (next_driver_id (model wp)).
    rewrite Hm. reflexivity. }
  assert (Hheap8 : forall r, vehicle_heap w8 !! r
            = if decide (fr_vehicle fr = r)
              then (if decide (fr_vehicle fr ∈ Lane_vehicles w6 (fr_lane fr))
                    then id else set_veh_lane (fr_lane fr)) <$> vehicle_heap wp !! r
              else vehicle_heap wp !! r).
  { intros r. change (vehicle_heap w8) with (vehicle_heap w7).
    unfold w7. cbn [add_vehicle_step]. rewrite heap_Lane_add_vehicle. reflexivity. }
  unfold model_ok, ids_fresh, registry_ok. rewrite Hveh8, Hdrv8, Hnv8, Hnd8, !dict_keys_app.
  split; [split; [|split]|split].
  - apply NoDup_app. split; [exact Hnd|]. split; [|apply NoDup_singleton].
    intros k Hk Hk'. apply list_elem_of_In in Hk, Hk'. destruct Hk' as [<-|[]].
    apply Hkv, Hk.
  - intros k r Hin. apply in_app_or in Hin.
    destruct Hin as [Hin|[Heq|[]]].
    + destruct (Hent _ _ Hin) as (v & Hlook & Hid). exists v. split; [|exact Hid].
      pose proof (lookup_lt_Some _ _ _ Hlook) as Hlt.
      rewrite Hheap8. rewrite decide_False by (subst fr; simpl; lia).
      apply Hold, Hlook.
    + assert (Hk' : next_vehicle_id (model w) = k) by congruence.
      assert (Hr' : fr_vehicle fr = r) by congruence.
      rewrite Hheap8. rewrite (decide_True (P := fr_vehicle fr = r)) by exact Hr'.
      rewrite <- Hr', Hv, <- Hk'. destruct (decide _); eexists; split; reflexivity.
  - apply NoDup_app. split; [exact Hndd|]. split; [|apply NoDup_singleton].
    intros k Hk Hk'. apply list_elem_of_In in Hk, Hk'. destruct Hk' as [<-|[]].
    apply Hkd, Hk.
  - intros k Hk. apply in_app_or in Hk. simpl in Hk.
    destruct Hk as [Hk|[<-|[]]]; [apply Hfv in Hk|]; lia.
  - intros k Hk. apply in_app_or in Hk. simpl in Hk.
    destruct Hk as [Hk|[<-|[]]]; [apply Hfd in Hk|]; lia.
Qed.

Lemma model_ok_same_registries (w w' : World) :
  model w' = model w ->
  (forall r v, vehicle_heap w !! r = Some v ->
     exists v', vehicle_heap w' !! r = Some v' /\ veh_id v' = veh_id v) ->
  model_ok w -> model_ok w'.
Proof.
  intros Hm Hh [(Hnd & Hent & Hndd) Hfresh]. unfold model_ok, registry_ok, ids_fresh.
  rewrite Hm. split; [|exact Hfresh]. split; [exact Hnd|]. split; [|exact Hndd].
  intros k r Hin. destruct (Hent _ _ Hin) as (v & Hv & Hid).
  destruct (Hh _ _ Hv) as (v' & Hv' & Hid'). exists v'. split; [exact Hv' | congruence].
Qed.

Lemma model_ok_link (w : World) (o : option ref) (f : LaneObj -> LaneObj) :
  model_ok w -> model_ok (link o f w).
Proof.
  intros Hok. unfold link. destruct o; [|exact Hok].
  apply (model_ok_same_registries w); [reflexivity| |exact Hok]. intros r v Hv. eauto.
Qed.

Lemma model_ok_upd_lane (w : World) (l : ref) (f : LaneObj -> LaneObj) :
  model_ok w -> model_ok (upd_lane l f w).
Proof.
  intros Hok. apply (model_ok_same_registries w); [reflexivity| |exact Hok].
  intros r v Hv. eauto.
Qed.

Lemma model_ok_remove_vehicle (w : World) (k : Z) :
  model_ok w -> model_ok (Model_remove_vehicle k w).
Proof.
  intros Hok. destruct (dict_get k (vehicles (model w))) as [r|] eqn:E.
  - destruct (remove_vehicle_registered w k r E) as (Hv & Hh & _ & _ & _ & Hd).
    destruct Hok as [(Hnd & Hent & Hndd) [Hfv Hfd]].
    unfold model_ok, registry_ok, ids_fresh.
    rewrite Hv, Hh, Hd.
    rewrite (model_remove_vehicle_blind next_vehicle_id) by (repeat split).
    rewrite (model_remove_vehicle_blind next_driver_id) by (repeat split).
    split; [split; [|split]|split].
    + apply dict_del_NoDup, Hnd.
    + intros k' r' Hin. apply Hent. eapply dict_del_In, Hin.
    + destruct (driver_key w r); [apply dict_del_NoDup|]; exact Hndd.
    + intros k' Hin. apply Hfv. eapply dict_del_keys_In, Hin.
    + intros k' Hin. apply Hfd. destruct (driver_key w r); [|exact Hin].
      eapply dict_del_keys_In, Hin.
  - unfold Model_remove_vehicle. rewrite E. exact Hok.
Qed.

Lemma model_ok_vehicle_call (w : World) (r : ref) (c : VehicleCall) :
  model_ok w -> model_ok (vehicle_call r w c).
Proof.
  intros Hok.
  assert (Hupd : forall f, (forall v, veh_id (f v) = veh_id v) -> model_ok (upd_vehicle r f w)).
  { intros f Hf. apply (model_ok_same_registries w); [reflexivity| |exact Hok].
    intros r' v Hv. rewrite heap_upd_vehicle. destruct (decide (r = r')).
    - rewrite Hv. eexists. split; [reflexivity | apply Hf].
    - eauto. }
  destruct c; simpl; try (apply Hupd; reflexivity).
  - apply (model_ok_same_registries w); [apply model_Vehicle_move| |exact Hok].
    intros r' v Hv. destruct (decide (r = r')) as [<-|Hne].
    + rewrite (Vehicle_move_lookup w r dt v Hv). eexists. split; [reflexivity|].
      apply move_record_id.
    + rewrite Vehicle_move_lookup_other by exact Hne. eauto.
  - destruct (Vehicle_start_lane_change r d duration w) as [w'|] eqn:E;
      [|apply Hupd; reflexivity].
    eapply model_ok_only_vehicles; [eapply start_lane_change_only, E | exact Hok].
  - apply (model_ok_same_registries w); [apply model_end_lane_change| |exact Hok].
    intros r' v Hv. destruct (decide (r = r')) as [<-|Hne].
    + rewrite (end_lane_change_lookup w r v Hv). eexists. split; [reflexivity|].
      destruct (is_changing_lane v); [|reflexivity]. cbv zeta.
      destruct (match lc_direction v with Some d => _ | None => None end); reflexivity.
    + rewrite end_lane_change_lookup_other by exact Hne. eauto.
Qed.

(** Every store built through the interface satisfies the registry invariant. *)
Lemma built_model_ok (sqrt : Q -> Q) (w : World) : built_by_interface sqrt w -> model_ok w.
Proof.
  induction 1.
  - apply model_ok_empty.
  - apply (model_ok_same_registries w); [reflexivity| |assumption]. intros r v Hv. eauto.
  - apply model_ok_link, model_ok_upd_lane. assumption.
  - apply model_ok_link, model_ok_upd_lane. assumption.
  - apply model_ok_link, model_ok_upd_lane. assumption.
  - apply model_ok_link, model_ok_upd_lane. assumption.
  - apply model_ok_add_lane. assumption.
  - apply model_ok_add_vehicle. assumption.
  - apply model_ok_remove_vehicle. assumption.
  - apply model_ok_vehicle_call. assumption.
  - apply model_ok_tick. assumption.
  - unfold Model_step_simulation. destruct (decide _); [|assumption].
    pose proof (model_ok_tick sqrt (time_step (settings (model w))) w IHbuilt_by_interface)
      as [(H1 & H2 & H3) [H4 H5]].
    repeat split; assumption.
Qed.

(** * Further properties of the code *)

Lemma advance_times_spec (n : nat) (r : RouteObj) :
  current_index r = 0%nat ->
  route_id (advance_times n r) = route_id r
  /\ lane_sequence (advance_times n r) = lane_sequence r
  /\ current_index (advance_times n r) = Nat.min n (length (lane_sequence r) - 1).
Proof.
  intros H0. induction n as [|n (Hid & Hseq & Hidx)].
  - repeat split. simpl. rewrite H0. reflexivity.
  - change (advance_times (S n) r) with (Route_advance_route (advance_times n r)).
    unfold Route_advance_route. rewrite Hseq, Hidx.
    destruct (Z.ltb_spec (Z.of_nat (Nat.min n (length (lane_sequence r) - 1)))
                (Z.of_nat (length (lane_sequence r)) - 1)); cbn [route_id lane_sequence current_index];
      repeat split; try assumption; lia.
Qed.

(** X1. After [n] calls of [advance_route] on a fresh route the cursor is
    [min(n, len - 1)] ([0] for an empty sequence); [get_current_target_lane]
    returns the lane id at that index, and is [None] only for an empty
    sequence; [is_route_complete] holds only for an empty sequence. *)
Theorem X1_route_cursor_closed_form (route_id : Z) (seq : list Z) (n : nat) :
  let r := advance_times n (Route_init route_id seq) in
  current_index r = Nat.min n (length seq - 1)
  /\ Route_get_current_target_lane r = seq !! Nat.min n (length seq - 1)
  /\ (Route_get_current_target_lane r = None <-> seq = [])
  /\ (Route_is_route_complete r = true <-> seq = []).
Proof.
  intros r.
  destruct (advance_times_spec n (Route_init route_id seq) eq_refl) as (_ & Hseq & Hidx).
  fold r in Hseq, Hidx. simpl in Hseq, Hidx.
  assert (Ht : Route_get_current_target_lane r = seq !! Nat.min n (length seq - 1)).
  { unfold Route_get_current_target_lane. rewrite Hseq, Hidx.
    destruct (Nat.ltb_spec (Nat.min n (length seq - 1)) (length seq)) as [Hlt|Hge];
      [reflexivity|].
    symmetry. apply lookup_ge_None_2. exact Hge. }
  split; [exact Hidx|]. split; [exact Ht|]. split.
  - rewrite Ht. split.
    + intros Hnone. apply lookup_ge_None_1 in Hnone.
      destruct seq as [|a seq']; [reflexivity|]. simpl in Hnone. lia.
    + intros ->. reflexivity.
  - unfold Route_is_route_complete. rewrite Hseq, Hidx. split.
    + intros Hle. apply Nat.leb_le in Hle.
      destruct seq as [|a seq']; [reflexivity|]. simpl in Hle. lia.
    + intros ->. reflexivity.
Qed.

Ltac py_cases :=
  unfold py_max, py_min;
  repeat match goal with
         | |- context [Qltb ?a ?b] =>
             let E := fresh "E" in
             destruct (Qltb a b) eqn:E; [apply Qltb_lt in E | apply Qltb_ge in E]
         end.

Lemma py_min_cases (a b : Q) : (py_min a b = a /\ a <= b) \/ (py_min a b = b /\ b < a).
Proof.
  unfold py_min. destruct (Qltb b a) eqn:E.
  - right. split; [reflexivity|]. apply Qltb_lt. exact E.
  - left. split; [reflexivity|]. apply Qltb_ge. exact E.
Qed.

Lemma py_max_cases (a b : Q) : (py_max a b = a /\ b <= a) \/ (py_max a b = b /\ a < b).
Proof.
  unfold py_max. destruct (Qltb a b) eqn:E.
  - right. split; [reflexivity|]. apply Qltb_lt. exact E.
  - left. split; [reflexivity|]. apply Qltb_ge. exact E.
Qed.

Lemma py_max_upper (a b : Q) : b <= py_max a b.
Proof. py_cases; lra. Qed.

Lemma py_max_lub (a b c : Q) : a <= c -> b <= c -> py_max a b <= c.
Proof. intros. py_cases; lra. Qed.

Lemma py_min_le_l (a b : Q) : py_min a b <= a.
Proof. py_cases; lra. Qed.

Lemma py_min_le_r (a b : Q) : py_min a b <= b.
Proof. py_cases; lra. Qed.

Lemma py_min_glb (a b c : Q) : c <= a -> c <= b -> c <= py_min a b.
Proof. intros. py_cases; lra. Qed.

Lemma py_div_some (a b : Q) : ~ b == 0 -> py_div a b = Some (a / b).
Proof.
  intros H. unfold py_div. destruct (Qeq_bool b 0) eqn:E; [|reflexivity].
  apply Qeq_bool_iff in E. contradiction.
Qed.

Lemma py_div_none (a b : Q) : py_div a b = None <-> b == 0.
Proof.
  unfold py_div. destruct (Qeq_bool b 0) eqn:E.
  - apply Qeq_bool_iff in E. tauto.
  - split; [discriminate|]. intros H. apply Qeq_bool_iff in H. congruence.
Qed.

Lemma Qdiv_le_compat (a b c : Q) : 0 < c -> a <= b -> a / c <= b / c.
Proof.
  intros Hc Hab. unfold Qdiv. apply Qmult_le_compat_r; [exact Hab|].
  apply Qlt_le_weak. apply Qinv_lt_0_compat. exact Hc.
Qed.

(** X2. [get_safe_speed] raises exactly when the distance exceeds the stopping
    distance and the headway is zero; a result is never negative, never above
    a non-negative desired speed, is [0] up to the stopping distance, and for
    a positive headway does not decrease when the distance grows. *)
Theorem X2_safe_speed_bounds (d : IDMDriverObj) (distance stopping headway : Q) :
  (IDMDriver_get_safe_speed d distance stopping headway = None
   <-> stopping < distance /\ headway == 0)
  /\ (distance <= stopping -> IDMDriver_get_safe_speed d distance stopping headway = Some 0)
  /\ (forall s, IDMDriver_get_safe_speed d distance stopping headway = Some s ->
        0 <= s /\ (0 <= desired_speed d -> s <= desired_speed d))
  /\ (forall further s s', 0 < headway -> distance <= further ->
        IDMDriver_get_safe_speed d distance stopping headway = Some s ->
        IDMDriver_get_safe_speed d further stopping headway = Some s' ->
        s <= s').
Proof.
  assert (Hval : forall q, 0 <= py_max 0 (py_min q (desired_speed d))
                 /\ (0 <= desired_speed d -> py_max 0 (py_min q (desired_speed d))
                                            <= desired_speed d)).
  { intros q. split; [apply py_max_lower|]. intros Hd.
    destruct (py_max_cases 0 (py_min q (desired_speed d))) as [[-> _]|[-> _]];
      [exact Hd|].
    destruct (py_min_cases q (desired_speed d)) as [[-> H]|[-> _]]; [exact H|lra]. }
  assert (Hmono : forall q q', q <= q' ->
            py_max 0 (py_min q (desired_speed d)) <= py_max 0 (py_min q' (desired_speed d))).
  { intros q q' Hq. apply py_max_lub; [apply py_max_lower|].
    apply Qle_trans with (py_min q' (desired_speed d)); [|apply py_max_upper].
    apply py_min_glb; [|apply py_min_le_r].
    apply Qle_trans with q; [apply py_min_le_l|exact Hq]. }
  unfold IDMDriver_get_safe_speed. split; [split|split; [|split]].
  - destruct (Qle_bool distance stopping) eqn:E; [discriminate|].
    destruct (py_div (distance - stopping) headway) eqn:Ed; [discriminate|].
    intros _. split.
    + apply Qnot_le_lt. intros Hle. apply Qle_bool_iff in Hle. congruence.
    + apply py_div_none in Ed. exact Ed.
  - intros [Hlt Hz]. destruct (Qle_bool distance stopping) eqn:E.
    + apply Qle_bool_iff in E. lra.
    + apply (py_div_none (distance - stopping)) in Hz. rewrite Hz. reflexivity.
  - intros Hle. apply Qle_bool_iff in Hle. rewrite Hle. reflexivity.
  - intros s. destruct (Qle_bool distance stopping).
    + intros [= <-]. split; [lra|]. intros H. exact H.
    + destruct (py_div (distance - stopping) headway); [|discriminate].
      intros [= <-]. apply Hval.
  - intros further s s' Hh Hfur.
    assert (Hnz : ~ headway == 0) by lra.
    destruct (Qle_bool distance stopping) eqn:E1.
    + intros [= <-]. destruct (Qle_bool further stopping); [intros [= <-]; lra|].
      rewrite py_div_some by exact Hnz. intros [= <-]. apply py_max_lower.
    + assert (Hlt : stopping < distance).
      { apply Qnot_le_lt. intros Hle. apply Qle_bool_iff in Hle. congruence. }
      destruct (Qle_bool further stopping) eqn:E2.
      { apply Qle_bool_iff in E2. lra. }
      rewrite !py_div_some by exact Hnz. intros [= <-] [= <-].
      apply Hmono. apply Qdiv_le_compat; lra.
Qed.

(** ** What refreshing the neighbour caches leaves alone *)

Lemma cache_only_refl (v : VehicleObj) : cache_only v v.
Proof. destruct v. reflexivity. Qed.

Lemma cache_only_trans (a b c : VehicleObj) :
  cache_only a b -> cache_only b c -> cache_only a c.
Proof.
  unfold cache_only. intros Hab Hbc. rewrite Hbc, Hab. destruct a. reflexivity.
Qed.

Lemma cache_only_same_body (v v' : VehicleObj) : cache_only v v' -> same_body v v'.
Proof. unfold cache_only. intros ->. destruct v. repeat split. Qed.

Lemma Forall2_cache_only_refl (l : list VehicleObj) : Forall2 cache_only l l.
Proof. induction l; constructor; [apply cache_only_refl | assumption]. Qed.

Lemma Forall2_cache_only_trans (a b c : list VehicleObj) :
  Forall2 cache_only a b -> Forall2 cache_only b c -> Forall2 cache_only a c.
Proof.
  intros Hab. revert c. induction Hab; intros c Hbc; inversion Hbc; subst; constructor.
  - eapply cache_only_trans; eassumption.
  - auto.
Qed.

Lemma caches_refl (w : World) : only_vehicles cache_only w w.
Proof. repeat split. apply Forall2_cache_only_refl. Qed.

Lemma caches_trans (a b c : World) :
  only_vehicles cache_only a b -> only_vehicles cache_only b c -> only_vehicles cache_only a c.
Proof.
  intros (?&?&?&?&Hab) (?&?&?&?&Hbc). repeat split; try congruence.
  eapply Forall2_cache_only_trans; eassumption.
Qed.

Lemma caches_same_body (w w' : World) :
  only_vehicles cache_only w w' -> only_vehicles same_body w w'.
Proof.
  intros (?&?&?&?&H). repeat split; try assumption.
  eapply Forall2_impl; [exact H|]. intros v v'. apply cache_only_same_body.
Qed.

Lemma caches_fold {A} (step : World -> A -> World) (l : list A) (w : World) :
  (forall w a, only_vehicles cache_only w (step w a)) ->
  only_vehicles cache_only w (fold_left step l w).
Proof.
  intros Hstep. revert w. induction l as [|a l IH]; intros w; simpl.
  - apply caches_refl.
  - eapply caches_trans; [apply Hstep | apply IH].
Qed.

Lemma update_surrounding_caches (w : World) (v : ref) (area : Enclosure) (o : option ref) :
  only_vehicles cache_only w (Vehicle_update_surrounding v area o w).
Proof.
  repeat split. simpl.
  apply Forall2_alter_r; [apply Forall2_cache_only_refl|].
  intros a b _ _ Hab. eapply cache_only_trans; [exact Hab|].
  destruct b. reflexivity.
Qed.

Lemma update_one_caches (w : World) (lane v : ref) :
  only_vehicles cache_only w (update_one_surroundings lane w v).
Proof.
  unfold update_one_surroundings.
  repeat (eapply caches_trans; [|apply update_surrounding_caches]).
  apply caches_refl.
Qed.

Lemma update_one_elsewhere (w : World) (lane v r : ref) :
  r <> v -> vehicle_heap (update_one_surroundings lane w v) !! r = vehicle_heap w !! r.
Proof.
  intros Hne. unfold update_one_surroundings, Vehicle_update_surrounding.
  rewrite !heap_upd_vehicle. rewrite !decide_False by congruence. reflexivity.
Qed.

(** [update_vehicle_surroundings] rewrites neighbour caches, and only those of
    the vehicles on the lane's list. *)
Lemma update_vehicle_surroundings_caches (w : World) (lane : ref) :
  only_vehicles cache_only w (Lane_update_vehicle_surroundings lane w)
  /\ forall r, ~ In r (Lane_vehicles w lane) ->
       vehicle_heap (Lane_update_vehicle_surroundings lane w) !! r = vehicle_heap w !! r.
Proof.
  unfold Lane_update_vehicle_surroundings. split.
  - apply caches_fold. intros w' v. apply update_one_caches.
  - intros r. generalize (Lane_vehicles w lane) as l. intros l. revert w.
    induction l as [|v l IH]; intros w Hr; simpl; [reflexivity|].
    rewrite IH by (intros Hin; apply Hr; right; exact Hin).
    apply update_one_elsewhere. intros ->. apply Hr. left. reflexivity.
Qed.

(** [_update_network] rewrites neighbour caches, and only those of vehicles on
    the list of a registered lane. *)
Lemma update_network_caches (w : World) :
  only_vehicles cache_only w (Model_update_network w)
  /\ forall r, (forall l, In l (dict_values (lanes (model w))) -> ~ In r (Lane_vehicles w l)) ->
       vehicle_heap (Model_update_network w) !! r = vehicle_heap w !! r.
Proof.
  unfold Model_update_network. split.
  - apply caches_fold. intros w' lane. apply update_vehicle_surroundings_caches.
  - intros r. generalize (dict_values (lanes (model w))) as ls. intros ls.
    assert (Hgen : forall w0, lane_heap w0 = lane_heap w ->
              (forall l, In l ls -> ~ In r (Lane_vehicles w l)) ->
              vehicle_heap (fold_left (fun w1 lane => Lane_update_vehicle_surroundings lane w1)
                              ls w0) !! r
              = vehicle_heap w0 !! r).
    { induction ls as [|l ls IH]; intros w0 Hl Hr; simpl; [reflexivity|].
      destruct (update_vehicle_surroundings_caches w0 l) as ((Hl1 & _) & Hoff).
      rewrite IH.
      - apply Hoff. unfold Lane_vehicles, lane_attr. rewrite Hl.
        apply (Hr l). left. reflexivity.
      - rewrite Hl1. exact Hl.
      - intros l' Hin. apply Hr. right. exact Hin. }
    intros Hr. apply Hgen; [reflexivity|exact Hr].
Qed.

(** ** [SimpleDriver.drive] *)


Lemma sum_velocities_from (w : World) (l : list ref) (acc : Q) :
  fold_left (fun acc v => acc + Vehicle_get_velocity w v) l acc
  == acc + sum_velocities w l.
Proof.
  unfold sum_velocities. revert acc.
  induction l as [|a l IH]; intros acc; simpl.
  - lra.
  - rewrite IH. rewrite (IH (0 + _)). lra.
Qed.

Lemma sum_velocities_nonneg (w : World) (l : list ref) :
  (forall v, In v l -> 0 <= Vehicle_get_velocity w v) -> 0 <= sum_velocities w l.
Proof.
  induction l as [|a l IH]; intros H.
  - unfold sum_velocities. simpl. lra.
  - unfold sum_velocities. simpl. rewrite sum_velocities_from.
    assert (0 <= Vehicle_get_velocity w a) by (apply H; left; reflexivity).
    assert (0 <= sum_velocities w l) by (apply IH; intros v Hv; apply H; right; exact Hv).
    lra.
Qed.

Lemma count_positive {A} (a : A) (l : list A) : 0 < inject_Z (Z.of_nat (length (a :: l))).
Proof.
  change 0 with (inject_Z 0). rewrite <- Zlt_Qlt. simpl. lia.
Qed.

(** X10. [get_flow] is [get_density * get_average_speed * 3.6]; on a lane of
    positive length this is [3600 * (sum of the velocities) / length], whatever
    the number of vehicles; both are [0] on a lane whose length is not
    positive, the density is never negative, and the flow and the average speed
    are not negative when no velocity is. *)
Theorem X10_flow_closed_form (w : World) (lane : ref) :
  Lane_get_flow w lane == Lane_get_density w lane * Lane_get_average_speed w lane * 3.6
  /\ (Lane_length w lane <= 0 -> Lane_get_density w lane == 0 /\ Lane_get_flow w lane == 0)
  /\ (0 < Lane_length w lane ->
      Lane_get_flow w lane
      == 3600 * sum_velocities w (Lane_vehicles w lane) / Lane_length w lane)
  /\ 0 <= Lane_get_density w lane
  /\ ((forall v, In v (Lane_vehicles w lane) -> 0 <= Vehicle_get_velocity w v) ->
      0 <= Lane_get_average_speed w lane /\ 0 <= Lane_get_flow w lane).
Proof.
  assert (Hdens0 : Lane_length w lane <= 0 -> Lane_get_density w lane == 0).
  { intros Hle. unfold Lane_get_density. apply Qle_bool_iff in Hle. rewrite Hle. reflexivity. }
  assert (Hdens : 0 <= Lane_get_density w lane).
  { unfold Lane_get_density. destruct (Qle_bool (Lane_length w lane) 0) eqn:E; [lra|].
    assert (HL : 0 < Lane_length w lane).
    { apply Qnot_le_lt. intros Hle. apply Qle_bool_iff in Hle. congruence. }
    assert (Hn : 0 <= inject_Z (Z.of_nat (length (Lane_vehicles w lane)))).
    { change 0 with (inject_Z 0). rewrite <- Zle_Qle. lia. }
    assert (0 <= inject_Z (Z.of_nat (length (Lane_vehicles w lane))) / Lane_length w lane).
    { apply Qle_shift_div_l; [exact HL|]. lra. }
    lra. }
  assert (Havg : (forall v, In v (Lane_vehicles w lane) -> 0 <= Vehicle_get_velocity w v) ->
                 0 <= Lane_get_average_speed w lane).
  { intros Hv. unfold Lane_get_average_speed.
    destruct (Lane_vehicles w lane) as [|a l] eqn:El; [lra|].
    apply Qle_shift_div_l; [apply count_positive|].
    pose proof (sum_velocities_nonneg w (a :: l) Hv). lra. }
  assert (Hflow : Lane_get_flow w lane
                  == Lane_get_density w lane * Lane_get_average_speed w lane * 3.6).
  { unfold Lane_get_flow, Lane_get_average_speed.
    destruct (Lane_vehicles w lane) as [|a l]; [lra|reflexivity]. }
  split; [exact Hflow|]. split; [|split; [|split; [exact Hdens|]]].
  - intros Hle. split; [apply Hdens0; exact Hle|].
    rewrite Hflow, (Hdens0 Hle). lra.
  - intros HL. unfold Lane_get_flow, Lane_get_density.
    destruct (Qle_bool (Lane_length w lane) 0) eqn:E.
    { apply Qle_bool_iff in E. lra. }
    destruct (Lane_vehicles w lane) as [|a l] eqn:El.
    + unfold sum_velocities. simpl. field. lra.
    + pose proof (count_positive a l) as Hn. field. split; lra.
  - intros Hv. split; [apply Havg; exact Hv|].
    rewrite Hflow. pose proof (Havg Hv).
    assert (0 <= Lane_get_density w lane * Lane_get_average_speed w lane) by nra.
    lra.
Qed.

Lemma head_is_Some {A} (l : list A) : l <> [] -> exists a, head l = Some a.
Proof. destruct l as [|a l]; [congruence|]. intros _. exists a. reflexivity. Qed.

Lemma last_is_Some_nonempty {A} (l : list A) : l <> [] -> exists a, last l = Some a.
Proof.
  intros H. destruct (last l) as [a|] eqn:E; [exists a; reflexivity|].
  apply last_None in E. contradiction.
Qed.

(** X11. [get_coordinate_at_distance] raises only for an empty coordinate list
    (the division by the lane length is reached only for a positive length).
    Otherwise the point returned lies on the segment from the first to the last
    coordinate: at the first for a distance of at most [0], at the last for a
    distance of at least the length, and at the ratio [distance / length] in
    between.  The constructor's coordinate list is never empty. *)
Theorem X11_coordinate_on_segment (coordinates : list Coordinate) (length distance : Q) :
  (Lane_get_coordinate_at_distance coordinates length distance = None <-> coordinates = [])
  /\ (forall a b, head coordinates = Some a -> last coordinates = Some b ->
      exists c t,
        Lane_get_coordinate_at_distance coordinates length distance = Some c
        /\ on_segment a b c t
        /\ (distance <= 0 -> t == 0)
        /\ (0 < distance -> length <= distance -> t == 1)
        /\ (0 < distance -> distance < length -> t == distance / length))
  /\ (forall given, Lane_init_coordinates length given <> []).
Proof.
  split; [|split].
  - unfold Lane_get_coordinate_at_distance. split.
    + intros H. destruct coordinates as [|a l]; [reflexivity|exfalso].
      destruct (last_is_Some_nonempty (a :: l)) as [b Hb]; [discriminate|].
      destruct (Qle_bool distance 0) eqn:E0; [discriminate H|].
      destruct (Qle_bool length distance) eqn:E1; [congruence|].
      rewrite py_div_some in H.
      * rewrite Hb in H. discriminate H.
      * intros Hz.
        assert (0 < distance).
        { apply Qnot_le_lt. intros Hle. apply Qle_bool_iff in Hle. congruence. }
        assert (distance < length).
        { apply Qnot_le_lt. intros Hle. apply Qle_bool_iff in Hle. congruence. }
        lra.
    + intros ->. destruct (Qle_bool distance 0); [reflexivity|].
      destruct (Qle_bool length distance); [reflexivity|].
      destruct (py_div distance length); reflexivity.
  - intros a b Ha Hb. unfold Lane_get_coordinate_at_distance. rewrite Ha, Hb.
    destruct (Qle_bool distance 0) eqn:E0.
    { apply Qle_bool_iff in E0. exists a, 0. split; [reflexivity|].
      split; [unfold on_segment; repeat split; lra|].
      split; [reflexivity|]. split; intros; lra. }
    assert (H0 : 0 < distance).
    { apply Qnot_le_lt. intros Hle. apply Qle_bool_iff in Hle. congruence. }
    destruct (Qle_bool length distance) eqn:E1.
    { apply Qle_bool_iff in E1. exists b, 1. split; [reflexivity|].
      split; [unfold on_segment; repeat split; lra|].
      split; [intros; lra|]. split; [reflexivity|intros; lra]. }
    assert (H1 : distance < length).
    { apply Qnot_le_lt. intros Hle. apply Qle_bool_iff in Hle. congruence. }
    rewrite py_div_some by lra. simpl.
    eexists. exists (distance / length). split; [reflexivity|].
    assert (Ht0 : 0 <= distance / length).
    { apply Qle_shift_div_l; lra. }
    assert (Ht1 : distance / length <= 1).
    { apply Qle_shift_div_r; lra. }
    split; [unfold on_segment; simpl; repeat split; try assumption; reflexivity|].
    split; [intros; lra|]. split; [intros; lra|reflexivity].
  - intros [[|c cs]|]; discriminate.
Qed.

(** ** Lane links *)

Lemma alter_fixed {A} (f : A -> A) (i : nat) (l : list A) (a : A) :
  l !! i = Some a -> f a = a -> alter f i l = l.
Proof.
  intros Hi Hf. apply list_eq. intros j.
  destruct (decide (i = j)) as [<-|Hne].
  - rewrite list_lookup_alter_eq, Hi. simpl. rewrite Hf. reflexivity.
  - apply list_lookup_alter_ne. exact Hne.
Qed.

Lemma upd_lane_fixed (w : World) (l : ref) (f : LaneObj -> LaneObj) (L : LaneObj) :
  lane_heap w !! l = Some L -> f L = L -> upd_lane l f w = w.
Proof.
  intros Hl Hf. unfold upd_lane. rewrite (alter_fixed f l _ L Hl Hf).
  destruct w; reflexivity.
Qed.

Lemma lane_attr_valid {A} (w : World) (l : ref) (g : LaneObj -> A) (d : A) :
  (l < length (lane_heap w))%nat -> exists L, lane_heap w !! l = Some L /\ lane_attr w l g d = g L.
Proof.
  intros Hl. destruct (lookup_valid _ _ Hl) as [L HL]. exists L. split; [exact HL|].
  unfold lane_attr. rewrite HL. reflexivity.
Qed.

Lemma lane_attr_link {A} (w : World) (o : option ref) (back : LaneObj -> LaneObj) (l : ref)
    (g : LaneObj -> A) (d : A) :
  lane_attr (link o back w) l g d
  = if decide (o = Some l) then lane_attr w l (fun L => g (back L)) d else lane_attr w l g d.
Proof.
  unfold link. destruct o as [b|].
  - rewrite lane_attr_upd_lane.
    destruct (decide (b = l)) as [->|Hne].
    + rewrite decide_True by reflexivity. reflexivity.
    + rewrite decide_False by congruence. reflexivity.
  - rewrite decide_False by discriminate. reflexivity.
Qed.

Lemma lane_attr_self {A} (w : World) (a : ref) (f : LaneObj -> LaneObj) (g : LaneObj -> A)
    (d : A) (x : A) :
  (a < length (lane_heap w))%nat ->
  (forall L, g (f L) = x) ->
  lane_attr (upd_lane a f w) a g d = x.
Proof.
  intros Ha Hg. rewrite lane_attr_upd_lane, decide_True by reflexivity.
  destruct (lane_attr_valid w a (fun L => g (f L)) d Ha) as (L & _ & ->). apply Hg.
Qed.

Lemma length_lane_heap_upd_lane (w : World) (l : ref) (f : LaneObj -> LaneObj) :
  length (lane_heap (upd_lane l f w)) = length (lane_heap w).
Proof. unfold upd_lane. simpl. apply length_alter. Qed.

Ltac link_forward Ha Hne :=
  rewrite lane_attr_link, decide_False by congruence;
  apply lane_attr_self; [exact Ha | reflexivity].

(** X8. Each of the four link setters, called on lane [a] with a different lane
    [b], sets the link of [a] and the opposite link of [b]: left/right,
    right/left, upstream/downstream, downstream/upstream.  Hence the second call
    of the pair [a.set_right_lane(b); b.set_left_lane(a)] changes nothing. *)
Theorem X8_lane_links_mutual (w : World) (a b : ref) :
  (a < length (lane_heap w))%nat ->
  (b < length (lane_heap w))%nat ->
  a <> b ->
  (Lane_get_left_lane (Lane_set_left_lane a (Some b) w) a = Some b
   /\ Lane_get_right_lane (Lane_set_left_lane a (Some b) w) b = Some a)
  /\ (Lane_get_right_lane (Lane_set_right_lane a (Some b) w) a = Some b
      /\ Lane_get_left_lane (Lane_set_right_lane a (Some b) w) b = Some a)
  /\ (Lane_get_upstream_lane (Lane_set_upstream_lane a (Some b) w) a = Some b
      /\ Lane_get_downstream_lane (Lane_set_upstream_lane a (Some b) w) b = Some a)
  /\ (Lane_get_downstream_lane (Lane_set_downstream_lane a (Some b) w) a = Some b
      /\ Lane_get_upstream_lane (Lane_set_downstream_lane a (Some b) w) b = Some a)
  /\ Lane_set_left_lane b (Some a) (Lane_set_right_lane a (Some b) w)
     = Lane_set_right_lane a (Some b) w.
Proof.
  intros Ha Hb Hne.
  unfold Lane_get_left_lane, Lane_get_right_lane, Lane_get_upstream_lane,
    Lane_get_downstream_lane.
  split; [|split; [|split; [|split]]].
  - unfold Lane_set_left_lane. split.
    + link_forward Ha Hne.
    + rewrite lane_attr_link, decide_True by reflexivity.
      rewrite lane_attr_upd_lane_frame by (intros []; reflexivity).
      destruct (lane_attr_valid w b (fun L => right_lane (set_right (Some a) L)) None Hb)
        as (L & _ & ->). reflexivity.
  - unfold Lane_set_right_lane. split.
    + link_forward Ha Hne.
    + rewrite lane_attr_link, decide_True by reflexivity.
      rewrite lane_attr_upd_lane_frame by (intros []; reflexivity).
      destruct (lane_attr_valid w b (fun L => left_lane (set_left (Some a) L)) None Hb)
        as (L & _ & ->). reflexivity.
  - unfold Lane_set_upstream_lane. split.
    + link_forward Ha Hne.
    + rewrite lane_attr_link, decide_True by reflexivity.
      rewrite lane_attr_upd_lane_frame by (intros []; reflexivity).
      destruct (lane_attr_valid w b (fun L => downstream_lane (set_downstream (Some a) L))
                  None Hb) as (L & _ & ->). reflexivity.
  - unfold Lane_set_downstream_lane. split.
    + link_forward Ha Hne.
    + rewrite lane_attr_link, decide_True by reflexivity.
      rewrite lane_attr_upd_lane_frame by (intros []; reflexivity).
      destruct (lane_attr_valid w b (fun L => upstream_lane (set_upstream (Some a) L))
                  None Hb) as (L & _ & ->). reflexivity.
  - set (w1 := Lane_set_right_lane a (Some b) w).
    assert (Hlen : length (lane_heap w1) = length (lane_heap w)).
    { unfold w1, Lane_set_right_lane, link. rewrite !length_lane_heap_upd_lane. reflexivity. }
    assert (Hright : lane_attr w1 a right_lane None = Some b).
    { unfold w1, Lane_set_right_lane. link_forward Ha Hne. }
    assert (Hleft : lane_attr w1 b left_lane None = Some a).
    { unfold w1, Lane_set_right_lane.
      rewrite lane_attr_link, decide_True by reflexivity.
      rewrite lane_attr_upd_lane_frame by (intros []; reflexivity).
      destruct (lane_attr_valid w b (fun L => left_lane (set_left (Some a) L)) None Hb)
        as (L & _ & ->). reflexivity. }
    destruct (lane_attr_valid w1 a right_lane None) as (La & HLa & Hra); [lia|].
    destruct (lane_attr_valid w1 b left_lane None) as (Lb & HLb & Hlb); [lia|].
    rewrite Hra in Hright. rewrite Hlb in Hleft.
    unfold Lane_set_left_lane, link.
    rewrite (upd_lane_fixed w1 b (set_left (Some a)) Lb HLb).
    + apply (upd_lane_fixed w1 a (set_right (Some b)) La HLa).
      destruct La; unfold set_right; simpl in *. congruence.
    + destruct Lb; unfold set_left; simpl in *. congruence.
Qed.

Lemma lookup_alter_cases {A} (f : A -> A) (i j : nat) (l : list A) :
  alter f i l !! j = (if decide (i = j) then f else id) <$> l !! j.
Proof.
  destruct (decide (i = j)) as [->|Hne].
  - apply list_lookup_alter_eq.
  - rewrite list_lookup_alter_ne by exact Hne. destruct (l !! j); reflexivity.
Qed.

(** X9. [a.set_left_lane(o)] writes the left link of [a] and, when [o] is a
    lane, the right link of that lane, and nothing else: vehicles, drivers,
    routes and the model are the same, no lane is created or lost, and every
    lane object is its former self except for these two links (so its id, type,
    length, speed limit, width, vehicle list and upstream and downstream links
    stay).  In particular a former left neighbour of [a] keeps [a] as its right
    neighbour after [a] is linked elsewhere. *)
Theorem X9_relink_leaves_back_link (w : World) (a : ref) (o : option ref) :
  let w' := Lane_set_left_lane a o w in
  (vehicle_heap w' = vehicle_heap w /\ driver_heap w' = driver_heap w
   /\ route_heap w' = route_heap w /\ model w' = model w
   /\ length (lane_heap w') = length (lane_heap w)
   /\ forall l L, lane_heap w !! l = Some L ->
        lane_heap w' !! l
        = Some ((if decide (o = Some l) then set_right (Some a) else id)
                  ((if decide (a = l) then set_left o else id) L)))
  /\ (forall l, Lane_vehicles w' l = Lane_vehicles w l
                /\ Lane_get_upstream_lane w' l = Lane_get_upstream_lane w l
                /\ Lane_get_downstream_lane w' l = Lane_get_downstream_lane w l)
  /\ (forall l, l <> a -> Lane_get_left_lane w' l = Lane_get_left_lane w l)
  /\ (forall l, o <> Some l -> Lane_get_right_lane w' l = Lane_get_right_lane w l)
  /\ (forall old, Lane_get_left_lane w a = Some old -> o <> Some old ->
                  Lane_get_right_lane w old = Some a ->
                  (a < length (lane_heap w))%nat -> o <> Some a ->
                  Lane_get_right_lane w' old = Some a /\ Lane_get_left_lane w' a = o).
Proof.
  intros w'. unfold w', Lane_set_left_lane.
  assert (Hframe : forall A (g : LaneObj -> A) (d : A) l,
            (forall L v, g (set_left v L) = g L) ->
            (forall L v, g (set_right v L) = g L) ->
            lane_attr (link o (set_right (Some a)) (upd_lane a (set_left o) w)) l g d
            = lane_attr w l g d).
  { intros A g d l Hl Hr. rewrite lane_attr_link.
    destruct (decide (o = Some l)).
    - rewrite lane_attr_upd_lane_frame by (intros L; rewrite !Hr; apply Hl).
      unfold lane_attr. destruct (lane_heap w !! l); [apply Hr|reflexivity].
    - apply lane_attr_upd_lane_frame. intros L. apply Hl. }
  assert (Hright : forall l, o <> Some l ->
            lane_attr (link o (set_right (Some a)) (upd_lane a (set_left o) w)) l right_lane None
            = lane_attr w l right_lane None).
  { intros l Hne. rewrite lane_attr_link, decide_False by exact Hne.
    apply lane_attr_upd_lane_frame. intros []; reflexivity. }
  split.
  { split; [destruct o; reflexivity|]. split; [destruct o; reflexivity|].
    split; [destruct o; reflexivity|]. split; [destruct o; reflexivity|].
    split.
    - destruct o; unfold link, upd_lane; cbn [lane_heap]; rewrite ?length_alter; reflexivity.
    - intros l L HL. destruct o as [b|]; unfold link, upd_lane; cbn [lane_heap].
      + rewrite !lookup_alter_cases, HL. cbn [fmap option_fmap option_map].
        destruct (decide (b = l)) as [->|Hne].
        * rewrite (decide_True (P := Some l = Some l)) by reflexivity. reflexivity.
        * rewrite (decide_False (P := Some b = Some l)) by congruence. reflexivity.
      + rewrite lookup_alter_cases, HL. cbn [fmap option_fmap option_map].
        rewrite (decide_False (P := None = Some l)) by discriminate. reflexivity. }
  split; [|split; [|split]].
  - intros l. unfold Lane_vehicles, Lane_get_upstream_lane, Lane_get_downstream_lane.
    repeat split; apply Hframe; intros [] ?; reflexivity.
  - intros l Hne. unfold Lane_get_left_lane. rewrite lane_attr_link.
    destruct (decide (o = Some l)).
    + rewrite lane_attr_upd_lane, decide_False by congruence.
      unfold lane_attr. destruct (lane_heap w !! l) as [[]|]; reflexivity.
    + rewrite lane_attr_upd_lane, decide_False by congruence. reflexivity.
  - intros l Hne. unfold Lane_get_right_lane. apply Hright. exact Hne.
  - intros old Hold Hne Hback Ha Hself. unfold Lane_get_right_lane, Lane_get_left_lane in *.
    split; [rewrite Hright by exact Hne; exact Hback|].
    rewrite lane_attr_link, decide_False by exact Hself.
    apply lane_attr_self; [exact Ha|reflexivity].
Qed.

(** ** Lane lists and queries *)

Section StableSort.
Context {A : Type} (key : A -> Q).

Lemma sort_by_sorted_id (l : list A) :
  Sorted (fun a b => key a <= key b) l -> sort_by key l = l.
Proof.
  induction 1 as [|a l Hs IH Hhd]; [reflexivity|].
  unfold sort_by in *. simpl. rewrite IH.
  destruct Hhd as [|b l' Hab]; [reflexivity|].
  simpl. apply Qle_bool_iff in Hab. rewrite Hab. reflexivity.
Qed.

Lemma foldr_insert_sorted (s l : list A) :
  Sorted (fun a b => key a <= key b) s ->
  Sorted (fun a b => key a <= key b) (foldr (insert_by key) s l).
Proof.
  intros Hs. induction l as [|a l IH]; [exact Hs|].
  simpl. apply insert_by_sorted. exact IH.
Qed.

End StableSort.

Lemma list_remove_insert_by (key : ref -> Q) (v a : ref) (s : list ref) :
  a <> v ->
  Sorted (fun a b => key a <= key b) s ->
  list_remove v (insert_by key a s) = insert_by key a (list_remove v s).
Proof.
  intros Hne Hs. induction Hs as [|b s Hs IH Hhd].
  - simpl. rewrite decide_False by congruence. reflexivity.
  - simpl. destruct (Qle_bool (key a) (key b)) eqn:E.
    + simpl. rewrite decide_False by congruence.
      destruct (decide (v = b)) as [->|Hvb].
      * destruct Hhd as [|c s' Hbc]; [reflexivity|].
        simpl. apply Qle_bool_iff in E.
        assert (Hac : key a <= key c) by lra.
        apply Qle_bool_iff in Hac. rewrite Hac. reflexivity.
      * simpl. rewrite E. reflexivity.
    + simpl. destruct (decide (v = b)) as [->|Hvb]; [reflexivity|].
      simpl. rewrite E, IH. reflexivity.
Qed.

Lemma list_remove_foldr_insert (key : ref -> Q) (v : ref) (l s : list ref) :
  v ∉ l ->
  Sorted (fun a b => key a <= key b) s ->
  list_remove v (foldr (insert_by key) s l) = foldr (insert_by key) (list_remove v s) l.
Proof.
  intros Hv Hs. induction l as [|a l IH]; [reflexivity|].
  simpl. apply not_elem_of_cons in Hv as [Hne Hv].
  rewrite list_remove_insert_by.
  - rewrite IH by exact Hv. reflexivity.
  - congruence.
  - apply foldr_insert_sorted. exact Hs.
Qed.

Lemma list_remove_sort_appended (key : ref -> Q) (v : ref) (l : list ref) :
  v ∉ l -> list_remove v (sort_by key (l ++ [v])) = sort_by key l.
Proof.
  intros Hv. unfold sort_by. rewrite foldr_app. simpl.
  rewrite list_remove_foldr_insert.
  - simpl. rewrite decide_True by reflexivity. reflexivity.
  - exact Hv.
  - repeat constructor.
Qed.

(** X12. Adding a vehicle that is not on a lane's list and removing it again
    leaves the list as its stable sort by position: unchanged when it was in
    ascending order.  The vehicle's [lane] attribute, set by [add_vehicle], is
    not reset by [remove_vehicle]: it still refers to the lane. *)
Theorem X12_lane_add_then_remove (w : World) (lane vehicle : ref) :
  (lane < length (lane_heap w))%nat ->
  vehicle ∉ Lane_vehicles w lane ->
  let w' := Lane_remove_vehicle lane vehicle (Lane_add_vehicle lane vehicle w) in
  Lane_vehicles w' lane = sort_by (Vehicle_get_x w) (Lane_vehicles w lane)
  /\ (sorted_by_x w (Lane_vehicles w lane) -> Lane_vehicles w' lane = Lane_vehicles w lane)
  /\ (vehicle ∉ Lane_vehicles w' lane)
  /\ ((vehicle < length (vehicle_heap w))%nat -> Vehicle_get_lane w' vehicle = lane).
Proof.
  intros Hl Hv w'.
  assert (Hlist : Lane_vehicles w' lane = sort_by (Vehicle_get_x w) (Lane_vehicles w lane)).
  { unfold w'. rewrite Lane_vehicles_remove, decide_True by reflexivity.
    rewrite Lane_vehicles_after_add by assumption.
    apply list_remove_sort_appended. exact Hv. }
  split; [exact Hlist|]. split; [|split].
  - intros Hs. rewrite Hlist. apply sort_by_sorted_id. exact Hs.
  - rewrite Hlist. intros Hin. apply Hv.
    apply list_elem_of_In. apply list_elem_of_In in Hin.
    eapply Permutation_in; [apply sort_by_perm|exact Hin].
  - intros Hr. unfold w', Vehicle_get_lane.
    rewrite veh_attr_Lane_remove_vehicle. unfold veh_attr.
    rewrite heap_Lane_add_vehicle, decide_True by reflexivity.
    rewrite decide_False by exact Hv.
    destruct (lookup_valid _ _ Hr) as [o ->]. reflexivity.
Qed.

Lemma leading_vehicle_spec (w : World) (lane : ref) (position : Q) :
  match Lane_get_leading_vehicle w lane position with
  | Some v =>
      In v (Lane_vehicles w lane) /\ position < Vehicle_get_x w v
      /\ forall u, In u (Lane_vehicles w lane) -> position < Vehicle_get_x w u ->
                   Vehicle_get_x w v <= Vehicle_get_x w u
  | None => forall u, In u (Lane_vehicles w lane) -> ~ position < Vehicle_get_x w u
  end.
Proof.
  unfold Lane_get_leading_vehicle.
  destruct (List.filter _ _) as [|c cs] eqn:E.
  - intros u Hu Hlt.
    assert (Hin : In u (List.filter (fun v => Qltb position (Vehicle_get_x w v))
                          (Lane_vehicles w lane))).
    { apply filter_In. split; [exact Hu | apply Qltb_lt, Hlt]. }
    rewrite E in Hin. destruct Hin.
  - destruct (min_from_spec (Vehicle_get_x w) cs c) as [Hin Hmin].
    rewrite <- E in Hin, Hmin. apply filter_In in Hin as [Hin Hahead].
    split; [exact Hin|]. split; [apply Qltb_lt, Hahead|].
    intros u Hu Hlt. apply Hmin, filter_In. split; [exact Hu | apply Qltb_lt, Hlt].
Qed.

Lemma following_vehicle_none (w : World) (lane : ref) (position : Q) :
  Lane_get_following_vehicle w lane position = None ->
  forall u, In u (Lane_vehicles w lane) -> ~ Vehicle_get_x w u < position.
Proof.
  unfold Lane_get_following_vehicle.
  destruct (List.filter _ _) as [|c cs] eqn:E; [|discriminate].
  intros _ u Hu Hlt.
  assert (Hin : In u (List.filter (fun v => Qltb (Vehicle_get_x w v) position)
                        (Lane_vehicles w lane))).
  { apply filter_In. split; [exact Hu | apply Qltb_lt, Hlt]. }
  rewrite E in Hin. destruct Hin.
Qed.

(** X7. [is_safe_lane_change] is [False] without a target lane.  With one it
    is [True] exactly when every vehicle of the target lane strictly ahead of
    the vehicle leaves at least [min_gap] beyond the vehicle's own length, and
    the nearest vehicle strictly behind, if any, leaves at least [min_gap]
    beyond its length.  Vehicles of the target lane at the very same position
    are not looked at: a target lane all of whose vehicles are alongside is
    safe. *)
Theorem X7_safe_lane_change_clearance (w : World) (lane vehicle target : ref) (min_gap : Q) :
  let position := Vehicle_get_x w vehicle in
  Lane_is_safe_lane_change w lane vehicle None min_gap = false
  /\ (Lane_is_safe_lane_change w lane vehicle (Some target) min_gap = true
      <-> (forall u, In u (Lane_vehicles w target) -> position < Vehicle_get_x w u ->
             min_gap <= Vehicle_get_x w u - position - Vehicle_length w vehicle)
          /\ (forall f, Lane_get_following_vehicle w target position = Some f ->
                min_gap <= position - Vehicle_get_x w f - Vehicle_length w f))
  /\ ((forall u, In u (Lane_vehicles w target) -> Vehicle_get_x w u == position) ->
      Lane_is_safe_lane_change w lane vehicle (Some target) min_gap = true).
Proof.
  intros position.
  assert (Hiff : Lane_is_safe_lane_change w lane vehicle (Some target) min_gap = true
      <-> (forall u, In u (Lane_vehicles w target) -> position < Vehicle_get_x w u ->
             min_gap <= Vehicle_get_x w u - position - Vehicle_length w vehicle)
          /\ (forall f, Lane_get_following_vehicle w target position = Some f ->
                min_gap <= position - Vehicle_get_x w f - Vehicle_length w f)).
  { unfold Lane_is_safe_lane_change. fold position.
    pose proof (leading_vehicle_spec w target position) as Hlead.
    rewrite andb_true_iff. split.
    - intros [H1 H2]. split.
      + intros u Hu Hlt.
        destruct (Lane_get_leading_vehicle w target position) as [leader|].
        * destruct Hlead as (_ & _ & Hmin).
          apply negb_true_iff, Qltb_ge in H1.
          pose proof (Hmin u Hu Hlt). lra.
        * exfalso. exact (Hlead u Hu Hlt).
      + intros f Hf. rewrite Hf in H2. apply negb_true_iff, Qltb_ge in H2. exact H2.
    - intros [H1 H2]. split.
      + destruct (Lane_get_leading_vehicle w target position) as [leader|]; [|reflexivity].
        destruct Hlead as (Hin & Hlt & _).
        apply negb_true_iff, Qltb_ge. apply H1; assumption.
      + destruct (Lane_get_following_vehicle w target position) as [f|]; [|reflexivity].
        apply negb_true_iff, Qltb_ge. apply H2. reflexivity. }
  split; [reflexivity|]. split; [exact Hiff|].
  intros Hside. apply Hiff. split.
  - intros u Hu Hlt. pose proof (Hside u Hu). lra.
  - intros f Hf. exfalso.
    unfold Lane_get_following_vehicle in Hf.
    destruct (List.filter _ _) as [|c cs] eqn:E; [discriminate|].
    assert (Hin : In c (List.filter (fun v => Qltb (Vehicle_get_x w v) position)
                          (Lane_vehicles w target))).
    { rewrite E. left. reflexivity. }
    apply filter_In in Hin as [Hin Hlt]. apply Qltb_lt in Hlt.
    pose proof (Hside c Hin). lra.
Qed.

(** ** The neighbour caches *)

Section DictSetGet.
Context {K V : Type} `{EqDecision K}.

Lemma dict_get_set_same (k : K) (v : V) (d : list (K * V)) :
  dict_get k (dict_set k v d) = Some v.
Proof.
  induction d as [|[k' v'] d IH]; simpl.
  - rewrite decide_True by reflexivity. reflexivity.
  - destruct (decide (k = k')) as [->|Hne]; simpl.
    + rewrite decide_True by reflexivity. reflexivity.
    + rewrite decide_False by exact Hne. exact IH.
Qed.

Lemma dict_get_set_other (k k' : K) (v : V) (d : list (K * V)) :
  k <> k' -> dict_get k' (dict_set k v d) = dict_get k' d.
Proof.
  intros Hne. induction d as [|[k0 v0] d IH]; simpl.
  - rewrite decide_False by congruence. reflexivity.
  - destruct (decide (k = k0)) as [->|Hne0]; simpl.
    + rewrite !decide_False by congruence. reflexivity.
    + destruct (decide (k' = k0)); [reflexivity|exact IH].
Qed.

End DictSetGet.

Lemma get_vehicle_after_update (w : World) (v v' : ref) (area : Enclosure) (o : option ref)
    (key : PyKey) :
  (v < length (vehicle_heap w))%nat ->
  Vehicle_get_vehicle (Vehicle_update_surrounding v area o w) v' key
  = if decide (v = v' /\ key = KEnc area) then o else Vehicle_get_vehicle w v' key.
Proof.
  intros Hv. unfold Vehicle_get_vehicle, Vehicle_update_surrounding.
  rewrite veh_attr_upd_vehicle.
  destruct (decide (v = v')) as [<-|Hne].
  - unfold veh_attr. destruct (lookup_valid _ _ Hv) as [vo ->]. simpl.
    destruct (decide (key = KEnc area)) as [->|Hk].
    + rewrite decide_True by (split; reflexivity). rewrite dict_get_set_same. reflexivity.
    + rewrite decide_False by (intros [_ ?]; contradiction).
      rewrite dict_get_set_other by congruence. reflexivity.
  - rewrite decide_False by (intros [? _]; contradiction). reflexivity.
Qed.

Lemma length_heap_update_surrounding (w : World) (v : ref) (area : Enclosure) (o : option ref) :
  length (vehicle_heap (Vehicle_update_surrounding v area o w)) = length (vehicle_heap w).
Proof. unfold Vehicle_update_surrounding, upd_vehicle. simpl. apply length_alter. Qed.

Lemma update_one_sets (w : World) (lane v : ref) :
  (v < length (vehicle_heap w))%nat ->
  cache_holds (update_one_surroundings lane w v) v (Lane_get_neighbors w lane v).
Proof.
  intros Hv. unfold cache_holds, update_one_surroundings.
  repeat split;
    repeat (rewrite get_vehicle_after_update
              by (rewrite ?length_heap_update_surrounding; exact Hv);
            first [ rewrite decide_True by (split; reflexivity); reflexivity
                  | rewrite decide_False by (intros [_ ?]; discriminate) ]).
Qed.

Lemma update_one_other (w : World) (lane u v : ref) (key : PyKey) :
  u <> v ->
  Vehicle_get_vehicle (update_one_surroundings lane w u) v key = Vehicle_get_vehicle w v key.
Proof.
  intros Hne. unfold update_one_surroundings, Vehicle_get_vehicle, Vehicle_update_surrounding.
  rewrite !veh_attr_upd_vehicle. rewrite !decide_False by exact Hne. reflexivity.
Qed.

Lemma update_one_only (w : World) (lane v : ref) :
  only_vehicles same_body w (update_one_surroundings lane w v).
Proof.
  unfold update_one_surroundings.
  repeat (eapply only_vehicles_trans; [|apply update_surrounding_only]).
  apply only_vehicles_refl.
Qed.

Lemma min_from_ext {A} (key key' : A -> Q) (l : list A) (best : A) :
  (forall a, key a = key' a) -> min_from key best l = min_from key' best l.
Proof.
  intros H. revert best. induction l as [|a l IH]; intros best; [reflexivity|].
  simpl. rewrite !H. apply IH.
Qed.

Lemma max_from_ext {A} (key key' : A -> Q) (l : list A) (best : A) :
  (forall a, key a = key' a) -> max_from key best l = max_from key' best l.
Proof.
  intros H. revert best. induction l as [|a l IH]; intros best; [reflexivity|].
  simpl. rewrite !H. apply IH.
Qed.

Lemma Vehicle_get_x_only_vehicles (w w' : World) (r : ref) :
  only_vehicles same_body w w' -> Vehicle_get_x w' r = Vehicle_get_x w r.
Proof.
  intros H. apply veh_attr_only_vehicles; [exact H|].
  intros v v' Hb. destruct Hb as (_ & _ & _ & _ & -> & _). reflexivity.
Qed.

Lemma lane_attr_only_vehicles {A} (w w' : World) (l : ref) (g : LaneObj -> A) (d : A) :
  only_vehicles same_body w w' -> lane_attr w' l g d = lane_attr w l g d.
Proof. intros (Hl & _). unfold lane_attr. rewrite Hl. reflexivity. Qed.

Lemma leading_only_vehicles (w w' : World) (l : ref) (p : Q) :
  only_vehicles same_body w w' ->
  Lane_get_leading_vehicle w' l p = Lane_get_leading_vehicle w l p.
Proof.
  intros H. unfold Lane_get_leading_vehicle, Lane_vehicles.
  rewrite (lane_attr_only_vehicles w w') by exact H.
  rewrite (filter_ext (fun v => Qltb p (Vehicle_get_x w' v))
             (fun v => Qltb p (Vehicle_get_x w v)))
    by (intros a; rewrite (Vehicle_get_x_only_vehicles w w') by exact H; reflexivity).
  destruct (List.filter _ _) as [|c cs]; [reflexivity|].
  f_equal. apply min_from_ext. intros a. apply Vehicle_get_x_only_vehicles. exact H.
Qed.

Lemma following_only_vehicles (w w' : World) (l : ref) (p : Q) :
  only_vehicles same_body w w' ->
  Lane_get_following_vehicle w' l p = Lane_get_following_vehicle w l p.
Proof.
  intros H. unfold Lane_get_following_vehicle, Lane_vehicles.
  rewrite (lane_attr_only_vehicles w w') by exact H.
  rewrite (filter_ext (fun v => Qltb (Vehicle_get_x w' v) p)
             (fun v => Qltb (Vehicle_get_x w v) p))
    by (intros a; rewrite (Vehicle_get_x_only_vehicles w w') by exact H; reflexivity).
  destruct (List.filter _ _) as [|c cs]; [reflexivity|].
  f_equal. apply max_from_ext. intros a. apply Vehicle_get_x_only_vehicles. exact H.
Qed.

Lemma neighbors_only_vehicles (w w' : World) (lane v : ref) :
  only_vehicles same_body w w' ->
  Lane_get_neighbors w' lane v = Lane_get_neighbors w lane v.
Proof.
  intros H. unfold Lane_get_neighbors, Lane_get_left_lane, Lane_get_right_lane.
  rewrite !(lane_attr_only_vehicles w w') by exact H.
  rewrite (Vehicle_get_x_only_vehicles w w') by exact H.
  rewrite !(leading_only_vehicles w w'), !(following_only_vehicles w w') by exact H.
  destruct (lane_attr w lane left_lane None), (lane_attr w lane right_lane None);
    rewrite ?(leading_only_vehicles w w'), ?(following_only_vehicles w w') by exact H;
    reflexivity.
Qed.

Lemma length_heap_only_vehicles (w w' : World) :
  only_vehicles same_body w w' -> length (vehicle_heap w') = length (vehicle_heap w).
Proof. intros (_ & _ & _ & _ & H). symmetry. eapply Forall2_length, H. Qed.

Lemma cache_holds_other (w : World) (lane u v : ref) (n : Neighbors) :
  u <> v -> cache_holds w v n -> cache_holds (update_one_surroundings lane w u) v n.
Proof.
  intros Hne H. unfold cache_holds in *. rewrite !update_one_other by exact Hne. exact H.
Qed.

Lemma refresh_loop (w : World) (lane v : ref) (l : list ref) : forall w0,
  (v < length (vehicle_heap w))%nat ->
  only_vehicles same_body w w0 ->
  In v l \/ cache_holds w0 v (Lane_get_neighbors w lane v) ->
  cache_holds (fold_left (update_one_surroundings lane) l w0) v (Lane_get_neighbors w lane v).
Proof.
  induction l as [|u l IH]; intros w0 Hv Hsame Hor.
  - destruct Hor as [[]|H]. exact H.
  - simpl. apply IH; [exact Hv| |].
    + eapply only_vehicles_trans; [exact Hsame|apply update_one_only].
    + destruct (decide (u = v)) as [->|Hne].
      * right. rewrite <- (neighbors_only_vehicles w w0 lane v Hsame).
        apply update_one_sets. rewrite (length_heap_only_vehicles w w0 Hsame). exact Hv.
      * destruct Hor as [[Heq|Hin]|H]; [contradiction|left; exact Hin|].
        right. apply cache_holds_other; assumption.
Qed.

Lemma get_vehicle_other_key (w : World) (v r : ref) (area : Enclosure) (o : option ref)
    (key : PyKey) :
  key <> KEnc area ->
  Vehicle_get_vehicle (Vehicle_update_surrounding v area o w) r key
  = Vehicle_get_vehicle w r key.
Proof.
  intros Hk. unfold Vehicle_get_vehicle, Vehicle_update_surrounding.
  rewrite veh_attr_upd_vehicle. destruct (decide (v = r)) as [_|_]; [|reflexivity].
  unfold veh_attr. destruct (vehicle_heap w !! r) as [u|]; [|reflexivity]. simpl.
  rewrite dict_get_set_other by congruence. reflexivity.
Qed.

Lemma refresh_other_keys (lane : ref) (key : PyKey) (l : list ref) : forall (w : World) (r : ref),
  (forall area, key <> KEnc area) ->
  Vehicle_get_vehicle (fold_left (update_one_surroundings lane) l w) r key
  = Vehicle_get_vehicle w r key.
Proof.
  induction l as [|u l IH]; intros w r Hk; simpl; [reflexivity|].
  rewrite IH by exact Hk. unfold update_one_surroundings.
  rewrite !get_vehicle_other_key by apply Hk. reflexivity.
Qed.

(** X6. After [update_vehicle_surroundings] on a lane, the neighbour cache of
    every vehicle on the lane's list holds, under the six [Enclosure] keys, the
    neighbours that the lane's queries return for it in the resulting store
    (leader and follower on the lane and on the left and right lanes, [None]
    where a lane is missing).  Nothing else is written: lanes, drivers, routes
    and the model are the same, a vehicle on the list equals its former self up
    to the cache, entries under other keys stay, and a vehicle that is not on
    the list is the same object state as before. *)
Theorem X6_surroundings_refreshed (w : World) (lane v : ref) :
  In v (Lane_vehicles w lane) ->
  (v < length (vehicle_heap w))%nat ->
  let w' := Lane_update_vehicle_surroundings lane w in
  let position := Vehicle_get_x w' v in
  let beside (side : option ref) (q : World -> ref -> Q -> option ref) :=
    match side with Some l => q w' l position | None => None end in
  (only_vehicles cache_only w w'
   /\ (forall r, ~ In r (Lane_vehicles w lane) -> vehicle_heap w' !! r = vehicle_heap w !! r)
   /\ (forall r key, (forall area, key <> KEnc area) ->
         Vehicle_get_vehicle w' r key = Vehicle_get_vehicle w r key))
  /\ Vehicle_get_vehicle w' v (KEnc FRONT) = Lane_get_leading_vehicle w' lane position
  /\ Vehicle_get_vehicle w' v (KEnc BACK) = Lane_get_following_vehicle w' lane position
  /\ Vehicle_get_vehicle w' v (KEnc LEFT_FRONT)
     = beside (Lane_get_left_lane w' lane) Lane_get_leading_vehicle
  /\ Vehicle_get_vehicle w' v (KEnc LEFT_BACK)
     = beside (Lane_get_left_lane w' lane) Lane_get_following_vehicle
  /\ Vehicle_get_vehicle w' v (KEnc RIGHT_FRONT)
     = beside (Lane_get_right_lane w' lane) Lane_get_leading_vehicle
  /\ Vehicle_get_vehicle w' v (KEnc RIGHT_BACK)
     = beside (Lane_get_right_lane w' lane) Lane_get_following_vehicle.
Proof.
  intros Hin Hv w' position beside.
  destruct (update_vehicle_surroundings_caches w lane) as (Hcache & Hoff).
  fold w' in Hcache, Hoff.
  assert (Hsame : only_vehicles same_body w w') by (apply caches_same_body, Hcache).
  split.
  { split; [exact Hcache|]. split; [exact Hoff|].
    intros r key Hk. apply refresh_other_keys. exact Hk. }
  pose proof (refresh_loop w lane v (Lane_vehicles w lane) w Hv (only_vehicles_refl w)
                (or_introl Hin)) as H.
  fold (Lane_update_vehicle_surroundings lane w) in H. fold w' in H.
  rewrite <- (neighbors_only_vehicles w w' lane v Hsame) in H.
  exact H.
Qed.

(** ** One tick, vehicle by vehicle *)

Lemma heap_Model_remove_vehicle (w : World) (k : Z) :
  vehicle_heap (Model_remove_vehicle k w) = vehicle_heap w
  /\ statics (Model_remove_vehicle k w) = statics w
  /\ driver_heap (Model_remove_vehicle k w) = driver_heap w.
Proof.
  destruct (dict_get k (vehicles (model w))) as [r|] eqn:E.
  - destruct (remove_vehicle_registered w k r E) as (_ & H1 & H2 & _ & H3 & _). auto.
  - unfold Model_remove_vehicle. rewrite E. auto.
Qed.

Lemma move_and_check_heap (w : World) (dt : Q) (r1 : ref) :
  vehicle_heap (move_and_check dt w r1) = vehicle_heap (Vehicle_move r1 dt w)
  /\ statics (move_and_check dt w r1) = statics w
  /\ driver_heap (move_and_check dt w r1) = driver_heap w.
Proof.
  unfold move_and_check. destruct (Model_has_vehicle_exited _ _).
  - destruct (heap_Model_remove_vehicle (Vehicle_move r1 dt w)
                (veh_attr (Vehicle_move r1 dt w) r1 veh_id 0%Z)) as (-> & -> & ->).
    rewrite statics_Vehicle_move, driver_heap_Vehicle_move. auto.
  - rewrite statics_Vehicle_move, driver_heap_Vehicle_move. auto.
Qed.

Lemma fold_move_records (dt : Q) (rs : list ref) : forall w,
  NoDup rs ->
  statics (fold_left (move_and_check dt) rs w) = statics w
  /\ forall r v, vehicle_heap w !! r = Some v ->
       vehicle_heap (fold_left (move_and_check dt) rs w) !! r
       = Some (if bool_decide (r ∈ rs)
               then move_record (neighbour_lane w (veh_lane v)) dt v else v).
Proof.
  induction rs as [|r1 rs IH]; intros w Hnd.
  - split; [reflexivity|]. intros r v Hv. cbn [fold_left].
    rewrite bool_decide_eq_false_2; [exact Hv|]. apply not_elem_of_nil.
  - apply NoDup_cons in Hnd as [Hnotin Hnd]. cbn [fold_left].
    destruct (move_and_check_heap w dt r1) as (Hheap & Hstat & _).
    destruct (IH (move_and_check dt w r1) Hnd) as (IHs & IHr).
    split; [rewrite IHs; exact Hstat|].
    intros r v Hv. destruct (decide (r = r1)) as [->|Hne].
    + rewrite (IHr r1 (move_record (neighbour_lane w (veh_lane v)) dt v)).
      * rewrite (bool_decide_eq_false_2 _ Hnotin).
        rewrite bool_decide_eq_true_2 by (apply elem_of_cons; left; reflexivity). reflexivity.
      * rewrite Hheap. apply Vehicle_move_lookup. exact Hv.
    + rewrite (IHr r v).
      * assert (Hmem : bool_decide (r ∈ r1 :: rs) = bool_decide (r ∈ rs)).
        { apply bool_decide_ext. rewrite elem_of_cons. tauto. }
        rewrite Hmem. destruct (bool_decide (r ∈ rs)); [|reflexivity].
        f_equal. apply move_record_ext. intros d. apply neighbour_lane_statics. exact Hstat.
      * rewrite Hheap, Vehicle_move_lookup_other by congruence. exact Hv.
Qed.

Lemma before_integration_facts (sqrt : Q -> Q) (dt : Q) (w : World) :
  let wb := before_integration sqrt dt w in
  Forall2 same_body (vehicle_heap w) (vehicle_heap wb)
  /\ statics wb = statics w
  /\ vehicles (model wb) = vehicles (model w)
  /\ driver_heap wb = driver_heap w
  /\ (registry_ok w -> registry_ok wb).
Proof.
  intros wb.
  pose proof (before_integration_only sqrt dt w) as Honly. fold wb in Honly.
  pose proof Honly as (Hl & Hd & _ & Hm & Hv).
  split; [exact Hv|]. split; [unfold statics; rewrite Hl; reflexivity|].
  split; [rewrite Hm; reflexivity|]. split; [rewrite Hd; reflexivity|].
  intros Hok. apply (registry_ok_only_vehicles (advance_clock dt w)); [exact Honly|].
  destruct Hok as (Hnd & Hent & Hndd). repeat split; assumption.
Qed.

Lemma tick_record (sqrt : Q -> Q) (dt : Q) (w : World) (r : ref) (v : VehicleObj) :
  registry_ok w ->
  vehicle_heap (before_integration sqrt dt w) !! r = Some v ->
  vehicle_heap (Model_update_simulation sqrt dt w) !! r
  = Some (if bool_decide (r ∈ dict_values (vehicles (model w)))
          then move_record (neighbour_lane (before_integration sqrt dt w) (veh_lane v)) dt v
          else v).
Proof.
  intros Hok Hv.
  destruct (before_integration_facts sqrt dt w) as (_ & _ & Hreg & _ & Hokb).
  destruct (fold_move_records dt (dict_values (vehicles (model w)))
              (before_integration sqrt dt w)) as (_ & Hrec).
  { rewrite <- Hreg. apply registry_values_NoDup, Hokb, Hok. }
  rewrite <- (Hrec r v Hv).
  unfold Model_update_simulation, vehicles_phase. fold (before_integration sqrt dt w).
  rewrite Hreg. reflexivity.
Qed.

Lemma fold_move_statics (dt : Q) (rs : list ref) (w : World) :
  statics (fold_left (move_and_check dt) rs w) = statics w.
Proof.
  revert w. induction rs as [|r1 rs IH]; intros w; [reflexivity|].
  cbn [fold_left]. rewrite IH. apply move_and_check_heap.
Qed.

Lemma tick_statics (sqrt : Q -> Q) (dt : Q) (w : World) :
  statics (Model_update_simulation sqrt dt w) = statics w.
Proof.
  destruct (before_integration_facts sqrt dt w) as (_ & Hs & _).
  rewrite <- Hs. apply (fold_move_statics dt _ (before_integration sqrt dt w)).
Qed.

(** X13. One tick, seen from one vehicle object.  Refreshing the caches and
    running the drivers leaves every vehicle's body (id, lane, length, driver,
    position, velocity, lane-change progress, crash flag) as it was; then a
    registered vehicle is moved exactly once - its record after the tick is its
    record after a single [move(dt)] on the store the drivers left - and a
    vehicle that is not registered is not moved.  No lane's length or link is
    changed. *)
Theorem X13_tick_moves_registered_once (sqrt : Q -> Q) (dt : Q) (w : World) (r : ref) :
  registry_ok w ->
  let wb := before_integration sqrt dt w in
  let w' := Model_update_simulation sqrt dt w in
  Forall2 same_body (vehicle_heap w) (vehicle_heap wb)
  /\ statics w' = statics w
  /\ (In r (dict_values (vehicles (model w))) ->
      vehicle_heap w' !! r = vehicle_heap (Vehicle_move r dt wb) !! r)
  /\ (forall v, ~ In r (dict_values (vehicles (model w))) ->
      vehicle_heap wb !! r = Some v -> vehicle_heap w' !! r = Some v).
Proof.
  intros Hok wb w'.
  destruct (before_integration_facts sqrt dt w) as (Hbody & _ & Hreg & _ & Hokb).
  fold wb in Hbody, Hreg, Hokb.
  split; [exact Hbody|]. split; [apply tick_statics|]. split.
  - intros Hin.
    assert (Hv : exists v, vehicle_heap wb !! r = Some v).
    { unfold dict_values in Hin. apply in_map_iff in Hin as [[k r'] [Heq Hin]].
      simpl in Heq. subst r'. rewrite <- Hreg in Hin.
      destruct (Hokb Hok) as (_ & Hent & _).
      destruct (Hent k r Hin) as (v & Hv & _). exists v. exact Hv. }
    destruct Hv as [v Hv]. unfold w'.
    rewrite (tick_record sqrt dt w r v Hok Hv).
    rewrite bool_decide_eq_true_2 by (apply list_elem_of_In; exact Hin).
    symmetry. apply Vehicle_move_lookup. exact Hv.
  - intros v Hnot Hv. unfold w'. rewrite (tick_record sqrt dt w r v Hok Hv).
    rewrite bool_decide_eq_false_2; [reflexivity|].
    intros Hin. apply Hnot. apply list_elem_of_In. exact Hin.
Qed.

(** ** Vehicles over many ticks *)

Lemma advanced_refl (v : VehicleObj) : advanced v v.
Proof. unfold advanced. repeat split; auto. lra. Qed.

Lemma advanced_trans (a b c : VehicleObj) : advanced a b -> advanced b c -> advanced a c.
Proof.
  unfold advanced. intros (?&?&?&?&?&?) (?&?&?&?&?&?).
  repeat split; try congruence; [lra|auto].
Qed.

Lemma same_body_advanced (v v' : VehicleObj) : same_body v v' -> advanced v v'.
Proof.
  unfold same_body, advanced. intros (?&?&?&?&Hx&?&Hv&?&?).
  repeat split; try assumption; [rewrite Hx; lra|rewrite Hv; auto].
Qed.

Lemma Forall2_advanced_trans (a b c : list VehicleObj) :
  Forall2 advanced a b -> Forall2 advanced b c -> Forall2 advanced a c.
Proof.
  intros Hab. revert c. induction Hab; intros c Hbc; inversion Hbc; subst; constructor.
  - eapply advanced_trans; eassumption.
  - auto.
Qed.

Lemma lateral_record_state (nb : LatDirection -> option ref) (dt : Q) (v : VehicleObj) :
  veh_length (lateral_record nb dt v) = veh_length v
  /\ x (veh_state (lateral_record nb dt v)) = x (veh_state v)
  /\ velocity (veh_state (lateral_record nb dt v)) = velocity (veh_state v)
  /\ acceleration (veh_state (lateral_record nb dt v)) = acceleration (veh_state v).
Proof. unfold lateral_record. cbv zeta. repeat case_match; repeat split; reflexivity. Qed.

Lemma move_record_advanced (nb : LatDirection -> option ref) (dt : Q) (v : VehicleObj) :
  advanced v (move_record nb dt v).
Proof.
  destruct (move_record_id nb dt v) as (Hid & Hcr & Hdr).
  unfold advanced. rewrite Hid, Hcr, Hdr.
  unfold move_record in *. destruct (crashed (veh_state v)).
  { repeat split; auto. lra. }
  destruct (lateral_record_state nb dt v) as (Hlen & Hx & Hvel & Hacc).
  unfold longitudinal_record. cbv zeta. simpl. rewrite Hlen, Hx.
  repeat split; auto.
  - pose proof (py_max_lower 0 (dt * velocity (veh_state (lateral_record nb dt v))
                    + 0.5 * acceleration (veh_state (lateral_record nb dt v)) * dt * dt)).
    lra.
  - intros _. apply py_max_lower.
Qed.

Lemma length_heap_upd_vehicle (w : World) (r : ref) (f : VehicleObj -> VehicleObj) :
  length (vehicle_heap (upd_vehicle r f w)) = length (vehicle_heap w).
Proof. simpl. apply length_alter. Qed.

Lemma length_heap_Lane_add_vehicle (w : World) (l v : ref) :
  length (vehicle_heap (Lane_add_vehicle l v w)) = length (vehicle_heap w).
Proof.
  unfold Lane_add_vehicle. destruct (decide _); [reflexivity|].
  rewrite length_heap_upd_vehicle. reflexivity.
Qed.

Lemma length_heap_end_lane_change (w : World) (self : ref) :
  length (vehicle_heap (Vehicle_end_lane_change self w)) = length (vehicle_heap w).
Proof.
  unfold Vehicle_end_lane_change. destruct (Vehicle_is_changing_lane w self); [|reflexivity].
  cbv zeta. rewrite length_heap_upd_vehicle.
  destruct (match veh_attr w self lc_direction None with
            | Some LEFT => _ | Some RIGHT => _ | None => _ end); [|reflexivity].
  rewrite length_heap_Lane_add_vehicle, length_heap_upd_vehicle, heap_Lane_remove_vehicle.
  reflexivity.
Qed.

Lemma length_heap_Vehicle_move (w : World) (self : ref) (dt : Q) :
  length (vehicle_heap (Vehicle_move self dt w)) = length (vehicle_heap w).
Proof.
  unfold Vehicle_move. destruct (Vehicle_crashed w self); [reflexivity|].
  fold (after_lateral self dt w). cbv zeta. rewrite !length_heap_upd_vehicle.
  unfold after_lateral. destruct (negb _); [|reflexivity].
  destruct (Qle_bool 1 _); [|apply length_heap_upd_vehicle].
  rewrite length_heap_end_lane_change. apply length_heap_upd_vehicle.
Qed.

Lemma Vehicle_move_advanced (w : World) (self : ref) (dt : Q) :
  Forall2 advanced (vehicle_heap w) (vehicle_heap (Vehicle_move self dt w)).
Proof.
  apply Forall2_same_length_lookup_2.
  - symmetry. apply length_heap_Vehicle_move.
  - intros i v v' Hv Hv'. destruct (decide (self = i)) as [->|Hne].
    + rewrite (Vehicle_move_lookup w i dt v Hv) in Hv'. injection Hv' as <-.
      apply move_record_advanced.
    + rewrite Vehicle_move_lookup_other in Hv' by exact Hne.
      rewrite Hv in Hv'. injection Hv' as <-. apply advanced_refl.
Qed.

Lemma fold_move_advanced (dt : Q) (rs : list ref) (w : World) :
  Forall2 advanced (vehicle_heap w) (vehicle_heap (fold_left (move_and_check dt) rs w)).
Proof.
  revert w. induction rs as [|r1 rs IH]; intros w; cbn [fold_left].
  - apply Forall2_same_length_lookup_2; [reflexivity|].
    intros i v v' Hv Hv'. rewrite Hv in Hv'. injection Hv' as <-. apply advanced_refl.
  - eapply Forall2_advanced_trans; [|apply IH].
    destruct (move_and_check_heap w dt r1) as (-> & _). apply Vehicle_move_advanced.
Qed.

Lemma tick_advanced (sqrt : Q -> Q) (dt : Q) (w : World) :
  Forall2 advanced (vehicle_heap w) (vehicle_heap (Model_update_simulation sqrt dt w)).
Proof.
  destruct (before_integration_facts sqrt dt w) as (Hbody & _).
  eapply Forall2_advanced_trans.
  - eapply Forall2_impl; [exact Hbody|]. intros v v'. apply same_body_advanced.
  - apply (fold_move_advanced dt _ (before_integration sqrt dt w)).
Qed.

Lemma ticks_advanced (sqrt : Q -> Q) (dt : Q) (n : nat) (w : World) :
  Forall2 advanced (vehicle_heap w) (vehicle_heap (ticks sqrt dt n w)).
Proof.
  induction n as [|n IH]; cbn [ticks].
  - apply Forall2_same_length_lookup_2; [reflexivity|].
    intros i v v' Hv Hv'. rewrite Hv in Hv'. injection Hv' as <-. apply advanced_refl.
  - eapply Forall2_advanced_trans; [exact IH|apply tick_advanced].
Qed.

(** X14. Over any number of ticks no vehicle object is created or lost, no
    vehicle moves backwards, no crash flag is set or cleared (the simulation
    never calls [crash()]: vehicles pass through each other), identities stay,
    and a velocity that is not negative stays so. *)
Theorem X14_ticks_never_move_back (sqrt : Q -> Q) (dt : Q) (n : nat) (w : World) (r : ref) :
  let w' := ticks sqrt dt n w in
  length (vehicle_heap w') = length (vehicle_heap w)
  /\ Vehicle_get_x w r <= Vehicle_get_x w' r
  /\ Vehicle_crashed w' r = Vehicle_crashed w r
  /\ veh_attr w' r veh_id 0%Z = veh_attr w r veh_id 0%Z
  /\ (0 <= Vehicle_get_velocity w r -> 0 <= Vehicle_get_velocity w' r).
Proof.
  intros w'. pose proof (ticks_advanced sqrt dt n w) as H. fold w' in H.
  pose proof (Forall2_length _ _ _ H) as Hlen.
  split; [symmetry; exact Hlen|].
  unfold Vehicle_get_x, Vehicle_crashed, Vehicle_get_velocity, veh_attr.
  destruct (vehicle_heap w !! r) as [v|] eqn:Hv.
  - destruct (Forall2_lookup_l _ _ _ _ _ H Hv) as (v' & -> & Hadv).
    destruct Hadv as (Hid & _ & _ & Hcr & Hx & Hvel). auto.
  - apply lookup_ge_None in Hv.
    rewrite (lookup_ge_None_2 (vehicle_heap w') r) by lia.
    repeat split; auto. lra.
Qed.

Lemma exits_record_same_place (w1 w2 : World) (v1 v2 : VehicleObj) :
  statics w1 = statics w2 ->
  veh_lane v1 = veh_lane v2 ->
  x (veh_state v1) = x (veh_state v2) ->
  exits_record w1 v1 = exits_record w2 v2.
Proof.
  intros Hs Hl Hx. rewrite (exits_record_statics w1 w2 v1 Hs).
  unfold exits_record. rewrite Hl, Hx. reflexivity.
Qed.

Lemma move_record_crashed (nb : LatDirection -> option ref) (dt : Q) (v : VehicleObj) :
  crashed (veh_state v) = true -> move_record nb dt v = v.
Proof. intros H. unfold move_record. rewrite H. reflexivity. Qed.

Lemma wreck_invariant (sqrt : Q -> Q) (dt : Q) (w : World) (k : Z) (r : ref) (v : VehicleObj)
    (n : nat) :
  registry_ok w ->
  dict_get k (vehicles (model w)) = Some r ->
  vehicle_heap w !! r = Some v ->
  crashed (veh_state v) = true ->
  exits_record w v = false ->
  let w' := ticks sqrt dt n w in
  registry_ok w'
  /\ dict_get k (vehicles (model w')) = Some r
  /\ statics w' = statics w
  /\ exists v', vehicle_heap w' !! r = Some v' /\ same_body v v'.
Proof.
  intros Hok Hk Hv Hc Hex. induction n as [|n IH]; cbn [ticks].
  - split; [exact Hok|]. split; [exact Hk|]. split; [reflexivity|].
    exists v. split; [exact Hv|apply same_body_refl].
  - cbv zeta in IH. destruct IH as (Hokn & Hkn & Hsn & vn & Hvn & Hbn).
    set (wn := ticks sqrt dt n w) in *.
    destruct (before_integration_facts sqrt dt wn) as (Hbody & Hsb & Hregb & _ & Hokb).
    destruct (Forall2_lookup_l _ _ _ _ _ Hbody Hvn) as (vb & Hvb & Hbb).
    pose proof (same_body_trans _ _ _ Hbn Hbb) as Hb.
    assert (Hcb : crashed (veh_state vb) = true).
    { destruct Hb as (_ & _ & _ & _ & _ & _ & _ & _ & ->). exact Hc. }
    assert (Hstay : exits_in_tick sqrt dt wn r = false).
    { unfold exits_in_tick, exits_from. rewrite Vehicle_move_crashed.
      - rewrite (has_vehicle_exited_record _ r vb Hvb). rewrite <- Hex.
        apply exits_record_same_place.
        + rewrite Hsb. exact Hsn.
        + apply Hb.
        + apply Hb.
      - unfold Vehicle_crashed, veh_attr. rewrite Hvb. exact Hcb. }
    destruct (tick_removes_exited sqrt dt wn k r Hokn Hkn) as (Hok' & Hget & _).
    rewrite Hstay in Hget.
    split; [exact Hok'|]. split; [exact Hget|].
    split; [rewrite tick_statics; exact Hsn|].
    exists vb. split; [|exact Hb].
    rewrite (tick_record sqrt dt wn r vb Hokn Hvb).
    rewrite move_record_crashed by exact Hcb. destruct (bool_decide _); reflexivity.
Qed.

(** X15. A crashed registered vehicle that the exit test does not remove now is
    never removed: over any number of ticks it stays registered under its id,
    on its lane, at its position, with its velocity, crashed. *)
Theorem X15_crashed_vehicle_stays (sqrt : Q -> Q) (dt : Q) (w : World) (k : Z) (r : ref)
    (n : nat) :
  registry_ok w ->
  dict_get k (vehicles (model w)) = Some r ->
  Vehicle_crashed w r = true ->
  Model_has_vehicle_exited w r = false ->
  let w' := ticks sqrt dt n w in
  dict_get k (vehicles (model w')) = Some r
  /\ Vehicle_crashed w' r = true
  /\ Vehicle_get_lane w' r = Vehicle_get_lane w r
  /\ Vehicle_get_x w' r = Vehicle_get_x w r
  /\ Vehicle_get_velocity w' r = Vehicle_get_velocity w r
  /\ Model_has_vehicle_exited w' r = false.
Proof.
  intros Hok Hk Hcr Hex w'.
  destruct (registry_lookup w k r Hok (dict_get_In _ _ _ Hk)) as (v & Hv & _).
  assert (Hc : crashed (veh_state v) = true).
  { unfold Vehicle_crashed, veh_attr in Hcr. rewrite Hv in Hcr. exact Hcr. }
  rewrite (has_vehicle_exited_record w r v Hv) in Hex.
  destruct (wreck_invariant sqrt dt w k r v n Hok Hk Hv Hc Hex)
    as (_ & Hk' & Hs' & v' & Hv' & Hb).
  fold w' in Hk', Hs', Hv'.
  pose proof Hb as (_ & Hlane & _ & _ & Hx & _ & Hvel & _ & Hcr').
  split; [exact Hk'|].
  unfold Vehicle_crashed, Vehicle_get_lane, Vehicle_get_x, Vehicle_get_velocity, veh_attr.
  rewrite Hv', Hv. repeat split; try congruence.
  rewrite (has_vehicle_exited_record w' r v' Hv'). rewrite <- Hex.
  apply exits_record_same_place; assumption.
Qed.

Lemma lateral_record_lane (nb : LatDirection -> option ref) (dt : Q) (v : VehicleObj) :
  (forall d, nb d = None) -> veh_lane (lateral_record nb dt v) = veh_lane v.
Proof.
  intros Hnb. unfold lateral_record. cbv zeta.
  repeat case_match; try reflexivity; simpl; rewrite ?Hnb in *; discriminate.
Qed.

Lemma move_record_lane (nb : LatDirection -> option ref) (dt : Q) (v : VehicleObj) :
  (forall d, nb d = None) -> veh_lane (move_record nb dt v) = veh_lane v.
Proof.
  intros Hnb. unfold move_record. destruct (crashed (veh_state v)); [reflexivity|].
  unfold longitudinal_record. cbv zeta. simpl. apply lateral_record_lane. exact Hnb.
Qed.

Lemma lane_links_statics (w1 w2 : World) (l : ref) :
  statics w1 = statics w2 ->
  Lane_get_left_lane w1 l = Lane_get_left_lane w2 l
  /\ Lane_get_right_lane w1 l = Lane_get_right_lane w2 l
  /\ Lane_get_downstream_lane w1 l = Lane_get_downstream_lane w2 l.
Proof.
  intros Hs. unfold Lane_get_left_lane, Lane_get_right_lane, Lane_get_downstream_lane.
  repeat split; apply lane_attr_statics; try exact Hs; intros []; reflexivity.
Qed.

Lemma single_file_invariant (sqrt : Q -> Q) (dt : Q) (w : World) (k : Z) (r : ref)
    (v : VehicleObj) (n : nat) :
  registry_ok w ->
  dict_get k (vehicles (model w)) = Some r ->
  vehicle_heap w !! r = Some v ->
  Lane_get_downstream_lane w (veh_lane v) <> None ->
  Lane_get_left_lane w (veh_lane v) = None ->
  Lane_get_right_lane w (veh_lane v) = None ->
  let w' := ticks sqrt dt n w in
  registry_ok w'
  /\ dict_get k (vehicles (model w')) = Some r
  /\ statics w' = statics w
  /\ exists v', vehicle_heap w' !! r = Some v' /\ veh_lane v' = veh_lane v.
Proof.
  intros Hok Hk Hv Hdown Hleft Hright. induction n as [|n IH]; cbn [ticks].
  - split; [exact Hok|]. split; [exact Hk|]. split; [reflexivity|].
    exists v. split; [exact Hv|reflexivity].
  - cbv zeta in IH. destruct IH as (Hokn & Hkn & Hsn & vn & Hvn & Hln).
    set (wn := ticks sqrt dt n w) in *.
    destruct (before_integration_facts sqrt dt wn) as (Hbody & Hsb & Hregb & _ & Hokb).
    set (wb := before_integration sqrt dt wn) in *.
    destruct (Forall2_lookup_l _ _ _ _ _ Hbody Hvn) as (vb & Hvb & Hbb).
    assert (Hlb : veh_lane vb = veh_lane v).
    { destruct Hbb as (_ & -> & _). exact Hln. }
    assert (Hswb : statics wb = statics w) by (rewrite Hsb; exact Hsn).
    destruct (lane_links_statics wb w (veh_lane v) Hswb) as (Hl & Hr & Hd).
    assert (Hnb : forall d, neighbour_lane wb (veh_lane vb) d = None).
    { intros d. rewrite Hlb. destruct d; simpl; congruence. }
    set (vm := move_record (neighbour_lane wb (veh_lane vb)) dt vb).
    assert (Hlm : veh_lane vm = veh_lane v).
    { unfold vm. rewrite move_record_lane by exact Hnb. exact Hlb. }
    assert (Hstay : exits_in_tick sqrt dt wn r = false).
    { unfold exits_in_tick, exits_from. fold wb.
      rewrite (has_vehicle_exited_record _ r vm) by (apply Vehicle_move_lookup; exact Hvb).
      unfold exits_record. rewrite Hlm.
      destruct (lane_links_statics (Vehicle_move r dt wb) w (veh_lane v)) as (_ & _ & ->).
      { rewrite statics_Vehicle_move. exact Hswb. }
      destruct (Lane_get_downstream_lane w (veh_lane v)); [|contradiction].
      apply andb_false_r. }
    destruct (tick_removes_exited sqrt dt wn k r Hokn Hkn) as (Hok' & Hget & _).
    rewrite Hstay in Hget.
    split; [exact Hok'|]. split; [exact Hget|].
    split; [rewrite tick_statics; exact Hsn|].
    exists vm. split; [|exact Hlm].
    rewrite (tick_record sqrt dt wn r vb Hokn Hvb). fold wb.
    rewrite bool_decide_eq_true_2; [reflexivity|].
    apply list_elem_of_In. unfold dict_values. apply in_map_iff.
    exists (k, r). split; [reflexivity|]. apply dict_get_In. exact Hkn.
Qed.

(** X16. A registered vehicle on a lane that has a downstream lane and no left
    or right neighbour never leaves that lane: over any number of ticks it is
    not removed and not handed over to the downstream lane, however far beyond
    the lane's length its position grows. *)
Theorem X16_no_handover_downstream (sqrt : Q -> Q) (dt : Q) (w : World) (k : Z) (r : ref)
    (n : nat) :
  registry_ok w ->
  dict_get k (vehicles (model w)) = Some r ->
  Lane_get_downstream_lane w (Vehicle_get_lane w r) <> None ->
  Lane_get_left_lane w (Vehicle_get_lane w r) = None ->
  Lane_get_right_lane w (Vehicle_get_lane w r) = None ->
  let w' := ticks sqrt dt n w in
  dict_get k (vehicles (model w')) = Some r
  /\ Vehicle_get_lane w' r = Vehicle_get_lane w r
  /\ Vehicle_get_x w r <= Vehicle_get_x w' r
  /\ Lane_length w' (Vehicle_get_lane w' r) = Lane_length w (Vehicle_get_lane w r)
  /\ Model_has_vehicle_exited w' r = false.
Proof.
  intros Hok Hk Hdown Hleft Hright w'.
  destruct (registry_lookup w k r Hok (dict_get_In _ _ _ Hk)) as (v & Hv & _).
  assert (Hlane : Vehicle_get_lane w r = veh_lane v).
  { unfold Vehicle_get_lane, veh_attr. rewrite Hv. reflexivity. }
  rewrite Hlane in *.
  destruct (single_file_invariant sqrt dt w k r v n Hok Hk Hv Hdown Hleft Hright)
    as (_ & Hk' & Hs' & v' & Hv' & Hl').
  fold w' in Hk', Hs', Hv'.
  assert (Hlane' : Vehicle_get_lane w' r = veh_lane v).
  { unfold Vehicle_get_lane, veh_attr. rewrite Hv'. exact Hl'. }
  split; [exact Hk'|]. split; [exact Hlane'|]. split; [|split].
  - pose proof (ticks_advanced sqrt dt n w) as Hadv. fold w' in Hadv.
    pose proof (Forall2_lookup_lr _ _ _ _ _ _ Hadv Hv Hv') as (_ & _ & _ & _ & Hx & _).
    unfold Vehicle_get_x, veh_attr. rewrite Hv, Hv'. exact Hx.
  - rewrite Hlane'. unfold Lane_length. apply lane_attr_statics; [exact Hs'|].
    intros []; reflexivity.
  - rewrite (has_vehicle_exited_record w' r v' Hv'). unfold exits_record. rewrite Hl'.
    destruct (lane_links_statics w' w (veh_lane v) Hs') as (_ & _ & ->).
    destruct (Lane_get_downstream_lane w (veh_lane v)); [|contradiction].
    apply andb_false_r.
Qed.

(** ** Accounts and drivers in the stores the interface builds *)

Lemma filter_length_split {A} (p q : A -> bool) (l : list A) :
  length (List.filter p l)
  = (length (List.filter (fun a => p a && negb (q a)) l)
     + length (List.filter (fun a => p a && q a) l))%nat.
Proof.
  induction l as [|a l IH]; [reflexivity|].
  simpl. destruct (p a), (q a); simpl; lia.
Qed.

Lemma total_Model_remove_vehicle (w : World) (k : Z) :
  total_vehicles (stats (model (Model_remove_vehicle k w))) = total_vehicles (stats (model w)).
Proof.
  destruct (dict_get k (vehicles (model w))) as [r|] eqn:E.
  - destruct (remove_vehicle_registered w k r E) as (_ & _ & _ & -> & _). reflexivity.
  - unfold Model_remove_vehicle. rewrite E. reflexivity.
Qed.

Lemma fold_move_total (dt : Q) (rs : list ref) (w : World) :
  total_vehicles (stats (model (fold_left (move_and_check dt) rs w)))
  = total_vehicles (stats (model w)).
Proof.
  revert w. induction rs as [|r1 rs IH]; intros w; [reflexivity|].
  cbn [fold_left]. rewrite IH. unfold move_and_check.
  destruct (Model_has_vehicle_exited _ _).
  - rewrite total_Model_remove_vehicle, model_Vehicle_move. reflexivity.
  - rewrite model_Vehicle_move. reflexivity.
Qed.

(** One tick conserves the vehicles: those registered, completed and crashed
    add up to the same number before and after. *)
Lemma tick_accounting (sqrt : Q -> Q) (dt : Q) (w : World) :
  registry_ok w ->
  let w' := Model_update_simulation sqrt dt w in
  total_vehicles (stats (model w')) = total_vehicles (stats (model w))
  /\ active_vehicles (stats (model w')) = Z.of_nat (length (vehicles (model w')))
  /\ (Z.of_nat (length (vehicles (model w'))) + completed_vehicles (stats (model w'))
      + crashed_vehicles (stats (model w'))
      = Z.of_nat (length (vehicles (model w))) + completed_vehicles (stats (model w))
        + crashed_vehicles (stats (model w)))%Z
  /\ (completed_vehicles (stats (model w)) <= completed_vehicles (stats (model w')))%Z
  /\ (crashed_vehicles (stats (model w)) <= crashed_vehicles (stats (model w')))%Z.
Proof.
  intros Hok w'.
  set (w0 := before_integration sqrt dt w).
  assert (Honly : only_vehicles same_body (advance_clock dt w) w0)
    by apply before_integration_only.
  destruct (before_integration_facts sqrt dt w) as (_ & _ & Hreg0 & _ & Hokb).
  fold w0 in Hreg0, Hokb. specialize (Hokb Hok).
  assert (Hst0 : completed_vehicles (stats (model w0)) = completed_vehicles (stats (model w))
                 /\ crashed_vehicles (stats (model w0)) = crashed_vehicles (stats (model w))
                 /\ total_vehicles (stats (model w0)) = total_vehicles (stats (model w))).
  { destruct Honly as (_ & _ & _ & -> & _). repeat split. }
  destruct Hst0 as (Hc0 & Hk0 & Ht0).
  destruct (vehicles_loop dt (dict_values (vehicles (model w0))) w0)
    as (_ & _ & _ & _ & Hcomp & Hcrash & Hlen & _).
  { apply registry_values_NoDup, Hokb. }
  { exact Hokb. }
  { intros r' Hr'. unfold dict_values in Hr'. apply in_map_iff in Hr' as [[k' r''] [<- Hin]].
    exists k'. exact Hin. }
  fold (vehicles_phase dt w0) in Hcomp, Hcrash, Hlen.
  pose proof (fold_move_total dt (dict_values (vehicles (model w0))) w0) as Htot.
  fold (vehicles_phase dt w0) in Htot.
  pose proof (filter_length_split (exits_from w0 dt) (Vehicle_crashed w0)
                (dict_values (vehicles (model w0)))) as Hsplit.
  assert (Hw' : w' = Model_update_statistics (vehicles_phase dt w0)) by reflexivity.
  assert (Hveh : vehicles (model w') = vehicles (model (vehicles_phase dt w0))).
  { rewrite Hw'. reflexivity. }
  assert (Hcomp' : completed_vehicles (stats (model w'))
                   = completed_vehicles (stats (model (vehicles_phase dt w0)))).
  { rewrite Hw'. reflexivity. }
  assert (Hcrash' : crashed_vehicles (stats (model w'))
                    = crashed_vehicles (stats (model (vehicles_phase dt w0)))).
  { rewrite Hw'. reflexivity. }
  assert (Htot' : total_vehicles (stats (model w'))
                  = total_vehicles (stats (model (vehicles_phase dt w0)))).
  { rewrite Hw'. reflexivity. }
  assert (Hact' : active_vehicles (stats (model w'))
                  = Z.of_nat (length (vehicles (model (vehicles_phase dt w0))))).
  { rewrite Hw'. simpl. unfold dict_values. rewrite length_map. reflexivity. }
  rewrite Hveh, Hcomp', Hcrash', Htot', Hact', Htot, Ht0, Hcomp, Hcrash, Hc0, Hk0.
  assert (Hlen0 : length (vehicles (model w0)) = length (vehicles (model w))).
  { rewrite Hreg0. reflexivity. }
  split; [reflexivity|]. split; [reflexivity|]. split; [lia|]. split; lia.
Qed.

Lemma model_link (w : World) (o : option ref) (f : LaneObj -> LaneObj) :
  model (link o f w) = model w /\ driver_heap (link o f w) = driver_heap w.
Proof. unfold link. destruct o; split; reflexivity. Qed.

Lemma model_vehicle_call (w : World) (r : ref) (c : VehicleCall) :
  model (vehicle_call r w c) = model w /\ driver_heap (vehicle_call r w c) = driver_heap w.
Proof.
  destruct c; simpl; try (split; reflexivity).
  - split; [apply model_Vehicle_move|apply driver_heap_Vehicle_move].
  - destruct (Vehicle_start_lane_change r d duration w) as [w'|] eqn:E; [|split; reflexivity].
    destruct (start_lane_change_only w w' r d duration E) as (_ & Hd & _ & Hm & _).
    split; assumption.
  - split; [apply model_end_lane_change|].
    unfold Vehicle_end_lane_change. destruct (Vehicle_is_changing_lane w r); [|reflexivity].
    simpl. destruct (match veh_attr w r lc_direction None with
                     | Some LEFT => _ | Some RIGHT => _ | None => _ end); [|reflexivity].
    unfold Lane_add_vehicle, Lane_remove_vehicle. repeat (destruct (decide _)); reflexivity.
Qed.

Lemma accounting_ok_same_model (w w' : World) :
  stats (model w') = stats (model w) ->
  vehicles (model w') = vehicles (model w) ->
  next_vehicle_id (model w') = next_vehicle_id (model w) ->
  next_driver_id (model w') = next_driver_id (model w) ->
  accounting_ok w -> accounting_ok w'.
Proof. unfold accounting_ok. intros -> -> -> ->. auto. Qed.

Lemma accounting_ok_tick (sqrt : Q -> Q) (dt : Q) (w : World) :
  registry_ok w -> accounting_ok w -> accounting_ok (Model_update_simulation sqrt dt w).
Proof.
  intros Hok (Hact & Htot & Hc & Hk & Hnv & Hnd).
  destruct (tick_accounting sqrt dt w Hok) as (Ht' & Ha' & Hsum & Hc' & Hk').
  unfold accounting_ok.
  rewrite (update_simulation_blind sqrt next_vehicle_id) by (repeat split).
  rewrite (update_simulation_blind sqrt next_driver_id) by (repeat split).
  change (next_vehicle_id (model (advance_clock dt w))) with (next_vehicle_id (model w)).
  change (next_driver_id (model (advance_clock dt w))) with (next_driver_id (model w)).
  rewrite Ht', Ha'. repeat split; try lia; assumption.
Qed.

Lemma add_vehicle_effect (w : World) (lane_id : Z) (driver_type : DriverType) (pos : Q)
    (route : option ref) (lane : ref) :
  model_ok w ->
  dict_get lane_id (lanes (model w)) = Some lane ->
  let w' := snd (Model_add_vehicle lane_id driver_type pos route w) in
  vehicles (model w') = vehicles (model w) ++ [(next_vehicle_id (model w), length (vehicle_heap w))]
  /\ drivers (model w') = drivers (model w) ++ [(next_driver_id (model w), length (driver_heap w))]
  /\ next_vehicle_id (model w') = (next_vehicle_id (model w) + 1)%Z
  /\ next_driver_id (model w') = (next_driver_id (model w) + 1)%Z
  /\ total_vehicles (stats (model w')) = (total_vehicles (stats (model w)) + 1)%Z
  /\ active_vehicles (stats (model w')) = (active_vehicles (stats (model w)) + 1)%Z
  /\ completed_vehicles (stats (model w')) = completed_vehicles (stats (model w))
  /\ crashed_vehicles (stats (model w')) = crashed_vehicles (stats (model w))
  /\ (exists v, vehicle_heap w' !! length (vehicle_heap w) = Some v
                /\ veh_id v = next_vehicle_id (model w)
                /\ veh_driver v = Some (length (driver_heap w))
                /\ crashed (veh_state v) = false)
  /\ Driver_id_of w' (length (driver_heap w)) = next_driver_id (model w).
Proof.
  intros Hok Hlane w'. unfold w', Model_add_vehicle. rewrite Hlane.
  destruct Hok as [(Hnd & Hent & Hndd) [Hfv Hfd]].
  destruct (add_vehicle_construction w lane driver_type pos route)
    as ((Hv & d & Hd & Hdid & _) & Hm & _).
  set (fr := add_vehicle_frame w lane driver_type pos route) in *.
  set (wp := fold_left (add_vehicle_step fr) (take 4 add_vehicle_steps) w) in *.
  assert (Hkv : ~ In (next_vehicle_id (model w)) (dict_keys (vehicles (model w)))).
  { intros Hin. apply Hfv in Hin. lia. }
  assert (Hkd : ~ In (next_driver_id (model w)) (dict_keys (drivers (model w)))).
  { intros Hin. apply Hfd in Hin. lia. }
  set (w5 := add_vehicle_step fr wp RegisterVehicle).
  set (w6 := add_vehicle_step fr w5 RegisterDriver).
  set (w7 := add_vehicle_step fr w6 EnterLane).
  set (w8 := add_vehicle_step fr w7 BumpCounters).
  change (snd (Some (fr_vehicle fr), fold_left (add_vehicle_step fr) add_vehicle_steps w))
    with w8.
  assert (Hvid : veh_attr wp (fr_vehicle fr) veh_id 0%Z = next_vehicle_id (model w)).
  { unfold veh_attr. rewrite Hv. reflexivity. }
  assert (Hdidk : Driver_id_of w5 (fr_driver fr) = next_driver_id (model w)).
  { unfold Driver_id_of. change (driver_heap w5) with (driver_heap wp).
    rewrite Hd. exact Hdid. }
  assert (Hm7 : model w7 = model w6) by apply model_Lane_add_vehicle.
  assert (Hveh5 : vehicles (model w5)
                  = vehicles (model w) ++ [(next_vehicle_id (model w), fr_vehicle fr)]).
  { change (vehicles (model w5))
      with (dict_set (veh_attr wp (fr_vehicle fr) veh_id 0%Z) (fr_vehicle fr)
              (vehicles (model wp))).
    rewrite Hvid, Hm. apply dict_set_fresh, Hkv. }
  assert (Hdrv6 : drivers (model w6)
                  = drivers (model w) ++ [(next_driver_id (model w), fr_driver fr)]).
  { change (drivers (model w6))
      with (dict_set (Driver_id_of w5 (fr_driver fr)) (fr_driver fr) (drivers (model wp))).
    rewrite Hdidk, Hm. apply dict_set_fresh, Hkd. }
  assert (Hst6 : stats (model w6) = stats (model w)).
  { change (stats (model w6)) with (stats (model wp)). rewrite Hm. reflexivity. }
  assert (Hnv6 : next_vehicle_id (model w6) = next_vehicle_id (model w)).
  { change (next_vehicle_id (model w6)) with (next_vehicle_id (model wp)).
    rewrite Hm. reflexivity. }
  assert (Hnd6 : next_driver_id (model w6) = next_driver_id (model w)).
  { change (next_driver_id (model w6)) with (next_driver_id (model wp)).
    rewrite Hm. reflexivity. }
  split; [|split; [|split; [|split; [|split; [|split; [|split; [|split; [|split]]]]]]]].
  - change (vehicles (model w8)) with (vehicles (model w7)). rewrite Hm7. exact Hveh5.
  - change (drivers (model w8)) with (drivers (model w7)). rewrite Hm7. exact Hdrv6.
  - change (next_vehicle_id (model w8)) with (next_vehicle_id (model w7) + 1)%Z.
    rewrite Hm7, Hnv6. reflexivity.
  - change (next_driver_id (model w8)) with (next_driver_id (model w7) + 1)%Z.
    rewrite Hm7, Hnd6. reflexivity.
  - change (total_vehicles (stats (model w8)))
      with (total_vehicles (stats (model w7)) + 1)%Z.
    rewrite Hm7, Hst6. reflexivity.
  - change (active_vehicles (stats (model w8)))
      with (active_vehicles (stats (model w7)) + 1)%Z.
    rewrite Hm7, Hst6. reflexivity.
  - change (completed_vehicles (stats (model w8)))
      with (completed_vehicles (stats (model w7))).
    rewrite Hm7, Hst6. reflexivity.
  - change (crashed_vehicles (stats (model w8)))
      with (crashed_vehicles (stats (model w7))).
    rewrite Hm7, Hst6. reflexivity.
  - change (vehicle_heap w8) with (vehicle_heap w7).
    unfold w7. cbn [add_vehicle_step]. rewrite heap_Lane_add_vehicle.
    rewrite decide_True by reflexivity.
    change (vehicle_heap w6) with (vehicle_heap wp).
    change (length (vehicle_heap w)) with (fr_vehicle fr). rewrite Hv.
    destruct (decide _); eexists; split; try reflexivity; repeat split.
  - unfold Driver_id_of. change (driver_heap w8) with (driver_heap w7).
    unfold w7. cbn [add_vehicle_step].
    assert (Hdh : driver_heap (Lane_add_vehicle (fr_lane fr) (fr_vehicle fr) w6)
                  = driver_heap w6).
    { unfold Lane_add_vehicle. destruct (decide _); reflexivity. }
    rewrite Hdh. change (driver_heap w6) with (driver_heap wp).
    change (length (driver_heap w)) with (fr_driver fr). rewrite Hd. exact Hdid.
Qed.

Lemma accounting_ok_add_vehicle (w : World) (lane_id : Z) (driver_type : DriverType) (pos : Q)
    (route : option ref) :
  model_ok w -> accounting_ok w ->
  accounting_ok (snd (Model_add_vehicle lane_id driver_type pos route w)).
Proof.
  intros Hok Hacc.
  destruct (dict_get lane_id (lanes (model w))) as [lane|] eqn:E.
  - destruct (add_vehicle_effect w lane_id driver_type pos route lane Hok E)
      as (Hv & _ & Hnv & Hnd & Ht & Ha & Hc & Hk & _).
    destruct Hacc as (Hact & Htot & Hc0 & Hk0 & Hnv0 & Hnd0).
    unfold accounting_ok. rewrite Hv, Hnv, Hnd, Ht, Ha, Hc, Hk, length_app. simpl.
    repeat split; try lia; assumption.
  - unfold Model_add_vehicle. rewrite E. exact Hacc.
Qed.

Lemma accounting_ok_remove_vehicle (w : World) (k : Z) :
  accounting_ok w -> accounting_ok (Model_remove_vehicle k w).
Proof.
  intros Hacc. destruct (dict_get k (vehicles (model w))) as [r|] eqn:E.
  - destruct (remove_vehicle_registered w k r E) as (Hv & _ & _ & Hst & _).
    destruct Hacc as (Hact & Htot & Hc0 & Hk0 & Hnv0 & Hnd0).
    pose proof (dict_del_length k _ r E) as Hlen.
    unfold accounting_ok. rewrite Hv, Hst.
    rewrite (model_remove_vehicle_blind next_vehicle_id) by (repeat split).
    rewrite (model_remove_vehicle_blind next_driver_id) by (repeat split).
    unfold count_removed. destruct (Vehicle_crashed w r); simpl; repeat split; lia.
  - unfold Model_remove_vehicle. rewrite E. exact Hacc.
Qed.

(** X17. In every store that the operations of [built_by_interface] reach from
    the empty model - lanes created, linked and added, [add_vehicle],
    [remove_vehicle], calls of a vehicle's methods, ticks and
    [step_simulation] - the accounts add up: [active_vehicles] is the number of
    registered vehicles, every vehicle ever added is counted as active,
    completed or crashed ([total = active + completed + crashed]), and the id
    counters have issued exactly one vehicle id and one driver id per vehicle
    added, so that no id is used twice.  ([initialize] and [load_scenario], which
    reset the statistics or clear the registries, are not among these
    operations.) *)
Theorem X17_accounts_add_up (sqrt : Q -> Q) (w : World) :
  built_by_interface sqrt w -> accounting_ok w.
Proof.
  intros Hb.
  induction Hb as [|L w Hb IH|l o w Hb IH|l o w Hb IH|l o w Hb IH|l o w Hb IH|l w Hb IH
                   |lane_id driver_type pos route w Hb IH|k w Hb IH|r c w Hb IH|dt w Hb IH
                   |w Hb IH].
  - unfold accounting_ok. simpl. repeat split; lia.
  - revert IH. apply accounting_ok_same_model; reflexivity.
  - revert IH. unfold Lane_set_left_lane.
    apply accounting_ok_same_model; rewrite (proj1 (model_link _ _ _)); reflexivity.
  - revert IH. unfold Lane_set_right_lane.
    apply accounting_ok_same_model; rewrite (proj1 (model_link _ _ _)); reflexivity.
  - revert IH. unfold Lane_set_upstream_lane.
    apply accounting_ok_same_model; rewrite (proj1 (model_link _ _ _)); reflexivity.
  - revert IH. unfold Lane_set_downstream_lane.
    apply accounting_ok_same_model; rewrite (proj1 (model_link _ _ _)); reflexivity.
  - revert IH. unfold Model_add_lane.
    destruct (update_network_only
                (upd_model (fun m => set_lanes (dict_set (lane_attr w l lane_id 0%Z) l (lanes m)) m)
                   w)) as (_ & _ & _ & Hm & _).
    apply accounting_ok_same_model; rewrite Hm; reflexivity.
  - apply accounting_ok_add_vehicle; [eapply built_model_ok; exact Hb|exact IH].
  - apply accounting_ok_remove_vehicle. exact IH.
  - revert IH.
    apply accounting_ok_same_model; rewrite (proj1 (model_vehicle_call _ _ _)); reflexivity.
  - apply accounting_ok_tick; [|exact IH].
    apply (built_model_ok sqrt w Hb).
  - unfold Model_step_simulation. destruct (decide _); [|exact IH].
    pose proof (accounting_ok_tick sqrt (time_step (settings (model w))) w
                  (proj1 (built_model_ok sqrt w Hb)) IH) as H.
    revert H. apply accounting_ok_same_model; reflexivity.
Qed.

Lemma driver_heap_Lane_add_vehicle (w : World) (l v : ref) :
  driver_heap (Lane_add_vehicle l v w) = driver_heap w.
Proof. unfold Lane_add_vehicle. destruct (decide _); reflexivity. Qed.

Lemma create_driver_factory_made (driver_id : Z) (driver_type : DriverType) :
  factory_made (create_driver driver_id driver_type).
Proof. destruct driver_type; simpl; repeat split; discriminate. Qed.

Lemma with_vehicle_factory_made (o : option ref) (d : DriverObj) :
  factory_made d -> factory_made (with_vehicle o d).
Proof. destruct d; exact id. Qed.

Lemma with_route_factory_made (o : option ref) (d : DriverObj) :
  factory_made d -> factory_made (with_route o d).
Proof. destruct d; exact id. Qed.

Lemma factory_made_add_vehicle (w : World) (lane_id : Z) (driver_type : DriverType) (pos : Q)
    (route : option ref) :
  Forall factory_made (driver_heap w) ->
  Forall factory_made (driver_heap (snd (Model_add_vehicle lane_id driver_type pos route w))).
Proof.
  intros H. unfold Model_add_vehicle.
  destruct (dict_get lane_id (lanes (model w))) as [lane|]; [|exact H].
  set (fr := add_vehicle_frame w lane driver_type pos route).
  set (wp := fold_left (add_vehicle_step fr) (take 4 add_vehicle_steps) w).
  set (w5 := add_vehicle_step fr wp RegisterVehicle).
  set (w6 := add_vehicle_step fr w5 RegisterDriver).
  set (w7 := add_vehicle_step fr w6 EnterLane).
  set (w8 := add_vehicle_step fr w7 BumpCounters).
  change (snd (Some (fr_vehicle fr), fold_left (add_vehicle_step fr) add_vehicle_steps w))
    with w8.
  change (driver_heap w8) with (driver_heap w7).
  unfold w7. cbn [add_vehicle_step]. rewrite driver_heap_Lane_add_vehicle.
  change (driver_heap w6) with (driver_heap wp).
  assert (H0 : Forall factory_made
                 (driver_heap w ++ [create_driver (next_driver_id (model w)) driver_type])).
  { apply Forall_app. split; [exact H|]. constructor; [|constructor].
    apply create_driver_factory_made. }
  subst wp fr. simpl. destruct route; simpl.
  - apply Forall_alter; [|intros d _; apply with_route_factory_made].
    apply Forall_alter; [exact H0|intros d _; apply with_vehicle_factory_made].
  - apply Forall_alter; [exact H0|intros d _; apply with_vehicle_factory_made].
Qed.

Lemma fold_move_driver_heap (dt : Q) (rs : list ref) (w : World) :
  driver_heap (fold_left (move_and_check dt) rs w) = driver_heap w.
Proof.
  revert w. induction rs as [|r1 rs IH]; intros w; [reflexivity|].
  cbn [fold_left]. rewrite IH. apply move_and_check_heap.
Qed.

Lemma tick_driver_heap (sqrt : Q -> Q) (dt : Q) (w : World) :
  driver_heap (Model_update_simulation sqrt dt w) = driver_heap w.
Proof.
  destruct (before_integration_facts sqrt dt w) as (_ & _ & _ & Hd & _).
  rewrite <- Hd. apply (fold_move_driver_heap dt _ (before_integration sqrt dt w)).
Qed.

Lemma built_factory_made (sqrt : Q -> Q) (w : World) :
  built_by_interface sqrt w -> Forall factory_made (driver_heap w).
Proof.
  induction 1 as [|L w Hb IH|l o w Hb IH|l o w Hb IH|l o w Hb IH|l o w Hb IH|l w Hb IH
                  |lane_id driver_type pos route w Hb IH|k w Hb IH|r c w Hb IH|dt w Hb IH
                  |w Hb IH].
  - constructor.
  - exact IH.
  - unfold Lane_set_left_lane. rewrite (proj2 (model_link _ _ _)). exact IH.
  - unfold Lane_set_right_lane. rewrite (proj2 (model_link _ _ _)). exact IH.
  - unfold Lane_set_upstream_lane. rewrite (proj2 (model_link _ _ _)). exact IH.
  - unfold Lane_set_downstream_lane. rewrite (proj2 (model_link _ _ _)). exact IH.
  - unfold Model_add_lane.
    destruct (update_network_only
                (upd_model (fun m => set_lanes (dict_set (lane_attr w l lane_id 0%Z) l (lanes m)) m)
                   w)) as (_ & Hd & _).
    rewrite Hd. exact IH.
  - apply factory_made_add_vehicle. exact IH.
  - rewrite (proj2 (proj2 (heap_Model_remove_vehicle w k))). exact IH.
  - rewrite (proj2 (model_vehicle_call _ _ _)). exact IH.
  - rewrite tick_driver_heap. exact IH.
  - unfold Model_step_simulation. destruct (decide _); [|exact IH].
    change (Forall factory_made
              (driver_heap (Model_update_simulation sqrt (time_step (settings (model w))) w))).
    rewrite tick_driver_heap. exact IH.
Qed.

(** X4. In every store that the operations of [built_by_interface] reach from
    the empty model - lanes created, linked and added, [add_vehicle],
    [remove_vehicle], calls of a vehicle's methods, ticks and
    [step_simulation] - each driver object has the parameters of the factory
    [create_driver]: an [IDMDriver] only for the type [IDM], with the default
    IDM parameters, and for the types [AGGRESSIVE], [NORMAL] and [CAUTIOUS] a
    [SimpleDriver] with its defaults.  The type-specific parameters of
    [IDMDriver._adjust_parameters_for_type] are therefore never in use: that
    method leaves the defaults of an [IDM] driver as they are. *)
Theorem X4_factory_parameters (sqrt : Q -> Q) (w : World) (driver : ref) (d : DriverObj) :
  built_by_interface sqrt w ->
  driver_heap w !! driver = Some d ->
  factory_made d.
Proof.
  intros Hb Hd.
  pose proof (built_factory_made sqrt w Hb) as Hall.
  rewrite Forall_lookup in Hall. exact (Hall driver d Hd).
Qed.

(** ** [add_vehicle]: the store it leaves *)

(** What [add_vehicle] on a registered lane does to the store besides the
    registries and the counters. *)
Lemma add_vehicle_store (w : World) (lane_id : Z) (driver_type : DriverType) (pos : Q)
    (route : option ref) (lane : ref) :
  dict_get lane_id (lanes (model w)) = Some lane ->
  let w' := snd (Model_add_vehicle lane_id driver_type pos route w) in
  vehicle_heap w' !! length (vehicle_heap w)
  = Some (set_veh_driver (Some (length (driver_heap w)))
            (Vehicle_init (next_vehicle_id (model w)) lane pos))
  /\ length (vehicle_heap w') = S (length (vehicle_heap w))
  /\ (forall r, (r < length (vehicle_heap w))%nat -> vehicle_heap w' !! r = vehicle_heap w !! r)
  /\ statics w' = statics w
  /\ (forall l, l <> lane -> lane_heap w' !! l = lane_heap w !! l)
  /\ (Lane_vehicles w lane = [] -> (lane < length (lane_heap w))%nat ->
      Lane_vehicles w' lane = [length (vehicle_heap w)])
  /\ route_heap w' = route_heap w
  /\ lanes (model w') = lanes (model w)
  /\ routes (model w') = routes (model w)
  /\ sim_state (model w') = sim_state (model w).
Proof.
  intros Hlane w'. unfold w', Model_add_vehicle. rewrite Hlane.
  destruct (add_vehicle_construction w lane driver_type pos route)
    as ((Hv & _) & Hm & Hlh).
  set (fr := add_vehicle_frame w lane driver_type pos route) in *.
  set (wp := fold_left (add_vehicle_step fr) (take 4 add_vehicle_steps) w) in *.
  assert (Hvh : vehicle_heap wp
                = alter (set_veh_driver (Some (fr_driver fr))) (fr_vehicle fr)
                    (vehicle_heap w ++ [Vehicle_init (next_vehicle_id (model w)) lane pos])).
  { subst wp fr. simpl. destruct route; reflexivity. }
  assert (Hrh : route_heap wp = route_heap w).
  { subst wp fr. simpl. destruct route; reflexivity. }
  set (w5 := add_vehicle_step fr wp RegisterVehicle).
  set (w6 := add_vehicle_step fr w5 RegisterDriver).
  set (w7 := add_vehicle_step fr w6 EnterLane).
  set (w8 := add_vehicle_step fr w7 BumpCounters).
  change (snd (Some (fr_vehicle fr), fold_left (add_vehicle_step fr) add_vehicle_steps w))
    with w8.
  assert (Hm7 : model w7 = model w6) by apply model_Lane_add_vehicle.
  assert (Hlen : length (vehicle_heap wp) = S (length (vehicle_heap w))).
  { rewrite Hvh, length_alter, length_app. simpl. lia. }
  assert (Hpre : forall r, (r < length (vehicle_heap w))%nat ->
                   vehicle_heap wp !! r = vehicle_heap w !! r).
  { intros r Hr. rewrite Hvh, list_lookup_alter_ne by (unfold fr; simpl; lia).
    apply lookup_app_l. exact Hr. }
  change (vehicle_heap w8) with (vehicle_heap (Lane_add_vehicle (fr_lane fr) (fr_vehicle fr) w6)).
  change (lane_heap w8) with (lane_heap (Lane_add_vehicle (fr_lane fr) (fr_vehicle fr) w6)).
  change (statics w8) with (statics (Lane_add_vehicle (fr_lane fr) (fr_vehicle fr) w6)).
  change (route_heap w8) with (route_heap (Lane_add_vehicle (fr_lane fr) (fr_vehicle fr) w6)).
  change (Lane_vehicles w8 lane)
    with (Lane_vehicles (Lane_add_vehicle (fr_lane fr) (fr_vehicle fr) w6) lane).
  change (fr_lane fr) with lane. change (fr_vehicle fr) with (length (vehicle_heap w)) in *.
  split; [|split; [|split; [|split; [|split; [|split; [|split; [|split; [|split]]]]]]]].
  - rewrite heap_Lane_add_vehicle, decide_True by reflexivity.
    change (vehicle_heap w6) with (vehicle_heap wp). rewrite Hv.
    destruct (decide _); reflexivity.
  - rewrite length_heap_Lane_add_vehicle. exact Hlen.
  - intros r Hr. rewrite heap_Lane_add_vehicle, decide_False by lia.
    apply Hpre, Hr.
  - rewrite statics_Lane_add_vehicle. unfold statics.
    change (lane_heap w6) with (lane_heap wp). rewrite Hlh. reflexivity.
  - intros l Hl. unfold Lane_add_vehicle. destruct (decide _).
    + change (lane_heap w6) with (lane_heap wp). rewrite Hlh. reflexivity.
    + cbn [upd_vehicle upd_lane lane_heap]. rewrite list_lookup_alter_ne by congruence.
      change (lane_heap w6) with (lane_heap wp). rewrite Hlh. reflexivity.
  - intros Hempty Hvalid.
    assert (H6 : Lane_vehicles w6 lane = []).
    { unfold Lane_vehicles, lane_attr. change (lane_heap w6) with (lane_heap wp).
      rewrite Hlh. exact Hempty. }
    unfold Lane_add_vehicle. rewrite H6.
    rewrite decide_False by apply not_elem_of_nil.
    unfold Lane_vehicles, lane_attr. cbn [upd_vehicle upd_lane lane_heap].
    rewrite list_lookup_alter_eq.
    change (lane_heap w6) with (lane_heap wp). rewrite Hlh.
    destruct (lane_heap w !! lane) as [L|] eqn:HL; [reflexivity|].
    apply lookup_ge_None_1 in HL. lia.
  - unfold Lane_add_vehicle. destruct (decide _); exact Hrh.
  - change (lanes (model w8)) with (lanes (model w7)). rewrite Hm7.
    change (lanes (model w6)) with (lanes (model wp)). rewrite Hm. reflexivity.
  - change (routes (model w8)) with (routes (model w7)). rewrite Hm7.
    change (routes (model w6)) with (routes (model wp)). rewrite Hm. reflexivity.
  - change (sim_state (model w8)) with (sim_state (model w7)). rewrite Hm7.
    change (sim_state (model w6)) with (sim_state (model wp)). rewrite Hm. reflexivity.
Qed.

(** The model and the driver objects after [add_vehicle] on a registered lane. *)
Lemma add_vehicle_model (w : World) (lane_id : Z) (driver_type : DriverType) (pos : Q)
    (route : option ref) (lane : ref) :
  dict_get lane_id (lanes (model w)) = Some lane ->
  let vehicle := length (vehicle_heap w) in
  let driver := length (driver_heap w) in
  let w' := snd (Model_add_vehicle lane_id driver_type pos route w) in
  model w'
  = on_stats count_added
      (set_next_ids (next_vehicle_id (model w) + 1) (next_driver_id (model w) + 1)
         (set_drivers (dict_set (next_driver_id (model w)) driver (drivers (model w)))
            (set_vehicles (dict_set (next_vehicle_id (model w)) vehicle (vehicles (model w)))
               (model w))))
  /\ driver_heap w' !! driver
     = Some ((match route with Some r => with_route (Some r) | None => id end)
               (with_vehicle (Some vehicle)
                  (create_driver (next_driver_id (model w)) driver_type)))
  /\ length (driver_heap w') = S (length (driver_heap w))
  /\ (forall r, (r < length (driver_heap w))%nat -> driver_heap w' !! r = driver_heap w !! r).
Proof.
  intros Hlane vehicle driver w'. unfold w', Model_add_vehicle. rewrite Hlane.
  destruct (add_vehicle_construction w lane driver_type pos route)
    as ((Hv & d & Hd & Hdid & _) & Hm & _).
  set (fr := add_vehicle_frame w lane driver_type pos route) in *.
  set (wp := fold_left (add_vehicle_step fr) (take 4 add_vehicle_steps) w) in *.
  assert (Hdh : driver_heap wp
                = (match route with
                   | Some r => alter (with_route (Some r)) driver
                   | None => id
                   end)
                    (alter (with_vehicle (Some vehicle)) driver
                       (driver_heap w ++ [create_driver (next_driver_id (model w)) driver_type]))).
  { subst wp fr. simpl. destruct route; reflexivity. }
  set (w5 := add_vehicle_step fr wp RegisterVehicle).
  set (w6 := add_vehicle_step fr w5 RegisterDriver).
  set (w7 := add_vehicle_step fr w6 EnterLane).
  set (w8 := add_vehicle_step fr w7 BumpCounters).
  change (snd (Some (fr_vehicle fr), fold_left (add_vehicle_step fr) add_vehicle_steps w))
    with w8.
  assert (Hvid : veh_attr wp (fr_vehicle fr) veh_id 0%Z = next_vehicle_id (model w)).
  { unfold veh_attr. rewrite Hv. reflexivity. }
  assert (Hdidk : Driver_id_of w5 (fr_driver fr) = next_driver_id (model w)).
  { unfold Driver_id_of. change (driver_heap w5) with (driver_heap wp).
    rewrite Hd. exact Hdid. }
  assert (H5 : model w5
               = set_vehicles (dict_set (next_vehicle_id (model w)) vehicle (vehicles (model w)))
                   (model w)).
  { unfold w5. cbn [add_vehicle_step upd_model model]. rewrite Hvid, Hm. reflexivity. }
  assert (H6 : model w6
               = set_drivers (dict_set (next_driver_id (model w)) driver (drivers (model w)))
                   (model w5)).
  { unfold w6. cbn [add_vehicle_step upd_model model]. rewrite Hdidk, H5. reflexivity. }
  assert (Hm7 : model w7 = model w6) by apply model_Lane_add_vehicle.
  assert (Hd7 : driver_heap w7 = driver_heap wp).
  { unfold w7. cbn [add_vehicle_step]. rewrite driver_heap_Lane_add_vehicle. reflexivity. }
  change (driver_heap w8) with (driver_heap w7). rewrite Hd7, Hdh.
  split; [|split; [|split]].
  - unfold w8. cbn [add_vehicle_step upd_model model]. rewrite Hm7, H6, H5. reflexivity.
  - destruct route as [r|].
    + rewrite !list_lookup_alter_eq. unfold driver. rewrite lookup_app_r by lia.
      rewrite Nat.sub_diag. reflexivity.
    + unfold id. rewrite list_lookup_alter_eq. unfold driver. rewrite lookup_app_r by lia.
      rewrite Nat.sub_diag. reflexivity.
  - destruct route; unfold id; rewrite ?length_alter, length_app; simpl; lia.
  - intros r Hr. destruct route; unfold id;
      rewrite ?list_lookup_alter_ne by (unfold driver; lia); apply lookup_app_l; exact Hr.
Qed.

(** C8.  For a lane id that is not registered, [add_vehicle] returns [None] and
    the store it leaves is the store it found.  For a registered lane it returns
    the new vehicle, and the construction comes before the insertion: before
    each step that inserts into a registry or into the lane's list, the vehicle
    is constructed with its driver attached, and until the first such step - the
    fifth of the eight - neither the model nor any lane has been touched.  In
    the store the call leaves, the reference returned designates the vehicle
    constructed from the next vehicle id, the lane and the position, with its
    driver attached; the driver that [create_driver] makes from the next driver
    id carries the vehicle and the route; vehicle and driver are registered
    under these ids, the vehicle is on the lane's list, both id counters and the
    counts of all and of active vehicles have grown by one; the objects that
    existed - vehicles, drivers, routes, all other lanes, and of the lane
    everything but its list - and the rest of the model are as they were. *)
Theorem C8_add_vehicle_build_then_insert (w : World) (lane_id : Z) (driver_type : DriverType)
    (pos : Q) (route : option ref) :
  (dict_get lane_id (lanes (model w)) = None ->
   Model_add_vehicle lane_id driver_type pos route w = (None, w))
  /\ (forall lane, dict_get lane_id (lanes (model w)) = Some lane ->
      let fr := add_vehicle_frame w lane driver_type pos route in
      let state_before n := fold_left (add_vehicle_step fr) (take n add_vehicle_steps) w in
      Model_add_vehicle lane_id driver_type pos route w
      = (Some (fr_vehicle fr), state_before (length add_vehicle_steps))
      /\ (forall n s, add_vehicle_steps !! n = Some s -> inserts s = true ->
            built fr w (state_before n))
      /\ (forall n, (forall s, s ∈ take n add_vehicle_steps -> inserts s = false) ->
            model (state_before n) = model w /\ lane_heap (state_before n) = lane_heap w)
      /\ (inserts <$> add_vehicle_steps = [false; false; false; false; true; true; true; false]
          /\ built fr w (state_before 4%nat)
          /\ model (state_before 4%nat) = model w /\ lane_heap (state_before 4%nat) = lane_heap w)
      /\ let vehicle := length (vehicle_heap w) in
         let driver := length (driver_heap w) in
         let w' := snd (Model_add_vehicle lane_id driver_type pos route w) in
         fst (Model_add_vehicle lane_id driver_type pos route w) = Some vehicle
         /\ vehicle_heap w' !! vehicle
            = Some (set_veh_driver (Some driver)
                      (Vehicle_init (next_vehicle_id (model w)) lane pos))
         /\ driver_heap w' !! driver
            = Some ((match route with Some r => with_route (Some r) | None => id end)
                      (with_vehicle (Some vehicle)
                         (create_driver (next_driver_id (model w)) driver_type)))
         /\ (Model_get_vehicle_by_id w' (next_vehicle_id (model w)) = Some vehicle
             /\ dict_get (next_driver_id (model w)) (drivers (model w')) = Some driver)
         /\ ((lane < length (lane_heap w))%nat -> vehicle ∈ Lane_vehicles w' lane)
         /\ model w'
            = on_stats count_added
                (set_next_ids (next_vehicle_id (model w) + 1) (next_driver_id (model w) + 1)
                   (set_drivers
                      (dict_set (next_driver_id (model w)) driver (drivers (model w)))
                      (set_vehicles
                         (dict_set (next_vehicle_id (model w)) vehicle (vehicles (model w)))
                         (model w))))
         /\ (length (vehicle_heap w') = S vehicle
             /\ forall r, (r < vehicle)%nat -> vehicle_heap w' !! r = vehicle_heap w !! r)
         /\ (length (driver_heap w') = S driver
             /\ forall r, (r < driver)%nat -> driver_heap w' !! r = driver_heap w !! r)
         /\ route_heap w' = route_heap w
         /\ statics w' = statics w
         /\ (forall l, l <> lane -> lane_heap w' !! l = lane_heap w !! l)
         /\ ((lane < length (lane_heap w))%nat -> vehicle ∉ Lane_vehicles w lane ->
             Permutation (Lane_vehicles w' lane) (Lane_vehicles w lane ++ [vehicle]))).
Proof.
  split.
  - intros H. unfold Model_add_vehicle. rewrite H. reflexivity.
  - intros lane H fr state_before.
    destruct (add_vehicle_construction w lane driver_type pos route) as (Hb & Hbm & Hbl).
    fold fr in Hb, Hbm, Hbl.
    split; [|split; [|split; [|split]]].
    + unfold Model_add_vehicle. rewrite H. reflexivity.
    + intros n s Hn Hs.
      do 8 (try destruct n as [|n]); simpl in Hn; try discriminate;
        injection Hn as <-; try discriminate Hs; clear Hs.
      * exact Hb.
      * exact Hb.
      * exact Hb.
    + intros n Hpre.
      assert (Hn : (n <= 4)%nat).
      { destruct (le_lt_dec n 4) as [|Hgt]; [assumption|exfalso].
        assert (Hin : RegisterVehicle ∈ take n add_vehicle_steps).
        { apply list_elem_of_lookup. exists 4%nat.
          rewrite lookup_take_lt by lia. reflexivity. }
        specialize (Hpre _ Hin). discriminate. }
      subst state_before fr. simpl.
      do 5 (try destruct n as [|n]); try lia; simpl; try destruct route; auto.
    + split; [reflexivity|]. split; [exact Hb|]. split; [exact Hbm|exact Hbl].
    + intros vehicle driver w'.
      destruct (add_vehicle_store w lane_id driver_type pos route lane H)
        as (Sv & Slen & Spre & Sstat & Soth & _ & Srh & _).
      destruct (add_vehicle_model w lane_id driver_type pos route lane H)
        as (Mm & Md & Mlen & Mpre).
      fold w' in Sv, Slen, Spre, Sstat, Soth, Srh. cbv zeta in Mm, Md, Mlen, Mpre.
      fold w' vehicle driver in Mm, Md, Mlen, Mpre. fold vehicle driver in Sv, Slen, Spre.
      split; [unfold Model_add_vehicle; rewrite H; reflexivity|].
      split; [exact Sv|]. split; [exact Md|].
      split.
      { unfold Model_get_vehicle_by_id. rewrite Mm.
        cbn [on_stats set_stats set_next_ids set_drivers set_vehicles vehicles drivers].
        split; apply dict_get_set_same. }
      assert (Hlist : (lane < length (lane_heap w))%nat ->
                Lane_vehicles w' lane
                = if decide (vehicle ∈ Lane_vehicles w lane) then Lane_vehicles w lane
                  else sort_by (Vehicle_get_x
                                  (fold_left (add_vehicle_step fr) (take 6 add_vehicle_steps) w))
                         (Lane_vehicles w lane ++ [vehicle])).
      { intros Hvalid. unfold w', Model_add_vehicle. rewrite H.
        set (w6 := fold_left (add_vehicle_step fr) (take 6 add_vehicle_steps) w).
        match goal with
        | |- ?lhs = _ =>
            change lhs with (Lane_vehicles (Lane_add_vehicle lane vehicle w6) lane)
        end.
        assert (Hl6 : lane_heap w6 = lane_heap w).
        { change (lane_heap w6) with (lane_heap (state_before 4%nat)). exact Hbl. }
        assert (Hv6 : Lane_vehicles w6 lane = Lane_vehicles w lane).
        { unfold Lane_vehicles, lane_attr. rewrite Hl6. reflexivity. }
        destruct (decide (vehicle ∈ Lane_vehicles w lane)) as [Hin|Hnin].
        - unfold Lane_add_vehicle. rewrite decide_True by (rewrite Hv6; exact Hin). exact Hv6.
        - rewrite Lane_vehicles_after_add; [rewrite Hv6; reflexivity| |].
          + rewrite Hv6. exact Hnin.
          + rewrite Hl6. exact Hvalid. }
      split.
      { intros Hvalid. rewrite (Hlist Hvalid).
        destruct (decide (vehicle ∈ Lane_vehicles w lane)) as [Hin|Hnin]; [exact Hin|].
        rewrite list_elem_of_In. eapply Permutation_in; [symmetry; apply sort_by_perm|].
        apply in_or_app. right. left. reflexivity. }
      split; [exact Mm|].
      split; [split; [exact Slen|exact Spre]|].
      split; [split; [exact Mlen|exact Mpre]|].
      split; [exact Srh|]. split; [exact Sstat|]. split; [exact Soth|].
      intros Hvalid Hnin. rewrite (Hlist Hvalid).
      rewrite decide_False by exact Hnin. apply sort_by_perm.
Qed.

(** ** The worker loop and the state machine *)

Lemma tick_controls (sqrt : Q -> Q) (dt : Q) (w : World) :
  controls (model (Model_update_simulation sqrt dt w)) = controls (model w).
Proof.
  rewrite (update_simulation_blind sqrt controls) by (repeat split). reflexivity.
Qed.

Lemma tick_state (sqrt : Q -> Q) (dt : Q) (w : World) :
  sim_state (model (Model_update_simulation sqrt dt w)) = sim_state (model w)
  /\ stop_simulation_flag (model (Model_update_simulation sqrt dt w))
     = stop_simulation_flag (model w)
  /\ settings (model (Model_update_simulation sqrt dt w)) = settings (model w).
Proof.
  split; [|split].
  - rewrite (update_simulation_blind sqrt sim_state) by (repeat split). reflexivity.
  - rewrite (update_simulation_blind sqrt stop_simulation_flag) by (repeat split). reflexivity.
  - rewrite (update_simulation_blind sqrt settings) by (repeat split). reflexivity.
Qed.

Lemma tick_clock (sqrt : Q -> Q) (dt : Q) (w : World) :
  current_time (model (Model_update_simulation sqrt dt w)) = current_time (model w) + dt.
Proof.
  rewrite (update_simulation_blind sqrt current_time) by (repeat split). reflexivity.
Qed.

Lemma ticks_shift (sqrt : Q -> Q) (dt : Q) (n : nat) (w : World) :
  ticks sqrt dt n (Model_update_simulation sqrt dt w)
  = Model_update_simulation sqrt dt (ticks sqrt dt n w).
Proof.
  induction n as [|n IH]; [reflexivity|]. cbn [ticks]. rewrite IH. reflexivity.
Qed.

Lemma ticks_controls (sqrt : Q -> Q) (dt : Q) (n : nat) (w : World) :
  controls (model (ticks sqrt dt n w)) = controls (model w).
Proof.
  induction n as [|n IH]; [reflexivity|]. cbn [ticks]. rewrite tick_controls. exact IH.
Qed.

Lemma ticks_clock (sqrt : Q -> Q) (dt : Q) (n : nat) (w : World) :
  current_time (model (ticks sqrt dt n w))
  == current_time (model w) + inject_Z (Z.of_nat n) * dt.
Proof.
  induction n as [|n IH].
  - cbn [ticks]. change (inject_Z (Z.of_nat 0)) with 0. lra.
  - cbn [ticks]. rewrite tick_clock, IH.
    rewrite Nat2Z.inj_succ. unfold Z.succ. rewrite inject_Z_plus.
    change (inject_Z 1) with 1. lra.
Qed.

(** X18. The worker loop has no way out of its own.  Started with the stop
    flag clear in state [RUNNING], with a [real_time_factor] other than zero and
    a sleep time [time_step / real_time_factor] that is not positive or that
    [time.sleep] accepts, it is still looping after any number of iterations,
    has run one tick of [time_step] per iteration, and has left state, flag and
    settings as they were: nothing compares the clock
    [current_time + n * time_step] with [max_simulation_time].  It ends only by
    an exception, after one tick and with the state still [RUNNING]: of the
    division for a [real_time_factor] of zero, or of [time.sleep] for a positive
    sleep time that it rejects.  In states [PAUSED] and [STEP] it idles as long
    as [time.sleep(0.01)] returns; with the flag set or in state [STOPPED] it
    exits without a tick. *)
Theorem X18_worker_loop_outcomes (sqrt : Q -> Q) (time_sleep : Q -> bool) (fuel : nat)
    (w : World) :
  let dt := time_step (settings (model w)) in
  let sleep_time := dt / real_time_factor (settings (model w)) in
  (stop_simulation_flag (model w) = false -> sim_state (model w) = RUNNING ->
   ~ real_time_factor (settings (model w)) == 0 ->
   Qltb 0 sleep_time = false \/ time_sleep sleep_time = true ->
   Model_simulation_loop sqrt time_sleep fuel w = LoopRunning (ticks sqrt dt fuel w)
   /\ controls (model (ticks sqrt dt fuel w)) = controls (model w)
   /\ current_time (model (ticks sqrt dt fuel w))
      == current_time (model w) + inject_Z (Z.of_nat fuel) * dt)
  /\ (stop_simulation_flag (model w) = false -> sim_state (model w) = RUNNING ->
      real_time_factor (settings (model w)) == 0
      \/ (Qltb 0 sleep_time = true /\ time_sleep sleep_time = false) ->
      Model_simulation_loop sqrt time_sleep (S fuel) w
      = LoopRaised (Model_update_simulation sqrt dt w)
      /\ sim_state (model (Model_update_simulation sqrt dt w)) = RUNNING)
  /\ (stop_simulation_flag (model w) = false ->
      sim_state (model w) = PAUSED \/ sim_state (model w) = STEP ->
      time_sleep 0.01 = true ->
      Model_simulation_loop sqrt time_sleep fuel w = LoopRunning w)
  /\ (stop_simulation_flag (model w) = true \/ sim_state (model w) = STOPPED ->
      Model_simulation_loop sqrt time_sleep fuel w = LoopExited w).
Proof.
  intros dt sleep_time. split; [|split; [|split]].
  - intros Hflag Hrun Hrtf Hsleep. split; [|split; [apply ticks_controls|apply ticks_clock]].
    subst sleep_time dt. revert w Hflag Hrun Hrtf Hsleep.
    induction fuel as [|fuel IH]; intros w Hflag Hrun Hrtf Hsleep.
    + simpl. rewrite Hflag, Hrun. reflexivity.
    + cbn [Model_simulation_loop]. rewrite Hflag, Hrun.
      rewrite bool_decide_eq_false_2 by discriminate.
      rewrite decide_True by reflexivity. cbn [negb andb]. cbv zeta.
      destruct (tick_state sqrt (time_step (settings (model w))) w) as (Hst & Hfl & Hset).
      rewrite Hset. rewrite py_div_some by exact Hrtf.
      assert (Hgo : Qltb 0 (time_step (settings (model w))
                            / real_time_factor (settings (model w)))
                    && negb (time_sleep (time_step (settings (model w))
                                         / real_time_factor (settings (model w)))) = false).
      { destruct Hsleep as [-> | ->]; [reflexivity|apply andb_false_r]. }
      rewrite Hgo.
      rewrite IH by (rewrite ?Hfl, ?Hst, ?Hset; assumption).
      rewrite Hset. cbn [ticks]. rewrite ticks_shift. reflexivity.
  - intros Hflag Hrun Hwhy.
    destruct (tick_state sqrt dt w) as (Hst & Hfl & Hset).
    split; [|rewrite Hst; exact Hrun].
    cbn [Model_simulation_loop]. rewrite Hflag, Hrun.
    rewrite bool_decide_eq_false_2 by discriminate.
    rewrite decide_True by reflexivity. cbn [negb andb]. cbv zeta. fold dt.
    rewrite Hset.
    destruct (Qeq_dec (real_time_factor (settings (model w))) 0) as [Hz|Hnz].
    + apply (py_div_none (time_step (settings (model w)))) in Hz. rewrite Hz. reflexivity.
    + destruct Hwhy as [Hz|[Hpos Hrej]]; [contradiction|].
      rewrite py_div_some by exact Hnz. fold dt. fold sleep_time.
      rewrite Hpos, Hrej. reflexivity.
  - intros Hflag Hstate Hnap. induction fuel as [|fuel IH].
    + simpl. rewrite Hflag. destruct Hstate as [-> | ->]; reflexivity.
    + cbn [Model_simulation_loop]. rewrite Hflag, Hnap.
      destruct Hstate as [Hs|Hs]; rewrite Hs in *; simpl; exact IH.
  - intros [Hflag|Hstate]; destruct fuel; cbn [Model_simulation_loop].
    + rewrite Hflag. reflexivity.
    + rewrite Hflag. reflexivity.
    + rewrite Hstate, bool_decide_eq_true_2, andb_false_r by reflexivity. reflexivity.
    + rewrite Hstate, bool_decide_eq_true_2, andb_false_r by reflexivity. reflexivity.
Qed.

(** X19. The state machine composes as follows.  [pause] then [resume] gives
    back a running simulation unchanged, and [resume] then [pause] a paused
    one; [pause] does nothing unless running and [resume] nothing unless
    paused.  [stop] then [start] restarts with the clock at [0] and the flag
    clear but keeps lanes, vehicles, drivers, id counters and the statistics
    (whose [current_time] still shows the old clock).  [start] on a paused
    simulation is not [resume]: it zeroes the clock and creates a further
    worker thread. *)
Theorem X19_state_machine_composes (now : Q) (w : World) :
  (sim_state (model w) = RUNNING ->
   Model_resume_simulation (Model_pause_simulation w) = w)
  /\ (sim_state (model w) = PAUSED ->
      Model_pause_simulation (Model_resume_simulation w) = w)
  /\ (sim_state (model w) <> RUNNING -> Model_pause_simulation w = w)
  /\ (sim_state (model w) <> PAUSED -> Model_resume_simulation w = w)
  /\ (let w' := Model_start_simulation now (Model_stop_simulation w) in
      sim_state (model w') = RUNNING
      /\ stop_simulation_flag (model w') = false
      /\ current_time (model w') = 0 /\ start_time (model w') = now
      /\ stats (model w') = stats (model w)
      /\ (lanes (model w'), vehicles (model w'), drivers (model w'), routes (model w'))
         = (lanes (model w), vehicles (model w), drivers (model w), routes (model w))
      /\ (next_vehicle_id (model w'), next_driver_id (model w'))
         = (next_vehicle_id (model w), next_driver_id (model w))
      /\ (vehicle_heap w', lane_heap w', driver_heap w')
         = (vehicle_heap w, lane_heap w, driver_heap w))
  /\ (sim_state (model w) = PAUSED ->
      let w' := Model_start_simulation now w in
      sim_state (model w') = RUNNING
      /\ current_time (model w') = 0
      /\ simulation_thread (model w') = Some (threads_spawned (model w))
      /\ threads_spawned (model w') = S (threads_spawned (model w))
      /\ current_time (model (Model_resume_simulation w)) = current_time (model w)
      /\ threads_spawned (model (Model_resume_simulation w)) = threads_spawned (model w)).
Proof.
  destruct w as [vh lh dh rh m].
  destruct m as [st se sa la ve dr ro stt ct lu th ts fl nv nd]. simpl.
  split; [|split; [|split; [|split; [|split]]]].
  - intros ->. unfold Model_resume_simulation, Model_pause_simulation. simpl. reflexivity.
  - intros ->. unfold Model_resume_simulation, Model_pause_simulation. simpl. reflexivity.
  - intros H. unfold Model_pause_simulation. simpl.
    destruct (decide (st = RUNNING)); [contradiction|reflexivity].
  - intros H. unfold Model_resume_simulation. simpl.
    destruct (decide (st = PAUSED)); [contradiction|reflexivity].
  - unfold Model_start_simulation, Model_stop_simulation. simpl. repeat split.
  - intros ->. unfold Model_start_simulation, Model_resume_simulation. simpl. repeat split.
Qed.

(** ** The lane registry *)

Lemma lanes_update_network (w : World) :
  lanes (model (Model_update_network w)) = lanes (model w)
  /\ vehicles (model (Model_update_network w)) = vehicles (model w)
  /\ stats (model (Model_update_network w)) = stats (model w)
  /\ sim_state (model (Model_update_network w)) = sim_state (model w).
Proof.
  destruct (update_network_only w) as (_ & _ & _ & -> & _). repeat split.
Qed.

Lemma dict_set_keys_length {V} (k : Z) (v : V) (d : list (Z * V)) :
  length (dict_set k v d) = if dict_mem k d then length d else S (length d).
Proof.
  unfold dict_mem. induction d as [|[k0 v0] d IH]; simpl; [reflexivity|].
  destruct (decide (k = k0)); simpl; [reflexivity|].
  rewrite IH. destruct (dict_get k d); reflexivity.
Qed.

(** X21. [add_lane] registers the lane under its id: [get_lane_by_id] of
    that id then returns it, every other id is looked up as before, and
    [get_lanes] grows by one lane - unless the id was already registered, in
    which case the lane registered before is replaced and the number of lanes
    stays.  The rest of the model (vehicle and driver registries, statistics,
    counters, state) and the lane, driver and route objects are unchanged.  Of
    the vehicle objects only neighbour caches are rewritten (by
    [_update_network]), and a vehicle that is on the list of no registered lane
    is unchanged. *)
Theorem X21_add_lane_lookup (w : World) (lane : ref) :
  let lane_id := lane_attr w lane lane_id 0%Z in
  let w' := Model_add_lane lane w in
  Model_get_lane_by_id w' lane_id = Some lane
  /\ (forall other, other <> lane_id ->
        Model_get_lane_by_id w' other = Model_get_lane_by_id w other)
  /\ length (Model_get_lanes w')
     = match Model_get_lane_by_id w lane_id with
       | Some _ => length (Model_get_lanes w)
       | None => S (length (Model_get_lanes w))
       end
  /\ Model_get_vehicles w' = Model_get_vehicles w
  /\ stats (model w') = stats (model w)
  /\ model w' = set_lanes (lanes (model w')) (model w)
  /\ (lane_heap w' = lane_heap w /\ driver_heap w' = driver_heap w
      /\ route_heap w' = route_heap w)
  /\ Forall2 cache_only (vehicle_heap w) (vehicle_heap w')
  /\ (forall r, (forall l, In l (Model_get_lanes w') -> ~ In r (Lane_vehicles w l)) ->
        vehicle_heap w' !! r = vehicle_heap w !! r).
Proof.
  intros lid w'. unfold w', Model_add_lane, Model_get_lane_by_id, Model_get_lanes,
    Model_get_vehicles.
  fold lid.
  set (w0 := upd_model (fun m => set_lanes (dict_set lid lane (lanes m)) m) w).
  destruct (lanes_update_network w0) as (Hl & Hv & Hs & _).
  destruct (update_network_caches w0) as ((Hlh & Hdh & Hrh & Hm & Hvh) & Hoff).
  rewrite Hl, Hv, Hs.
  split; [apply dict_get_set_same|]. split; [|split; [|split; [|split]]].
  - intros other Hne. apply dict_get_set_other. congruence.
  - unfold dict_values. cbn [w0 upd_model model lanes set_lanes].
    rewrite !length_map, dict_set_keys_length. unfold dict_mem.
    destruct (dict_get lid (lanes (model w))); reflexivity.
  - reflexivity.
  - reflexivity.
  - split; [rewrite Hm; reflexivity|].
    split; [rewrite Hlh, Hdh, Hrh; repeat split|].
    split; [exact Hvh|].
    intros r Hr. rewrite Hoff; [reflexivity|]. exact Hr.
Qed.

Lemma fold_register_lanes (ls : list ref) : forall (w : World),
  let w' := fold_left (fun w lane =>
                         upd_model (fun m => set_lanes
                           (dict_set (lane_attr w lane lane_id 0%Z) lane (lanes m)) m) w)
              ls w in
  (vehicle_heap w' = vehicle_heap w /\ lane_heap w' = lane_heap w
   /\ driver_heap w' = driver_heap w /\ route_heap w' = route_heap w)
  /\ model w' = set_lanes (lanes (model w')) (model w)
  /\ forall k, dict_get k (lanes (model w'))
               = match last (List.filter (fun l => bool_decide (lane_attr w l lane_id 0%Z = k)) ls)
                 with
                 | Some l => Some l
                 | None => dict_get k (lanes (model w))
                 end.
Proof.
  induction ls as [|l ls IH]; intros w; cbn [fold_left].
  - split; [repeat split|]. split; [destruct w as [? ? ? ? []]; reflexivity|reflexivity].
  - set (w1 := upd_model (fun m => set_lanes
                 (dict_set (lane_attr w l lane_id 0%Z) l (lanes m)) m) w).
    destruct (IH w1) as ((Hvh & Hlh & Hdh & Hrh) & Hm & Hget).
    split; [rewrite Hvh, Hlh, Hdh, Hrh; repeat split|].
    split; [rewrite Hm; reflexivity|].
    intros k. rewrite Hget.
    assert (Hattr : forall l', lane_attr w1 l' lane_id 0%Z = lane_attr w l' lane_id 0%Z)
      by reflexivity.
    rewrite (filter_ext (fun l' => bool_decide (lane_attr w1 l' lane_id 0%Z = k))
               (fun l' => bool_decide (lane_attr w l' lane_id 0%Z = k)))
      by (intros a; rewrite Hattr; reflexivity).
    cbn [List.filter].
    destruct (List.filter (fun l' => bool_decide (lane_attr w l' lane_id 0%Z = k)) ls)
      as [|a rest] eqn:E.
    + simpl. unfold w1. simpl. case_bool_decide as Hk.
      * subst k. simpl. apply dict_get_set_same.
      * simpl. apply dict_get_set_other. exact Hk.
    + assert (Hz : exists z, last (a :: rest) = Some z).
      { destruct (last (a :: rest)) as [z|] eqn:Ez; [exists z; reflexivity|].
        apply last_None in Ez. discriminate Ez. }
      destruct Hz as [z Hz].
      case_bool_decide; [change (last (l :: a :: rest)) with (last (a :: rest))|];
        rewrite Hz; reflexivity.
Qed.

(** The store on which [initialize] refreshes the network: settings and lanes
    are in place. *)
Lemma initialize_stages (lanes_given : list ref) (settings_given : option SimulationSettings)
    (w : World) :
  let w' := Model_initialize lanes_given settings_given w in
  (lane_heap w' = lane_heap w /\ driver_heap w' = driver_heap w
   /\ route_heap w' = route_heap w)
  /\ model w'
     = set_stats (mkStats 0 0 0 0 0 0 0 0)
         (set_sim_state STOPPED
            (set_settings (match settings_given with
                           | Some s => s
                           | None => settings (model w)
                           end)
               (set_lanes (lanes (model w')) (model w))))
  /\ Forall2 cache_only (vehicle_heap w) (vehicle_heap w')
  /\ (forall r, (forall l, In l (dict_values (lanes (model w'))) -> ~ In r (Lane_vehicles w l)) ->
        vehicle_heap w' !! r = vehicle_heap w !! r)
  /\ forall k, dict_get k (lanes (model w'))
               = match last (List.filter
                               (fun l => bool_decide (lane_attr w l lane_id 0%Z = k))
                               lanes_given) with
                 | Some l => Some l
                 | None => dict_get k (lanes (model w))
                 end.
Proof.
  intros w'. unfold w', Model_initialize.
  set (w1 := match settings_given with
             | Some s => upd_model (set_settings s) w
             | None => w
             end).
  assert (H1 : (vehicle_heap w1 = vehicle_heap w /\ lane_heap w1 = lane_heap w
                /\ driver_heap w1 = driver_heap w /\ route_heap w1 = route_heap w)
               /\ model w1 = set_settings (match settings_given with
                                           | Some s => s
                                           | None => settings (model w)
                                           end) (model w)).
  { unfold w1. destruct settings_given; [repeat split|].
    split; [repeat split|]. destruct w as [? ? ? ? []]. reflexivity. }
  destruct H1 as ((Hv1 & Hl1 & Hd1 & Hr1) & Hm1).
  destruct (fold_register_lanes lanes_given w1) as ((Hv2 & Hl2 & Hd2 & Hr2) & Hm2 & Hget).
  cbv zeta in Hv2, Hl2, Hd2, Hr2, Hm2, Hget.
  set (w2 := fold_left _ lanes_given w1) in *.
  destruct (update_network_caches w2) as ((Hl3 & Hd3 & Hr3 & Hm3 & Hv3) & Hoff).
  cbn [upd_model lane_heap driver_heap route_heap vehicle_heap model lanes set_stats
       set_sim_state].
  assert (Hlv : forall l, Lane_vehicles w2 l = Lane_vehicles w l).
  { intros l. unfold Lane_vehicles, lane_attr. rewrite Hl2, Hl1. reflexivity. }
  assert (Hattr : forall l, lane_attr w1 l lane_id 0%Z = lane_attr w l lane_id 0%Z).
  { intros l. unfold lane_attr. rewrite Hl1. reflexivity. }
  split; [rewrite Hl3, Hd3, Hr3, Hl2, Hd2, Hr2, Hl1, Hd1, Hr1; repeat split|].
  split; [rewrite Hm3, Hm2, Hm1; reflexivity|].
  split; [rewrite <- Hv1, <- Hv2; exact Hv3|].
  split.
  - intros r Hr. rewrite Hoff; [rewrite Hv2, Hv1; reflexivity|].
    intros l Hin. rewrite Hlv. apply Hr. rewrite Hm3. exact Hin.
  - intros k. rewrite Hm3, Hget.
    rewrite (filter_ext (fun l' => bool_decide (lane_attr w1 l' lane_id 0%Z = k))
               (fun l' => bool_decide (lane_attr w l' lane_id 0%Z = k)))
      by (intros a; rewrite Hattr; reflexivity).
    rewrite Hm1. reflexivity.
Qed.

(** X20. [initialize] sets the state to [STOPPED] and every statistic to zero
    and registers the given lanes: each id is afterwards bound to the last lane
    of the given list that carries it, and otherwise as before.  The settings
    are replaced only when given.  Everything else in the model is kept - the
    vehicle, driver and route registries, both id counters, the clock, the
    thread and the stop flag - and so are the lane, driver and route objects.
    Of the vehicle objects only neighbour caches are rewritten (by
    [_update_network]), and a vehicle on the list of no registered lane is
    unchanged. *)
Theorem X20_initialize_keeps_vehicles (lanes_given : list ref)
    (settings_given : option SimulationSettings) (w : World) :
  let w' := Model_initialize lanes_given settings_given w in
  sim_state (model w') = STOPPED
  /\ stats (model w') = mkStats 0 0 0 0 0 0 0 0
  /\ Model_get_vehicles w' = Model_get_vehicles w
  /\ drivers (model w') = drivers (model w)
  /\ next_vehicle_id (model w') = next_vehicle_id (model w)
  /\ settings (model w') = match settings_given with
                           | Some s => s
                           | None => settings (model w)
                           end
  /\ (forall k, Model_get_lane_by_id w' k
                = match last (List.filter
                                (fun l => bool_decide (lane_attr w l lane_id 0%Z = k))
                                lanes_given) with
                  | Some l => Some l
                  | None => Model_get_lane_by_id w k
                  end)
  /\ (vehicles (model w'), drivers (model w'), routes (model w'),
      next_vehicle_id (model w'), next_driver_id (model w'))
     = (vehicles (model w), drivers (model w), routes (model w),
        next_vehicle_id (model w), next_driver_id (model w))
  /\ (start_time (model w'), current_time (model w'), last_update_time (model w'),
      simulation_thread (model w'), threads_spawned (model w'), stop_simulation_flag (model w'))
     = (start_time (model w), current_time (model w), last_update_time (model w),
        simulation_thread (model w), threads_spawned (model w), stop_simulation_flag (model w))
  /\ (lane_heap w' = lane_heap w /\ driver_heap w' = driver_heap w
      /\ route_heap w' = route_heap w)
  /\ Forall2 cache_only (vehicle_heap w) (vehicle_heap w')
  /\ (forall r, (forall l, In l (Model_get_lanes w') -> ~ In r (Lane_vehicles w l)) ->
        vehicle_heap w' !! r = vehicle_heap w !! r).
Proof.
  intros w'.
  destruct (initialize_stages lanes_given settings_given w) as (Hheaps & Hm & Hv & Hoff & Hget).
  fold w' in Hheaps, Hm, Hv, Hoff, Hget.
  unfold Model_get_vehicles, Model_get_lane_by_id, Model_get_lanes.
  split; [rewrite Hm; reflexivity|]. split; [rewrite Hm; reflexivity|].
  split; [rewrite Hm; reflexivity|]. split; [rewrite Hm; reflexivity|].
  split; [rewrite Hm; reflexivity|]. split; [rewrite Hm; reflexivity|].
  split; [exact Hget|].
  split; [rewrite Hm; reflexivity|]. split; [rewrite Hm; reflexivity|].
  split; [exact Hheaps|]. split; [exact Hv|exact Hoff].
Qed.

(** ** Removing a lane *)

Lemma registry_ok_remove_vehicle (w : World) (k : Z) :
  registry_ok w ->
  registry_ok (Model_remove_vehicle k w)
  /\ vehicles (model (Model_remove_vehicle k w)) = dict_del k (vehicles (model w))
  /\ lanes (model (Model_remove_vehicle k w)) = lanes (model w).
Proof.
  intros (Hnd & Hent & Hndd).
  rewrite (model_remove_vehicle_blind lanes) by (repeat split).
  destruct (dict_get k (vehicles (model w))) as [r|] eqn:E.
  - destruct (remove_vehicle_registered w k r E) as (Hv & Hh & _ & _ & _ & Hd).
    split; [|split; [exact Hv|reflexivity]].
    unfold registry_ok. rewrite Hv, Hh, Hd. split; [|split].
    + apply dict_del_NoDup, Hnd.
    + intros k' r' Hin. apply Hent. eapply dict_del_In, Hin.
    + destruct (driver_key w r); [apply dict_del_NoDup|]; exact Hndd.
  - unfold Model_remove_vehicle. rewrite E.
    split; [repeat split; assumption|]. split; [|reflexivity].
    symmetry. apply dict_del_absent. exact E.
Qed.

Lemma ids_of_heap (w w' : World) (vs : list ref) :
  vehicle_heap w' = vehicle_heap w -> ids_of w' vs = ids_of w vs.
Proof.
  intros H. unfold ids_of. apply map_ext. intros v. unfold veh_attr. rewrite H. reflexivity.
Qed.

Lemma fold_remove_by_id (vs : list ref) : forall w,
  registry_ok w ->
  let wf := fold_left (fun w vehicle => Model_remove_vehicle (veh_attr w vehicle veh_id 0%Z) w)
              vs w in
  registry_ok wf
  /\ vehicle_heap wf = vehicle_heap w
  /\ statics wf = statics w
  /\ lanes (model wf) = lanes (model w)
  /\ forall k, dict_get k (vehicles (model wf))
               = if bool_decide (k ∈ ids_of w vs) then None
                 else dict_get k (vehicles (model w)).
Proof.
  induction vs as [|v vs IH]; intros w Hok; cbn [fold_left].
  - split; [exact Hok|]. repeat split.
  - set (k1 := veh_attr w v veh_id 0%Z).
    destruct (registry_ok_remove_vehicle w k1 Hok) as (Hok1 & Hv1 & Hl1).
    destruct (heap_Model_remove_vehicle w k1) as (Hh1 & Hs1 & _).
    destruct (IH (Model_remove_vehicle k1 w) Hok1) as (Hokf & Hhf & Hsf & Hlf & Hget).
    split; [exact Hokf|]. split; [congruence|]. split; [congruence|]. split; [congruence|].
    intros k. rewrite Hget, (ids_of_heap w _ vs Hh1), Hv1.
    change (ids_of w (v :: vs)) with (k1 :: ids_of w vs).
    destruct (decide (k ∈ ids_of w vs)) as [Hin|Hnin].
    + rewrite !bool_decide_eq_true_2; [reflexivity| |exact Hin].
      apply elem_of_cons. right. exact Hin.
    + rewrite (bool_decide_eq_false_2 _ Hnin).
      destruct (decide (k = k1)) as [->|Hne].
      * rewrite bool_decide_eq_true_2 by (apply elem_of_cons; left; reflexivity).
        apply dict_get_del_same. apply Hok.
      * rewrite bool_decide_eq_false_2.
        -- apply dict_get_del_other. congruence.
        -- intros Hin. apply elem_of_cons in Hin as [?|?]; contradiction.
Qed.

(** X22. [remove_lane] of an unknown id does nothing.  For a registered lane
    it unregisters the lane (other ids are looked up as before) and every
    vehicle registered under the id of a vehicle on the lane's list; all other
    vehicles stay registered.  Lane objects keep their links: a lane that named
    the removed lane as a neighbour or as its downstream lane still does. *)
Theorem X22_remove_lane (w : World) (lane_id : Z) :
  registry_ok w ->
  NoDup (dict_keys (lanes (model w))) ->
  let w' := Model_remove_lane lane_id w in
  (Model_get_lane_by_id w lane_id = None -> w' = w)
  /\ (forall lane, Model_get_lane_by_id w lane_id = Some lane ->
        Model_get_lane_by_id w' lane_id = None
        /\ (forall other, other <> lane_id ->
              Model_get_lane_by_id w' other = Model_get_lane_by_id w other)
        /\ (forall k, In k (ids_of w (Lane_vehicles w lane)) ->
              Model_get_vehicle_by_id w' k = None)
        /\ (forall k, ~ In k (ids_of w (Lane_vehicles w lane)) ->
              Model_get_vehicle_by_id w' k = Model_get_vehicle_by_id w k)
        /\ statics w' = statics w
        /\ registry_ok w').
Proof.
  intros Hok Hnd w'. unfold w', Model_remove_lane, Model_get_lane_by_id,
    Model_get_vehicle_by_id.
  split.
  - intros ->. reflexivity.
  - intros lane ->.
    destruct (fold_remove_by_id (Lane_vehicles w lane) w Hok)
      as (Hokf & Hhf & Hsf & Hlf & Hget).
    set (w1 := fold_left _ (Lane_vehicles w lane) w) in *.
    set (w2 := upd_model (fun m => set_lanes (dict_del lane_id (lanes m)) m) w1).
    pose proof (update_network_only w2) as Honly.
    pose proof Honly as (Hlh & _ & _ & Hm & _).
    rewrite Hm. cbn [model upd_model lanes vehicles set_lanes w2]. rewrite Hlf.
    split; [apply dict_get_del_same; exact Hnd|].
    split; [intros other Hne; apply dict_get_del_other; congruence|].
    split; [|split; [|split]].
    + intros k Hin. rewrite Hget, bool_decide_eq_true_2; [reflexivity|].
      apply list_elem_of_In. exact Hin.
    + intros k Hnin. rewrite Hget, bool_decide_eq_false_2; [reflexivity|].
      intros Hin. apply Hnin. apply list_elem_of_In. exact Hin.
    + unfold statics. rewrite Hlh. exact Hsf.
    + apply (registry_ok_only_vehicles w2); [exact Honly|].
      destruct Hokf as (H1 & H2 & H3). repeat split; assumption.
Qed.

(** ** Adding and removing a vehicle *)

Lemma dict_del_appended {V} (k : Z) (v : V) (d : list (Z * V)) :
  ~ In k (dict_keys d) -> dict_del k (d ++ [(k, v)]) = d.
Proof.
  induction d as [|[k0 v0] d IH]; simpl; intros Hk.
  - rewrite decide_True by reflexivity. reflexivity.
  - destruct (decide (k = k0)) as [->|_]; [exfalso; apply Hk; left; reflexivity|].
    rewrite IH; [reflexivity|]. intros Hin. apply Hk. right. exact Hin.
Qed.

Lemma dict_get_appended {V} (k : Z) (v : V) (d : list (Z * V)) :
  ~ In k (dict_keys d) -> dict_get k (d ++ [(k, v)]) = Some v.
Proof.
  induction d as [|[k0 v0] d IH]; simpl; intros Hk.
  - rewrite decide_True by reflexivity. reflexivity.
  - destruct (decide (k = k0)) as [->|_]; [exfalso; apply Hk; left; reflexivity|].
    apply IH. intros Hin. apply Hk. right. exact Hin.
Qed.

(** X23. [add_vehicle] on a registered lane followed by [remove_vehicle] of
    the id just issued: the new vehicle is found under that id in between and
    under no id afterwards, both registries are as they were before the pair
    of calls, but the id counters do not go back (the ids are not issued
    again) and the pair leaves one more vehicle in [total_vehicles] and in
    [completed_vehicles]. *)
Theorem X23_add_then_remove_vehicle (w : World) (lane_id : Z) (driver_type : DriverType)
    (pos : Q) (route : option ref) (lane : ref) :
  model_ok w ->
  Model_get_lane_by_id w lane_id = Some lane ->
  let k := next_vehicle_id (model w) in
  let added := Model_add_vehicle lane_id driver_type pos route w in
  let w1 := snd added in
  let w2 := Model_remove_vehicle k w1 in
  fst added = Some (length (vehicle_heap w))
  /\ Model_get_vehicle_by_id w k = None
  /\ Model_get_vehicle_by_id w1 k = fst added
  /\ Model_get_vehicle_by_id w2 k = None
  /\ vehicles (model w2) = vehicles (model w)
  /\ drivers (model w2) = drivers (model w)
  /\ next_vehicle_id (model w2) = (k + 1)%Z
  /\ next_driver_id (model w2) = (next_driver_id (model w) + 1)%Z
  /\ total_vehicles (stats (model w2)) = (total_vehicles (stats (model w)) + 1)%Z
  /\ active_vehicles (stats (model w2)) = active_vehicles (stats (model w))
  /\ completed_vehicles (stats (model w2)) = (completed_vehicles (stats (model w)) + 1)%Z
  /\ crashed_vehicles (stats (model w2)) = crashed_vehicles (stats (model w)).
Proof.
  intros Hok Hlane k added w1 w2. unfold Model_get_lane_by_id in Hlane.
  destruct (add_vehicle_effect w lane_id driver_type pos route lane Hok Hlane)
    as (Hv & Hd & Hnv & Hnd & Ht & Ha & Hc & Hcr & (v & Hheap & Hid & Hdrv & Hncr) & Hdid).
  fold added in Hv, Hd, Hnv, Hnd, Ht, Ha, Hc, Hcr, Hheap, Hdid.
  fold w1 in Hv, Hd, Hnv, Hnd, Ht, Ha, Hc, Hcr, Hheap, Hdid.
  destruct Hok as [(Hndv & Hent & Hndd) [Hfv Hfd]].
  assert (Hkv : ~ In k (dict_keys (vehicles (model w)))).
  { intros Hin. apply Hfv in Hin. unfold k in Hin. lia. }
  assert (Hkd : ~ In (next_driver_id (model w)) (dict_keys (drivers (model w)))).
  { intros Hin. apply Hfd in Hin. lia. }
  assert (Hfst : fst added = Some (length (vehicle_heap w))).
  { unfold added, Model_add_vehicle. rewrite Hlane. reflexivity. }
  assert (Hreg : dict_get k (vehicles (model w1)) = Some (length (vehicle_heap w))).
  { rewrite Hv. apply dict_get_appended. exact Hkv. }
  destruct (remove_vehicle_registered w1 k _ Hreg) as (Hv2 & _ & _ & Hst2 & _ & Hd2).
  fold w2 in Hv2, Hst2, Hd2.
  assert (Hkey : driver_key w1 (length (vehicle_heap w)) = Some (next_driver_id (model w))).
  { unfold driver_key, veh_attr. rewrite Hheap, Hdrv, Hdid. reflexivity. }
  assert (Hcrashed : Vehicle_crashed w1 (length (vehicle_heap w)) = false).
  { unfold Vehicle_crashed, veh_attr. rewrite Hheap. exact Hncr. }
  rewrite Hkey in Hd2. rewrite Hcrashed in Hst2.
  unfold Model_get_vehicle_by_id.
  split; [exact Hfst|]. split; [apply dict_get_absent_key; exact Hkv|].
  split; [rewrite Hfst; exact Hreg|].
  assert (Hveh2 : vehicles (model w2) = vehicles (model w)).
  { rewrite Hv2, Hv. apply dict_del_appended. exact Hkv. }
  split; [rewrite Hveh2; apply dict_get_absent_key; exact Hkv|].
  split; [exact Hveh2|].
  split; [rewrite Hd2, Hd; apply dict_del_appended; exact Hkd|].
  unfold w2.
  rewrite (model_remove_vehicle_blind next_vehicle_id) by (repeat split).
  rewrite (model_remove_vehicle_blind next_driver_id) by (repeat split).
  fold w2. rewrite Hst2. unfold count_removed. simpl.
  repeat split; lia.
Qed.

(** ** Observer lists *)

Lemma elem_of_list_remove (o o' : ref) (l : list ref) :
  NoDup l -> o ∈ list_remove o' l <-> o <> o' /\ o ∈ l.
Proof.
  intros Hnd. induction l as [|a l IH]; simpl.
  - rewrite elem_of_nil. tauto.
  - apply NoDup_cons in Hnd as [Ha Hnd]. destruct (decide (o' = a)) as [->|Hne].
    + rewrite elem_of_cons. split.
      * intros Hin. split; [|right; exact Hin]. intros ->. contradiction.
      * intros [Hne [->|Hin]]; [contradiction|exact Hin].
    + rewrite !elem_of_cons, (IH Hnd). split.
      * intros [->|[H1 H2]]; [split; [congruence|left; reflexivity]|].
        split; [exact H1|right; exact H2].
      * intros [H1 [->|H2]]; [left; reflexivity|right; split; assumption].
Qed.

Lemma NoDup_list_remove (o : ref) (l : list ref) : NoDup l -> NoDup (list_remove o l).
Proof.
  intros Hnd. induction l as [|a l IH]; simpl; [constructor|].
  apply NoDup_cons in Hnd as [Ha Hnd]. destruct (decide (o = a)); [exact Hnd|].
  apply NoDup_cons. split; [|apply IH, Hnd].
  intros Hin. apply elem_of_list_remove in Hin; [|exact Hnd]. apply Ha, Hin.
Qed.

Lemma observer_call_step (o : ref) (l : list ref) (c : ObserverCall) (b : bool) :
  NoDup l -> (o ∈ l <-> b = true) ->
  NoDup (observer_call l c)
  /\ (o ∈ observer_call l c
      <-> match c with
          | CallAddObserver o' => if decide (o' = o) then true else b
          | CallRemoveObserver o' => if decide (o' = o) then false else b
          end = true).
Proof.
  intros Hnd Hb. destruct c as [o'|o']; simpl.
  - unfold add_observer. destruct (decide (o' ∈ l)) as [Hin|Hnin].
    + split; [exact Hnd|]. destruct (decide (o' = o)) as [->|_]; [tauto|exact Hb].
    + split.
      * apply NoDup_app. split; [exact Hnd|]. split; [|apply NoDup_singleton].
        intros a Ha Ha'. apply list_elem_of_singleton in Ha'. subst a. contradiction.
      * rewrite elem_of_app, list_elem_of_singleton.
        destruct (decide (o' = o)) as [->|Hne]; [tauto|].
        rewrite Hb. split; [intros [H|H]; [exact H|congruence]|tauto].
  - unfold remove_observer. destruct (decide (o' ∈ l)) as [Hin|Hnin].
    + split; [apply NoDup_list_remove, Hnd|].
      rewrite elem_of_list_remove by exact Hnd.
      destruct (decide (o' = o)) as [->|Hne].
      * split; [intros [H _]; congruence|discriminate].
      * rewrite Hb. split; [tauto|]. intros H. split; [congruence|exact H].
    + split; [exact Hnd|]. destruct (decide (o' = o)) as [->|_]; [|exact Hb].
      split; [contradiction|discriminate].
Qed.

(** X24. An observer list that starts empty and is only changed by
    [add_observer] and [remove_observer] never holds an observer twice (so
    each one is notified once), and it holds an observer exactly when the last
    call naming it was an [add_observer].  Adding an observer that is present
    and removing one that is absent change nothing. *)
Theorem X24_observer_lists (cs : list ObserverCall) (o : ref) :
  let observers := fold_left observer_call cs [] in
  NoDup observers
  /\ (o ∈ observers <-> last_call_adds o cs = true)
  /\ (o ∈ observers -> add_observer o observers = observers)
  /\ (o ∉ observers -> remove_observer o observers = observers
                       /\ remove_observer o (add_observer o observers) = observers).
Proof.
  intros observers.
  assert (H : forall l b, NoDup l -> (o ∈ l <-> b = true) ->
            NoDup (fold_left observer_call cs l)
            /\ (o ∈ fold_left observer_call cs l
                <-> fold_left (fun b c =>
                      match c with
                      | CallAddObserver o' => if decide (o' = o) then true else b
                      | CallRemoveObserver o' => if decide (o' = o) then false else b
                      end) cs b = true)).
  { induction cs as [|c cs IH]; intros l b Hnd Hb; [split; assumption|].
    cbn [fold_left]. destruct (observer_call_step o l c b Hnd Hb) as (Hnd' & Hb').
    apply IH; assumption. }
  destruct (H [] false) as (Hnd & Hiff); [constructor| |].
  { rewrite elem_of_nil. split; [contradiction|discriminate]. }
  fold observers in Hnd, Hiff.
  split; [exact Hnd|]. split; [exact Hiff|]. split.
  - intros Hin. unfold add_observer. rewrite decide_True by exact Hin. reflexivity.
  - intros Hnin. split.
    + unfold remove_observer. rewrite decide_False by exact Hnin. reflexivity.
    + unfold add_observer. rewrite decide_False by exact Hnin.
      unfold remove_observer. rewrite decide_True by (apply elem_of_app; right; left).
      clear -Hnin. induction observers as [|a l IH]; simpl.
      * rewrite decide_True by reflexivity. reflexivity.
      * apply not_elem_of_cons in Hnin as [Hne Hnin].
        rewrite decide_False by exact Hne. rewrite IH by exact Hnin. reflexivity.
Qed.

(** ** Stepping and resuming a stopped simulation *)

Lemma tick_threads (sqrt : Q -> Q) (dt : Q) (w : World) :
  simulation_thread (model (Model_update_simulation sqrt dt w)) = simulation_thread (model w)
  /\ threads_spawned (model (Model_update_simulation sqrt dt w)) = threads_spawned (model w).
Proof.
  split.
  - rewrite (update_simulation_blind sqrt simulation_thread) by (repeat split). reflexivity.
  - rewrite (update_simulation_blind sqrt threads_spawned) by (repeat split). reflexivity.
Qed.

Lemma step_from_idle (sqrt : Q -> Q) (w : World) :
  sim_state (model w) = STOPPED \/ sim_state (model w) = PAUSED ->
  let w1 := Model_step_simulation sqrt w in
  sim_state (model w1) = PAUSED
  /\ stop_simulation_flag (model w1) = stop_simulation_flag (model w)
  /\ current_time (model w1) = current_time (model w) + time_step (settings (model w))
  /\ simulation_thread (model w1) = simulation_thread (model w)
  /\ threads_spawned (model w1) = threads_spawned (model w).
Proof.
  intros Hidle w1. unfold w1, Model_step_simulation.
  rewrite decide_True by exact Hidle.
  set (dt := time_step (settings (model w))).
  destruct (tick_state sqrt dt w) as (_ & Hflag & _).
  destruct (tick_threads sqrt dt w) as (Hth & Hsp).
  split; [reflexivity|]. split; [exact Hflag|]. split; [apply tick_clock|].
  split; [exact Hth|exact Hsp].
Qed.

(** X26. After [stop_simulation], a [step_simulation] followed by
    [resume_simulation] leaves the model in state [RUNNING] with the stop flag
    still set: the clock has advanced by the one [time_step] of the step, no
    thread has been created, and the worker loop leaves at its next test without
    a tick.  On a model that was never started the same two calls give state
    [RUNNING] with the thread attribute as it was.  Only [start_simulation]
    clears the flag and creates a worker. *)
Theorem X26_resume_after_step_has_no_worker (sqrt : Q -> Q) (time_sleep : Q -> bool)
    (fuel : nat) (w : World) :
  (let w2 := Model_resume_simulation (Model_step_simulation sqrt (Model_stop_simulation w)) in
   sim_state (model w2) = RUNNING
   /\ stop_simulation_flag (model w2) = true
   /\ current_time (model w2) = current_time (model w) + time_step (settings (model w))
   /\ simulation_thread (model w2) = simulation_thread (model w)
   /\ threads_spawned (model w2) = threads_spawned (model w)
   /\ Model_simulation_loop sqrt time_sleep fuel w2 = LoopExited w2)
  /\ (sim_state (model w) = STOPPED ->
      let w2 := Model_resume_simulation (Model_step_simulation sqrt w) in
      sim_state (model w2) = RUNNING
      /\ stop_simulation_flag (model w2) = stop_simulation_flag (model w)
      /\ simulation_thread (model w2) = simulation_thread (model w)
      /\ threads_spawned (model w2) = threads_spawned (model w)).
Proof.
  assert (Hresume : forall w1, sim_state (model w1) = PAUSED ->
            Model_resume_simulation w1 = upd_model (set_sim_state RUNNING) w1).
  { intros w1 H1. unfold Model_resume_simulation. rewrite decide_True by exact H1.
    reflexivity. }
  split.
  - intros w2.
    destruct (step_from_idle sqrt (Model_stop_simulation w)) as (Hst & Hflag & Hclock & Hth & Hsp);
      [left; reflexivity|].
    cbv zeta in Hst, Hflag, Hclock, Hth, Hsp.
    unfold w2. rewrite (Hresume _ Hst).
    set (w1 := Model_step_simulation sqrt (Model_stop_simulation w)) in *.
    assert (Hf2 : stop_simulation_flag (model (upd_model (set_sim_state RUNNING) w1)) = true).
    { change (stop_simulation_flag (model w1) = true). rewrite Hflag. reflexivity. }
    split; [reflexivity|]. split; [exact Hf2|].
    split; [exact Hclock|]. split; [exact Hth|]. split; [exact Hsp|].
    destruct fuel; cbn [Model_simulation_loop]; rewrite Hf2; reflexivity.
  - intros Hstopped w2.
    destruct (step_from_idle sqrt w) as (Hst & Hflag & _ & Hth & Hsp); [left; exact Hstopped|].
    cbv zeta in Hst, Hflag, Hth, Hsp.
    unfold w2. rewrite (Hresume _ Hst).
    split; [reflexivity|]. split; [exact Hflag|]. split; [exact Hth|exact Hsp].
Qed.

(** ** The built-in scenario *)

Lemma lookup_past {A} (l ext : list A) (i : nat) : (l ++ ext) !! (length l + i)%nat = ext !! i.
Proof.
  rewrite lookup_app_r by lia. f_equal. lia.
Qed.

Lemma alter_past {A} (f : A -> A) (l ext : list A) (i : nat) :
  alter f (length l + i)%nat (l ++ ext) = l ++ alter f i ext.
Proof.
  induction l as [|a l IH]; [reflexivity|]. simpl. f_equal. exact IH.
Qed.

Lemma alter_past_0 {A} (f : A -> A) (l ext : list A) :
  alter f (length l) (l ++ ext) = l ++ alter f 0%nat ext.
Proof. pose proof (alter_past f l ext 0) as H. rewrite Nat.add_0_r in H. exact H. Qed.

Lemma alter_past_1 {A} (f : A -> A) (l ext : list A) :
  alter f (S (length l)) (l ++ ext) = l ++ alter f 1%nat ext.
Proof. pose proof (alter_past f l ext 1) as H. rewrite Nat.add_1_r in H. exact H. Qed.

Lemma alter_past_2 {A} (f : A -> A) (l ext : list A) :
  alter f (S (S (length l))) (l ++ ext) = l ++ alter f 2%nat ext.
Proof.
  pose proof (alter_past f l ext 2) as H.
  replace (length l + 2)%nat with (S (S (length l))) in H by lia. exact H.
Qed.

Lemma lookup_past_0 {A} (l ext : list A) : (l ++ ext) !! length l = ext !! 0%nat.
Proof. pose proof (lookup_past l ext 0) as H. rewrite Nat.add_0_r in H. exact H. Qed.

Lemma lookup_past_1 {A} (l ext : list A) : (l ++ ext) !! S (length l) = ext !! 1%nat.
Proof. pose proof (lookup_past l ext 1) as H. rewrite Nat.add_1_r in H. exact H. Qed.

Lemma lookup_past_2 {A} (l ext : list A) : (l ++ ext) !! S (S (length l)) = ext !! 2%nat.
Proof.
  pose proof (lookup_past l ext 2) as H.
  replace (length l + 2)%nat with (S (S (length l))) in H by lia. exact H.
Qed.

Lemma world_ext (a b : World) :
  vehicle_heap a = vehicle_heap b -> lane_heap a = lane_heap b ->
  driver_heap a = driver_heap b -> route_heap a = route_heap b -> model a = model b ->
  a = b.
Proof. destruct a, b. simpl. intros -> -> -> -> ->. reflexivity. Qed.

Lemma set_left_lane_fields (w : World) (a b : ref) :
  let w' := Lane_set_left_lane a (Some b) w in
  vehicle_heap w' = vehicle_heap w /\ driver_heap w' = driver_heap w
  /\ route_heap w' = route_heap w /\ model w' = model w
  /\ lane_heap w' = alter (set_right (Some a)) b (alter (set_left (Some b)) a (lane_heap w)).
Proof. repeat split. Qed.

Lemma set_right_lane_fields (w : World) (a b : ref) :
  let w' := Lane_set_right_lane a (Some b) w in
  vehicle_heap w' = vehicle_heap w /\ driver_heap w' = driver_heap w
  /\ route_heap w' = route_heap w /\ model w' = model w
  /\ lane_heap w' = alter (set_left (Some a)) b (alter (set_right (Some b)) a (lane_heap w)).
Proof. repeat split. Qed.

(** The three lanes after the four linking calls. *)
Lemma scenario_network_built (w : World) :
  let l := length (lane_heap w) in
  Lane_set_left_lane (S (S l)) (Some (S l))
    (Lane_set_right_lane (S l) (Some (S (S l)))
       (Lane_set_left_lane (S l) (Some l)
          (Lane_set_right_lane l (Some (S l))
             (new_lane (Lane_init 2 LT_NORMAL 2000.0)
                (new_lane (Lane_init 1 LT_NORMAL 2000.0)
                   (new_lane (Lane_init 0 LT_NORMAL 2000.0) w))))))
  = scenario_network w.
Proof.
  intros l.
  set (w0 := new_lane _ (new_lane _ (new_lane _ w))).
  assert (H0 : vehicle_heap w0 = vehicle_heap w /\ driver_heap w0 = driver_heap w
               /\ route_heap w0 = route_heap w /\ model w0 = model w
               /\ lane_heap w0 = lane_heap w ++ [Lane_init 0 LT_NORMAL 2000.0;
                                                 Lane_init 1 LT_NORMAL 2000.0;
                                                 Lane_init 2 LT_NORMAL 2000.0]).
  { repeat split. unfold w0. cbn [new_lane lane_heap]. rewrite <- !app_assoc. reflexivity. }
  destruct H0 as (Hv0 & Hd0 & Hr0 & Hm0 & Hl0).
  destruct (set_right_lane_fields w0 l (S l)) as (Hv1 & Hd1 & Hr1 & Hm1 & Hl1).
  set (w1 := Lane_set_right_lane l (Some (S l)) w0) in *.
  destruct (set_left_lane_fields w1 (S l) l) as (Hv2 & Hd2 & Hr2 & Hm2 & Hl2).
  set (w2 := Lane_set_left_lane (S l) (Some l) w1) in *.
  destruct (set_right_lane_fields w2 (S l) (S (S l))) as (Hv3 & Hd3 & Hr3 & Hm3 & Hl3).
  set (w3 := Lane_set_right_lane (S l) (Some (S (S l))) w2) in *.
  destruct (set_left_lane_fields w3 (S (S l)) (S l)) as (Hv4 & Hd4 & Hr4 & Hm4 & Hl4).
  set (w4 := Lane_set_left_lane (S (S l)) (Some (S l)) w3) in *.
  apply world_ext.
  - rewrite Hv4, Hv3, Hv2, Hv1, Hv0. reflexivity.
  - rewrite Hl4, Hl3, Hl2, Hl1, Hl0. unfold l.
    rewrite alter_past_0, alter_past_1. cbn [alter list_alter].
    rewrite alter_past_1, alter_past_0. cbn [alter list_alter].
    rewrite alter_past_1, alter_past_2. cbn [alter list_alter].
    rewrite alter_past_2, alter_past_1. cbn [alter list_alter].
    reflexivity.
  - rewrite Hd4, Hd3, Hd2, Hd1, Hd0. reflexivity.
  - rewrite Hr4, Hr3, Hr2, Hr1, Hr0. reflexivity.
  - rewrite Hm4, Hm3, Hm2, Hm1, Hm0. reflexivity.
Qed.

(** The registries' invariant only looks at the two registries, the counters
    and the ids of the vehicle objects. *)
Lemma model_ok_transfer (w w' : World) :
  vehicles (model w') = vehicles (model w) ->
  drivers (model w') = drivers (model w) ->
  next_vehicle_id (model w') = next_vehicle_id (model w) ->
  next_driver_id (model w') = next_driver_id (model w) ->
  (forall r v, vehicle_heap w !! r = Some v ->
     exists v', vehicle_heap w' !! r = Some v' /\ veh_id v' = veh_id v) ->
  model_ok w -> model_ok w'.
Proof.
  intros Hv Hd Hnv Hnd Hh [(Hnodup & Hent & Hnodupd) [Hfv Hfd]].
  unfold model_ok, registry_ok, ids_fresh. rewrite Hv, Hd, Hnv, Hnd.
  split; [|split; assumption]. split; [exact Hnodup|]. split; [|exact Hnodupd].
  intros k r Hin. destruct (Hent _ _ Hin) as (v & Hlook & Hid).
  destruct (Hh _ _ Hlook) as (v' & Hlook' & Hid'). exists v'. split; [exact Hlook'|].
  rewrite Hid'. exact Hid.
Qed.

Lemma scenario_initialized (w : World) :
  let l := length (lane_heap w) in
  let wi := Model_initialize [l; S l; S (S l)] None (scenario_network w) in
  lane_heap wi = lane_heap (scenario_network w)
  /\ driver_heap wi = driver_heap w
  /\ route_heap wi = route_heap w
  /\ Forall2 cache_only (vehicle_heap w) (vehicle_heap wi)
  /\ model wi
     = set_stats (mkStats 0 0 0 0 0 0 0 0)
         (set_sim_state STOPPED
            (set_lanes (dict_set 2%Z (S (S l)) (dict_set 1%Z (S l)
                          (dict_set 0%Z l (lanes (model w))))) (model w))).
Proof.
  intros l wi. unfold wi, Model_initialize. cbn [fold_left].
  set (w2 := upd_model _ (upd_model _ (upd_model _ (scenario_network w)))).
  destruct (update_network_caches w2) as ((Hl & Hd & Hr & Hm & Hv) & _).
  cbn [upd_model lane_heap driver_heap route_heap vehicle_heap model].
  rewrite Hl, Hd, Hr, Hm.
  split; [reflexivity|]. split; [reflexivity|]. split; [reflexivity|].
  split; [exact Hv|].
  unfold w2. cbn [upd_model model]. unfold lane_attr.
  cbn [upd_model lane_heap scenario_network]. fold l. unfold l.
  rewrite lookup_past_0, lookup_past_1, lookup_past_2. reflexivity.
Qed.

Lemma scenario_routes (w : World) :
  let r := length (route_heap w) in
  Model_add_route (S (S r))
    (Model_add_route (S r)
       (Model_add_route r
          (new_route (Route_init 3 [2%Z])
             (new_route (Route_init 2 [1%Z])
                (new_route (Route_init 1 [0%Z]) w)))))
  = mkWorld (vehicle_heap w) (lane_heap w) (driver_heap w)
      (route_heap w ++ [Route_init 1 [0%Z]; Route_init 2 [1%Z]; Route_init 3 [2%Z]])
      (set_routes (dict_set 3%Z (S (S r)) (dict_set 2%Z (S r)
                     (dict_set 1%Z r (routes (model w))))) (model w)).
Proof.
  intros r. unfold Model_add_route, new_route.
  cbn [route_heap vehicle_heap lane_heap driver_heap model]. rewrite <- !app_assoc. cbn [app].
  unfold r. rewrite lookup_past_0. cbn [lookup list_lookup upd_model route_heap].
  rewrite lookup_past_1. cbn [lookup list_lookup upd_model route_heap].
  rewrite lookup_past_2. cbn [lookup list_lookup upd_model route_heap].
  reflexivity.
Qed.

Lemma length_new_lane (L : LaneObj) (w : World) :
  length (lane_heap (new_lane L w)) = S (length (lane_heap w)).
Proof. unfold new_lane. cbn [lane_heap]. rewrite length_app. simpl. lia. Qed.

Lemma length_new_route (R : RouteObj) (w : World) :
  length (route_heap (new_route R w)) = S (length (route_heap w)).
Proof. unfold new_route. cbn [route_heap]. rewrite length_app. simpl. lia. Qed.

(** The scenario as three [add_vehicle] calls on the store that holds its
    lanes and routes. *)
Lemma load_simple_scenario_stages (w : World) :
  let l := length (lane_heap w) in
  let wi := Model_initialize [l; S l; S (S l)] None (scenario_network w) in
  let r := length (route_heap wi) in
  let wr := mkWorld (vehicle_heap wi) (lane_heap wi) (driver_heap wi)
              (route_heap wi ++ [Route_init 1 [0%Z]; Route_init 2 [1%Z]; Route_init 3 [2%Z]])
              (set_routes (dict_set 3%Z (S (S r)) (dict_set 2%Z (S r)
                             (dict_set 1%Z r (routes (model wi))))) (model wi)) in
  load_simple_scenario w
  = snd (Model_add_vehicle 2 CAUTIOUS 200.0 (Some (S (S r)))
      (snd (Model_add_vehicle 1 AGGRESSIVE 150.0 (Some (S r))
        (snd (Model_add_vehicle 0 IDM 100.0 (Some r) wr))))).
Proof.
  intros l wi r wr. unfold load_simple_scenario. cbv zeta.
  rewrite !length_new_lane. fold l.
  pose proof (scenario_network_built w) as Hnet. cbv zeta in Hnet. fold l in Hnet.
  rewrite Hnet. fold wi.
  rewrite !length_new_route. fold r.
  pose proof (scenario_routes wi) as Hr. cbv zeta in Hr. fold r in Hr.
  rewrite Hr. reflexivity.
Qed.

(** X27. [load_simple_scenario] is no reset.  On any model whose registries
    are in order it creates three new lanes, linked side by side and registered
    under the ids [0], [1] and [2] (replacing lanes registered under these ids),
    and one vehicle on each at [100], [150] and [200]; the state is [STOPPED]
    and the statistics count three vehicles.  But every vehicle registered
    before is still registered, on its old lane object and unchanged except for
    its neighbour cache (which [initialize] refreshes), the new vehicles get the
    next three ids of the counter, which is not reset, and the lane objects that
    existed are as they were. *)
Theorem X27_simple_scenario_is_no_reset (w : World) :
  model_ok w ->
  let w' := load_simple_scenario w in
  let l := length (lane_heap w) in
  let v := length (vehicle_heap w) in
  let n := next_vehicle_id (model w) in
  (Model_get_lane_by_id w' 0 = Some l /\ Model_get_lane_by_id w' 1 = Some (S l)
   /\ Model_get_lane_by_id w' 2 = Some (S (S l)))
  /\ (Lane_get_left_lane w' l = None /\ Lane_get_right_lane w' l = Some (S l)
      /\ Lane_get_left_lane w' (S l) = Some l
      /\ Lane_get_right_lane w' (S l) = Some (S (S l))
      /\ Lane_get_left_lane w' (S (S l)) = Some (S l)
      /\ Lane_get_right_lane w' (S (S l)) = None)
  /\ (Lane_vehicles w' l = [v] /\ Lane_vehicles w' (S l) = [S v]
      /\ Lane_vehicles w' (S (S l)) = [S (S v)])
  /\ (Vehicle_get_x w' v = 100.0 /\ Vehicle_get_x w' (S v) = 150.0
      /\ Vehicle_get_x w' (S (S v)) = 200.0)
  /\ vehicles (model w')
     = vehicles (model w) ++ [(n, v); ((n + 1)%Z, S v); ((n + 2)%Z, S (S v))]
  /\ next_vehicle_id (model w') = (n + 3)%Z
  /\ (total_vehicles (stats (model w')) = 3%Z /\ active_vehicles (stats (model w')) = 3%Z
      /\ completed_vehicles (stats (model w')) = 0%Z
      /\ crashed_vehicles (stats (model w')) = 0%Z)
  /\ sim_state (model w') = STOPPED
  /\ (forall k u, vehicle_heap w !! k = Some u ->
        exists u', vehicle_heap w' !! k = Some u' /\ cache_only u u')
  /\ (forall k, (k < l)%nat -> lane_heap w' !! k = lane_heap w !! k).
Proof.
  intros Hok w' l v n.
  pose proof (load_simple_scenario_stages w) as Hst. cbv zeta in Hst. fold l in Hst.
  destruct (scenario_initialized w) as (Hli & Hdi & Hri & Hvi & Hmi).
  cbv zeta in Hli, Hdi, Hri, Hvi, Hmi. fold l in Hli, Hdi, Hri, Hvi, Hmi.
  set (wi := Model_initialize [l; S l; S (S l)] None (scenario_network w)) in *.
  set (r := length (route_heap wi)) in *.
  set (wr := mkWorld (vehicle_heap wi) (lane_heap wi) (driver_heap wi)
               (route_heap wi ++ [Route_init 1 [0%Z]; Route_init 2 [1%Z]; Route_init 3 [2%Z]])
               (set_routes (dict_set 3%Z (S (S r)) (dict_set 2%Z (S r)
                              (dict_set 1%Z r (routes (model wi))))) (model wi))) in *.
  (* the store before the vehicles are added *)
  assert (Hlen_v : length (vehicle_heap wr) = v).
  { change (length (vehicle_heap wi) = v). symmetry. apply (Forall2_length _ _ _ Hvi). }
  assert (Hveh_r : vehicles (model wr) = vehicles (model w)).
  { change (vehicles (model wi) = vehicles (model w)). rewrite Hmi. reflexivity. }
  assert (Hdrv_r : drivers (model wr) = drivers (model w)).
  { change (drivers (model wi) = drivers (model w)). rewrite Hmi. reflexivity. }
  assert (Hnv_r : next_vehicle_id (model wr) = n).
  { change (next_vehicle_id (model wi) = n). rewrite Hmi. reflexivity. }
  assert (Hnd_r : next_driver_id (model wr) = next_driver_id (model w)).
  { change (next_driver_id (model wi) = next_driver_id (model w)). rewrite Hmi. reflexivity. }
  assert (Hstats_r : stats (model wr) = mkStats 0 0 0 0 0 0 0 0).
  { change (stats (model wi) = mkStats 0 0 0 0 0 0 0 0). rewrite Hmi. reflexivity. }
  assert (Hstate_r : sim_state (model wr) = STOPPED).
  { change (sim_state (model wi) = STOPPED). rewrite Hmi. reflexivity. }
  assert (Hlanes_r : lanes (model wr)
                     = dict_set 2%Z (S (S l)) (dict_set 1%Z (S l)
                         (dict_set 0%Z l (lanes (model w))))).
  { change (lanes (model wi) = dict_set 2%Z (S (S l)) (dict_set 1%Z (S l)
                                 (dict_set 0%Z l (lanes (model w))))).
    rewrite Hmi. reflexivity. }
  assert (Hlh_r : lane_heap wr
                  = lane_heap w ++ [scenario_lane 0 None (Some (S l));
                                    scenario_lane 1 (Some l) (Some (S (S l)));
                                    scenario_lane 2 (Some (S l)) None]).
  { change (lane_heap wi = lane_heap w ++ [scenario_lane 0 None (Some (S l));
                                           scenario_lane 1 (Some l) (Some (S (S l)));
                                           scenario_lane 2 (Some (S l)) None]).
    rewrite Hli. reflexivity. }
  assert (Hbody_r : forall k u, vehicle_heap w !! k = Some u ->
                      exists u', vehicle_heap wr !! k = Some u' /\ cache_only u u').
  { intros k u Hu. exact (Forall2_lookup_l _ _ _ _ _ Hvi Hu). }
  assert (Hok_r : model_ok wr).
  { apply (model_ok_transfer w); try assumption.
    intros k u Hu. destruct (Hbody_r k u Hu) as (u' & Hu' & Hb).
    exists u'. split; [exact Hu'|]. apply (cache_only_same_body _ _ Hb). }
  assert (Hget0 : dict_get 0%Z (lanes (model wr)) = Some l).
  { rewrite Hlanes_r, !dict_get_set_other by discriminate. apply dict_get_set_same. }
  assert (Hget1 : dict_get 1%Z (lanes (model wr)) = Some (S l)).
  { rewrite Hlanes_r, dict_get_set_other by discriminate. apply dict_get_set_same. }
  assert (Hget2 : dict_get 2%Z (lanes (model wr)) = Some (S (S l))).
  { rewrite Hlanes_r. apply dict_get_set_same. }
  assert (Hlen_l : length (lane_heap wr) = S (S (S l))).
  { rewrite Hlh_r, length_app. simpl. unfold l. lia. }
  assert (Hl0 : lane_heap wr !! l = Some (scenario_lane 0 None (Some (S l)))).
  { rewrite Hlh_r. unfold l. rewrite lookup_past_0. reflexivity. }
  assert (Hl1 : lane_heap wr !! S l = Some (scenario_lane 1 (Some l) (Some (S (S l))))).
  { rewrite Hlh_r. unfold l. rewrite lookup_past_1. reflexivity. }
  assert (Hl2 : lane_heap wr !! S (S l) = Some (scenario_lane 2 (Some (S l)) None)).
  { rewrite Hlh_r. unfold l. rewrite lookup_past_2. reflexivity. }
  (* the three calls of add_vehicle *)
  pose proof (add_vehicle_effect wr 0 IDM 100.0 (Some r) l Hok_r Hget0) as E1.
  pose proof (add_vehicle_store wr 0 IDM 100.0 (Some r) l Hget0) as S1.
  pose proof (model_ok_add_vehicle wr 0 IDM 100.0 (Some r) Hok_r) as Hok1.
  cbv zeta in E1, S1.
  set (w1 := snd (Model_add_vehicle 0 IDM 100.0 (Some r) wr)) in *.
  destruct E1 as (Ev1 & _ & En1 & _ & Et1 & Ea1 & Ec1 & Ex1 & _).
  destruct S1 as (Sv1 & Sl1 & Sp1 & Ss1 & So1 & Se1 & _ & Sla1 & _ & Sst1).
  assert (Hget1' : dict_get 1%Z (lanes (model w1)) = Some (S l)) by (rewrite Sla1; exact Hget1).
  pose proof (add_vehicle_effect w1 1 AGGRESSIVE 150.0 (Some (S r)) (S l) Hok1 Hget1') as E2.
  pose proof (add_vehicle_store w1 1 AGGRESSIVE 150.0 (Some (S r)) (S l) Hget1') as S2.
  pose proof (model_ok_add_vehicle w1 1 AGGRESSIVE 150.0 (Some (S r)) Hok1) as Hok2.
  cbv zeta in E2, S2.
  set (w2 := snd (Model_add_vehicle 1 AGGRESSIVE 150.0 (Some (S r)) w1)) in *.
  destruct E2 as (Ev2 & _ & En2 & _ & Et2 & Ea2 & Ec2 & Ex2 & _).
  destruct S2 as (Sv2 & Sl2 & Sp2 & Ss2 & So2 & Se2 & _ & Sla2 & _ & Sst2).
  assert (Hget2' : dict_get 2%Z (lanes (model w2)) = Some (S (S l))).
  { rewrite Sla2, Sla1. exact Hget2. }
  pose proof (add_vehicle_effect w2 2 CAUTIOUS 200.0 (Some (S (S r))) (S (S l)) Hok2 Hget2')
    as E3.
  pose proof (add_vehicle_store w2 2 CAUTIOUS 200.0 (Some (S (S r))) (S (S l)) Hget2') as S3.
  cbv zeta in E3, S3.
  set (w3 := snd (Model_add_vehicle 2 CAUTIOUS 200.0 (Some (S (S r))) w2)) in *.
  destruct E3 as (Ev3 & _ & En3 & _ & Et3 & Ea3 & Ec3 & Ex3 & _).
  destruct S3 as (Sv3 & Sl3 & Sp3 & Ss3 & So3 & Se3 & _ & Sla3 & _ & Sst3).
  assert (Hw' : w' = w3) by exact Hst.
  rewrite Hlen_v in *. rewrite Sl1 in *. rewrite Sl2 in *.
  rewrite Hnv_r in *. rewrite En1 in *. rewrite En2 in *.
  (* lane lists of the three lanes in the intermediate stores *)
  assert (Hlist : forall (wa : World) (k : ref) (L : LaneObj),
            lane_heap wa !! k = Some L -> Lane_vehicles wa k = lane_vehicles L).
  { intros wa k L HL. unfold Lane_vehicles, lane_attr. rewrite HL. reflexivity. }
  assert (Hlen1 : length (lane_heap w1) = S (S (S l))).
  { rewrite <- Hlen_l. unfold statics in Ss1.
    rewrite <- (length_fmap lane_static (lane_heap w1)), Ss1, length_fmap. reflexivity. }
  assert (Hlen2 : length (lane_heap w2) = S (S (S l))).
  { rewrite <- Hlen1. unfold statics in Ss2.
    rewrite <- (length_fmap lane_static (lane_heap w2)), Ss2, length_fmap. reflexivity. }
  assert (Hres0 : Lane_vehicles w3 l = [v]).
  { unfold Lane_vehicles, lane_attr. rewrite So3 by lia. rewrite So2 by lia.
    apply Se1; [rewrite (Hlist _ _ _ Hl0); reflexivity | lia]. }
  assert (Hres1 : Lane_vehicles w3 (S l) = [S v]).
  { unfold Lane_vehicles, lane_attr. rewrite So3 by lia.
    apply Se2; [|lia]. unfold Lane_vehicles, lane_attr. rewrite So1 by lia.
    rewrite Hl1. reflexivity. }
  assert (Hres2 : Lane_vehicles w3 (S (S l)) = [S (S v)]).
  { apply Se3; [|lia]. unfold Lane_vehicles, lane_attr. rewrite So2, So1 by lia.
    rewrite Hl2. reflexivity. }
  assert (Hstat : statics w3 = statics wr) by (rewrite Ss3, Ss2, Ss1; reflexivity).
  assert (Hlinks : forall k L, lane_heap wr !! k = Some L ->
            Lane_get_left_lane w3 k = left_lane L /\ Lane_get_right_lane w3 k = right_lane L).
  { intros k L HL. destruct (lane_links_statics w3 wr k Hstat) as (-> & -> & _).
    unfold Lane_get_left_lane, Lane_get_right_lane, lane_attr. rewrite HL. split; reflexivity. }
  rewrite Hw'.
  split; [|split; [|split; [|split; [|split; [|split; [|split; [|split; [|split]]]]]]]].
  - unfold Model_get_lane_by_id. rewrite Sla3, Sla2, Sla1.
    split; [exact Hget0|]. split; [exact Hget1|exact Hget2].
  - destruct (Hlinks _ _ Hl0) as (-> & ->). destruct (Hlinks _ _ Hl1) as (-> & ->).
    destruct (Hlinks _ _ Hl2) as (-> & ->). repeat split.
  - split; [exact Hres0|]. split; [exact Hres1|exact Hres2].
  - unfold Vehicle_get_x, veh_attr.
    rewrite (Sp3 v) by lia. rewrite (Sp2 v) by lia. rewrite Sv1.
    rewrite (Sp3 (S v)) by lia. rewrite Sv2. rewrite Sv3. repeat split.
  - rewrite Ev3, Ev2, Ev1, Hveh_r. rewrite <- !app_assoc. cbn [app].
    replace (n + 1 + 1)%Z with (n + 2)%Z by lia. reflexivity.
  - rewrite En3. lia.
  - rewrite Et3, Et2, Et1, Ea3, Ea2, Ea1, Ec3, Ec2, Ec1, Ex3, Ex2, Ex1, Hstats_r.
    repeat split.
  - rewrite Sst3, Sst2, Sst1. exact Hstate_r.
  - intros k u Hu. destruct (Hbody_r k u Hu) as (u' & Hu' & Hb).
    exists u'. split; [|exact Hb].
    assert (Hk : (k < v)%nat) by (unfold v; apply lookup_lt_Some in Hu; exact Hu).
    rewrite Sp3, Sp2, Sp1 by lia. exact Hu'.
  - intros k Hk. rewrite So3, So2, So1 by lia. rewrite Hlh_r.
    apply lookup_app_l. exact Hk.
Qed.

(** * The theorems at concrete inputs *)

Lemma C2_witness :
  sorted_by_x (Lane_add_vehicle 0%nat 2%nat newcomer_world)
    (Lane_vehicles (Lane_add_vehicle 0%nat 2%nat newcomer_world) 0%nat)
  /\ Lane_add_vehicle 0%nat 0%nat newcomer_world = newcomer_world.
Proof.
  split.
  - refine (proj1 (proj1 (C2_add_vehicle_sorts newcomer_world 0%nat 2%nat) _)).
    vm_compute. intros H. repeat (apply elem_of_cons in H as [H|H]; [discriminate H|]).
    inversion H.
  - refine (proj2 (C2_add_vehicle_sorts newcomer_world 0%nat 0%nat) _).
    vm_compute. left.
Defined.

Lemma C3_witness :
  Vehicle_get_lane (Vehicle_move 0%nat 2 change_in_progress) 0%nat = 1%nat
  /\ count_occ Nat.eq_dec (Lane_vehicles (Vehicle_move 0%nat 2 change_in_progress) 0%nat) 0%nat
     = 0%nat
  /\ count_occ Nat.eq_dec (Lane_vehicles (Vehicle_move 0%nat 2 change_in_progress) 1%nat) 0%nat
     = 1%nat.
Proof.
  assert (Hv : exists v, vehicle_heap change_in_progress !! 0%nat = Some v
                         /\ crashed (veh_state v) = false
                         /\ ~ dy v == 0
                         /\ 1 <= lane_change_progress (veh_state v) + dy v * 2
                         /\ lc_direction v = Some LEFT
                         /\ veh_lane v = 0%nat).
  { eexists. split; [vm_compute; reflexivity|]. split; [reflexivity|].
    split; [vm_compute; discriminate|]. split; [vm_compute; discriminate|].
    split; reflexivity. }
  destruct Hv as (v & Hv & Hc & Hdy & Hp & Hd & Hl).
  pose proof (C3_lane_change_completion change_in_progress 0%nat 2 v LEFT Hv Hc Hdy Hp Hd) as H.
  cbv zeta in H. rewrite Hl in H. destruct H as (_ & H & _).
  apply (H 1%nat).
  - reflexivity.
  - discriminate.
  - vm_compute. lia.
  - reflexivity.
  - vm_compute. intros Hin. inversion Hin.
Defined.

Lemma C4_witness :
  dict_get 1%Z (vehicles (model leaving_world)) = Some 0%nat
  /\ dict_get 1%Z (vehicles (model (Model_update_simulation sqrt_approx 0.1 leaving_world)))
     = None.
Proof.
  split; [reflexivity|].
  pose proof (C4_exit_removes_exactly sqrt_approx 0.1 leaving_world 1%Z 0%nat) as H.
  cbv zeta in H. destruct H as (_ & H & _).
  - apply registry_okb_ok. vm_compute. reflexivity.
  - reflexivity.
  - apply H. vm_compute. reflexivity.
Defined.

Lemma C5_witness :
  0 <= Vehicle_get_velocity (Vehicle_move 0%nat 0.1 overtaking_world) 0%nat
  /\ Vehicle_get_x overtaking_world 0%nat
     <= Vehicle_get_x (Vehicle_move 0%nat 0.1 overtaking_world) 0%nat.
Proof.
  refine (proj1 (C5_move_clamps_crash_freezes overtaking_world 0%nat 0.1 _ _ _)).
  - vm_compute. discriminate.
  - vm_compute. lia.
  - intros H. vm_compute in H. discriminate H.
Defined.

Lemma C7_witness :
  current_time (model (Model_step_simulation sqrt_approx overtaking_world))
  = current_time (model overtaking_world) + time_step (settings (model overtaking_world))
  /\ Model_step_simulation sqrt_approx running_world = running_world
  /\ Model_start_simulation 5 running_world = running_world.
Proof.
  split.
  - refine (proj1 (proj2 (proj1 (C7_step_and_start sqrt_approx 0 overtaking_world) _))).
    left. reflexivity.
  - refine (proj2 (C7_step_and_start sqrt_approx 5 running_world) _). reflexivity.
Defined.

Lemma C8_witness :
  Model_add_vehicle 99 IDM 0 None one_lane_world = (None, one_lane_world)
  /\ fst (Model_add_vehicle 7 IDM 0 None one_lane_world) = Some 0%nat
  /\ Model_get_vehicle_by_id (snd (Model_add_vehicle 7 IDM 0 None one_lane_world)) 1
     = Some 0%nat
  /\ Vehicle_get_x (snd (Model_add_vehicle 7 IDM 0 None one_lane_world)) 0%nat = 0
  /\ Lane_vehicles (snd (Model_add_vehicle 7 IDM 0 None one_lane_world)) 0%nat = [0%nat].
Proof.
  split.
  - refine (proj1 (C8_add_vehicle_build_then_insert one_lane_world 99 IDM 0 None) _).
    reflexivity.
  - pose proof (proj2 (C8_add_vehicle_build_then_insert one_lane_world 7 IDM 0 None) 0%nat) as H.
    cbv zeta in H. destruct H as (H & _ & _ & _ & _ & Hv & _ & (Hreg & _) & _);
      [reflexivity|].
    split; [rewrite H; reflexivity|]. split; [exact Hreg|].
    change (length (vehicle_heap one_lane_world)) with 0%nat in Hv.
    split; [unfold Vehicle_get_x, veh_attr; rewrite Hv; reflexivity|].
    vm_compute. reflexivity.
Defined.


Lemma busy_world_built : built_by_interface sqrt_approx (busy_world sqrt_approx).
Proof.
  unfold busy_world.
  apply built_step, built_remove_vehicle, built_add_vehicle, built_add_vehicle,
    built_add_lane, built_new_lane, built_empty.
Qed.

Lemma X4_witness :
  exists d, driver_heap (busy_world sqrt_approx) !! 1%nat = Some d /\ factory_made d.
Proof.
  assert (Hd : exists d, driver_heap (busy_world sqrt_approx) !! 1%nat = Some d).
  { eexists. vm_compute. reflexivity. }
  destruct Hd as [d Hd]. exists d. split; [exact Hd|].
  exact (X4_factory_parameters sqrt_approx (busy_world sqrt_approx) 1%nat d
           busy_world_built Hd).
Defined.

Lemma X6_witness :
  Vehicle_get_vehicle (Lane_update_vehicle_surroundings 0%nat two_on_a_lane) 0%nat (KEnc FRONT)
  = Some 1%nat
  /\ Vehicle_get_vehicle (Lane_update_vehicle_surroundings 0%nat two_on_a_lane) 1%nat (KEnc BACK)
     = Some 0%nat.
Proof.
  split.
  - pose proof (X6_surroundings_refreshed two_on_a_lane 0%nat 0%nat) as H.
    cbv zeta in H. destruct H as (_ & H & _).
    + vm_compute. left. reflexivity.
    + vm_compute. lia.
    + rewrite H. vm_compute. reflexivity.
  - pose proof (X6_surroundings_refreshed two_on_a_lane 0%nat 1%nat) as H.
    cbv zeta in H. destruct H as (_ & _ & H & _).
    + vm_compute. right. left. reflexivity.
    + vm_compute. lia.
    + rewrite H. vm_compute. reflexivity.
Defined.

Lemma X8_witness :
  Lane_get_left_lane (Lane_set_left_lane 0%nat (Some 2%nat) three_lanes) 0%nat = Some 2%nat
  /\ Lane_get_right_lane (Lane_set_left_lane 0%nat (Some 2%nat) three_lanes) 2%nat = Some 0%nat.
Proof.
  refine (proj1 (X8_lane_links_mutual three_lanes 0%nat 2%nat _ _ _)).
  - vm_compute. lia.
  - vm_compute. lia.
  - discriminate.
Defined.

Lemma X9_witness :
  Lane_get_left_lane three_lanes 0%nat = Some 1%nat
  /\ Lane_get_right_lane (Lane_set_left_lane 0%nat (Some 2%nat) three_lanes) 1%nat = Some 0%nat
  /\ Lane_get_left_lane (Lane_set_left_lane 0%nat (Some 2%nat) three_lanes) 0%nat = Some 2%nat.
Proof.
  split; [reflexivity|].
  pose proof (X9_relink_leaves_back_link three_lanes 0%nat (Some 2%nat)) as H.
  cbv zeta in H. destruct H as (_ & _ & _ & _ & H).
  apply (H 1%nat).
  - reflexivity.
  - discriminate.
  - reflexivity.
  - vm_compute. lia.
  - discriminate.
Defined.

Lemma X12_witness :
  Lane_vehicles (Lane_remove_vehicle 0%nat 2%nat (Lane_add_vehicle 0%nat 2%nat newcomer_world))
    0%nat
  = Lane_vehicles newcomer_world 0%nat
  /\ Vehicle_get_lane
       (Lane_remove_vehicle 0%nat 2%nat (Lane_add_vehicle 0%nat 2%nat newcomer_world)) 2%nat
     = 0%nat.
Proof.
  pose proof (X12_lane_add_then_remove newcomer_world 0%nat 2%nat) as H.
  cbv zeta in H. destruct H as (_ & Hsorted & _ & Hlane).
  - vm_compute. lia.
  - vm_compute. intros Hin. repeat (apply elem_of_cons in Hin as [Hin|Hin]; [discriminate Hin|]).
    inversion Hin.
  - split.
    + apply Hsorted. vm_compute. repeat constructor; discriminate.
    + apply Hlane. vm_compute. lia.
Defined.

Lemma X13_witness :
  vehicle_heap (Model_update_simulation sqrt_approx 0.1 overtaking_world) !! 0%nat
  = vehicle_heap (Vehicle_move 0%nat 0.1 (before_integration sqrt_approx 0.1 overtaking_world))
      !! 0%nat.
Proof.
  pose proof (X13_tick_moves_registered_once sqrt_approx 0.1 overtaking_world 0%nat) as H.
  cbv zeta in H. destruct H as (_ & _ & H & _).
  - apply registry_okb_ok. vm_compute. reflexivity.
  - apply H. vm_compute. left. reflexivity.
Defined.

Lemma X15_witness :
  dict_get 1%Z (vehicles (model (ticks sqrt_approx 0.1 5 wreck_world))) = Some 0%nat
  /\ Vehicle_get_x (ticks sqrt_approx 0.1 5 wreck_world) 0%nat = Vehicle_get_x wreck_world 0%nat.
Proof.
  pose proof (X15_crashed_vehicle_stays sqrt_approx 0.1 wreck_world 1%Z 0%nat 5) as H.
  cbv zeta in H. destruct H as (H1 & _ & _ & H2 & _).
  - apply registry_okb_ok. vm_compute. reflexivity.
  - reflexivity.
  - reflexivity.
  - reflexivity.
  - split; assumption.
Defined.

Lemma X16_witness :
  dict_get 1%Z (vehicles (model (ticks sqrt_approx 0.1 3 two_in_a_row))) = Some 0%nat
  /\ Vehicle_get_lane (ticks sqrt_approx 0.1 3 two_in_a_row) 0%nat = 0%nat
  /\ Lane_length two_in_a_row 0%nat < Vehicle_get_x (ticks sqrt_approx 0.1 3 two_in_a_row) 0%nat.
Proof.
  pose proof (X16_no_handover_downstream sqrt_approx 0.1 two_in_a_row 1%Z 0%nat 3) as H.
  cbv zeta in H. destruct H as (H1 & H2 & _).
  - apply registry_okb_ok. vm_compute. reflexivity.
  - reflexivity.
  - vm_compute. discriminate.
  - reflexivity.
  - reflexivity.
  - split; [exact H1|]. split; [exact H2|]. vm_compute. reflexivity.
Defined.

Lemma X17_witness : accounting_ok (busy_world sqrt_approx).
Proof. apply (X17_accounts_add_up sqrt_approx). apply busy_world_built. Defined.

Lemma X18_witness :
  Model_simulation_loop sqrt_approx (fun _ => true) 3 running_world
  = LoopRunning (ticks sqrt_approx (time_step (settings (model running_world))) 3 running_world)
  /\ Model_simulation_loop sqrt_approx (fun _ => false) 1 running_world
     = LoopRaised (Model_update_simulation sqrt_approx
                     (time_step (settings (model running_world))) running_world).
Proof.
  split.
  - pose proof (X18_worker_loop_outcomes sqrt_approx (fun _ => true) 3 running_world) as H.
    cbv zeta in H. destruct H as (H & _). apply H.
    + reflexivity.
    + reflexivity.
    + vm_compute. discriminate.
    + right. reflexivity.
  - pose proof (X18_worker_loop_outcomes sqrt_approx (fun _ => false) 0 running_world) as H.
    cbv zeta in H. destruct H as (_ & H & _). apply H.
    + reflexivity.
    + reflexivity.
    + right. split; [vm_compute; reflexivity|reflexivity].
Defined.

Lemma X22_witness :
  Model_get_lane_by_id (Model_remove_lane 1 three_vehicles) 1 = None
  /\ Model_get_vehicle_by_id (Model_remove_lane 1 three_vehicles) 1 = None
  /\ Model_get_vehicle_by_id (Model_remove_lane 1 three_vehicles) 2 = None
  /\ Model_get_vehicle_by_id (Model_remove_lane 1 three_vehicles) 3 = Some 2%nat.
Proof.
  pose proof (X22_remove_lane three_vehicles 1) as H.
  cbv zeta in H. destruct H as (_ & H).
  - apply registry_okb_ok. vm_compute. reflexivity.
  - vm_compute. repeat constructor; intros Hin;
      repeat (apply elem_of_cons in Hin as [Hin|Hin]; [discriminate Hin|]); inversion Hin.
  - destruct (H 0%nat eq_refl) as (H1 & _ & Hgone & Hkept & _).
    split; [exact H1|]. split; [|split].
    + apply Hgone. vm_compute. left. reflexivity.
    + apply Hgone. vm_compute. right. left. reflexivity.
    + rewrite Hkept; [reflexivity|].
      vm_compute. intros [Hin|[Hin|[]]]; discriminate Hin.
Defined.

Lemma X23_witness :
  vehicles (model (Model_remove_vehicle 1 (snd (Model_add_vehicle 7 IDM 0 None one_lane_world))))
  = vehicles (model one_lane_world)
  /\ next_vehicle_id
       (model (Model_remove_vehicle 1 (snd (Model_add_vehicle 7 IDM 0 None one_lane_world))))
     = 2%Z.
Proof.
  pose proof (X23_add_then_remove_vehicle one_lane_world 7 IDM 0 None 0%nat) as H.
  cbv zeta in H. destruct H as (_ & _ & _ & _ & H1 & _ & H2 & _).
  - split; [apply registry_okb_ok; vm_compute; reflexivity|].
    split; intros k Hk; vm_compute in Hk; contradiction.
  - reflexivity.
  - split; [exact H1|exact H2].
Defined.

Lemma model_ok_two_on_a_lane : model_ok two_on_a_lane.
Proof.
  unfold two_on_a_lane. apply model_ok_add_vehicle, model_ok_add_vehicle.
  split; [apply registry_okb_ok; vm_compute; reflexivity|].
  split; intros k Hk; vm_compute in Hk; contradiction.
Qed.

Lemma X27_witness :
  vehicles (model (load_simple_scenario two_on_a_lane))
  = [(1%Z, 0%nat); (2%Z, 1%nat); (3%Z, 2%nat); (4%Z, 3%nat); (5%Z, 4%nat)]
  /\ active_vehicles (stats (model (load_simple_scenario two_on_a_lane))) = 3%Z
  /\ Vehicle_get_lane (load_simple_scenario two_on_a_lane) 0%nat = 0%nat
  /\ Model_get_lane_by_id (load_simple_scenario two_on_a_lane) 0 = Some 1%nat.
Proof.
  pose proof (X27_simple_scenario_is_no_reset two_on_a_lane model_ok_two_on_a_lane) as H.
  cbv zeta in H.
  destruct H as ((Hlane & _) & _ & _ & _ & Hreg & _ & (_ & Hact & _) & _ & Hold & _).
  split; [rewrite Hreg; vm_compute; reflexivity|]. split; [exact Hact|].
  split; [|rewrite Hlane; vm_compute; reflexivity].
  assert (Hu : exists u, vehicle_heap two_on_a_lane !! 0%nat = Some u /\ veh_lane u = 0%nat).
  { eexists. split; [vm_compute; reflexivity|reflexivity]. }
  destruct Hu as (u & Hu & Hul).
  destruct (Hold 0%nat u Hu) as (u' & Hu' & Hb).
  unfold Vehicle_get_lane, veh_attr. rewrite Hu'.
  destruct (cache_only_same_body _ _ Hb) as (_ & -> & _). exact Hul.
Defined.
